(* ===== verification/_CoqProject ===== *)
-Q . S2P
Prelude.v
Primitives.v
Text.v
Enums.v
Messages.v
Codec.v
CodecMessages.v
MessageCodec.v
DecodeErrors.v
BookSpec.v
L2Book.v
L3Book.v
BookManager.v
Conformance.v
Ohlcv.v
BookTypes.v
SeqStore.v
Postgres.v
Redis.v
MoldCodec.v
MoldReceiver.v
MoldStore.v
RequestServer.v
MoldPublisher.v
MoldStream.v
FeedToBooks.v
GapRecovery.v
Framing.v
TcpCodec.v
SoupCodec.v
Replay.v
SoupSession.v
Heartbeat.v
Sources.v
Kafka.v
SoupServer.v
SoupServing.v
Resilient.v
SoupEndToEnd.v
Compressed.v
CompressedResilient.v
TcpServer.v
Client.v
Demo.v
SoupDriver.v
MoldDriver.v
ProtocolTests.v
BookTests.v
MoldTests.v
SoupTests.v
ServerTests.v
SourceTests.v
