(* ===== verification/Prelude.v ===== *)
(** A verification of itch-rs: the NASDAQ ITCH 5.0 message codec, the order
    books built from it, and the transports that carry it.

    * The program

    - [crates/itch-protocol]: the primitive types, the closed enums, the twenty
      message structs and the binary codec.
    - [crates/itch-book]: a price-level book (L2) and a per-order book with FIFO
      queues (L3) per symbol, the router [BookManager] that feeds both, and the
      OHLCV accumulator.
    - [crates/itch-mold]: MoldUDP64 packets over multicast UDP, with a receiver
      that reorders, a publisher, a retransmission cache and gap recovery.
    - [crates/itch-soup]: SoupBinTCP packets over TCP, with login, heartbeats,
      reconnection and a server.
    - [crates/itch-tcp]: length-prefixed messages over TCP.
      [crates/itch-compressed]: zstd inside SoupBinTCP.
      [crates/itch-replay]: capture files.
    - sources, stores, binaries and a conformance kit around them.

    A transport turns bytes into messages with the codec; the books consume the
    messages.  The books do not see bytes and the transports do not see books.

    * The files, in order

    - [Prelude] (this file): [result] and the [let?] notation for [?], the type
      [mut] of functions that take [&mut self], machine integers as [Z] with
      their overflow behaviour written out, big-endian bytes, slices, ordered
      iteration over a [BTreeMap], and the automation shared by the rest.
    - [Primitives], [Enums], [Messages]: [primitives.rs], [enums.rs] with
      [error.rs], [messages.rs].  [Text]: the decimal texts of [format!].  One
      module per Rust type, the source's field and variant names, [wf] for the
      ranges that the Rust types give.
    - [Codec], [CodecMessages], [MessageCodec]: [codec.rs].  [Codec] has the
      byte helpers and the traits, and states the contract [BodyCodec] of the
      codec of one message kind; [CodecMessages] has the forty body functions
      with the source's literal offsets and proves the contract for each kind;
      [MessageCodec] has [Message::encode] and [Message::decode] and proves the
      theorems about whole messages against the contract.  [DecodeErrors] has a
      table of the layouts with their coded fields, and reads off it how decoding
      any bytes fails.
    - [BookSpec]: the abstract order book, a map of resting orders, with the
      class [BookRefines] that an implementation has to satisfy.  [L2Book]
      ([book.rs]) and [L3Book] ([l3.rs]) are the implementations,
      [BookManager] ([manager.rs]) their router, [Ohlcv] ([ohlcv.rs]) the
      accumulator.  [BookTypes]: the ranges of the fields of both books.
    - [MoldCodec] ([itch-mold/src/codec.rs], [error.rs], [event.rs]),
      [MoldReceiver] ([receiver.rs], the state machine [ReceiverState]),
      [MoldStore] ([request_server.rs]: the retransmission cache and both ends of
      its request protocol), [RequestServer] (its accept loop and connections, a
      transition system), [MoldPublisher] ([publisher.rs]), [MoldStream]
      (the rest of [receiver.rs]: polling, the silence timer and the end of the
      session, with the path from the publisher over a lossy network to the
      client) and [GapRecovery] ([gap_recovery.rs]).  [FeedToBooks] puts the
      publisher, the network, the stream and the [BookManager] of a subscriber
      together.
    - [Framing]: the contract [Framing] of a length-prefixed stream decoder and
      the reader loop over it; [TcpCodec] ([itch-tcp/src/lib.rs]) and
      [SoupCodec] ([itch-soup/src/lib.rs]) implement it.
    - [Replay] ([itch-replay/src/lib.rs]): the capture-file iterator.
    - [Conformance] ([itch-conformance/src/vectors.rs], [enum_vectors.rs],
      [itch-source/src/synthetic.rs]): the published byte vectors, enum tables
      and the reference session, checked against the codec and the books.
    - [SeqStore] ([itch-source/src]: [source.rs], [seqstore.rs], [policy.rs],
      [testing.rs], the ring and null stores and the warm-up policy under
      [impls]): the traits as classes, [SeqStore.Contract] being what the servers
      rely on, its instance for the ring, and the contract test of the crate.
      [Sources] has the rest of [impls]: channel, iterator, pacing, tee, merge.
    - [Postgres], [Redis], [Kafka] ([itch-source-postgres], [itch-source-redis],
      [itch-source-kafka]): the stores and the source on external services.  A
      service is a class with the commands that the adapter issues, for the two
      stores with their documented effect; each file has an instance of it.
    - [SoupSession] ([itch-soup/src/connection.rs]): login and the stream of a
      connection.  [Heartbeat] ([heartbeat.rs]): both heartbeat tasks, over the
      interval of the runtime.  [SoupServer] ([server.rs]): the server as a
      transition system, one step per point at which its tasks can be
      interleaved, and its invariant; [SoupServing] has the theorems about its
      runs.  [Resilient] ([resilient.rs]): the reconnecting client.
      [SoupEndToEnd] puts the client and the server processes together that its
      attempts reach.
    - [Compressed], [CompressedResilient] ([itch-compressed/src/lib.rs]): the
      compressed connection and its reconnecting client.
    - [TcpServer] ([itch-tcp/src/server.rs]): the plain TCP publisher, modelled
      like [SoupServer].
    - [Client] ([itch-client/src/main.rs]) and [Demo] ([itch-server/src/main.rs]):
      the two programs, the first over the documented stream of [Framed], the
      second with the plain TCP publisher of [TcpServer].
    - [SoupDriver], [MoldDriver] ([itch-conformance/src/soup.rs], [mold.rs]): the
      scenarios of the conformance kit, against whatever a peer sends and when.
    - [ProtocolTests], [BookTests], [MoldTests], [SoupTests], [ServerTests],
      [SourceTests]: the unit tests of the crates as boolean functions under the
      names that they have in the source, run on the definitions of the other
      files.  They are the check that the model is the program: whoever changes
      one of the two runs the same tests on both.

    * What the theorems show

    - Codec: encoding and decoding are inverse in both directions, on every
      message and every buffer; decoding fails with an error if and only if the
      table of layouts says so, down to the first bad byte; a short buffer is left
      untouched; no encoding is a prefix of another.  The enum tables are bijections, text fields are read back.
      The codec agrees with every published vector.
    - Books: the L2 and the L3 book follow the order map along any feed that
      does not reuse live references and adds positive share counts (and, for the
      L3 book and where the two are compared, causes no queue violation), the L2
      levels are the exact sums, best
      prices and queue positions are what their names say, the two books agree,
      also inside the manager, which keeps symbols apart; every operation keeps
      the fields of the books in the ranges of their types; errors leave the L2
      book unchanged; a bar summarises the trades it was fed.
    - MoldUDP64: packets are encoded and decoded exactly; whatever packets of
      one publisher arrive in whatever order, the receiver emits its messages in
      sequence, each once; with one block per packet it holds nothing back.
      The publisher, if its sends succeed, sends each message once, numbered
      without gaps, and over any network that drops, repeats and reorders its
      datagrams a client that is configured with its start number gets a prefix of
      what was published, and all of it when nothing is lost.  The
      cache finds every run of frames it holds, and a retransmission arrives as
      it was cached.  A gap that a reachable server has cached is recovered, and
      frames of the stream that recovery brings never disturb the order.  The books of a multicast subscriber are
      at every time those of a prefix of the published feed, and those of the whole
      feed when all of it has arrived.  The request server answers each request
      from the cache, whatever other connections do.  A poll ends, with one
      exception.
    - Streams: however TCP cuts the bytes, each frame gives exactly one result,
      so a bad frame costs one error and no more; what is sent is what is read.
    - Captures: both formats are replayed message by message, and a file that
      breaks off gives its whole messages and one error at its end.
    - SoupBinTCP: a login succeeds exactly when the server accepts it for the
      session asked for; a session gives one item per packet, and what a server
      writes is what the client reads.  In every interleaving of the server's
      tasks a subscriber is sent the warm-up and then consecutive messages from
      its resume number, without a gap as long as the store retains what is
      replayed and with at most one otherwise (if the server does not start above
      the next number of its store), and by the moves of its own task alone it can
      always catch up.  The
      resilient client delivers consecutive messages, each once, over any number
      of connections to servers that keep their numbering, reconnects within its
      bounds and gives up where it says.  The servers do keep their numbering: the
      client and any server processes without a warm-up together, in every
      interleaving of their tasks in which replays find what they ask for, and with
      connections cut anywhere, deliver consecutive messages, each once, and the
      client catches up with what the store still has.  A peer that sends its
      heartbeats in time is not reported dead, and one that falls silent is.
    - TCP publisher: what is broadcast was stored, and a subscriber is sent the
      warm-up and consecutive messages.
    - Compression: payloads are decompressed up to the bound exactly, messages
      survive the round trip, errors cost at most the payload they are in.
    - Sources: the ring serves the most recent messages, the store-backed warm-up
      sends all of them; pacing delays and nothing else, merging sorts, a tee
      copies.  The PostgreSQL store gives back every message that was appended,
      also after a restart, the Redis store those in its window, and the Kafka
      source gives one item for each record that its consumer hands out.
    - Programs: the client prints each message of a feed, in order, up to the End
      of Messages or the first frame that does not decode; of the demonstration
      server it prints the run of the reference session that it was sent, and its
      exit code says whether the run is complete.
    - Drivers: the scenarios that drain messages pass only if the messages came,
      and do pass if they come in time.
    - Unit tests: all tests that are translated pass ([*_tests_pass]).
    - Some theorems record behaviour that the code does not intend:
      [MoldReceiver.overlap_wedges_receiver] (a retransmission that overlaps
      buffered blocks stops the buffer from being drained),
      [MoldStream.silence_spins] (the exception: a second silence makes the poll
      a busy loop),
      [L2Book.L2_duplicate_ref_phantom] (adding a live reference again leaves
      shares on the old level), [L3Book.fifo_violation_leaves_empty_order]
      (an execution out of queue order empties the order but keeps it),
      [SoupServing.no_end_of_session_before_return] (subscribers and server wait
      for each other until the grace runs out), [SoupServing.client_position]
      (warm-up messages are counted as sequenced data by the client),
      [SoupServing.server_sends_one_jump] (an evicted resume number skips what is
      still stored), [Resilient.bad_frame_delivers_twice] (a bad frame leaves the
      client one number behind), [CompressedResume.compressed_resume] (a
      compressed client counts messages where the protocol counts packets),
      [Postgres.postgres_range_overflow] (a run that ends above the range of [i64]
      is refused),
      [Postgres.postgres_conflict_ignored] (a number stored twice keeps its first
      message), [Redis.redis_latest_stalls] (from 2^53 on the script
      compares doubles),
      [Client.client_ends_at_bad_frame] (the client stops where the stream could
      go on), [Demo.demo_late_client] (a client that connects late sees nothing of
      what was sent) and [SoupDriver.soup_driver_blind],
      [MoldDriver.mold_driver_blind] (scenarios that pass against silent peers).

    * Bounds and fuel

    Integer arithmetic follows a release build: [+] on [u64] wraps, the
    [saturating_] and [checked_] operations do what they say.  [usize] has 64
    bits.  Loops that are not structural carry fuel: [flush_loop] the number of
    buffered blocks ([flush_loop_fuel] shows that more changes nothing), the
    reader loop [drain] one more than the bytes buffered ([drain_fuel]), [fill]
    one read per byte ([fill_supplies]), [digits_loop] the twenty digits of a
    [u64], the search [bs_loop] the length of the slice ([bs_loop_spec]),
    [MoldStream.poll_loop] one turn per reading and three more
    ([poll_loop_settles]), the [next_loop] of the resilient clients one turn per
    attempt left and two more ([next_loop_fuel]), [write_loop] a byte per turn
    ([write_loop_spec]), [decode_all] and [items_fuel] the length of the buffer
    ([items_fuel_enough]), [poll_all] one poll per item and one more
    ([poll_all_packets], [poll_all_todo]), the paged scan of the Redis store as
    many pages as a full scan has, [MoldDriver.wait] three turns per datagram and
    five more, since the silence timer fires at most twice between two datagrams;
    the loops of the MoldUDP64 driver get the number of items from outside, and the
    theorem that a scenario passes says how many are enough.  The theorems about
    books bound the number of resting orders by [max_orders] (so that a level sum
    fits a [u64]) and the feed by 2^64 messages (so that the arrival counter does not wrap);
    those about sequence numbers keep them below [u64::MAX].

    * What is not modelled

    Logging, [Display] texts and [Debug] output are left out, except for what the
    programs print to their user; so are the [f64] price conversions and the
    parsing of command lines.  Sockets, clocks, the random generator, zstd and the
    heap of the standard library are inputs or parameters of the operations that
    use them; a broadcast channel is a log in which receivers have positions, and
    may report lagging at any time.  PostgreSQL, Redis, the [Framed] of tokio-util
    and the [Interval] of tokio are parameters with their documented behaviour, the
    Kafka consumer is one of which nothing is assumed.  Functions that only call [connect], [bind] or [accept] of a socket
    and wrap the result are part of the step that uses them.  The facade crates
    only re-export.  Of the unit tests, those that ask the compiler whether a type
    has a trait, those of the command line parser and of the [f64] conversion, and
    those without an assertion have no counterpart; integration tests, benches,
    fuzz targets and examples are not translated. *)

From stdpp Require Export base gmap list sorting numbers strings.
From Stdlib Require Export ZArith Lia Ascii.
#[global] Open Scope Z_scope.

(** ** Results and the question mark *)

(** [core::result::Result]. *)
Inductive result (A E : Type) : Type :=
| Ok (a : A)
| Err (e : E).
Arguments Ok {A E} a.
Arguments Err {A E} e.

#[global] Instance result_eq_dec `{EqDecision A, EqDecision E} : EqDecision (result A E).
Proof. solve_decision. Defined.

Lemma bind_ok {A B E} (r : result A E) (a : A) (k : A → result B E) (res : result B E) :
  r = Ok a → k a = res → match r with Ok x => k x | Err e => Err e end = res.
Proof. by intros -> <-. Qed.

Definition is_ok {A E} (r : result A E) : bool := match r with Ok _ => true | Err _ => false end.

Declare Scope rust_scope.
Delimit Scope rust_scope with rust.
#[global] Open Scope rust_scope.

(** [let? x := r in k] is Rust's [let x = r?; k]. *)
Notation "'let?' x ':=' r 'in' k" :=
  (match r with Ok x => k | Err e => Err e end)
  (at level 10, x pattern, r at level 100, k at level 200) : rust_scope.

(** [b@"c"] is Rust's byte literal [b'c']. *)
Notation "'b@' c" :=
  (ltac:(let x := eval vm_compute in (Z.of_N (Ascii.N_of_ascii c%char)) in exact x))
  (at level 1, c at level 0, only parsing) : rust_scope.

(** A function [fn f(&mut self, ..) -> Result<A, E>] is a state transformer
    that returns the new state also when it fails. *)
Definition mut (S A E : Type) : Type := S → S * result A E.

Definition and_then {S E A} (m : mut S unit E) (k : mut S A E) : mut S A E :=
  λ s, let '(s', r) := m s in
       match r with Ok _ => k s' | Err e => (s', Err e) end.
Notation "m ;;? k" := (and_then m k) (at level 100, right associativity) : rust_scope.

Definition ok {S E} : mut S unit E := λ s, (s, Ok tt).

(** ** Machine integers *)

(** A [w]-bit unsigned integer is a [Z] in this range. *)
Definition in_width (w x : Z) : Prop := 0 ≤ x < 2 ^ w.
#[global] Instance in_width_dec w x : Decision (in_width w x).
Proof. unfold in_width. apply _. Defined.
Abbreviation is_u8 := (in_width 8).
Abbreviation is_u16 := (in_width 16).
Abbreviation is_u32 := (in_width 32).
Abbreviation is_u48 := (in_width 48).
Abbreviation is_u64 := (in_width 64).

Definition u32_max : Z := 2 ^ 32 - 1.
Definition u64_max : Z := 2 ^ 64 - 1.
(** [usize] on a 64-bit target. *)
Definition usize_max : Z := 2 ^ 64 - 1.

(** [x + y] on [u64] in a release build (a debug build panics on overflow). *)
Definition u64_add (x y : Z) : Z := (x + y) mod 2 ^ 64.
(** [u64::saturating_add], [u64::saturating_sub], [checked_add]. *)
Definition u64_saturating_add (x y : Z) : Z := Z.min (x + y) u64_max.
Definition u64_saturating_sub (x y : Z) : Z := Z.max (x - y) 0.
Definition usize_checked_add (x y : Z) : option Z :=
  if x + y <=? usize_max then Some (x + y) else None.

Class WellFormed (A : Type) := wf : A → Prop.
#[global] Hint Mode WellFormed ! : typeclass_instances.
(** The [wf] predicates of the types, to be unfolded by [autounfold]. *)
Create HintDb wf_unfold.
#[export] Hint Unfold wf : wf_unfold.

Lemma in_width_mono w w' x : w ≤ w' → in_width w x → in_width w' x.
Proof.
  unfold in_width. intros Hw [? ?]. split; [done|].
  apply Z.lt_le_trans with (2 ^ w); [done|]. apply Z.pow_le_mono_r; lia.
Qed.

Lemma u64_add_small x y : 0 ≤ x + y ≤ u64_max → u64_add x y = x + y.
Proof. unfold u64_add, u64_max. intros. apply Z.mod_small. lia. Qed.

Lemma u64_saturating_add_small x y : x + y ≤ u64_max → u64_saturating_add x y = x + y.
Proof. unfold u64_saturating_add. lia. Qed.

Lemma u64_saturating_sub_small x y : y ≤ x → u64_saturating_sub x y = x - y.
Proof. unfold u64_saturating_sub. lia. Qed.

(** ** Big-endian integers *)

(** [uN::to_be_bytes], [n] bytes. *)
Fixpoint to_be_bytes (n : nat) (v : Z) : list Z :=
  match n with
  | O => []
  | S n' => (v / 2 ^ (8 * Z.of_nat n')) mod 256 :: to_be_bytes n' v
  end.

(** [uN::from_be_bytes]. *)
Definition from_be_bytes (bs : list Z) : Z := foldl (λ acc b, acc * 256 + b) 0 bs.

Section be_bytes.
Implicit Types (n : nat) (v : Z) (bs : list Z).

Lemma length_to_be_bytes n v : length (to_be_bytes n v) = n.
Proof. induction n; simpl; auto. Qed.

Lemma to_be_bytes_u8 n v : Forall is_u8 (to_be_bytes n v).
Proof.
  induction n as [|n IH]; simpl; constructor; [|done].
  unfold in_width. change (2 ^ 8) with 256. by apply Z.mod_pos_bound.
Qed.

Lemma pow_byte_succ n : 2 ^ (8 * Z.of_nat (S n)) = 2 ^ (8 * Z.of_nat n) * 256.
Proof.
  replace (8 * Z.of_nat (S n)) with (8 * Z.of_nat n + 8) by lia.
  rewrite Z.pow_add_r by lia. done.
Qed.

Lemma pow_byte_pos n : 0 < 2 ^ (8 * Z.of_nat n).
Proof. apply Z.pow_pos_nonneg; lia. Qed.

Lemma foldl_be acc bs :
  foldl (λ acc b, acc * 256 + b) acc bs
  = acc * 2 ^ (8 * Z.of_nat (length bs)) + from_be_bytes bs.
Proof.
  unfold from_be_bytes. revert acc. induction bs as [|b bs IH]; intros acc.
  - simpl. rewrite Z.pow_0_r. lia.
  - cbn [foldl]. rewrite (IH (acc * 256 + b)), (IH (0 * 256 + b)).
    cbn [length]. rewrite pow_byte_succ. ring.
Qed.

Lemma from_be_bytes_cons b bs :
  from_be_bytes (b :: bs) = b * 2 ^ (8 * Z.of_nat (length bs)) + from_be_bytes bs.
Proof. unfold from_be_bytes at 1. cbn [foldl]. rewrite foldl_be. f_equal. Qed.

Lemma from_be_bytes_single b : from_be_bytes [b] = b.
Proof. unfold from_be_bytes. simpl. lia. Qed.

Lemma from_be_bytes_bound bs :
  Forall is_u8 bs → 0 ≤ from_be_bytes bs < 2 ^ (8 * Z.of_nat (length bs)).
Proof.
  induction 1 as [|b bs Hb Hbs IH]; [done|].
  rewrite from_be_bytes_cons. cbn [length]. rewrite pow_byte_succ.
  unfold in_width in Hb. change (2 ^ 8) with 256 in Hb. nia.
Qed.

Lemma from_be_to_be_bytes n v :
  from_be_bytes (to_be_bytes n v) = v mod 2 ^ (8 * Z.of_nat n).
Proof.
  induction n as [|n IH].
  - simpl. by rewrite Z.pow_0_r, Z.mod_1_r.
  - cbn [to_be_bytes]. rewrite from_be_bytes_cons, length_to_be_bytes, IH, pow_byte_succ.
    pose proof (pow_byte_pos n). rewrite Z.rem_mul_r by lia. ring.
Qed.

Lemma from_be_to_be n w v :
  w = 8 * Z.of_nat n → in_width w v → from_be_bytes (to_be_bytes n v) = v.
Proof. intros -> ?. rewrite from_be_to_be_bytes. by apply Z.mod_small. Qed.

(** Writing [n] bytes only looks at the low [8 * n] bits. *)
Lemma to_be_bytes_mod n k v :
  (n ≤ k)%nat → to_be_bytes n (v mod 2 ^ (8 * Z.of_nat k)) = to_be_bytes n v.
Proof.
  induction n as [|n IH]; intros Hk; [done|]. cbn [to_be_bytes].
  rewrite IH by lia. f_equal.
  replace (8 * Z.of_nat k) with (8 * Z.of_nat n + 8 + 8 * Z.of_nat (k - S n)) by lia.
  rewrite !Z.pow_add_r by lia. change (2 ^ 8) with 256.
  set (p := 2 ^ (8 * Z.of_nat n)). set (q := 2 ^ (8 * Z.of_nat (k - S n))).
  assert (0 < p) by apply pow_byte_pos. assert (0 < q) by apply pow_byte_pos.
  rewrite <-Z.mul_assoc, Z.rem_mul_r by lia.
  rewrite (Z.mul_comm p (_ mod _)), Z.div_add by lia.
  rewrite Z.div_small by (apply Z.mod_pos_bound; lia). rewrite Z.add_0_l.
  rewrite Z.rem_mul_r by lia. rewrite (Z.mul_comm 256 (_ mod _)), Z.mod_add by lia.
  apply Z.mod_mod. lia.
Qed.

Lemma to_be_from_be n bs :
  length bs = n → Forall is_u8 bs → to_be_bytes n (from_be_bytes bs) = bs.
Proof.
  intros <-. induction 1 as [|b bs Hb Hbs IH]; [done|].
  cbn [length to_be_bytes]. rewrite from_be_bytes_cons.
  pose proof (from_be_bytes_bound bs Hbs). pose proof (pow_byte_pos (length bs)).
  f_equal.
  - rewrite Z.div_add_l by lia. rewrite (Z.div_small (from_be_bytes bs)) by lia.
    rewrite Z.add_0_r. apply Z.mod_small. apply Hb.
  - etransitivity; [|exact IH]. rewrite <-(to_be_bytes_mod _ (length bs)) by lia.
    f_equal. rewrite Z.add_comm, Z.mod_add by lia. apply Z.mod_small. lia.
Qed.
End be_bytes.

(** ** Slices *)

(** The bytes [off .. off + n] of a buffer. *)
Definition sub {A} (off n : nat) (l : list A) : list A := take n (drop off l).

Section slices.
Context {A : Type}.
Implicit Types (l k : list A) (off n : nat).

Lemma length_sub off n l : (off + n ≤ length l)%nat → length (sub off n l) = n.
Proof. intros. unfold sub. rewrite length_take, length_drop. lia. Qed.

Lemma sub_0 n l : sub 0 n l = take n l.
Proof. done. Qed.

Lemma Forall_sub (P : A → Prop) off n l : Forall P l → Forall P (sub off n l).
Proof. intros. unfold sub. by apply Forall_take, Forall_drop. Qed.

Lemma sub_app_skip off n l k :
  (length l ≤ off)%nat → sub off n (l ++ k) = sub (off - length l) n k.
Proof. intros. unfold sub. by rewrite drop_app_ge. Qed.

Lemma sub_app_here n l k : length l = n → sub 0 n (l ++ k) = l.
Proof. intros <-. unfold sub. by rewrite drop_0, take_app_length. Qed.

(** Adjacent slices join. *)
Lemma sub_join off n m l :
  sub off n l ++ sub (off + n) m l = sub off (n + m) l.
Proof.
  unfold sub. rewrite <-drop_drop. generalize (drop off l) as k. intros k.
  apply take_take_drop.
Qed.

Lemma sub_join_at off off' n m l :
  off' = (off + n)%nat → sub off n l ++ sub off' m l = sub off (n + m) l.
Proof. intros ->. apply sub_join. Qed.
End slices.

(** [slice.iter().rposition(p)]: the index of the last element that satisfies [p]. *)
Fixpoint rposition {A} (p : A → bool) (l : list A) : option nat :=
  match l with
  | [] => None
  | x :: l' => match rposition p l' with
               | Some i => Some (S i)
               | None => if p x then Some O else None
               end
  end.

(** The prefix of a slice up to and including the last element that satisfies [p]. *)
Definition upto_last {A} (p : A → bool) (l : list A) : list A :=
  match rposition p l with Some i => take (S i) l | None => take 0 l end.

Section upto_last.
Context {A : Type} (p : A → bool).
Implicit Types l k : list A.

Lemma upto_last_cons x l :
  upto_last p (x :: l)
  = match upto_last p l with
    | [] => if p x then [x] else []
    | k => x :: k
    end.
Proof.
  unfold upto_last. cbn [rposition]. destruct (rposition p l) as [i|] eqn:E.
  - destruct l as [|y l]; done.
  - simpl. by destruct (p x).
Qed.

Lemma upto_last_app_fail l k : Forall (λ x, p x = false) k → upto_last p (l ++ k) = upto_last p l.
Proof.
  intros Hk. induction l as [|x l IH].
  - simpl. induction Hk as [|y k Hy Hk IH]; [done|].
    by rewrite upto_last_cons, IH, Hy.
  - simpl. by rewrite !upto_last_cons, IH.
Qed.

Lemma upto_last_id l : (∀ x, last l = Some x → p x = true) → upto_last p l = l.
Proof.
  induction l as [|x l IH]; intros Hl; [done|].
  rewrite upto_last_cons. destruct l as [|y l].
  - simpl. by rewrite (Hl x).
  - rewrite IH; [done|]. intros z Hz. apply Hl. by rewrite last_cons_cons.
Qed.

Lemma upto_last_prefix l : upto_last p l `prefix_of` l.
Proof.
  unfold upto_last. destruct (rposition p l) as [i|].
  - exists (drop (S i) l). by rewrite take_drop.
  - by exists l.
Qed.
End upto_last.

(** ** Sorted lists *)

Lemma StronglySorted_weaken {A} (R R' : relation A) l :
  (∀ x y, x ∈ l → y ∈ l → R x y → R' x y) → StronglySorted R l → StronglySorted R' l.
Proof.
  intros HR. induction 1 as [|x l Hl IH Hx]; constructor.
  - apply IH. intros y z Hy Hz. apply HR; by apply list_elem_of_further.
  - rewrite Forall_forall in Hx |- *. intros y Hy.
    apply HR; [apply list_elem_of_here|by apply list_elem_of_further|auto].
Qed.

Lemma StronglySorted_filter' {A} (R : relation A) (P : A → Prop) `{∀ x, Decision (P x)} l :
  StronglySorted R l → StronglySorted R (filter P l).
Proof.
  induction 1 as [|x l Hl IH Hx]; [constructor|]. rewrite filter_cons. case_decide; [|done].
  constructor; [done|]. rewrite Forall_forall in Hx |- *. intros y Hy.
  apply list_elem_of_filter in Hy as [_ Hy]. auto.
Qed.

Lemma StronglySorted_snoc {A} (R : relation A) l x :
  StronglySorted R l → Forall (λ y, R y x) l → StronglySorted R (l ++ [x]).
Proof.
  induction 1 as [|y l Hl IH Hy]; intros Hx; simpl; [repeat constructor|].
  apply Forall_cons in Hx as [? Hx]. constructor; [auto|].
  apply Forall_app. split; [done|]. by apply Forall_singleton.
Qed.

(** ** Sums over a map *)

Definition map_sum `{Countable K} {A} (f : A → Z) (m : gmap K A) : Z :=
  map_fold (λ _ x acc, f x + acc) 0 m.

Section map_sum.
Context `{Countable K} {A : Type}.
Implicit Types (f g : A → Z) (m : gmap K A).

Lemma map_sum_empty f : map_sum f (∅ : gmap K A) = 0.
Proof. apply map_fold_empty. Qed.

Lemma map_sum_insert f m i x : m !! i = None → map_sum f (<[i:=x]> m) = f x + map_sum f m.
Proof. intros Hi. unfold map_sum. rewrite map_fold_insert_L; [done|intros; lia|done]. Qed.

Lemma map_sum_delete f m i x : m !! i = Some x → map_sum f (delete i m) = map_sum f m - f x.
Proof.
  intros Hi. unfold map_sum at 2. rewrite (map_fold_delete_L _ _ i x); [|intros; lia|done].
  unfold map_sum. lia.
Qed.

Lemma map_sum_update f m i x y :
  m !! i = Some x → map_sum f (<[i:=y]> m) = map_sum f m - f x + f y.
Proof.
  intros Hi. rewrite <-insert_delete_eq, map_sum_insert by apply lookup_delete_eq.
  rewrite (map_sum_delete _ _ _ x) by done. lia.
Qed.

Lemma map_sum_nonneg f m : map_Forall (λ _ x, 0 ≤ f x) m → 0 ≤ map_sum f m.
Proof.
  induction m as [|i x m Hi IH] using map_ind; intros Hm.
  - by rewrite map_sum_empty.
  - rewrite map_sum_insert by done. rewrite map_Forall_insert in Hm by done.
    destruct Hm as [? ?]. specialize (IH ltac:(done)). lia.
Qed.

(** A summand is at most the sum, when no summand is negative. *)
Lemma map_sum_ge f m i x : map_Forall (λ _ x, 0 ≤ f x) m → m !! i = Some x → f x ≤ map_sum f m.
Proof.
  intros Hm Hi. pose proof (map_sum_delete f m i x Hi) as E.
  assert (0 ≤ map_sum f (delete i m)); [|lia].
  apply map_sum_nonneg. by apply map_Forall_delete.
Qed.

Lemma map_sum_le_size f m c :
  0 ≤ c → map_Forall (λ _ x, f x ≤ c) m → map_sum f m ≤ c * Z.of_nat (size m).
Proof.
  intros Hc. induction m as [|i x m Hi IH] using map_ind; intros Hm.
  - rewrite map_sum_empty, map_size_empty. lia.
  - rewrite map_sum_insert, map_size_insert_None by done.
    rewrite map_Forall_insert in Hm by done. destruct Hm as [? ?].
    specialize (IH ltac:(done)). lia.
Qed.

Lemma map_sum_fmap {B} (f : A → Z) (g : B → A) (m : gmap K B) :
  map_sum f (g <$> m) = map_sum (λ x, f (g x)) m.
Proof.
  unfold map_sum. by rewrite map_fold_fmap.
Qed.
End map_sum.

(** ** Ordered maps *)

(** The keys of a [BTreeMap], ordered by the integer they wrap. *)
Class OrdKey (K : Type) := {
  ord_key : K → Z;
  ord_key_inj :: Inj (=) (=) ord_key;
}.
#[global] Instance Z_OrdKey : OrdKey Z := {| ord_key := id |}.

Section btree.
Context `{Countable K, OrdKey K} {V : Type}.
Implicit Types (m : gmap K V) (k : K) (v : V).

Definition key_le (a b : K * V) : Prop := ord_key a.1 ≤ ord_key b.1.
#[global] Instance key_le_dec : RelDecision key_le.
Proof. intros a b. unfold key_le. apply _. Defined.
#[global] Instance key_le_trans : Transitive key_le.
Proof. intros a b c. unfold key_le. lia. Qed.
#[global] Instance key_le_total : Total key_le.
Proof. intros a b. unfold key_le. lia. Qed.

(** [BTreeMap::iter]: the entries in ascending key order. *)
Definition btree_iter (m : gmap K V) : list (K * V) := merge_sort key_le (map_to_list m).
(** [iter().next()] and [iter().next_back()]. *)
Definition btree_first (m : gmap K V) : option (K * V) := head (btree_iter m).
Definition btree_last (m : gmap K V) : option (K * V) := last (btree_iter m).

Lemma elem_of_btree_iter m k v : (k, v) ∈ btree_iter m ↔ m !! k = Some v.
Proof. unfold btree_iter. by rewrite merge_sort_Permutation, elem_of_map_to_list. Qed.

Lemma btree_iter_sorted m : StronglySorted key_le (btree_iter m).
Proof. apply StronglySorted_merge_sort; apply _. Qed.

Lemma btree_iter_nodup m : NoDup (map fst (btree_iter m)).
Proof.
  unfold btree_iter. change (map fst) with (fmap (M := list) (@fst K V)).
  rewrite merge_sort_Permutation. apply NoDup_fst_map_to_list.
Qed.

Lemma btree_iter_nil m : btree_iter m = [] ↔ m = ∅.
Proof.
  split; [|intros ->; unfold btree_iter; by rewrite map_to_list_empty].
  intros E. apply map_empty. intros k. destruct (m !! k) as [v|] eqn:Hk; [|done].
  apply elem_of_btree_iter in Hk. rewrite E in Hk. by apply elem_of_nil in Hk.
Qed.

Lemma btree_first_Some m k v :
  btree_first m = Some (k, v) ↔
  m !! k = Some v ∧ ∀ k' v', m !! k' = Some v' → ord_key k ≤ ord_key k'.
Proof.
  unfold btree_first. pose proof (btree_iter_sorted m) as Hs.
  assert (∀ k' v', btree_first m = Some (k', v') →
    m !! k' = Some v' ∧ ∀ k'' v'', m !! k'' = Some v'' → ord_key k' ≤ ord_key k'') as Hfst.
  { unfold btree_first. intros k' v' E. destruct (btree_iter m) as [|a l] eqn:Em; [done|].
    simplify_eq/=. inversion Hs as [|? ? Hs' Hall]; subst. rewrite Forall_forall in Hall.
    split; [apply elem_of_btree_iter; rewrite Em; apply list_elem_of_here|].
    intros k'' v'' Hk. apply elem_of_btree_iter in Hk. rewrite Em in Hk.
    apply elem_of_cons in Hk as [Hk|Hk]; [simplify_eq; lia|]. apply (Hall _ Hk). }
  split; [apply Hfst|]. intros [Hk Hmin].
  destruct (btree_first m) as [[k' v']|] eqn:E.
  - destruct (Hfst _ _ eq_refl) as [Hk' Hmin'].
    assert (k' = k) as -> by (apply (inj ord_key); apply Z.le_antisymm; eauto).
    unfold btree_first in E. rewrite E. congruence.
  - apply head_None, btree_iter_nil in E. subst m. by rewrite lookup_empty in Hk.
Qed.

Lemma btree_first_None m : btree_first m = None ↔ m = ∅.
Proof. unfold btree_first. by rewrite head_None, btree_iter_nil. Qed.

Lemma StronglySorted_last (R : relation (K * V)) l a b :
  StronglySorted R l → last l = Some b → a ∈ l → a = b ∨ R a b.
Proof.
  induction 1 as [|x l Hl IH Hx]; intros Hb Ha; [done|].
  destruct l as [|y l].
  - simpl in Hb. simplify_eq. apply list_elem_of_singleton in Ha. by left.
  - rewrite last_cons_cons in Hb. apply elem_of_cons in Ha as [->|Ha]; [|auto].
    right. rewrite Forall_forall in Hx. apply Hx, last_Some_elem_of. done.
Qed.

Lemma btree_last_Some m k v :
  btree_last m = Some (k, v) ↔
  m !! k = Some v ∧ ∀ k' v', m !! k' = Some v' → ord_key k' ≤ ord_key k.
Proof.
  assert (∀ k' v', btree_last m = Some (k', v') →
    m !! k' = Some v' ∧ ∀ k'' v'', m !! k'' = Some v'' → ord_key k'' ≤ ord_key k') as Hlst.
  { unfold btree_last. intros k' v' E. split.
    - by apply elem_of_btree_iter, last_Some_elem_of.
    - intros k'' v'' Hk. apply elem_of_btree_iter in Hk.
      destruct (StronglySorted_last _ _ _ _ (btree_iter_sorted m) E Hk) as [|Hle];
        [simplify_eq; lia|]. apply Hle. }
  split; [apply Hlst|]. intros [Hk Hmax].
  destruct (btree_last m) as [[k' v']|] eqn:E.
  - destruct (Hlst _ _ eq_refl) as [Hk' Hmax'].
    assert (k' = k) as -> by (apply (inj ord_key); apply Z.le_antisymm; eauto).
    congruence.
  - apply last_None, btree_iter_nil in E. subst m. by rewrite lookup_empty in Hk.
Qed.

Lemma btree_last_None m : btree_last m = None ↔ m = ∅.
Proof. unfold btree_last. by rewrite last_None, btree_iter_nil. Qed.
End btree.
