(* ===== verification/Primitives.v ===== *)
(** Primitive newtypes of the ITCH 5.0 wire format
    ([crates/itch-protocol/src/primitives.rs]).

    A newtype [struct T(uN)] is a one-field record whose constructor is the
    Rust constructor ([from_uN]) and whose projection is the accessor
    ([as_uN]); the integer is a [Z] and [wf] states the range its Rust type
    gives it.  [Timestamp] is stored in a [u64] but only 48 bits travel on the
    wire, so its [wf] is the range the type documents.  [Stock] and [Mpid] are
    the fixed byte arrays.  The [f64] conversions of the two price types
    ([from_decimal], [as_decimal]: display and tests only) are not modelled. *)

From S2P Require Import Prelude.

(** One newtype per module: the type, its wire size and its default. *)

Module StockLocate.
Record t := from_u16 { as_u16 : Z }.
Definition WIRE_LEN : nat := 2.
Definition default : t := from_u16 0.
#[global] Instance t_eq_dec : EqDecision t. Proof. solve_decision. Defined.
#[global] Instance t_countable : Countable t.
Proof. by refine (inj_countable' as_u16 from_u16 _); intros []. Defined.
#[global] Instance t_wf : WellFormed t := λ x, is_u16 (as_u16 x).
End StockLocate.

Module TrackingNumber.
Record t := from_u16 { as_u16 : Z }.
Definition WIRE_LEN : nat := 2.
Definition default : t := from_u16 0.
#[global] Instance t_eq_dec : EqDecision t. Proof. solve_decision. Defined.
#[global] Instance t_wf : WellFormed t := λ x, is_u16 (as_u16 x).
End TrackingNumber.

Module OrderReference.
Record t := from_u64 { as_u64 : Z }.
Definition WIRE_LEN : nat := 8.
Definition default : t := from_u64 0.
#[global] Instance t_eq_dec : EqDecision t. Proof. solve_decision. Defined.
#[global] Instance t_countable : Countable t.
Proof. by refine (inj_countable' as_u64 from_u64 _); intros []. Defined.
#[global] Instance t_wf : WellFormed t := λ x, is_u64 (as_u64 x).
End OrderReference.

Module MatchNumber.
Record t := from_u64 { as_u64 : Z }.
Definition WIRE_LEN : nat := 8.
Definition default : t := from_u64 0.
#[global] Instance t_eq_dec : EqDecision t. Proof. solve_decision. Defined.
#[global] Instance t_wf : WellFormed t := λ x, is_u64 (as_u64 x).
End MatchNumber.

Module Shares.
Record t := from_u32 { as_u32 : Z }.
Definition WIRE_LEN : nat := 4.
Definition default : t := from_u32 0.
#[global] Instance t_eq_dec : EqDecision t. Proof. solve_decision. Defined.
#[global] Instance t_wf : WellFormed t := λ x, is_u32 (as_u32 x).
End Shares.

Module Timestamp.
Record t := from_u64 { as_u64 : Z }.
Inductive TimestampError := OutOfRange (value : Z).
Definition WIRE_LEN : nat := 6.
Definition MAX : Z := Z.shiftl 1 48 - 1.
Definition default : t := from_u64 0.
Definition try_new (v : Z) : result t TimestampError :=
  if MAX <? v then Err (OutOfRange v) else Ok (from_u64 v).
#[global] Instance t_eq_dec : EqDecision t. Proof. solve_decision. Defined.
#[global] Instance t_wf : WellFormed t := λ x, is_u48 (as_u64 x).
End Timestamp.

Module Price4.
Record t := from_u32 { as_u32 : Z }.
Definition WIRE_LEN : nat := 4.
Definition MAX_PER_SPEC : Z := 2000000000.
Definition SCALE : Z := 10000.
Definition default : t := from_u32 0.
#[global] Instance t_eq_dec : EqDecision t. Proof. solve_decision. Defined.
#[global] Instance t_countable : Countable t.
Proof. by refine (inj_countable' as_u32 from_u32 _); intros []. Defined.
#[global] Instance t_wf : WellFormed t := λ x, is_u32 (as_u32 x).
End Price4.

Module Price8.
Record t := from_u64 { as_u64 : Z }.
Definition WIRE_LEN : nat := 8.
Definition SCALE : Z := 100000000.
Definition default : t := from_u64 0.
#[global] Instance t_eq_dec : EqDecision t. Proof. solve_decision. Defined.
#[global] Instance t_wf : WellFormed t := λ x, is_u64 (as_u64 x).
End Price8.

(** ** Fixed-width ASCII fields *)

Definition space : Z := b@" ".

(** A continuation byte, and [b] in the closed range [lo .. hi]. *)
Definition in_range (lo hi b : Z) : bool := (lo <=? b) && (b <=? hi).
Definition utf8_cont (b : Z) : bool := in_range 0x80 0xBF b.

(** The second byte allowed after the lead byte of a three- or four-byte
    sequence. *)
Definition utf8_second (b0 b1 : Z) : bool :=
  if b0 =? 0xE0 then in_range 0xA0 0xBF b1
  else if b0 =? 0xED then in_range 0x80 0x9F b1
  else if b0 =? 0xF0 then in_range 0x90 0xBF b1
  else if b0 =? 0xF4 then in_range 0x80 0x8F b1
  else utf8_cont b1.

(** [core::str::from_utf8(bytes).is_ok()]. *)
Fixpoint utf8_valid (bs : list Z) : bool :=
  match bs with
  | [] => true
  | b0 :: t0 =>
    if b0 <=? 0x7F then utf8_valid t0
    else match t0 with
    | [] => false
    | b1 :: t1 =>
      if in_range 0xC2 0xDF b0 then utf8_cont b1 && utf8_valid t1
      else match t1 with
      | [] => false
      | b2 :: t2 =>
        if in_range 0xE0 0xEF b0 then utf8_second b0 b1 && utf8_cont b2 && utf8_valid t2
        else match t2 with
        | [] => false
        | b3 :: t3 =>
          if in_range 0xF0 0xF4 b0
          then utf8_second b0 b1 && utf8_cont b2 && utf8_cont b3 && utf8_valid t3
          else false
        end
      end
    end
  end.

(** [core::str::from_utf8]: a [&str] is its bytes. *)
Inductive Utf8Error := MkUtf8Error.
Definition from_utf8 (bs : list Z) : result (list Z) Utf8Error :=
  if utf8_valid bs then Ok bs else Err MkUtf8Error.

(** The body shared by [Stock::new] and [Mpid::new]: a buffer of [w] spaces
    whose first [min (s.len()) w] bytes are overwritten. *)
Definition space_padded (w : nat) (s : list Z) : list Z :=
  let n := Nat.min (length s) w in
  take n s ++ drop n (replicate w space).

Definition trim_end (bs : list Z) : list Z := upto_last (λ b, negb (b =? space)) bs.

Module Stock.
Definition WIRE_LEN : nat := 8.
Record t := from_bytes { as_bytes : list Z }.
Definition default : t := from_bytes (replicate WIRE_LEN space).
Definition new (s : list Z) : t := from_bytes (space_padded WIRE_LEN s).
Definition as_str (x : t) : result (list Z) Utf8Error := from_utf8 (trim_end (as_bytes x)).
#[global] Instance t_eq_dec : EqDecision t. Proof. solve_decision. Defined.
#[global] Instance t_wf : WellFormed t :=
  λ x, length (as_bytes x) = WIRE_LEN ∧ Forall is_u8 (as_bytes x).
End Stock.

Module Mpid.
Definition WIRE_LEN : nat := 4.
Record t := from_bytes { as_bytes : list Z }.
Definition default : t := from_bytes (replicate WIRE_LEN space).
Definition new (s : list Z) : t := from_bytes (space_padded WIRE_LEN s).
Definition as_str (x : t) : result (list Z) Utf8Error := from_utf8 (trim_end (as_bytes x)).
#[global] Instance t_eq_dec : EqDecision t. Proof. solve_decision. Defined.
#[global] Instance t_wf : WellFormed t :=
  λ x, length (as_bytes x) = WIRE_LEN ∧ Forall is_u8 (as_bytes x).
End Mpid.

#[export] Hint Unfold StockLocate.t_wf TrackingNumber.t_wf OrderReference.t_wf
  MatchNumber.t_wf Shares.t_wf Timestamp.t_wf Price4.t_wf Price8.t_wf Stock.t_wf
  Mpid.t_wf Stock.WIRE_LEN Mpid.WIRE_LEN : wf_unfold.

(** ** Properties of the padded fields *)

Lemma length_space_padded w s : length (space_padded w s) = w.
Proof.
  unfold space_padded. rewrite length_app, length_take, length_drop, length_replicate. lia.
Qed.

Lemma space_padded_u8 w s : Forall is_u8 s → Forall is_u8 (space_padded w s).
Proof.
  intros Hs. unfold space_padded. apply Forall_app; split; [by apply Forall_take|].
  apply Forall_drop, Forall_replicate. unfold in_width, space. lia.
Qed.

Lemma space_padded_short w s :
  (length s ≤ w)%nat → space_padded w s = s ++ replicate (w - length s) space.
Proof.
  intros Hs. unfold space_padded. rewrite Nat.min_l by done.
  by rewrite firstn_all, drop_replicate.
Qed.

Lemma space_padded_long w s : (w ≤ length s)%nat → space_padded w s = take w s.
Proof.
  intros Hs. unfold space_padded. rewrite Nat.min_r by done.
  by rewrite drop_replicate, Nat.sub_diag, app_nil_r.
Qed.

(** Padding is undone by trimming, for text that fits and does not itself end
    in a space. *)
Lemma trim_end_space_padded w s :
  (length s ≤ w)%nat → last s ≠ Some space → trim_end (space_padded w s) = s.
Proof.
  intros Hw Hlast. rewrite space_padded_short by done. unfold trim_end.
  rewrite upto_last_app_fail by (apply Forall_replicate; done).
  apply upto_last_id. intros x Hx. apply negb_true_iff, Z.eqb_neq. intros ->. congruence.
Qed.

Lemma Stock_new_wf s : Forall is_u8 s → wf (Stock.new s).
Proof. split; [apply length_space_padded|by apply space_padded_u8]. Qed.

Lemma Mpid_new_wf s : Forall is_u8 s → wf (Mpid.new s).
Proof. split; [apply length_space_padded|by apply space_padded_u8]. Qed.

(** Symbol and participant names survive the fixed-width encoding: valid
    text that fits the field and does not end in a space is read back as it was
    written, and longer text is cut to the field. *)
Theorem text_roundtrip s :
  utf8_valid s = true → last s ≠ Some space →
  ((length s ≤ Stock.WIRE_LEN)%nat → Stock.as_str (Stock.new s) = Ok s)
  ∧ ((length s ≤ Mpid.WIRE_LEN)%nat → Mpid.as_str (Mpid.new s) = Ok s)
  ∧ ((Stock.WIRE_LEN ≤ length s)%nat → Stock.as_bytes (Stock.new s) = take Stock.WIRE_LEN s).
Proof.
  intros Hv Hl. unfold Stock.as_str, Mpid.as_str, from_utf8, Stock.new, Mpid.new. simpl.
  split_and!; intros.
  - by rewrite trim_end_space_padded, Hv.
  - by rewrite trim_end_space_padded, Hv.
  - by apply space_padded_long.
Qed.

Lemma text_roundtrip_witness :
  Stock.as_str (Stock.new [b@"A"; b@"A"; b@"P"; b@"L"]) = Ok [b@"A"; b@"A"; b@"P"; b@"L"].
Proof.
  apply (text_roundtrip [b@"A"; b@"A"; b@"P"; b@"L"]); vm_compute; try reflexivity;
    (discriminate || lia).
Defined.
