(* ===== verification/Text.v ===== *)
(** Text as the programs of the repository read and print it: a [String] is its
    UTF-8 bytes.  Integers in decimal ([Display], [str::parse::<u64>]), the
    alignments of [format!] ([{:<8}], [{:>14}], [{:04}]) and the facts about
    decimal digits that the SoupBinTCP numbers, the keys of the Redis store and
    the lines of the client share. *)

From S2P Require Import Prelude Primitives.

(** The bytes of a literal. *)
Definition text (s : string) : list Z := map (λ c, Z.of_N (N_of_ascii c)) (String.list_ascii_of_string s).

Definition is_ascii_digit (b : Z) : bool := in_range (b@"0") (b@"9") b.
Definition u64_checked_mul (x y : Z) : option Z := if x * y <=? u64_max then Some (x * y) else None.
Definition u64_checked_add (x y : Z) : option Z := if x + y <=? u64_max then Some (x + y) else None.

(** [impl Display for u64] (and the smaller widths): the digits, without leading
    zeros; a [u64] has at most twenty. *)
Fixpoint digits_of (fuel : nat) (n : Z) : list Z :=
  match fuel with
  | O => []
  | S fuel => (if n <? 10 then [] else digits_of fuel (n / 10)) ++ [b@"0" + n mod 10]
  end.
Definition decimal (n : Z) : list Z := digits_of 20 n.

(** [str::parse::<u64>]: an optional plus sign and at least one digit; [None] is
    the error. *)
Fixpoint parse_digits (bs : list Z) (value : Z) : option Z :=
  match bs with
  | [] => Some value
  | b :: bs =>
      if is_ascii_digit b
      then v ← u64_checked_mul value 10; v ← u64_checked_add v (b - b@"0"); parse_digits bs v
      else None
  end.
Definition parse_u64 (bs : list Z) : option Z :=
  match bs with
  | [] => None
  | b :: rest =>
      if b =? b@"+" then match rest with [] => None | _ => parse_digits rest 0 end
      else parse_digits bs 0
  end.

(** The number of characters of a [&str]. *)
Definition char_count (t : list Z) : nat := length (filter (λ b, utf8_cont b = false) t).

(** [{:<w}], [{:>w}] and [{:0w}]. *)
Definition align_left (w : nat) (t : list Z) : list Z := t ++ replicate (w - char_count t) space.
Definition align_right (w : nat) (t : list Z) : list Z := replicate (w - char_count t) space ++ t.
Definition zero_pad (w : nat) (n : Z) : list Z :=
  replicate (w - length (decimal n)) (b@"0") ++ decimal n.

(** [t.rsplit(sep).next()]: what follows the last separator. *)
Fixpoint after_last (sep : Z) (t : list Z) : list Z :=
  match t with
  | [] => []
  | b :: rest => if bool_decide (sep ∈ rest) then after_last sep rest else if b =? sep then rest else t
  end.

(** ** Decimal numbers *)

Definition dec_value (bs : list Z) : Z := foldl (λ acc b, acc * 10 + (b - b@"0")) 0 bs.

Lemma foldl_dec acc bs :
  foldl (λ acc b, acc * 10 + (b - b@"0")) acc bs
  = acc * 10 ^ Z.of_nat (length bs) + dec_value bs.
Proof.
  unfold dec_value. revert acc. induction bs as [|b bs IH]; intros acc.
  - simpl. lia.
  - cbn [foldl]. rewrite (IH (acc * 10 + _)), (IH (0 * 10 + _)). cbn [length].
    rewrite Nat2Z.inj_succ, Z.pow_succ_r by lia. ring.
Qed.

Lemma dec_value_cons b bs :
  dec_value (b :: bs) = (b - b@"0") * 10 ^ Z.of_nat (length bs) + dec_value bs.
Proof. unfold dec_value at 1. cbn [foldl]. rewrite foldl_dec. f_equal. Qed.

Definition all_digits (bs : list Z) : Prop := Forall (λ b, is_ascii_digit b = true) bs.

Lemma is_ascii_digit_range b : is_ascii_digit b = true ↔ 48 ≤ b ≤ 57.
Proof. unfold is_ascii_digit, in_range. rewrite andb_true_iff, !Z.leb_le. done. Qed.

Lemma dec_value_nonneg bs : all_digits bs → 0 ≤ dec_value bs.
Proof.
  induction 1 as [|b bs Hb Hbs IH]; [done|]. rewrite dec_value_cons.
  apply is_ascii_digit_range in Hb. pose proof (Z.pow_nonneg 10 (Z.of_nat (length bs))). nia.
Qed.

Lemma dec_value_snoc bs b : dec_value (bs ++ [b]) = dec_value bs * 10 + (b - b@"0").
Proof. unfold dec_value. by rewrite foldl_app. Qed.

Lemma digit_of n : is_ascii_digit (b@"0" + n mod 10) = true.
Proof. apply is_ascii_digit_range. pose proof (Z.mod_pos_bound n 10). lia. Qed.

Lemma digits_of_spec fuel n :
  0 ≤ n < 10 ^ Z.of_nat fuel → (0 < fuel)%nat →
  all_digits (digits_of fuel n) ∧ dec_value (digits_of fuel n) = n ∧ digits_of fuel n ≠ [].
Proof.
  revert n. induction fuel as [|fuel IH]; intros n Hn Hf; [lia|]. cbn [digits_of].
  pose proof (Z.mod_pos_bound n 10). pose proof (Z.div_mod n 10).
  split_and!; [| |intros E; by apply app_eq_nil in E as [_ ?]].
  - apply Forall_app. split; [|constructor; [apply digit_of|constructor]].
    destruct (Z.ltb_spec n 10); [constructor|]. rewrite Nat2Z.inj_succ, Z.pow_succ_r in Hn by lia.
    destruct fuel as [|fuel]; [simpl in Hn; lia|].
    apply IH; [|lia]. split; [apply Z.div_pos; lia|]. apply Z.div_lt_upper_bound; lia.
  - rewrite dec_value_snoc. destruct (Z.ltb_spec n 10).
    { unfold dec_value. simpl. rewrite Z.mod_small by lia. lia. }
    rewrite Nat2Z.inj_succ, Z.pow_succ_r in Hn by lia. destruct fuel as [|fuel]; [simpl in Hn; lia|].
    destruct (IH (n / 10)) as (_ & -> & _); [|lia|lia].
    split; [apply Z.div_pos; lia|]. apply Z.div_lt_upper_bound; lia.
Qed.

Lemma decimal_spec n :
  is_u64 n → all_digits (decimal n) ∧ dec_value (decimal n) = n ∧ decimal n ≠ [].
Proof.
  intros [? Hn]. apply digits_of_spec; [|lia]. split; [done|]. eapply Z.lt_trans; [exact Hn|done].
Qed.

(** Two numbers print alike only if they are the same. *)
Lemma decimal_inj m n : is_u64 m → is_u64 n → decimal m = decimal n → m = n.
Proof.
  intros Hm Hn E. destruct (decimal_spec m Hm) as (_ & <- & _).
  destruct (decimal_spec n Hn) as (_ & <- & _). by rewrite E.
Qed.

(** The digits of a number below [10 ^ k] are at most [k]. *)
Lemma length_digits_of fuel k n :
  0 ≤ n < 10 ^ Z.of_nat k → (0 < k)%nat → (length (digits_of fuel n) ≤ k)%nat.
Proof.
  revert k n. induction fuel as [|fuel IH]; intros k n Hn Hk; simpl; [lia|].
  rewrite length_app. simpl. destruct (Z.ltb_spec n 10); simpl; [lia|].
  destruct k as [|k]; [lia|]. rewrite Nat2Z.inj_succ, Z.pow_succ_r in Hn by lia.
  destruct k as [|k]; [simpl in Hn; lia|].
  assert (length (digits_of fuel (n / 10)) ≤ S k)%nat; [|lia].
  apply IH; [|lia]. split; [apply Z.div_pos; lia|]. apply Z.div_lt_upper_bound; lia.
Qed.

Lemma dec_value_zeros k bs : dec_value (replicate k (b@"0") ++ bs) = dec_value bs.
Proof.
  induction k as [|k IH]; [done|]. simpl replicate. cbn [app]. rewrite dec_value_cons, IH. lia.
Qed.

Lemma zero_pad_spec k n :
  is_u64 n → n < 10 ^ Z.of_nat k → (0 < k)%nat →
  all_digits (zero_pad k n) ∧ dec_value (zero_pad k n) = n ∧ length (zero_pad k n) = k.
Proof.
  intros Hn Hk Hpos. destruct (decimal_spec n Hn) as (Hd & Hv & _). unfold zero_pad. split_and!.
  - apply Forall_app. split; [by apply Forall_replicate|done].
  - by rewrite dec_value_zeros.
  - rewrite length_app, length_replicate. unfold decimal.
    pose proof (length_digits_of 20 k n). destruct Hn. lia.
Qed.

(** Reading back what was printed. *)
Lemma parse_digits_spec bs v :
  0 ≤ v → all_digits bs →
  parse_digits bs v
  = (let w := v * 10 ^ Z.of_nat (length bs) + dec_value bs in
     if (if bs is [] then true else w <=? u64_max) then Some w else None).
Proof.
  revert v. induction bs as [|b bs IH]; intros v Hv Hd.
  { simpl. unfold dec_value. simpl. f_equal. lia. }
  apply Forall_cons in Hd as [Hb Hd]. cbn [parse_digits]. rewrite Hb.
  apply is_ascii_digit_range in Hb. cbn zeta. unfold u64_checked_mul, u64_checked_add.
  pose proof (dec_value_nonneg bs Hd). rewrite dec_value_cons. cbn [length].
  rewrite Nat2Z.inj_succ, Z.pow_succ_r by lia.
  assert (0 < 10 ^ Z.of_nat (length bs)) as Hp by (apply Z.pow_pos_nonneg; lia).
  replace (v * (10 * 10 ^ Z.of_nat (length bs)) + ((b - 48) * 10 ^ Z.of_nat (length bs) + dec_value bs))
    with ((v * 10 + (b - 48)) * 10 ^ Z.of_nat (length bs) + dec_value bs) by ring.
  destruct (Z.leb_spec (v * 10) u64_max); cbn [mbind option_bind].
  2:{ destruct (Z.leb_spec ((v * 10 + (b - 48)) * 10 ^ Z.of_nat (length bs) + dec_value bs) u64_max);
        [nia|done]. }
  destruct (Z.leb_spec (v * 10 + (b - 48)) u64_max); cbn [mbind option_bind].
  2:{ destruct (Z.leb_spec ((v * 10 + (b - 48)) * 10 ^ Z.of_nat (length bs) + dec_value bs) u64_max);
        [nia|done]. }
  rewrite IH by (done || lia). cbn zeta. destruct bs; [|done].
  rewrite (proj2 (Z.leb_le _ _)); [done|]. unfold dec_value. simpl. lia.
Qed.

Lemma parse_decimal n : is_u64 n → parse_u64 (decimal n) = Some n.
Proof.
  intros Hn. destruct (decimal_spec n Hn) as (Hd & Hv & Hne). unfold parse_u64.
  destruct (decimal n) as [|b bs] eqn:E; [done|].
  assert (b ≠ b@"+") as Hp.
  { apply Forall_cons in Hd as [Hb _]. apply is_ascii_digit_range in Hb. lia. }
  rewrite (proj2 (Z.eqb_neq _ _)), parse_digits_spec by done. cbn zeta.
  rewrite Hv, Z.mul_0_l, Z.add_0_l, (proj2 (Z.leb_le _ _)); [done|].
  destruct Hn. unfold u64_max. lia.
Qed.

Lemma after_last_app sep t u : sep ∉ u → after_last sep (t ++ sep :: u) = u.
Proof.
  intros Hu. induction t as [|b t IH]; simpl.
  - by rewrite bool_decide_eq_false_2, Z.eqb_refl.
  - rewrite bool_decide_eq_true_2; [done|]. set_solver.
Qed.

Lemma all_digits_no sep ds : all_digits ds → is_ascii_digit sep = false → sep ∉ ds.
Proof. intros Hd Hs Hin. unfold all_digits in Hd. rewrite Forall_forall in Hd. specialize (Hd _ Hin). congruence. Qed.
