(* ===== verification/Enums.v ===== *)
(** The protocol error type ([crates/itch-protocol/src/error.rs]) and the
    closed-set ASCII enums ([crates/itch-protocol/src/enums.rs]).

    The source declares each enum through the macro [enum_alpha!], which
    expands one table of [variant = byte] arms into the enum, its [to_byte]
    (the discriminant) and its [from_byte] (one match arm per row, with
    [InvalidEnumCode] as the fallback).  The model has the same shape: the
    table is the field [arms] of the class [AlphaCoded], and [to_byte] and
    [from_byte] are the macro's two functions over it.  [AlphaLaws] is what
    rustc checks of each table (all variants present, no discriminant twice)
    and what the codec relies on. *)

From S2P Require Import Prelude Primitives.

Inductive ProtocolError :=
| InvalidEnumCode (field : string) (code : Z)
| Truncated (need got : Z)
| BufferTooSmall (need got : Z)
| UnknownMessageType (tag : Z).

#[global] Instance ProtocolError_eq_dec : EqDecision ProtocolError.
Proof. solve_decision. Defined.

(** The trait [AlphaCoded], given by the macro's table. *)
Class AlphaCoded (T : Type) `{EqDecision T} := {
  FIELD : string;
  arms : list (T * Z);
}.

Section alpha.
Context {T : Type} `{AlphaCoded T}.

(** [self as u8]: the discriminant the table gives the variant. *)
Definition to_byte (v : T) : Z :=
  match list_find (λ a, a.1 = v) arms with
  | Some (_, a) => a.2
  | None => 0
  end.

(** [match b { byte => Ok(variant), .., _ => Err(InvalidEnumCode) }]. *)
Definition from_byte (b : Z) : result T ProtocolError :=
  match list_find (λ a, a.2 = b) arms with
  | Some (_, a) => Ok a.1
  | None => Err (InvalidEnumCode FIELD b)
  end.
End alpha.

Class AlphaLaws (T : Type) `{AlphaCoded T} := {
  arms_complete (v : T) : v ∈ map fst (arms (T := T));
  arms_variants : NoDup (map fst (arms (T := T)));
  arms_bytes : NoDup (map snd (arms (T := T)));
  arms_u8 : Forall is_u8 (map snd (arms (T := T)));
}.

Section alpha_laws.
Context {T : Type} `{AlphaLaws T}.

Lemma to_byte_arm (v : T) (b : Z) : (v, b) ∈ arms → to_byte v = b.
Proof.
  intros Hin. unfold to_byte. destruct (list_find _ arms) as [[i [v' b']]|] eqn:E.
  - apply list_find_Some in E as (Hi & Hv & _). simpl in *. subst v'.
    apply list_elem_of_lookup in Hin as [j Hj].
    assert (i = j) as ->; [|congruence].
    eapply NoDup_lookup; [apply arms_variants| |]; rewrite list_lookup_fmap.
    + by rewrite Hi.
    + by rewrite Hj.
  - apply list_find_None in E. rewrite Forall_forall in E. by destruct (E _ Hin).
Qed.

Lemma arm_of (v : T) : (v, to_byte v) ∈ arms.
Proof.
  pose proof (arms_complete v) as Hv. apply list_elem_of_fmap in Hv as ([v' b] & -> & Hin).
  simpl. by rewrite (to_byte_arm _ _ Hin).
Qed.

Lemma from_byte_arm (v : T) (b : Z) : (v, b) ∈ arms → from_byte b = Ok v.
Proof.
  intros Hin. unfold from_byte. destruct (list_find _ arms) as [[i [v' b']]|] eqn:E.
  - apply list_find_Some in E as (Hi & Hb & _). simpl in *. subst b'.
    apply list_elem_of_lookup in Hin as [j Hj].
    assert (i = j) as ->; [|congruence].
    eapply NoDup_lookup; [apply arms_bytes| |]; rewrite list_lookup_fmap.
    + by rewrite Hi.
    + by rewrite Hj.
  - apply list_find_None in E. rewrite Forall_forall in E. by destruct (E _ Hin).
Qed.

Lemma from_to_byte (v : T) : from_byte (to_byte v) = Ok v.
Proof. apply from_byte_arm, arm_of. Qed.

(** [from_byte] accepts exactly the discriminants, and reports the byte otherwise. *)
Lemma from_byte_inv (b : Z) :
  match from_byte (T := T) b with
  | Ok v => b = to_byte v
  | Err e => e = InvalidEnumCode (FIELD (T := T)) b ∧ ∀ v : T, to_byte v ≠ b
  end.
Proof.
  destruct (from_byte b) as [v|e] eqn:E.
  - unfold from_byte in E. destruct (list_find _ arms) as [[i [v' b']]|] eqn:F; [|done].
    apply list_find_Some in F as (Hi & Hb & _). simpl in *. simplify_eq.
    symmetry. apply to_byte_arm. by eapply list_elem_of_lookup_2.
  - split.
    + unfold from_byte in E. by destruct (list_find _ arms) as [[]|]; simplify_eq.
    + intros v Hv. rewrite <-Hv, from_to_byte in E. done.
Qed.

Lemma from_byte_ok (b : Z) (v : T) : from_byte b = Ok v → to_byte v = b.
Proof. intros E. pose proof (from_byte_inv b) as Hi. by rewrite E in Hi. Qed.

Lemma from_byte_err (b : Z) e :
  from_byte (T := T) b = Err e → e = InvalidEnumCode (FIELD (T := T)) b.
Proof. intros E. pose proof (from_byte_inv b) as Hi. rewrite E in Hi. apply Hi. Qed.

Lemma to_byte_u8 (v : T) : is_u8 (to_byte v).
Proof.
  pose proof arms_u8 as Hu. rewrite Forall_forall in Hu. apply Hu.
  apply list_elem_of_fmap. exists (v, to_byte v). split; [done|apply arm_of].
Qed.

#[global] Instance to_byte_inj : Inj (=) (=) (to_byte (T := T)).
Proof. intros v v' E. pose proof (from_to_byte v) as Hv. rewrite E, from_to_byte in Hv. congruence. Qed.
End alpha_laws.

(** The table of an enum is a bijection between its variants and the bytes
    it accepts: decoding accepts exactly the encoded bytes, and otherwise reports
    the enum's name with the byte. It holds for each of the eighteen enums, which
    are instances of [AlphaLaws]. *)
Theorem alpha_bijection `{AlphaLaws T} (b : Z) (v : T) :
  (from_byte b = Ok v ↔ to_byte v = b)
  ∧ (from_byte (T := T) b = Err (InvalidEnumCode (FIELD (T := T)) b) ↔ ∀ v', to_byte (T := T) v' ≠ b).
Proof.
  pose proof (from_byte_inv (T := T) b) as Hb. split; split.
  - apply from_byte_ok.
  - intros <-. apply from_to_byte.
  - intros E. rewrite E in Hb. apply Hb.
  - intros Hn. destruct (from_byte b) as [v'|e]; [by destruct (Hn v')|]. destruct Hb as [-> _]. done.
Qed.

Ltac solve_alpha_laws :=
  constructor;
  [ intros []; vm_compute; repeat first [apply list_elem_of_here | apply list_elem_of_further]
  | apply (bool_decide_unpack _); vm_compute; exact I
  | apply (bool_decide_unpack _); vm_compute; exact I
  | apply (bool_decide_unpack _); vm_compute; exact I ].

(** ** The enums *)

(** S System Event lifecycle marker. *)
Module EventCode.
Inductive t := StartOfMessages | StartOfSystemHours | StartOfMarketHours |
  EndOfMarketHours | EndOfSystemHours | EndOfMessages.
#[global] Instance t_eq_dec : EqDecision t. Proof. solve_decision. Defined.
#[global] Instance alpha : AlphaCoded t := {|
  FIELD := "EventCode";
  arms := [(StartOfMessages, b@"O"); (StartOfSystemHours, b@"S"); (StartOfMarketHours, b@"Q");
           (EndOfMarketHours, b@"M"); (EndOfSystemHours, b@"E"); (EndOfMessages, b@"C")] |}.
#[global] Instance laws : AlphaLaws t. Proof. solve_alpha_laws. Qed.
End EventCode.

(** Listing market category. *)
Module MarketCategory.
Inductive t := NasdaqGlobalSelect | NasdaqGlobalMarket | NasdaqCapitalMarket | NyseMkt |
  Nyse | NyseArca | BatsZ | Iex | Unavailable.
#[global] Instance t_eq_dec : EqDecision t. Proof. solve_decision. Defined.
#[global] Instance alpha : AlphaCoded t := {|
  FIELD := "MarketCategory";
  arms := [(NasdaqGlobalSelect, b@"Q"); (NasdaqGlobalMarket, b@"G"); (NasdaqCapitalMarket, b@"S");
           (NyseMkt, b@"A"); (Nyse, b@"N"); (NyseArca, b@"P");
           (BatsZ, b@"Z"); (Iex, b@"V"); (Unavailable, b@" ")] |}.
#[global] Instance laws : AlphaLaws t. Proof. solve_alpha_laws. Qed.
End MarketCategory.

(** Financial-status / listing-rule compliance code. *)
Module FinancialStatus.
Inductive t := Deficient | Delinquent | Bankrupt | Suspended | DeficientAndBankrupt |
  DeficientAndDelinquent | DelinquentAndBankrupt | DeficientDelinquentBankrupt |
  CreationsRedemptionsSuspended | Normal | Unavailable.
#[global] Instance t_eq_dec : EqDecision t. Proof. solve_decision. Defined.
#[global] Instance alpha : AlphaCoded t := {|
  FIELD := "FinancialStatus";
  arms := [(Deficient, b@"D"); (Delinquent, b@"E"); (Bankrupt, b@"Q");
           (Suspended, b@"S"); (DeficientAndBankrupt, b@"G"); (DeficientAndDelinquent, b@"H");
           (DelinquentAndBankrupt, b@"J"); (DeficientDelinquentBankrupt, b@"K"); (CreationsRedemptionsSuspended, b@"C");
           (Normal, b@"N"); (Unavailable, b@" ")] |}.
#[global] Instance laws : AlphaLaws t. Proof. solve_alpha_laws. Qed.
End FinancialStatus.

(** Distinguishes a live symbol from a NASDAQ test symbol. *)
Module Authenticity.
Inductive t := Live | Test.
#[global] Instance t_eq_dec : EqDecision t. Proof. solve_decision. Defined.
#[global] Instance alpha : AlphaCoded t := {|
  FIELD := "Authenticity";
  arms := [(Live, b@"P"); (Test, b@"T")] |}.
#[global] Instance laws : AlphaLaws t. Proof. solve_alpha_laws. Qed.
End Authenticity.

(** Generic three-state Yes / No / Unavailable used by several stock-directory sub-fields. *)
Module YesNo.
Inductive t := Yes | No | Unavailable.
#[global] Instance t_eq_dec : EqDecision t. Proof. solve_decision. Defined.
#[global] Instance alpha : AlphaCoded t := {|
  FIELD := "YesNo";
  arms := [(Yes, b@"Y"); (No, b@"N"); (Unavailable, b@" ")] |}.
#[global] Instance laws : AlphaLaws t. Proof. solve_alpha_laws. Qed.
End YesNo.

(** LULD (Limit Up / Limit Down) tier. *)
Module LuldTier.
Inductive t := Tier1 | Tier2 | Unavailable.
#[global] Instance t_eq_dec : EqDecision t. Proof. solve_decision. Defined.
#[global] Instance alpha : AlphaCoded t := {|
  FIELD := "LuldTier";
  arms := [(Tier1, b@"1"); (Tier2, b@"2"); (Unavailable, b@" ")] |}.
#[global] Instance laws : AlphaLaws t. Proof. solve_alpha_laws. Qed.
End LuldTier.

(** Per-symbol trading state. *)
Module TradingState.
Inductive t := Halted | Paused | QuotationOnly | Trading.
#[global] Instance t_eq_dec : EqDecision t. Proof. solve_decision. Defined.
#[global] Instance alpha : AlphaCoded t := {|
  FIELD := "TradingState";
  arms := [(Halted, b@"H"); (Paused, b@"P"); (QuotationOnly, b@"Q");
           (Trading, b@"T")] |}.
#[global] Instance laws : AlphaLaws t. Proof. solve_alpha_laws. Qed.
End TradingState.

(** Reg SHO short-sale price-test action. *)
Module RegShoAction.
Inductive t := NoPriceTest | InEffectIntradayDrop | InEffect.
#[global] Instance t_eq_dec : EqDecision t. Proof. solve_decision. Defined.
#[global] Instance alpha : AlphaCoded t := {|
  FIELD := "RegShoAction";
  arms := [(NoPriceTest, b@"0"); (InEffectIntradayDrop, b@"1"); (InEffect, b@"2")] |}.
#[global] Instance laws : AlphaLaws t. Proof. solve_alpha_laws. Qed.
End RegShoAction.

(** Market-maker quoting mode. *)
Module MarketMakerMode.
Inductive t := Normal | Passive | Syndicate | PreSyndicate | Penalty.
#[global] Instance t_eq_dec : EqDecision t. Proof. solve_decision. Defined.
#[global] Instance alpha : AlphaCoded t := {|
  FIELD := "MarketMakerMode";
  arms := [(Normal, b@"N"); (Passive, b@"P"); (Syndicate, b@"S");
           (PreSyndicate, b@"R"); (Penalty, b@"L")] |}.
#[global] Instance laws : AlphaLaws t. Proof. solve_alpha_laws. Qed.
End MarketMakerMode.

(** Market-participant lifecycle state. *)
Module MarketParticipantState.
Inductive t := Active | ExcusedOrWithdrawn | Withdrawn | Suspended | Deleted.
#[global] Instance t_eq_dec : EqDecision t. Proof. solve_decision. Defined.
#[global] Instance alpha : AlphaCoded t := {|
  FIELD := "MarketParticipantState";
  arms := [(Active, b@"A"); (ExcusedOrWithdrawn, b@"E"); (Withdrawn, b@"W");
           (Suspended, b@"S"); (Deleted, b@"D")] |}.
#[global] Instance laws : AlphaLaws t. Proof. solve_alpha_laws. Qed.
End MarketParticipantState.

(** Market-Wide Circuit Breaker level breached. *)
Module BreachedLevel.
Inductive t := Level1 | Level2 | Level3.
#[global] Instance t_eq_dec : EqDecision t. Proof. solve_decision. Defined.
#[global] Instance alpha : AlphaCoded t := {|
  FIELD := "BreachedLevel";
  arms := [(Level1, b@"1"); (Level2, b@"2"); (Level3, b@"3")] |}.
#[global] Instance laws : AlphaLaws t. Proof. solve_alpha_laws. Qed.
End BreachedLevel.

(** IPO release qualifier. *)
Module IpoReleaseQualifier.
Inductive t := Anticipated | Cancelled.
#[global] Instance t_eq_dec : EqDecision t. Proof. solve_decision. Defined.
#[global] Instance alpha : AlphaCoded t := {|
  FIELD := "IpoReleaseQualifier";
  arms := [(Anticipated, b@"A"); (Cancelled, b@"C")] |}.
#[global] Instance laws : AlphaLaws t. Proof. solve_alpha_laws. Qed.
End IpoReleaseQualifier.

(** Buy / sell side. *)
Module Side.
Inductive t := Buy | Sell.
#[global] Instance t_eq_dec : EqDecision t. Proof. solve_decision. Defined.
#[global] Instance alpha : AlphaCoded t := {|
  FIELD := "Side";
  arms := [(Buy, b@"B"); (Sell, b@"S")] |}.
#[global] Instance laws : AlphaLaws t. Proof. solve_alpha_laws. Qed.
End Side.

(** Whether the execution should appear on the consolidated tape. *)
Module Printable.
Inductive t := NonPrintable | Printable.
#[global] Instance t_eq_dec : EqDecision t. Proof. solve_decision. Defined.
#[global] Instance alpha : AlphaCoded t := {|
  FIELD := "Printable";
  arms := [(NonPrintable, b@"N"); (Printable, b@"Y")] |}.
#[global] Instance laws : AlphaLaws t. Proof. solve_alpha_laws. Qed.
End Printable.

(** NASDAQ cross type. *)
Module CrossType.
Inductive t := Opening | Closing | Halted | Intraday.
#[global] Instance t_eq_dec : EqDecision t. Proof. solve_decision. Defined.
#[global] Instance alpha : AlphaCoded t := {|
  FIELD := "CrossType";
  arms := [(Opening, b@"O"); (Closing, b@"C"); (Halted, b@"H");
           (Intraday, b@"I")] |}.
#[global] Instance laws : AlphaLaws t. Proof. solve_alpha_laws. Qed.
End CrossType.

(** Direction of the order imbalance reported by NOII. *)
Module ImbalanceDirection.
Inductive t := Buy | Sell | NoImbalance | InsufficientToCalc.
#[global] Instance t_eq_dec : EqDecision t. Proof. solve_decision. Defined.
#[global] Instance alpha : AlphaCoded t := {|
  FIELD := "ImbalanceDirection";
  arms := [(Buy, b@"B"); (Sell, b@"S"); (NoImbalance, b@"N");
           (InsufficientToCalc, b@"O")] |}.
#[global] Instance laws : AlphaLaws t. Proof. solve_alpha_laws. Qed.
End ImbalanceDirection.

(** NOII price-variation indicator (rounded percentage between the reference price and the near indicative price). *)
Module PriceVariation.
Inductive t := LessThan1Percent | Pct1To2 | Pct2To3 | Pct3To4 | Pct4To5 | Pct5To6 |
  Pct6To7 | Pct7To8 | Pct8To9 | Pct9To10 | Pct10To20 | Pct20To30 | Pct30OrGreater |
  CannotBeCalculated.
#[global] Instance t_eq_dec : EqDecision t. Proof. solve_decision. Defined.
#[global] Instance alpha : AlphaCoded t := {|
  FIELD := "PriceVariation";
  arms := [(LessThan1Percent, b@"L"); (Pct1To2, b@"1"); (Pct2To3, b@"2");
           (Pct3To4, b@"3"); (Pct4To5, b@"4"); (Pct5To6, b@"5");
           (Pct6To7, b@"6"); (Pct7To8, b@"7"); (Pct8To9, b@"8");
           (Pct9To10, b@"9"); (Pct10To20, b@"A"); (Pct20To30, b@"B");
           (Pct30OrGreater, b@"C"); (CannotBeCalculated, b@" ")] |}.
#[global] Instance laws : AlphaLaws t. Proof. solve_alpha_laws. Qed.
End PriceVariation.

(** RPII interest-side flag. *)
Module RpiInterestFlag.
Inductive t := BuySide | SellSide | BothSides | None.
#[global] Instance t_eq_dec : EqDecision t. Proof. solve_decision. Defined.
#[global] Instance alpha : AlphaCoded t := {|
  FIELD := "RpiInterestFlag";
  arms := [(BuySide, b@"B"); (SellSide, b@"S"); (BothSides, b@"A");
           (None, b@"N")] |}.
#[global] Instance laws : AlphaLaws t. Proof. solve_alpha_laws. Qed.
End RpiInterestFlag.

Lemma alpha_bijection_witness :
  (from_byte b@"S" = Ok Side.Sell ↔ to_byte Side.Sell = b@"S")
  ∧ (from_byte (T := Side.t) b@"S" = Err (InvalidEnumCode "Side" b@"S")
     ↔ ∀ v' : Side.t, to_byte v' ≠ b@"S").
Proof. exact (alpha_bijection b@"S" Side.Sell). Defined.
