(* ===== verification/Messages.v ===== *)
(** The message structs of ITCH 5.0 and the [Message] enum
    ([crates/itch-protocol/src/messages.rs]).

    One module per struct, with the source's field names, its [BODY_LEN] and
    its [Default] value; [wf] collects the ranges that the Rust field types
    give (an array [[u8; n]] is a list of [n] bytes). *)

From S2P Require Import Prelude Primitives Enums.

(** 10-byte header at the start of every ITCH 5.0 message body. *)
Module Header.
Record t := mk {
  stock_locate : StockLocate.t; tracking_number : TrackingNumber.t;
  timestamp : Timestamp.t }.
Definition WIRE_LEN : nat := 10.
Definition default : t :=
  mk StockLocate.default TrackingNumber.default Timestamp.default.
#[global] Instance t_eq_dec : EqDecision t. Proof. solve_decision. Defined.
#[global] Instance t_wf : WellFormed t := λ m,
  wf (stock_locate m) ∧ wf (tracking_number m) ∧ wf (timestamp m).
End Header.

(** S System Event. Body 11 B (10 header + 1 event code). *)
Module SystemEvent.
Record t := mk {
  header : Header.t; event_code : EventCode.t }.
Definition BODY_LEN : nat := 11.
Definition default : t :=
  mk Header.default EventCode.StartOfMessages.
#[global] Instance t_eq_dec : EqDecision t. Proof. solve_decision. Defined.
#[global] Instance t_wf : WellFormed t := λ m,
  wf (header m).
End SystemEvent.

(** R Stock Directory. Body 38 B (10 header + 28 payload). *)
Module StockDirectory.
Record t := mk {
  header : Header.t; stock : Stock.t; market_category : MarketCategory.t;
  financial_status : FinancialStatus.t; round_lot_size : Shares.t;
  round_lots_only : YesNo.t; issue_classification : Z; issue_subtype : list Z;
  authenticity : Authenticity.t; short_sale_threshold : YesNo.t; ipo_flag : YesNo.t;
  luld_reference_price_tier : LuldTier.t; etp_flag : YesNo.t; etp_leverage_factor : Z;
  inverse_indicator : YesNo.t }.
Definition BODY_LEN : nat := 38.
Definition default : t :=
  mk Header.default Stock.default MarketCategory.Unavailable FinancialStatus.Unavailable
     Shares.default YesNo.Unavailable space (replicate 2 space) Authenticity.Live
     YesNo.Unavailable YesNo.Unavailable LuldTier.Unavailable YesNo.Unavailable 0
     YesNo.Unavailable.
#[global] Instance t_eq_dec : EqDecision t. Proof. solve_decision. Defined.
#[global] Instance t_wf : WellFormed t := λ m,
  wf (header m) ∧ wf (stock m) ∧ wf (round_lot_size m) ∧
  is_u8 (issue_classification m) ∧
  length (issue_subtype m) = 2%nat ∧ Forall is_u8 (issue_subtype m) ∧
  is_u32 (etp_leverage_factor m).
End StockDirectory.

(** H Stock Trading Action. Body 24 B (10 header + 14 payload). *)
Module StockTradingAction.
Record t := mk {
  header : Header.t; stock : Stock.t; trading_state : TradingState.t; reserved : Z;
  reason : list Z }.
Definition BODY_LEN : nat := 24.
Definition default : t :=
  mk Header.default Stock.default TradingState.Trading space (replicate 4 space).
#[global] Instance t_eq_dec : EqDecision t. Proof. solve_decision. Defined.
#[global] Instance t_wf : WellFormed t := λ m,
  wf (header m) ∧ wf (stock m) ∧ is_u8 (reserved m) ∧
  length (reason m) = 4%nat ∧ Forall is_u8 (reason m).
End StockTradingAction.

(** Y Reg SHO Short-Sale Price-Test Restriction. Body 19 B *)
Module RegShoRestriction.
Record t := mk {
  header : Header.t; stock : Stock.t; reg_sho_action : RegShoAction.t }.
Definition BODY_LEN : nat := 19.
Definition default : t :=
  mk Header.default Stock.default RegShoAction.NoPriceTest.
#[global] Instance t_eq_dec : EqDecision t. Proof. solve_decision. Defined.
#[global] Instance t_wf : WellFormed t := λ m,
  wf (header m) ∧ wf (stock m).
End RegShoRestriction.

(** L Market Participant Position. Body 25 B (10 header + 15 payload). *)
Module MarketParticipantPosition.
Record t := mk {
  header : Header.t; mpid : Mpid.t; stock : Stock.t; primary_market_maker : YesNo.t;
  market_maker_mode : MarketMakerMode.t;
  market_participant_state : MarketParticipantState.t }.
Definition BODY_LEN : nat := 25.
Definition default : t :=
  mk Header.default Mpid.default Stock.default YesNo.Unavailable MarketMakerMode.Normal
     MarketParticipantState.Active.
#[global] Instance t_eq_dec : EqDecision t. Proof. solve_decision. Defined.
#[global] Instance t_wf : WellFormed t := λ m,
  wf (header m) ∧ wf (mpid m) ∧ wf (stock m).
End MarketParticipantPosition.

(** V MWCB Decline Level. Body 34 B (10 header + 24 payload). *)
Module MwcbDeclineLevel.
Record t := mk {
  header : Header.t; level1 : Price8.t; level2 : Price8.t; level3 : Price8.t }.
Definition BODY_LEN : nat := 34.
Definition default : t :=
  mk Header.default Price8.default Price8.default Price8.default.
#[global] Instance t_eq_dec : EqDecision t. Proof. solve_decision. Defined.
#[global] Instance t_wf : WellFormed t := λ m,
  wf (header m) ∧ wf (level1 m) ∧ wf (level2 m) ∧ wf (level3 m).
End MwcbDeclineLevel.

(** W MWCB Status. Body 11 B (10 header + 1 payload). *)
Module MwcbStatus.
Record t := mk {
  header : Header.t; breached_level : BreachedLevel.t }.
Definition BODY_LEN : nat := 11.
Definition default : t :=
  mk Header.default BreachedLevel.Level1.
#[global] Instance t_eq_dec : EqDecision t. Proof. solve_decision. Defined.
#[global] Instance t_wf : WellFormed t := λ m,
  wf (header m).
End MwcbStatus.

(** K IPO Quoting Period Update. Body 27 B (10 header + 17 payload). *)
Module IpoQuotingPeriodUpdate.
Record t := mk {
  header : Header.t; stock : Stock.t; ipo_quotation_release_time : Z;
  ipo_quotation_release_qualifier : IpoReleaseQualifier.t; ipo_price : Price4.t }.
Definition BODY_LEN : nat := 27.
Definition default : t :=
  mk Header.default Stock.default 0 IpoReleaseQualifier.Anticipated Price4.default.
#[global] Instance t_eq_dec : EqDecision t. Proof. solve_decision. Defined.
#[global] Instance t_wf : WellFormed t := λ m,
  wf (header m) ∧ wf (stock m) ∧ is_u32 (ipo_quotation_release_time m) ∧
  wf (ipo_price m).
End IpoQuotingPeriodUpdate.

(** A Add Order — No MPID. Body 35 B (10 header + 25 payload). *)
Module AddOrder.
Record t := mk {
  header : Header.t; order_ref : OrderReference.t; side : Side.t; shares : Shares.t;
  stock : Stock.t; price : Price4.t }.
Definition BODY_LEN : nat := 35.
Definition default : t :=
  mk Header.default OrderReference.default Side.Buy Shares.default Stock.default
     Price4.default.
#[global] Instance t_eq_dec : EqDecision t. Proof. solve_decision. Defined.
#[global] Instance t_wf : WellFormed t := λ m,
  wf (header m) ∧ wf (order_ref m) ∧ wf (shares m) ∧ wf (stock m) ∧ wf (price m).
End AddOrder.

(** F Add Order — With MPID. Body 39 B (10 header + 29 payload). *)
Module AddOrderWithMpid.
Record t := mk {
  header : Header.t; order_ref : OrderReference.t; side : Side.t; shares : Shares.t;
  stock : Stock.t; price : Price4.t; attribution : Mpid.t }.
Definition BODY_LEN : nat := 39.
Definition default : t :=
  mk Header.default OrderReference.default Side.Buy Shares.default Stock.default
     Price4.default Mpid.default.
#[global] Instance t_eq_dec : EqDecision t. Proof. solve_decision. Defined.
#[global] Instance t_wf : WellFormed t := λ m,
  wf (header m) ∧ wf (order_ref m) ∧ wf (shares m) ∧ wf (stock m) ∧ wf (price m) ∧
  wf (attribution m).
End AddOrderWithMpid.

(** E Order Executed. Body 30 B (10 header + 20 payload). *)
Module OrderExecuted.
Record t := mk {
  header : Header.t; order_ref : OrderReference.t; executed_shares : Shares.t;
  match_number : MatchNumber.t }.
Definition BODY_LEN : nat := 30.
Definition default : t :=
  mk Header.default OrderReference.default Shares.default MatchNumber.default.
#[global] Instance t_eq_dec : EqDecision t. Proof. solve_decision. Defined.
#[global] Instance t_wf : WellFormed t := λ m,
  wf (header m) ∧ wf (order_ref m) ∧ wf (executed_shares m) ∧ wf (match_number m).
End OrderExecuted.

(** C Order Executed With Price. Body 35 B (10 header + 25 payload). *)
Module OrderExecutedWithPrice.
Record t := mk {
  header : Header.t; order_ref : OrderReference.t; executed_shares : Shares.t;
  match_number : MatchNumber.t; printable : Printable.t; execution_price : Price4.t }.
Definition BODY_LEN : nat := 35.
Definition default : t :=
  mk Header.default OrderReference.default Shares.default MatchNumber.default
     Printable.Printable Price4.default.
#[global] Instance t_eq_dec : EqDecision t. Proof. solve_decision. Defined.
#[global] Instance t_wf : WellFormed t := λ m,
  wf (header m) ∧ wf (order_ref m) ∧ wf (executed_shares m) ∧ wf (match_number m) ∧
  wf (execution_price m).
End OrderExecutedWithPrice.

(** X Order Cancel. Body 22 B (10 header + 12 payload). *)
Module OrderCancel.
Record t := mk {
  header : Header.t; order_ref : OrderReference.t; cancelled_shares : Shares.t }.
Definition BODY_LEN : nat := 22.
Definition default : t :=
  mk Header.default OrderReference.default Shares.default.
#[global] Instance t_eq_dec : EqDecision t. Proof. solve_decision. Defined.
#[global] Instance t_wf : WellFormed t := λ m,
  wf (header m) ∧ wf (order_ref m) ∧ wf (cancelled_shares m).
End OrderCancel.

(** D Order Delete. Body 18 B (10 header + 8 payload). *)
Module OrderDelete.
Record t := mk {
  header : Header.t; order_ref : OrderReference.t }.
Definition BODY_LEN : nat := 18.
Definition default : t :=
  mk Header.default OrderReference.default.
#[global] Instance t_eq_dec : EqDecision t. Proof. solve_decision. Defined.
#[global] Instance t_wf : WellFormed t := λ m,
  wf (header m) ∧ wf (order_ref m).
End OrderDelete.

(** U Order Replace. Body 34 B (10 header + 24 payload). *)
Module OrderReplace.
Record t := mk {
  header : Header.t; original_order_ref : OrderReference.t;
  new_order_ref : OrderReference.t; shares : Shares.t; price : Price4.t }.
Definition BODY_LEN : nat := 34.
Definition default : t :=
  mk Header.default OrderReference.default OrderReference.default Shares.default
     Price4.default.
#[global] Instance t_eq_dec : EqDecision t. Proof. solve_decision. Defined.
#[global] Instance t_wf : WellFormed t := λ m,
  wf (header m) ∧ wf (original_order_ref m) ∧ wf (new_order_ref m) ∧ wf (shares m) ∧
  wf (price m).
End OrderReplace.

(** P Trade (Non-Cross). Body 43 B (10 header + 33 payload). *)
Module TradeNonCross.
Record t := mk {
  header : Header.t; order_ref : OrderReference.t; side : Side.t; shares : Shares.t;
  stock : Stock.t; price : Price4.t; match_number : MatchNumber.t }.
Definition BODY_LEN : nat := 43.
Definition default : t :=
  mk Header.default OrderReference.default Side.Buy Shares.default Stock.default
     Price4.default MatchNumber.default.
#[global] Instance t_eq_dec : EqDecision t. Proof. solve_decision. Defined.
#[global] Instance t_wf : WellFormed t := λ m,
  wf (header m) ∧ wf (order_ref m) ∧ wf (shares m) ∧ wf (stock m) ∧ wf (price m) ∧
  wf (match_number m).
End TradeNonCross.

(** Q Cross Trade. Body 39 B (10 header + 29 payload). *)
Module CrossTrade.
Record t := mk {
  header : Header.t; shares : Z; stock : Stock.t; cross_price : Price4.t;
  match_number : MatchNumber.t; cross_type : CrossType.t }.
Definition BODY_LEN : nat := 39.
Definition default : t :=
  mk Header.default 0 Stock.default Price4.default MatchNumber.default CrossType.Opening.
#[global] Instance t_eq_dec : EqDecision t. Proof. solve_decision. Defined.
#[global] Instance t_wf : WellFormed t := λ m,
  wf (header m) ∧ is_u64 (shares m) ∧ wf (stock m) ∧ wf (cross_price m) ∧
  wf (match_number m).
End CrossTrade.

(** B Broken Trade. Body 18 B (10 header + 8 payload). *)
Module BrokenTrade.
Record t := mk {
  header : Header.t; match_number : MatchNumber.t }.
Definition BODY_LEN : nat := 18.
Definition default : t :=
  mk Header.default MatchNumber.default.
#[global] Instance t_eq_dec : EqDecision t. Proof. solve_decision. Defined.
#[global] Instance t_wf : WellFormed t := λ m,
  wf (header m) ∧ wf (match_number m).
End BrokenTrade.

(** I Net Order Imbalance Indicator (NOII). Body 49 B *)
Module Noii.
Record t := mk {
  header : Header.t; paired_shares : Z; imbalance_shares : Z;
  imbalance_direction : ImbalanceDirection.t; stock : Stock.t; far_price : Price4.t;
  near_price : Price4.t; current_reference_price : Price4.t; cross_type : CrossType.t;
  price_variation : PriceVariation.t }.
Definition BODY_LEN : nat := 49.
Definition default : t :=
  mk Header.default 0 0 ImbalanceDirection.NoImbalance Stock.default Price4.default
     Price4.default Price4.default CrossType.Opening PriceVariation.CannotBeCalculated.
#[global] Instance t_eq_dec : EqDecision t. Proof. solve_decision. Defined.
#[global] Instance t_wf : WellFormed t := λ m,
  wf (header m) ∧ is_u64 (paired_shares m) ∧ is_u64 (imbalance_shares m) ∧
  wf (stock m) ∧ wf (far_price m) ∧ wf (near_price m) ∧ wf (current_reference_price m).
End Noii.

(** N Retail Price Improvement Indicator (RPII). Body 19 B *)
Module RetailPriceImprovement.
Record t := mk {
  header : Header.t; stock : Stock.t; interest_flag : RpiInterestFlag.t }.
Definition BODY_LEN : nat := 19.
Definition default : t :=
  mk Header.default Stock.default RpiInterestFlag.None.
#[global] Instance t_eq_dec : EqDecision t. Proof. solve_decision. Defined.
#[global] Instance t_wf : WellFormed t := λ m,
  wf (header m) ∧ wf (stock m).
End RetailPriceImprovement.

(** Top-level enum: one variant per ITCH 5.0 message kind. *)
Module Message.
Inductive t :=
| SystemEvent (m : SystemEvent.t)
| StockDirectory (m : StockDirectory.t)
| StockTradingAction (m : StockTradingAction.t)
| RegShoRestriction (m : RegShoRestriction.t)
| MarketParticipantPosition (m : MarketParticipantPosition.t)
| MwcbDeclineLevel (m : MwcbDeclineLevel.t)
| MwcbStatus (m : MwcbStatus.t)
| IpoQuotingPeriodUpdate (m : IpoQuotingPeriodUpdate.t)
| AddOrder (m : AddOrder.t)
| AddOrderWithMpid (m : AddOrderWithMpid.t)
| OrderExecuted (m : OrderExecuted.t)
| OrderExecutedWithPrice (m : OrderExecutedWithPrice.t)
| OrderCancel (m : OrderCancel.t)
| OrderDelete (m : OrderDelete.t)
| OrderReplace (m : OrderReplace.t)
| TradeNonCross (m : TradeNonCross.t)
| CrossTrade (m : CrossTrade.t)
| BrokenTrade (m : BrokenTrade.t)
| Noii (m : Noii.t)
| RetailPriceImprovement (m : RetailPriceImprovement.t).
#[global] Instance t_eq_dec : EqDecision t. Proof. solve_decision. Defined.
Definition tag (msg : t) : Z :=
  match msg with
  | SystemEvent _ => b@"S"
  | StockDirectory _ => b@"R"
  | StockTradingAction _ => b@"H"
  | RegShoRestriction _ => b@"Y"
  | MarketParticipantPosition _ => b@"L"
  | MwcbDeclineLevel _ => b@"V"
  | MwcbStatus _ => b@"W"
  | IpoQuotingPeriodUpdate _ => b@"K"
  | AddOrder _ => b@"A"
  | AddOrderWithMpid _ => b@"F"
  | OrderExecuted _ => b@"E"
  | OrderExecutedWithPrice _ => b@"C"
  | OrderCancel _ => b@"X"
  | OrderDelete _ => b@"D"
  | OrderReplace _ => b@"U"
  | TradeNonCross _ => b@"P"
  | CrossTrade _ => b@"Q"
  | BrokenTrade _ => b@"B"
  | Noii _ => b@"I"
  | RetailPriceImprovement _ => b@"N"
  end.
Definition header (msg : t) : Header.t :=
  match msg with
  | SystemEvent m => SystemEvent.header m
  | StockDirectory m => StockDirectory.header m
  | StockTradingAction m => StockTradingAction.header m
  | RegShoRestriction m => RegShoRestriction.header m
  | MarketParticipantPosition m => MarketParticipantPosition.header m
  | MwcbDeclineLevel m => MwcbDeclineLevel.header m
  | MwcbStatus m => MwcbStatus.header m
  | IpoQuotingPeriodUpdate m => IpoQuotingPeriodUpdate.header m
  | AddOrder m => AddOrder.header m
  | AddOrderWithMpid m => AddOrderWithMpid.header m
  | OrderExecuted m => OrderExecuted.header m
  | OrderExecutedWithPrice m => OrderExecutedWithPrice.header m
  | OrderCancel m => OrderCancel.header m
  | OrderDelete m => OrderDelete.header m
  | OrderReplace m => OrderReplace.header m
  | TradeNonCross m => TradeNonCross.header m
  | CrossTrade m => CrossTrade.header m
  | BrokenTrade m => BrokenTrade.header m
  | Noii m => Noii.header m
  | RetailPriceImprovement m => RetailPriceImprovement.header m
  end.
Definition body_len (msg : t) : nat :=
  match msg with
  | SystemEvent _ => SystemEvent.BODY_LEN
  | StockDirectory _ => StockDirectory.BODY_LEN
  | StockTradingAction _ => StockTradingAction.BODY_LEN
  | RegShoRestriction _ => RegShoRestriction.BODY_LEN
  | MarketParticipantPosition _ => MarketParticipantPosition.BODY_LEN
  | MwcbDeclineLevel _ => MwcbDeclineLevel.BODY_LEN
  | MwcbStatus _ => MwcbStatus.BODY_LEN
  | IpoQuotingPeriodUpdate _ => IpoQuotingPeriodUpdate.BODY_LEN
  | AddOrder _ => AddOrder.BODY_LEN
  | AddOrderWithMpid _ => AddOrderWithMpid.BODY_LEN
  | OrderExecuted _ => OrderExecuted.BODY_LEN
  | OrderExecutedWithPrice _ => OrderExecutedWithPrice.BODY_LEN
  | OrderCancel _ => OrderCancel.BODY_LEN
  | OrderDelete _ => OrderDelete.BODY_LEN
  | OrderReplace _ => OrderReplace.BODY_LEN
  | TradeNonCross _ => TradeNonCross.BODY_LEN
  | CrossTrade _ => CrossTrade.BODY_LEN
  | BrokenTrade _ => BrokenTrade.BODY_LEN
  | Noii _ => Noii.BODY_LEN
  | RetailPriceImprovement _ => RetailPriceImprovement.BODY_LEN
  end.
Definition encoded_len (msg : t) : nat :=
  (1 + body_len msg)%nat.
#[global] Instance t_wf : WellFormed t := λ msg,
  match msg with
  | SystemEvent m => wf m
  | StockDirectory m => wf m
  | StockTradingAction m => wf m
  | RegShoRestriction m => wf m
  | MarketParticipantPosition m => wf m
  | MwcbDeclineLevel m => wf m
  | MwcbStatus m => wf m
  | IpoQuotingPeriodUpdate m => wf m
  | AddOrder m => wf m
  | AddOrderWithMpid m => wf m
  | OrderExecuted m => wf m
  | OrderExecutedWithPrice m => wf m
  | OrderCancel m => wf m
  | OrderDelete m => wf m
  | OrderReplace m => wf m
  | TradeNonCross m => wf m
  | CrossTrade m => wf m
  | BrokenTrade m => wf m
  | Noii m => wf m
  | RetailPriceImprovement m => wf m
  end.
End Message.

#[export] Hint Unfold Header.t_wf SystemEvent.t_wf StockDirectory.t_wf StockTradingAction.t_wf
  RegShoRestriction.t_wf MarketParticipantPosition.t_wf MwcbDeclineLevel.t_wf
  MwcbStatus.t_wf IpoQuotingPeriodUpdate.t_wf AddOrder.t_wf AddOrderWithMpid.t_wf
  OrderExecuted.t_wf OrderExecutedWithPrice.t_wf OrderCancel.t_wf OrderDelete.t_wf
  OrderReplace.t_wf TradeNonCross.t_wf CrossTrade.t_wf BrokenTrade.t_wf Noii.t_wf
  RetailPriceImprovement.t_wf : wf_unfold.
