(* ===== verification/Codec.v ===== *)
(** The byte helpers and traits of the ITCH codec
    ([crates/itch-protocol/src/codec.rs], lines 1-226).

    A [&[u8]] is a [list Z]; a function that takes [&mut [u8]] is a state
    transformer of the prelude's type [mut], so that what an error leaves in
    the buffer is part of the model.  [slice_n] and [slice_n_mut] keep the
    [checked_add] guard of the source.  The class [BodyCodec] is the contract
    between the codec of one message kind and its users: a reference encoding
    [wire], written as the concatenation of the fields, that [encode_body]
    writes and [decode_body] reads back. *)

From S2P Require Import Prelude Primitives Enums Messages.

(** ** Byte helpers *)

Definition need (buf : list Z) (n : nat) : result unit ProtocolError :=
  if (length buf <? n)%nat then Err (Truncated (Z.of_nat n) (Z.of_nat (length buf)))
  else Ok tt.

(** [slice.get(off..end)]. *)
Definition get_range (buf : list Z) (off n : nat) : option (list Z) :=
  if (off + n <=? length buf)%nat then Some (sub off n buf) else None.

Definition slice_n (buf : list Z) (off n : nat) : result (list Z) ProtocolError :=
  match usize_checked_add (Z.of_nat off) (Z.of_nat n) with
  | None => Err (Truncated usize_max (Z.of_nat (length buf)))
  | Some e =>
      match get_range buf off n with
      | Some s => Ok s
      | None => Err (Truncated e (Z.of_nat (length buf)))
      end
  end.

Definition slice_n_mut (buf : list Z) (off n : nat) : result (list Z) ProtocolError :=
  match usize_checked_add (Z.of_nat off) (Z.of_nat n) with
  | None => Err (BufferTooSmall usize_max (Z.of_nat (length buf)))
  | Some e =>
      match get_range buf off n with
      | Some s => Ok s
      | None => Err (BufferTooSmall e (Z.of_nat (length buf)))
      end
  end.

(** [let s = slice_n_mut(buf, off, n)?; f(s)]: [f] works on the borrowed bytes,
    which are part of the buffer. *)
Definition borrow_mut {A} (off n : nat) (f : mut (list Z) A ProtocolError)
    : mut (list Z) A ProtocolError := λ buf,
  match slice_n_mut buf off n with
  | Err e => (buf, Err e)
  | Ok s => let '(s', r) := f s in (take off buf ++ s' ++ drop (off + n) buf, r)
  end.

(** [s.copy_from_slice(src)], for [src] as long as [s]. *)
Definition copy_from_slice (src : list Z) : mut (list Z) unit ProtocolError :=
  λ _, (src, Ok tt).

Definition read_u8 (buf : list Z) (off : nat) : result Z ProtocolError :=
  let? s := slice_n buf off 1 in Ok (nth 0 s 0).
Definition read_u16 (buf : list Z) (off : nat) : result Z ProtocolError :=
  let? s := slice_n buf off 2 in Ok (from_be_bytes s).
Definition read_u32 (buf : list Z) (off : nat) : result Z ProtocolError :=
  let? s := slice_n buf off 4 in Ok (from_be_bytes s).
Definition read_u64 (buf : list Z) (off : nat) : result Z ProtocolError :=
  let? s := slice_n buf off 8 in Ok (from_be_bytes s).
(** The high two bytes of the [[u8; 8]] stay zero. *)
Definition read_u48 (buf : list Z) (off : nat) : result Z ProtocolError :=
  let? s := slice_n buf off 6 in Ok (from_be_bytes (replicate 2 0 ++ s)).
Definition read_bytes_n (N : nat) (buf : list Z) (off : nat) : result (list Z) ProtocolError :=
  slice_n buf off N.

Definition write_u8 (off : nat) (v : Z) : mut (list Z) unit ProtocolError :=
  borrow_mut off 1 (λ s, (<[0%nat := v]> s, Ok tt)).
Definition write_u16 (off : nat) (v : Z) : mut (list Z) unit ProtocolError :=
  borrow_mut off 2 (copy_from_slice (to_be_bytes 2 v)).
Definition write_u32 (off : nat) (v : Z) : mut (list Z) unit ProtocolError :=
  borrow_mut off 4 (copy_from_slice (to_be_bytes 4 v)).
Definition write_u64 (off : nat) (v : Z) : mut (list Z) unit ProtocolError :=
  borrow_mut off 8 (copy_from_slice (to_be_bytes 8 v)).
Definition write_u48 (off : nat) (v : Z) : mut (list Z) unit ProtocolError :=
  borrow_mut off 6 (copy_from_slice (sub 2 6 (to_be_bytes 8 v))).
Definition write_bytes (off : nat) (src : list Z) : mut (list Z) unit ProtocolError :=
  borrow_mut off (length src) (copy_from_slice src).

(** [let _ = slice_n_mut(buf, 0, n)?;] *)
Definition reserve (n : nat) : mut (list Z) unit ProtocolError :=
  borrow_mut 0 n ok.

(** ** Header *)

Definition Header_decode_at (buf : list Z) : result Header.t ProtocolError :=
  let? stock_locate := read_u16 buf 0 in
  let? tracking_number := read_u16 buf 2 in
  let? timestamp := read_u48 buf 4 in
  Ok (Header.mk (StockLocate.from_u16 stock_locate)
                (TrackingNumber.from_u16 tracking_number)
                (Timestamp.from_u64 timestamp)).

Definition Header_encode_at (h : Header.t) : mut (list Z) unit ProtocolError :=
  write_u16 0 (StockLocate.as_u16 (Header.stock_locate h)) ;;?
  write_u16 2 (TrackingNumber.as_u16 (Header.tracking_number h)) ;;?
  write_u48 4 (Timestamp.as_u64 (Header.timestamp h)) ;;?
  ok.

(** ** The traits *)

Class Encode (T : Type) := {
  body_len : T → nat;
  encode_body : T → mut (list Z) unit ProtocolError;
}.
Class Decode (T : Type) := decode_body : list Z → result T ProtocolError.

(** ** Reads and writes against the reference bytes *)

Lemma slice_n_ok buf off n :
  (off + n ≤ length buf)%nat → Z.of_nat (off + n) ≤ usize_max →
  slice_n buf off n = Ok (sub off n buf).
Proof.
  intros Hl Hu. unfold slice_n, usize_checked_add, get_range.
  destruct (Z.leb_spec (Z.of_nat off + Z.of_nat n) usize_max); [|lia].
  by destruct (Nat.leb_spec (off + n) (length buf)); [|lia].
Qed.

Lemma slice_n_inv buf off n s :
  slice_n buf off n = Ok s → (off + n ≤ length buf)%nat ∧ s = sub off n buf.
Proof.
  unfold slice_n, get_range. intros E.
  destruct (usize_checked_add _ _); [|done].
  by destruct (Nat.leb_spec (off + n) (length buf)); simplify_eq.
Qed.

Lemma slice_n_mut_ok buf off n :
  (off + n ≤ length buf)%nat → Z.of_nat (off + n) ≤ usize_max →
  slice_n_mut buf off n = Ok (sub off n buf).
Proof.
  intros Hl Hu. unfold slice_n_mut, usize_checked_add, get_range.
  destruct (Z.leb_spec (Z.of_nat off + Z.of_nat n) usize_max); [|lia].
  by destruct (Nat.leb_spec (off + n) (length buf)); [|lia].
Qed.

Lemma slice_n_mut_short buf off n :
  (length buf < off + n)%nat → Z.of_nat (off + n) ≤ usize_max →
  slice_n_mut buf off n
  = Err (BufferTooSmall (Z.of_nat (off + n)) (Z.of_nat (length buf))).
Proof.
  intros Hl Hu. unfold slice_n_mut, usize_checked_add, get_range.
  destruct (Z.leb_spec (Z.of_nat off + Z.of_nat n) usize_max); [|lia].
  destruct (Nat.leb_spec (off + n) (length buf)); [lia|]. by rewrite Nat2Z.inj_add.
Qed.

(** A write at the end of the bytes already written. *)
Lemma borrow_mut_append {A} pre bs buf off n (r : result A ProtocolError) f :
  length pre = off → (off + n ≤ length buf)%nat → Z.of_nat (off + n) ≤ usize_max →
  length bs = n → (∀ s, length s = n → f s = (bs, r)) →
  borrow_mut off n f (pre ++ drop off buf) = ((pre ++ bs) ++ drop (off + n) buf, r).
Proof.
  intros Hpre Hlen Hu Hbs Hf. unfold borrow_mut.
  rewrite slice_n_mut_ok by (rewrite ?length_app, ?length_drop; lia).
  rewrite Hf by (rewrite length_sub; rewrite ?length_app, ?length_drop; lia).
  rewrite take_app_le, take_ge, drop_app_ge by lia.
  rewrite drop_drop, <-app_assoc. repeat f_equal; lia.
Qed.

Lemma write_u8_append pre buf off v :
  length pre = off → (off + 1 ≤ length buf)%nat → Z.of_nat (off + 1) ≤ usize_max →
  write_u8 off v (pre ++ drop off buf) = ((pre ++ [v]) ++ drop (off + 1) buf, Ok tt).
Proof.
  intros. apply borrow_mut_append; [done..|]. intros s Hs.
  by destruct s as [|? []].
Qed.

Lemma write_u16_append pre buf off v :
  length pre = off → (off + 2 ≤ length buf)%nat → Z.of_nat (off + 2) ≤ usize_max →
  write_u16 off v (pre ++ drop off buf)
  = ((pre ++ to_be_bytes 2 v) ++ drop (off + 2) buf, Ok tt).
Proof. intros. by apply borrow_mut_append. Qed.

Lemma write_u32_append pre buf off v :
  length pre = off → (off + 4 ≤ length buf)%nat → Z.of_nat (off + 4) ≤ usize_max →
  write_u32 off v (pre ++ drop off buf)
  = ((pre ++ to_be_bytes 4 v) ++ drop (off + 4) buf, Ok tt).
Proof. intros. by apply borrow_mut_append. Qed.

Lemma write_u64_append pre buf off v :
  length pre = off → (off + 8 ≤ length buf)%nat → Z.of_nat (off + 8) ≤ usize_max →
  write_u64 off v (pre ++ drop off buf)
  = ((pre ++ to_be_bytes 8 v) ++ drop (off + 8) buf, Ok tt).
Proof. intros. by apply borrow_mut_append. Qed.

(** The low six bytes of the eight-byte form are the six-byte form. *)
Lemma sub_to_be_bytes_u48 v : sub 2 6 (to_be_bytes 8 v) = to_be_bytes 6 v.
Proof. done. Qed.

Lemma write_u48_append pre buf off v :
  length pre = off → (off + 6 ≤ length buf)%nat → Z.of_nat (off + 6) ≤ usize_max →
  write_u48 off v (pre ++ drop off buf)
  = ((pre ++ to_be_bytes 6 v) ++ drop (off + 6) buf, Ok tt).
Proof.
  intros. unfold write_u48. rewrite sub_to_be_bytes_u48. by apply borrow_mut_append.
Qed.

Lemma write_bytes_append pre buf off n bs :
  length bs = n → length pre = off → (off + n ≤ length buf)%nat →
  Z.of_nat (off + n) ≤ usize_max →
  write_bytes off bs (pre ++ drop off buf)
  = ((pre ++ bs) ++ drop (off + n) buf, Ok tt).
Proof. intros. subst n. by apply borrow_mut_append. Qed.

Lemma reserve_ok n buf :
  (n ≤ length buf)%nat → Z.of_nat n ≤ usize_max → reserve n buf = (buf, Ok tt).
Proof.
  intros. unfold reserve, borrow_mut. rewrite slice_n_mut_ok by lia.
  unfold ok. simpl. unfold sub. by rewrite drop_0, take_drop.
Qed.

Lemma reserve_short n buf :
  (length buf < n)%nat → Z.of_nat n ≤ usize_max →
  reserve n buf = (buf, Err (BufferTooSmall (Z.of_nat n) (Z.of_nat (length buf)))).
Proof.
  intros. unfold reserve, borrow_mut. by rewrite slice_n_mut_short by lia.
Qed.

Lemma and_then_ok {S A E} (m : mut S unit E) (k : mut S A E) s s' r :
  m s = (s', Ok tt) → k s' = r → (m ;;? k) s = r.
Proof. intros Hm Hk. unfold and_then. by rewrite Hm. Qed.

(** Each read returns the value whose bytes stand at the offset... *)
Lemma read_u8_at buf off v :
  (off + 1 ≤ length buf)%nat → Z.of_nat (off + 1) ≤ usize_max →
  sub off 1 buf = [v] → read_u8 buf off = Ok v.
Proof. intros ?? E. unfold read_u8. rewrite slice_n_ok by done. by rewrite E. Qed.

Lemma read_u16_at buf off v :
  (off + 2 ≤ length buf)%nat → Z.of_nat (off + 2) ≤ usize_max → is_u16 v →
  sub off 2 buf = to_be_bytes 2 v → read_u16 buf off = Ok v.
Proof.
  intros ??? E. unfold read_u16. rewrite slice_n_ok, E by done.
  by rewrite (from_be_to_be 2 16).
Qed.

Lemma read_u32_at buf off v :
  (off + 4 ≤ length buf)%nat → Z.of_nat (off + 4) ≤ usize_max → is_u32 v →
  sub off 4 buf = to_be_bytes 4 v → read_u32 buf off = Ok v.
Proof.
  intros ??? E. unfold read_u32. rewrite slice_n_ok, E by done.
  by rewrite (from_be_to_be 4 32).
Qed.

Lemma read_u64_at buf off v :
  (off + 8 ≤ length buf)%nat → Z.of_nat (off + 8) ≤ usize_max → is_u64 v →
  sub off 8 buf = to_be_bytes 8 v → read_u64 buf off = Ok v.
Proof.
  intros ??? E. unfold read_u64. rewrite slice_n_ok, E by done.
  by rewrite (from_be_to_be 8 64).
Qed.

Lemma from_be_bytes_wide bs : from_be_bytes (replicate 2 0 ++ bs) = from_be_bytes bs.
Proof. done. Qed.

Lemma read_u48_at buf off v :
  (off + 6 ≤ length buf)%nat → Z.of_nat (off + 6) ≤ usize_max → is_u48 v →
  sub off 6 buf = to_be_bytes 6 v → read_u48 buf off = Ok v.
Proof.
  intros ??? E. unfold read_u48. rewrite slice_n_ok, E by done.
  by rewrite from_be_bytes_wide, (from_be_to_be 6 48).
Qed.

Lemma read_bytes_n_at N buf off bs :
  (off + N ≤ length buf)%nat → Z.of_nat (off + N) ≤ usize_max →
  sub off N buf = bs → read_bytes_n N buf off = Ok bs.
Proof. intros ?? E. unfold read_bytes_n. by rewrite slice_n_ok, E. Qed.

(** ... and the bytes read are those of the value returned. *)
Lemma read_u8_inv buf off v :
  Forall is_u8 buf → read_u8 buf off = Ok v → sub off 1 buf = [v] ∧ is_u8 v.
Proof.
  intros Hb E. unfold read_u8 in E. destruct (slice_n _ _ _) as [s|] eqn:Es; [|done].
  apply slice_n_inv in Es as [Hl ->]. simplify_eq.
  pose proof (length_sub off 1 buf Hl) as Hn.
  assert (Forall is_u8 (sub off 1 buf)) as Hs by by apply Forall_sub.
  destruct (sub off 1 buf) as [|b [|]]; try done. by inversion Hs.
Qed.

Lemma read_be_inv k w buf off v :
  w = 8 * Z.of_nat k → Forall is_u8 buf →
  (let? s := slice_n buf off k in Ok (from_be_bytes s)) = Ok v →
  sub off k buf = to_be_bytes k v ∧ in_width w v.
Proof.
  intros -> Hb E. destruct (slice_n _ _ _) as [s|] eqn:Es; [|done].
  apply slice_n_inv in Es as [Hl ->]. simplify_eq.
  assert (Forall is_u8 (sub off k buf)) as Hs by by apply Forall_sub.
  pose proof (length_sub off k buf Hl) as Hn. split.
  - symmetry. by apply to_be_from_be.
  - unfold in_width. pose proof (from_be_bytes_bound _ Hs) as Hr. by rewrite Hn in Hr.
Qed.

Lemma read_u16_inv buf off v :
  Forall is_u8 buf → read_u16 buf off = Ok v → sub off 2 buf = to_be_bytes 2 v ∧ is_u16 v.
Proof. by apply read_be_inv. Qed.
Lemma read_u32_inv buf off v :
  Forall is_u8 buf → read_u32 buf off = Ok v → sub off 4 buf = to_be_bytes 4 v ∧ is_u32 v.
Proof. by apply read_be_inv. Qed.
Lemma read_u64_inv buf off v :
  Forall is_u8 buf → read_u64 buf off = Ok v → sub off 8 buf = to_be_bytes 8 v ∧ is_u64 v.
Proof. by apply read_be_inv. Qed.
Lemma read_u48_inv buf off v :
  Forall is_u8 buf → read_u48 buf off = Ok v → sub off 6 buf = to_be_bytes 6 v ∧ is_u48 v.
Proof.
  intros Hb E. apply read_be_inv; [done..|]. unfold read_u48 in E.
  destruct (slice_n _ _ _); [|done]. by rewrite from_be_bytes_wide in E.
Qed.

Lemma read_bytes_n_inv N buf off bs :
  Forall is_u8 buf → read_bytes_n N buf off = Ok bs →
  sub off N buf = bs ∧ length bs = N ∧ Forall is_u8 bs.
Proof.
  intros Hb E. unfold read_bytes_n in E. apply slice_n_inv in E as [Hl ->].
  split_and!; [done|by apply length_sub|by apply Forall_sub].
Qed.

(** Once [need] has passed, a read inside the body cannot fail. *)
Lemma read_err {A} buf off n (f : list Z → A) e :
  Z.of_nat (off + n) ≤ usize_max →
  (let? s := slice_n buf off n in Ok (f s)) = Err e → (length buf < off + n)%nat.
Proof.
  intros Hu E. destruct (le_lt_dec (off + n) (length buf)) as [Hl|]; [|done].
  by rewrite slice_n_ok in E.
Qed.
Lemma read_u8_err buf off e :
  Z.of_nat (off + 1) ≤ usize_max → read_u8 buf off = Err e → (length buf < off + 1)%nat.
Proof. apply read_err. Qed.
Lemma read_u16_err buf off e :
  Z.of_nat (off + 2) ≤ usize_max → read_u16 buf off = Err e → (length buf < off + 2)%nat.
Proof. apply read_err. Qed.
Lemma read_u32_err buf off e :
  Z.of_nat (off + 4) ≤ usize_max → read_u32 buf off = Err e → (length buf < off + 4)%nat.
Proof. apply read_err. Qed.
Lemma read_u48_err buf off e :
  Z.of_nat (off + 6) ≤ usize_max → read_u48 buf off = Err e → (length buf < off + 6)%nat.
Proof. apply read_err. Qed.
Lemma read_u64_err buf off e :
  Z.of_nat (off + 8) ≤ usize_max → read_u64 buf off = Err e → (length buf < off + 8)%nat.
Proof. apply read_err. Qed.
Lemma read_bytes_n_err N buf off e :
  Z.of_nat (off + N) ≤ usize_max → read_bytes_n N buf off = Err e →
  (length buf < off + N)%nat.
Proof.
  intros Hu E. apply (read_err buf off N id e Hu).
  unfold read_bytes_n in E. by rewrite E.
Qed.

(** The byte a successful [read_u8] returns is the byte at the offset. *)
Lemma read_u8_lookup buf off v : read_u8 buf off = Ok v → buf !! off = Some v.
Proof.
  intros E. unfold read_u8 in E. destruct (slice_n _ _ _) as [s|] eqn:Es; [|done].
  apply slice_n_inv in Es as [Hl ->]. simplify_eq. unfold sub.
  destruct (lookup_lt_is_Some_2 buf off) as [b Hb]; [lia|].
  by rewrite Hb, (drop_S _ _ _ Hb).
Qed.

Lemma need_ok buf n : (n ≤ length buf)%nat → need buf n = Ok tt.
Proof. intros. unfold need. by destruct (Nat.ltb_spec (length buf) n); [lia|]. Qed.

Lemma need_short buf n :
  (length buf < n)%nat → need buf n = Err (Truncated (Z.of_nat n) (Z.of_nat (length buf))).
Proof. intros. unfold need. by destruct (Nat.ltb_spec (length buf) n); [|lia]. Qed.

Lemma need_inv buf n u : need buf n = Ok u → (n ≤ length buf)%nat.
Proof. unfold need. by destruct (Nat.ltb_spec (length buf) n). Qed.

(** ** The contract of one message kind *)

(** The reference encoding: the body length and the body's bytes. *)
Class BodySpec (T : Type) := {
  BODY : nat;
  wire : T → list Z;
}.
Arguments BODY T {_}.

(** What [Message::encode] and [Message::decode] rely on. *)
Class BodyCodec (T : Type) `{Encode T, Decode T, WellFormed T, BodySpec T} := {
  body_len_BODY (m : T) : body_len m = BODY T;
  wire_length (m : T) : wf m → length (wire m) = BODY T;
  wire_u8 (m : T) : wf m → Forall is_u8 (wire m);
  encode_body_ok (m : T) buf :
    wf m → (BODY T ≤ length buf)%nat →
    encode_body m buf = (wire m ++ drop (BODY T) buf, Ok tt);
  encode_body_short (m : T) buf :
    (length buf < BODY T)%nat →
    encode_body m buf
    = (buf, Err (BufferTooSmall (Z.of_nat (BODY T)) (Z.of_nat (length buf))));
  decode_body_wire (m : T) rest : wf m → decode_body (wire m ++ rest) = Ok m;
  decode_body_inv buf (m : T) :
    Forall is_u8 buf → decode_body buf = Ok m →
    wf m ∧ (BODY T ≤ length buf)%nat ∧ take (BODY T) buf = wire m;
  decode_body_short buf :
    (length buf < BODY T)%nat →
    decode_body (T := T) buf
    = Err (Truncated (Z.of_nat (BODY T)) (Z.of_nat (length buf)));
}.
#[global] Hint Mode BodyCodec ! - - - - : typeclass_instances.

(** ** Automation *)

Create Rewrite HintDb wire_len.
#[export] Hint Rewrite @length_app length_to_be_bytes @length_cons @length_nil : wire_len.

Ltac split_wf :=
  repeat match goal with
  | H : wf _ |- _ => progress (autounfold with wf_unfold in H)
  | H : _ ∧ _ |- _ => destruct H
  end.

Ltac join_wf := autounfold with wf_unfold; split_and?; assumption.
Ltac usize_bound := apply Z.leb_le; vm_compute; reflexivity.
Ltac wire_lia := autorewrite with wire_len; lia.

Ltac write_step :=
  eapply and_then_ok;
  [ first
    [ apply write_u8_append | apply write_u16_append | apply write_u32_append
    | apply write_u48_append | apply write_u64_append
    | eapply write_bytes_append; [eassumption|..] ];
    [wire_lia | lia | usize_bound] | cbn [Nat.add] ].

Ltac write_done := unfold ok; rewrite <-!app_assoc; reflexivity.

(** The bytes at an offset of a concatenation of fields of known lengths. *)
Ltac locate_field :=
  repeat first
    [ rewrite sub_app_here by wire_lia
    | rewrite sub_app_skip by wire_lia; autorewrite with wire_len;
      repeat match goal with H : length _ = _ |- _ => rewrite H end; cbn [Nat.sub] ];
  reflexivity.

Ltac read_step :=
  eapply bind_ok;
  [ first
    [ eapply read_u8_at; [wire_lia | usize_bound | locate_field]
    | eapply read_u16_at; [wire_lia | usize_bound | | locate_field]; assumption
    | eapply read_u32_at; [wire_lia | usize_bound | | locate_field]; assumption
    | eapply read_u48_at; [wire_lia | usize_bound | | locate_field]; assumption
    | eapply read_u64_at; [wire_lia | usize_bound | | locate_field]; assumption
    | eapply read_bytes_n_at; [wire_lia | usize_bound | locate_field]
    | apply from_to_byte ] | cbn beta ].

(** Run a decoder whose result is known and keep what each read says. *)
Ltac read_inv :=
  repeat match goal with
  | H : Ok _ = Ok _ |- _ => injection H as H; subst
  | H : Err _ = Ok _ |- _ => discriminate H
  | H : match ?r with Ok _ => _ | Err _ => _ end = Ok _ |- _ =>
      let E := fresh "E" in destruct r eqn:E; [|discriminate H]
  end;
  repeat match goal with
  | H : need _ _ = Ok _ |- _ => apply need_inv in H
  | Hb : Forall is_u8 ?b, H : read_u8 ?b _ = Ok _ |- _ => apply (read_u8_inv _ _ _ Hb) in H
  | Hb : Forall is_u8 ?b, H : read_u16 ?b _ = Ok _ |- _ => apply (read_u16_inv _ _ _ Hb) in H
  | Hb : Forall is_u8 ?b, H : read_u32 ?b _ = Ok _ |- _ => apply (read_u32_inv _ _ _ Hb) in H
  | Hb : Forall is_u8 ?b, H : read_u48 ?b _ = Ok _ |- _ => apply (read_u48_inv _ _ _ Hb) in H
  | Hb : Forall is_u8 ?b, H : read_u64 ?b _ = Ok _ |- _ => apply (read_u64_inv _ _ _ Hb) in H
  | Hb : Forall is_u8 ?b, H : read_bytes_n _ ?b _ = Ok _ |- _ =>
      apply (read_bytes_n_inv _ _ _ _ Hb) in H
  | H : from_byte _ = Ok _ |- _ => apply from_byte_ok in H; subst
  | H : _ ∧ _ |- _ => destruct H
  end.

(** The fields read back are the bytes of the buffer, joined. *)
Ltac join_fields :=
  repeat match goal with
  | H : sub _ _ _ = ?bs |- context [?bs] => rewrite <-H
  end;
  repeat erewrite sub_join_at by reflexivity; reflexivity.

(** ** The header *)

Definition Header_wire (h : Header.t) : list Z :=
  to_be_bytes 2 (StockLocate.as_u16 (Header.stock_locate h)) ++
  to_be_bytes 2 (TrackingNumber.as_u16 (Header.tracking_number h)) ++
  to_be_bytes 6 (Timestamp.as_u64 (Header.timestamp h)).

Lemma length_Header_wire h : length (Header_wire h) = 10%nat.
Proof. done. Qed.
#[export] Hint Rewrite length_Header_wire : wire_len.

Lemma Header_wire_u8 h : Forall is_u8 (Header_wire h).
Proof. unfold Header_wire. rewrite !Forall_app. split_and!; apply to_be_bytes_u8. Qed.

Lemma Header_encode_append h buf :
  (10 ≤ length buf)%nat →
  Header_encode_at h buf = (Header_wire h ++ drop 10 buf, Ok tt).
Proof.
  intros. unfold Header_encode_at. change buf with ([] ++ drop 0 buf) at 1.
  do 3 write_step. write_done.
Qed.

Ltac newtype_fields :=
  cbn [StockLocate.as_u16 TrackingNumber.as_u16 Timestamp.as_u64 OrderReference.as_u64
       MatchNumber.as_u64 Shares.as_u32 Price4.as_u32 Price8.as_u64 Stock.as_bytes
       Mpid.as_bytes] in *.
Ltac header_fields :=
  cbn [Header.stock_locate Header.tracking_number Header.timestamp] in *; newtype_fields.

Lemma Header_decode_at_wire h rest :
  wf h → Header_decode_at (Header_wire h ++ rest) = Ok h.
Proof.
  intros Hwf. destruct h as [[a] [b] [c]]. split_wf.
  unfold Header_decode_at, Header_wire. header_fields.
  rewrite <-!app_assoc. do 3 read_step. reflexivity.
Qed.

Lemma Header_decode_at_inv buf h :
  Forall is_u8 buf → Header_decode_at buf = Ok h → sub 0 10 buf = Header_wire h ∧ wf h.
Proof.
  intros Hb E. unfold Header_decode_at in E. read_inv. split; [|done].
  unfold Header_wire. header_fields. symmetry. join_fields.
Qed.

Lemma Header_decode_at_err buf e : Header_decode_at buf = Err e → (length buf < 10)%nat.
Proof.
  intros E. unfold Header_decode_at in E.
  destruct (read_u16 buf 0) eqn:E0; [|apply read_u16_err in E0; [lia|usize_bound]].
  destruct (read_u16 buf 2) eqn:E2; [|apply read_u16_err in E2; [lia|usize_bound]].
  destruct (read_u48 buf 4) eqn:E4; [done|apply read_u48_err in E4; [lia|usize_bound]].
Qed.
(** ** One proof for every message kind *)

Ltac destruct_newtypes :=
  repeat match goal with
  | x : OrderReference.t |- _ => destruct x
  | x : MatchNumber.t |- _ => destruct x
  | x : Shares.t |- _ => destruct x
  | x : Price4.t |- _ => destruct x
  | x : Price8.t |- _ => destruct x
  | x : Stock.t |- _ => destruct x
  | x : Mpid.t |- _ => destruct x
  end.

Ltac solve_encode_ok :=
  eapply and_then_ok; [apply reserve_ok; [lia | usize_bound] |];
  eapply and_then_ok; [apply Header_encode_append; lia |];
  repeat write_step; write_done.

Ltac solve_decode_wire :=
  rewrite <-!app_assoc;
  eapply bind_ok; [apply need_ok; wire_lia | cbn beta];
  eapply bind_ok; [apply Header_decode_at_wire; join_wf | cbn beta];
  repeat read_step; reflexivity.

Ltac solve_wire_u8 :=
  repeat (apply Forall_app; split);
  first [ apply Header_wire_u8 | apply to_be_bytes_u8 | assumption
        | apply Forall_singleton; first [apply to_byte_u8 | assumption] ].

Ltac solve_decode_inv :=
  read_inv;
  match goal with
  | Hb : Forall is_u8 ?b, H : Header_decode_at ?b = Ok _ |- _ =>
      apply (Header_decode_at_inv _ _ Hb) in H as [? ?]
  end; split_wf.

(** [unf] unfolds the operations of the kind, [fields] reduces its projections. *)
Ltac solve_body_codec unf fields :=
  constructor;
  [ reflexivity
  | intros m Hwf; unf; split_wf; destruct m; fields; wire_lia
  | intros m Hwf; unf; split_wf; destruct m; fields; solve_wire_u8
  | intros m buf Hwf Hl; unf; split_wf; solve_encode_ok
  | intros m buf Hl; unf; unfold and_then; rewrite reserve_short by first [lia | usize_bound];
    reflexivity
  | intros m rest Hwf; unf; split_wf; destruct m; fields; destruct_newtypes;
    newtype_fields; solve_decode_wire
  | intros buf m Hb E; unf; solve_decode_inv; split_and!;
    [ join_wf | assumption
    | fields; newtype_fields; rewrite <-sub_0; symmetry; join_fields ]
  | intros buf Hl; unf; rewrite need_short by lia; reflexivity ].
