(* ===== verification/CodecMessages.v ===== *)
(** The [Encode] and [Decode] implementations of the twenty message kinds
    ([crates/itch-protocol/src/codec.rs], lines 232-851).

    Each [encode_body] is the source's sequence of writes with their literal
    offsets, and each [decode_body] its sequence of reads; the instance of
    [BodySpec] next to them gives the body as the concatenation of its fields,
    with no offsets, and the instance of [BodyCodec] proves that the two agree. *)

From S2P Require Import Prelude Primitives Enums Messages Codec.

(** [SystemEvent] *)

Definition SystemEvent_encode_body (m : SystemEvent.t) : mut (list Z) unit ProtocolError :=
  reserve SystemEvent.BODY_LEN ;;?
  Header_encode_at (SystemEvent.header m) ;;?
  write_u8 10 (to_byte (SystemEvent.event_code m)) ;;?
  ok.

Definition SystemEvent_decode_body (buf : list Z) : result SystemEvent.t ProtocolError :=
  let? _ := need buf SystemEvent.BODY_LEN in
  let? header := Header_decode_at buf in
  let? b := read_u8 buf 10 in
  let? event_code := from_byte (T := EventCode.t) b in
  Ok (SystemEvent.mk header event_code).

#[global] Instance SystemEvent_Encode : Encode SystemEvent.t :=
  {| body_len := λ _, SystemEvent.BODY_LEN; encode_body := SystemEvent_encode_body |}.
#[global] Instance SystemEvent_Decode : Decode SystemEvent.t := SystemEvent_decode_body.
#[global] Instance SystemEvent_spec : BodySpec SystemEvent.t := {|
  BODY := SystemEvent.BODY_LEN;
  wire m := Header_wire (SystemEvent.header m) ++
    [to_byte (SystemEvent.event_code m)] |}.

Ltac SystemEvent_fields :=
  cbn [SystemEvent.header SystemEvent.event_code] in *.
Ltac SystemEvent_unfold :=
  unfold encode_body, SystemEvent_Encode, SystemEvent_encode_body, decode_body, SystemEvent_Decode,
    SystemEvent_decode_body, wire, BODY, SystemEvent_spec, SystemEvent.BODY_LEN in *.
#[global] Instance SystemEvent_codec : BodyCodec SystemEvent.t.
Proof. solve_body_codec SystemEvent_unfold SystemEvent_fields. Qed.

(** [StockDirectory] *)

Definition StockDirectory_encode_body (m : StockDirectory.t) : mut (list Z) unit ProtocolError :=
  reserve StockDirectory.BODY_LEN ;;?
  Header_encode_at (StockDirectory.header m) ;;?
  write_bytes 10 (Stock.as_bytes (StockDirectory.stock m)) ;;?
  write_u8 18 (to_byte (StockDirectory.market_category m)) ;;?
  write_u8 19 (to_byte (StockDirectory.financial_status m)) ;;?
  write_u32 20 (Shares.as_u32 (StockDirectory.round_lot_size m)) ;;?
  write_u8 24 (to_byte (StockDirectory.round_lots_only m)) ;;?
  write_u8 25 (StockDirectory.issue_classification m) ;;?
  write_bytes 26 (StockDirectory.issue_subtype m) ;;?
  write_u8 28 (to_byte (StockDirectory.authenticity m)) ;;?
  write_u8 29 (to_byte (StockDirectory.short_sale_threshold m)) ;;?
  write_u8 30 (to_byte (StockDirectory.ipo_flag m)) ;;?
  write_u8 31 (to_byte (StockDirectory.luld_reference_price_tier m)) ;;?
  write_u8 32 (to_byte (StockDirectory.etp_flag m)) ;;?
  write_u32 33 (StockDirectory.etp_leverage_factor m) ;;?
  write_u8 37 (to_byte (StockDirectory.inverse_indicator m)) ;;?
  ok.

Definition StockDirectory_decode_body (buf : list Z) : result StockDirectory.t ProtocolError :=
  let? _ := need buf StockDirectory.BODY_LEN in
  let? header := Header_decode_at buf in
  let? stock := read_bytes_n 8 buf 10 in
  let? b := read_u8 buf 18 in
  let? market_category := from_byte (T := MarketCategory.t) b in
  let? b := read_u8 buf 19 in
  let? financial_status := from_byte (T := FinancialStatus.t) b in
  let? round_lot_size := read_u32 buf 20 in
  let? b := read_u8 buf 24 in
  let? round_lots_only := from_byte (T := YesNo.t) b in
  let? issue_classification := read_u8 buf 25 in
  let? issue_subtype := read_bytes_n 2 buf 26 in
  let? b := read_u8 buf 28 in
  let? authenticity := from_byte (T := Authenticity.t) b in
  let? b := read_u8 buf 29 in
  let? short_sale_threshold := from_byte (T := YesNo.t) b in
  let? b := read_u8 buf 30 in
  let? ipo_flag := from_byte (T := YesNo.t) b in
  let? b := read_u8 buf 31 in
  let? luld_reference_price_tier := from_byte (T := LuldTier.t) b in
  let? b := read_u8 buf 32 in
  let? etp_flag := from_byte (T := YesNo.t) b in
  let? etp_leverage_factor := read_u32 buf 33 in
  let? b := read_u8 buf 37 in
  let? inverse_indicator := from_byte (T := YesNo.t) b in
  Ok (StockDirectory.mk header (Stock.from_bytes stock) market_category financial_status
      (Shares.from_u32 round_lot_size) round_lots_only issue_classification
      issue_subtype authenticity short_sale_threshold ipo_flag luld_reference_price_tier
      etp_flag etp_leverage_factor inverse_indicator).

#[global] Instance StockDirectory_Encode : Encode StockDirectory.t :=
  {| body_len := λ _, StockDirectory.BODY_LEN; encode_body := StockDirectory_encode_body |}.
#[global] Instance StockDirectory_Decode : Decode StockDirectory.t := StockDirectory_decode_body.
#[global] Instance StockDirectory_spec : BodySpec StockDirectory.t := {|
  BODY := StockDirectory.BODY_LEN;
  wire m := Header_wire (StockDirectory.header m) ++
    Stock.as_bytes (StockDirectory.stock m) ++
    [to_byte (StockDirectory.market_category m)] ++
    [to_byte (StockDirectory.financial_status m)] ++
    to_be_bytes 4 (Shares.as_u32 (StockDirectory.round_lot_size m)) ++
    [to_byte (StockDirectory.round_lots_only m)] ++
    [StockDirectory.issue_classification m] ++
    StockDirectory.issue_subtype m ++
    [to_byte (StockDirectory.authenticity m)] ++
    [to_byte (StockDirectory.short_sale_threshold m)] ++
    [to_byte (StockDirectory.ipo_flag m)] ++
    [to_byte (StockDirectory.luld_reference_price_tier m)] ++
    [to_byte (StockDirectory.etp_flag m)] ++
    to_be_bytes 4 (StockDirectory.etp_leverage_factor m) ++
    [to_byte (StockDirectory.inverse_indicator m)] |}.

Ltac StockDirectory_fields :=
  cbn [StockDirectory.header StockDirectory.stock StockDirectory.market_category
       StockDirectory.financial_status StockDirectory.round_lot_size
       StockDirectory.round_lots_only StockDirectory.issue_classification
       StockDirectory.issue_subtype StockDirectory.authenticity
       StockDirectory.short_sale_threshold StockDirectory.ipo_flag
       StockDirectory.luld_reference_price_tier StockDirectory.etp_flag
       StockDirectory.etp_leverage_factor StockDirectory.inverse_indicator] in *.
Ltac StockDirectory_unfold :=
  unfold encode_body, StockDirectory_Encode, StockDirectory_encode_body, decode_body, StockDirectory_Decode,
    StockDirectory_decode_body, wire, BODY, StockDirectory_spec, StockDirectory.BODY_LEN in *.
#[global] Instance StockDirectory_codec : BodyCodec StockDirectory.t.
Proof. solve_body_codec StockDirectory_unfold StockDirectory_fields. Qed.

(** [StockTradingAction] *)

Definition StockTradingAction_encode_body (m : StockTradingAction.t) : mut (list Z) unit ProtocolError :=
  reserve StockTradingAction.BODY_LEN ;;?
  Header_encode_at (StockTradingAction.header m) ;;?
  write_bytes 10 (Stock.as_bytes (StockTradingAction.stock m)) ;;?
  write_u8 18 (to_byte (StockTradingAction.trading_state m)) ;;?
  write_u8 19 (StockTradingAction.reserved m) ;;?
  write_bytes 20 (StockTradingAction.reason m) ;;?
  ok.

Definition StockTradingAction_decode_body (buf : list Z) : result StockTradingAction.t ProtocolError :=
  let? _ := need buf StockTradingAction.BODY_LEN in
  let? header := Header_decode_at buf in
  let? stock := read_bytes_n 8 buf 10 in
  let? b := read_u8 buf 18 in
  let? trading_state := from_byte (T := TradingState.t) b in
  let? reserved := read_u8 buf 19 in
  let? reason := read_bytes_n 4 buf 20 in
  Ok (StockTradingAction.mk header (Stock.from_bytes stock) trading_state reserved reason).

#[global] Instance StockTradingAction_Encode : Encode StockTradingAction.t :=
  {| body_len := λ _, StockTradingAction.BODY_LEN; encode_body := StockTradingAction_encode_body |}.
#[global] Instance StockTradingAction_Decode : Decode StockTradingAction.t := StockTradingAction_decode_body.
#[global] Instance StockTradingAction_spec : BodySpec StockTradingAction.t := {|
  BODY := StockTradingAction.BODY_LEN;
  wire m := Header_wire (StockTradingAction.header m) ++
    Stock.as_bytes (StockTradingAction.stock m) ++
    [to_byte (StockTradingAction.trading_state m)] ++
    [StockTradingAction.reserved m] ++
    StockTradingAction.reason m |}.

Ltac StockTradingAction_fields :=
  cbn [StockTradingAction.header StockTradingAction.stock
       StockTradingAction.trading_state StockTradingAction.reserved
       StockTradingAction.reason] in *.
Ltac StockTradingAction_unfold :=
  unfold encode_body, StockTradingAction_Encode, StockTradingAction_encode_body, decode_body, StockTradingAction_Decode,
    StockTradingAction_decode_body, wire, BODY, StockTradingAction_spec, StockTradingAction.BODY_LEN in *.
#[global] Instance StockTradingAction_codec : BodyCodec StockTradingAction.t.
Proof. solve_body_codec StockTradingAction_unfold StockTradingAction_fields. Qed.

(** [RegShoRestriction] *)

Definition RegShoRestriction_encode_body (m : RegShoRestriction.t) : mut (list Z) unit ProtocolError :=
  reserve RegShoRestriction.BODY_LEN ;;?
  Header_encode_at (RegShoRestriction.header m) ;;?
  write_bytes 10 (Stock.as_bytes (RegShoRestriction.stock m)) ;;?
  write_u8 18 (to_byte (RegShoRestriction.reg_sho_action m)) ;;?
  ok.

Definition RegShoRestriction_decode_body (buf : list Z) : result RegShoRestriction.t ProtocolError :=
  let? _ := need buf RegShoRestriction.BODY_LEN in
  let? header := Header_decode_at buf in
  let? stock := read_bytes_n 8 buf 10 in
  let? b := read_u8 buf 18 in
  let? reg_sho_action := from_byte (T := RegShoAction.t) b in
  Ok (RegShoRestriction.mk header (Stock.from_bytes stock) reg_sho_action).

#[global] Instance RegShoRestriction_Encode : Encode RegShoRestriction.t :=
  {| body_len := λ _, RegShoRestriction.BODY_LEN; encode_body := RegShoRestriction_encode_body |}.
#[global] Instance RegShoRestriction_Decode : Decode RegShoRestriction.t := RegShoRestriction_decode_body.
#[global] Instance RegShoRestriction_spec : BodySpec RegShoRestriction.t := {|
  BODY := RegShoRestriction.BODY_LEN;
  wire m := Header_wire (RegShoRestriction.header m) ++
    Stock.as_bytes (RegShoRestriction.stock m) ++
    [to_byte (RegShoRestriction.reg_sho_action m)] |}.

Ltac RegShoRestriction_fields :=
  cbn [RegShoRestriction.header RegShoRestriction.stock RegShoRestriction.reg_sho_action] in *.
Ltac RegShoRestriction_unfold :=
  unfold encode_body, RegShoRestriction_Encode, RegShoRestriction_encode_body, decode_body, RegShoRestriction_Decode,
    RegShoRestriction_decode_body, wire, BODY, RegShoRestriction_spec, RegShoRestriction.BODY_LEN in *.
#[global] Instance RegShoRestriction_codec : BodyCodec RegShoRestriction.t.
Proof. solve_body_codec RegShoRestriction_unfold RegShoRestriction_fields. Qed.

(** [MarketParticipantPosition] *)

Definition MarketParticipantPosition_encode_body (m : MarketParticipantPosition.t) : mut (list Z) unit ProtocolError :=
  reserve MarketParticipantPosition.BODY_LEN ;;?
  Header_encode_at (MarketParticipantPosition.header m) ;;?
  write_bytes 10 (Mpid.as_bytes (MarketParticipantPosition.mpid m)) ;;?
  write_bytes 14 (Stock.as_bytes (MarketParticipantPosition.stock m)) ;;?
  write_u8 22 (to_byte (MarketParticipantPosition.primary_market_maker m)) ;;?
  write_u8 23 (to_byte (MarketParticipantPosition.market_maker_mode m)) ;;?
  write_u8 24 (to_byte (MarketParticipantPosition.market_participant_state m)) ;;?
  ok.

Definition MarketParticipantPosition_decode_body (buf : list Z) : result MarketParticipantPosition.t ProtocolError :=
  let? _ := need buf MarketParticipantPosition.BODY_LEN in
  let? header := Header_decode_at buf in
  let? mpid := read_bytes_n 4 buf 10 in
  let? stock := read_bytes_n 8 buf 14 in
  let? b := read_u8 buf 22 in
  let? primary_market_maker := from_byte (T := YesNo.t) b in
  let? b := read_u8 buf 23 in
  let? market_maker_mode := from_byte (T := MarketMakerMode.t) b in
  let? b := read_u8 buf 24 in
  let? market_participant_state := from_byte (T := MarketParticipantState.t) b in
  Ok (MarketParticipantPosition.mk header (Mpid.from_bytes mpid) (Stock.from_bytes stock) primary_market_maker
      market_maker_mode market_participant_state).

#[global] Instance MarketParticipantPosition_Encode : Encode MarketParticipantPosition.t :=
  {| body_len := λ _, MarketParticipantPosition.BODY_LEN; encode_body := MarketParticipantPosition_encode_body |}.
#[global] Instance MarketParticipantPosition_Decode : Decode MarketParticipantPosition.t := MarketParticipantPosition_decode_body.
#[global] Instance MarketParticipantPosition_spec : BodySpec MarketParticipantPosition.t := {|
  BODY := MarketParticipantPosition.BODY_LEN;
  wire m := Header_wire (MarketParticipantPosition.header m) ++
    Mpid.as_bytes (MarketParticipantPosition.mpid m) ++
    Stock.as_bytes (MarketParticipantPosition.stock m) ++
    [to_byte (MarketParticipantPosition.primary_market_maker m)] ++
    [to_byte (MarketParticipantPosition.market_maker_mode m)] ++
    [to_byte (MarketParticipantPosition.market_participant_state m)] |}.

Ltac MarketParticipantPosition_fields :=
  cbn [MarketParticipantPosition.header MarketParticipantPosition.mpid
       MarketParticipantPosition.stock MarketParticipantPosition.primary_market_maker
       MarketParticipantPosition.market_maker_mode
       MarketParticipantPosition.market_participant_state] in *.
Ltac MarketParticipantPosition_unfold :=
  unfold encode_body, MarketParticipantPosition_Encode, MarketParticipantPosition_encode_body, decode_body, MarketParticipantPosition_Decode,
    MarketParticipantPosition_decode_body, wire, BODY, MarketParticipantPosition_spec, MarketParticipantPosition.BODY_LEN in *.
#[global] Instance MarketParticipantPosition_codec : BodyCodec MarketParticipantPosition.t.
Proof. solve_body_codec MarketParticipantPosition_unfold MarketParticipantPosition_fields. Qed.

(** [MwcbDeclineLevel] *)

Definition MwcbDeclineLevel_encode_body (m : MwcbDeclineLevel.t) : mut (list Z) unit ProtocolError :=
  reserve MwcbDeclineLevel.BODY_LEN ;;?
  Header_encode_at (MwcbDeclineLevel.header m) ;;?
  write_u64 10 (Price8.as_u64 (MwcbDeclineLevel.level1 m)) ;;?
  write_u64 18 (Price8.as_u64 (MwcbDeclineLevel.level2 m)) ;;?
  write_u64 26 (Price8.as_u64 (MwcbDeclineLevel.level3 m)) ;;?
  ok.

Definition MwcbDeclineLevel_decode_body (buf : list Z) : result MwcbDeclineLevel.t ProtocolError :=
  let? _ := need buf MwcbDeclineLevel.BODY_LEN in
  let? header := Header_decode_at buf in
  let? level1 := read_u64 buf 10 in
  let? level2 := read_u64 buf 18 in
  let? level3 := read_u64 buf 26 in
  Ok (MwcbDeclineLevel.mk header (Price8.from_u64 level1) (Price8.from_u64 level2) (Price8.from_u64 level3)).

#[global] Instance MwcbDeclineLevel_Encode : Encode MwcbDeclineLevel.t :=
  {| body_len := λ _, MwcbDeclineLevel.BODY_LEN; encode_body := MwcbDeclineLevel_encode_body |}.
#[global] Instance MwcbDeclineLevel_Decode : Decode MwcbDeclineLevel.t := MwcbDeclineLevel_decode_body.
#[global] Instance MwcbDeclineLevel_spec : BodySpec MwcbDeclineLevel.t := {|
  BODY := MwcbDeclineLevel.BODY_LEN;
  wire m := Header_wire (MwcbDeclineLevel.header m) ++
    to_be_bytes 8 (Price8.as_u64 (MwcbDeclineLevel.level1 m)) ++
    to_be_bytes 8 (Price8.as_u64 (MwcbDeclineLevel.level2 m)) ++
    to_be_bytes 8 (Price8.as_u64 (MwcbDeclineLevel.level3 m)) |}.

Ltac MwcbDeclineLevel_fields :=
  cbn [MwcbDeclineLevel.header MwcbDeclineLevel.level1 MwcbDeclineLevel.level2
       MwcbDeclineLevel.level3] in *.
Ltac MwcbDeclineLevel_unfold :=
  unfold encode_body, MwcbDeclineLevel_Encode, MwcbDeclineLevel_encode_body, decode_body, MwcbDeclineLevel_Decode,
    MwcbDeclineLevel_decode_body, wire, BODY, MwcbDeclineLevel_spec, MwcbDeclineLevel.BODY_LEN in *.
#[global] Instance MwcbDeclineLevel_codec : BodyCodec MwcbDeclineLevel.t.
Proof. solve_body_codec MwcbDeclineLevel_unfold MwcbDeclineLevel_fields. Qed.

(** [MwcbStatus] *)

Definition MwcbStatus_encode_body (m : MwcbStatus.t) : mut (list Z) unit ProtocolError :=
  reserve MwcbStatus.BODY_LEN ;;?
  Header_encode_at (MwcbStatus.header m) ;;?
  write_u8 10 (to_byte (MwcbStatus.breached_level m)) ;;?
  ok.

Definition MwcbStatus_decode_body (buf : list Z) : result MwcbStatus.t ProtocolError :=
  let? _ := need buf MwcbStatus.BODY_LEN in
  let? header := Header_decode_at buf in
  let? b := read_u8 buf 10 in
  let? breached_level := from_byte (T := BreachedLevel.t) b in
  Ok (MwcbStatus.mk header breached_level).

#[global] Instance MwcbStatus_Encode : Encode MwcbStatus.t :=
  {| body_len := λ _, MwcbStatus.BODY_LEN; encode_body := MwcbStatus_encode_body |}.
#[global] Instance MwcbStatus_Decode : Decode MwcbStatus.t := MwcbStatus_decode_body.
#[global] Instance MwcbStatus_spec : BodySpec MwcbStatus.t := {|
  BODY := MwcbStatus.BODY_LEN;
  wire m := Header_wire (MwcbStatus.header m) ++
    [to_byte (MwcbStatus.breached_level m)] |}.

Ltac MwcbStatus_fields :=
  cbn [MwcbStatus.header MwcbStatus.breached_level] in *.
Ltac MwcbStatus_unfold :=
  unfold encode_body, MwcbStatus_Encode, MwcbStatus_encode_body, decode_body, MwcbStatus_Decode,
    MwcbStatus_decode_body, wire, BODY, MwcbStatus_spec, MwcbStatus.BODY_LEN in *.
#[global] Instance MwcbStatus_codec : BodyCodec MwcbStatus.t.
Proof. solve_body_codec MwcbStatus_unfold MwcbStatus_fields. Qed.

(** [IpoQuotingPeriodUpdate] *)

Definition IpoQuotingPeriodUpdate_encode_body (m : IpoQuotingPeriodUpdate.t) : mut (list Z) unit ProtocolError :=
  reserve IpoQuotingPeriodUpdate.BODY_LEN ;;?
  Header_encode_at (IpoQuotingPeriodUpdate.header m) ;;?
  write_bytes 10 (Stock.as_bytes (IpoQuotingPeriodUpdate.stock m)) ;;?
  write_u32 18 (IpoQuotingPeriodUpdate.ipo_quotation_release_time m) ;;?
  write_u8 22 (to_byte (IpoQuotingPeriodUpdate.ipo_quotation_release_qualifier m)) ;;?
  write_u32 23 (Price4.as_u32 (IpoQuotingPeriodUpdate.ipo_price m)) ;;?
  ok.

Definition IpoQuotingPeriodUpdate_decode_body (buf : list Z) : result IpoQuotingPeriodUpdate.t ProtocolError :=
  let? _ := need buf IpoQuotingPeriodUpdate.BODY_LEN in
  let? header := Header_decode_at buf in
  let? stock := read_bytes_n 8 buf 10 in
  let? ipo_quotation_release_time := read_u32 buf 18 in
  let? b := read_u8 buf 22 in
  let? ipo_quotation_release_qualifier := from_byte (T := IpoReleaseQualifier.t) b in
  let? ipo_price := read_u32 buf 23 in
  Ok (IpoQuotingPeriodUpdate.mk header (Stock.from_bytes stock) ipo_quotation_release_time
      ipo_quotation_release_qualifier (Price4.from_u32 ipo_price)).

#[global] Instance IpoQuotingPeriodUpdate_Encode : Encode IpoQuotingPeriodUpdate.t :=
  {| body_len := λ _, IpoQuotingPeriodUpdate.BODY_LEN; encode_body := IpoQuotingPeriodUpdate_encode_body |}.
#[global] Instance IpoQuotingPeriodUpdate_Decode : Decode IpoQuotingPeriodUpdate.t := IpoQuotingPeriodUpdate_decode_body.
#[global] Instance IpoQuotingPeriodUpdate_spec : BodySpec IpoQuotingPeriodUpdate.t := {|
  BODY := IpoQuotingPeriodUpdate.BODY_LEN;
  wire m := Header_wire (IpoQuotingPeriodUpdate.header m) ++
    Stock.as_bytes (IpoQuotingPeriodUpdate.stock m) ++
    to_be_bytes 4 (IpoQuotingPeriodUpdate.ipo_quotation_release_time m) ++
    [to_byte (IpoQuotingPeriodUpdate.ipo_quotation_release_qualifier m)] ++
    to_be_bytes 4 (Price4.as_u32 (IpoQuotingPeriodUpdate.ipo_price m)) |}.

Ltac IpoQuotingPeriodUpdate_fields :=
  cbn [IpoQuotingPeriodUpdate.header IpoQuotingPeriodUpdate.stock
       IpoQuotingPeriodUpdate.ipo_quotation_release_time
       IpoQuotingPeriodUpdate.ipo_quotation_release_qualifier
       IpoQuotingPeriodUpdate.ipo_price] in *.
Ltac IpoQuotingPeriodUpdate_unfold :=
  unfold encode_body, IpoQuotingPeriodUpdate_Encode, IpoQuotingPeriodUpdate_encode_body, decode_body, IpoQuotingPeriodUpdate_Decode,
    IpoQuotingPeriodUpdate_decode_body, wire, BODY, IpoQuotingPeriodUpdate_spec, IpoQuotingPeriodUpdate.BODY_LEN in *.
#[global] Instance IpoQuotingPeriodUpdate_codec : BodyCodec IpoQuotingPeriodUpdate.t.
Proof. solve_body_codec IpoQuotingPeriodUpdate_unfold IpoQuotingPeriodUpdate_fields. Qed.

(** [AddOrder] *)

Definition AddOrder_encode_body (m : AddOrder.t) : mut (list Z) unit ProtocolError :=
  reserve AddOrder.BODY_LEN ;;?
  Header_encode_at (AddOrder.header m) ;;?
  write_u64 10 (OrderReference.as_u64 (AddOrder.order_ref m)) ;;?
  write_u8 18 (to_byte (AddOrder.side m)) ;;?
  write_u32 19 (Shares.as_u32 (AddOrder.shares m)) ;;?
  write_bytes 23 (Stock.as_bytes (AddOrder.stock m)) ;;?
  write_u32 31 (Price4.as_u32 (AddOrder.price m)) ;;?
  ok.

Definition AddOrder_decode_body (buf : list Z) : result AddOrder.t ProtocolError :=
  let? _ := need buf AddOrder.BODY_LEN in
  let? header := Header_decode_at buf in
  let? order_ref := read_u64 buf 10 in
  let? b := read_u8 buf 18 in
  let? side := from_byte (T := Side.t) b in
  let? shares := read_u32 buf 19 in
  let? stock := read_bytes_n 8 buf 23 in
  let? price := read_u32 buf 31 in
  Ok (AddOrder.mk header (OrderReference.from_u64 order_ref) side (Shares.from_u32 shares)
      (Stock.from_bytes stock) (Price4.from_u32 price)).

#[global] Instance AddOrder_Encode : Encode AddOrder.t :=
  {| body_len := λ _, AddOrder.BODY_LEN; encode_body := AddOrder_encode_body |}.
#[global] Instance AddOrder_Decode : Decode AddOrder.t := AddOrder_decode_body.
#[global] Instance AddOrder_spec : BodySpec AddOrder.t := {|
  BODY := AddOrder.BODY_LEN;
  wire m := Header_wire (AddOrder.header m) ++
    to_be_bytes 8 (OrderReference.as_u64 (AddOrder.order_ref m)) ++
    [to_byte (AddOrder.side m)] ++
    to_be_bytes 4 (Shares.as_u32 (AddOrder.shares m)) ++
    Stock.as_bytes (AddOrder.stock m) ++
    to_be_bytes 4 (Price4.as_u32 (AddOrder.price m)) |}.

Ltac AddOrder_fields :=
  cbn [AddOrder.header AddOrder.order_ref AddOrder.side AddOrder.shares AddOrder.stock
       AddOrder.price] in *.
Ltac AddOrder_unfold :=
  unfold encode_body, AddOrder_Encode, AddOrder_encode_body, decode_body, AddOrder_Decode,
    AddOrder_decode_body, wire, BODY, AddOrder_spec, AddOrder.BODY_LEN in *.
#[global] Instance AddOrder_codec : BodyCodec AddOrder.t.
Proof. solve_body_codec AddOrder_unfold AddOrder_fields. Qed.

(** [AddOrderWithMpid] *)

Definition AddOrderWithMpid_encode_body (m : AddOrderWithMpid.t) : mut (list Z) unit ProtocolError :=
  reserve AddOrderWithMpid.BODY_LEN ;;?
  Header_encode_at (AddOrderWithMpid.header m) ;;?
  write_u64 10 (OrderReference.as_u64 (AddOrderWithMpid.order_ref m)) ;;?
  write_u8 18 (to_byte (AddOrderWithMpid.side m)) ;;?
  write_u32 19 (Shares.as_u32 (AddOrderWithMpid.shares m)) ;;?
  write_bytes 23 (Stock.as_bytes (AddOrderWithMpid.stock m)) ;;?
  write_u32 31 (Price4.as_u32 (AddOrderWithMpid.price m)) ;;?
  write_bytes 35 (Mpid.as_bytes (AddOrderWithMpid.attribution m)) ;;?
  ok.

Definition AddOrderWithMpid_decode_body (buf : list Z) : result AddOrderWithMpid.t ProtocolError :=
  let? _ := need buf AddOrderWithMpid.BODY_LEN in
  let? header := Header_decode_at buf in
  let? order_ref := read_u64 buf 10 in
  let? b := read_u8 buf 18 in
  let? side := from_byte (T := Side.t) b in
  let? shares := read_u32 buf 19 in
  let? stock := read_bytes_n 8 buf 23 in
  let? price := read_u32 buf 31 in
  let? attribution := read_bytes_n 4 buf 35 in
  Ok (AddOrderWithMpid.mk header (OrderReference.from_u64 order_ref) side (Shares.from_u32 shares)
      (Stock.from_bytes stock) (Price4.from_u32 price) (Mpid.from_bytes attribution)).

#[global] Instance AddOrderWithMpid_Encode : Encode AddOrderWithMpid.t :=
  {| body_len := λ _, AddOrderWithMpid.BODY_LEN; encode_body := AddOrderWithMpid_encode_body |}.
#[global] Instance AddOrderWithMpid_Decode : Decode AddOrderWithMpid.t := AddOrderWithMpid_decode_body.
#[global] Instance AddOrderWithMpid_spec : BodySpec AddOrderWithMpid.t := {|
  BODY := AddOrderWithMpid.BODY_LEN;
  wire m := Header_wire (AddOrderWithMpid.header m) ++
    to_be_bytes 8 (OrderReference.as_u64 (AddOrderWithMpid.order_ref m)) ++
    [to_byte (AddOrderWithMpid.side m)] ++
    to_be_bytes 4 (Shares.as_u32 (AddOrderWithMpid.shares m)) ++
    Stock.as_bytes (AddOrderWithMpid.stock m) ++
    to_be_bytes 4 (Price4.as_u32 (AddOrderWithMpid.price m)) ++
    Mpid.as_bytes (AddOrderWithMpid.attribution m) |}.

Ltac AddOrderWithMpid_fields :=
  cbn [AddOrderWithMpid.header AddOrderWithMpid.order_ref AddOrderWithMpid.side
       AddOrderWithMpid.shares AddOrderWithMpid.stock AddOrderWithMpid.price
       AddOrderWithMpid.attribution] in *.
Ltac AddOrderWithMpid_unfold :=
  unfold encode_body, AddOrderWithMpid_Encode, AddOrderWithMpid_encode_body, decode_body, AddOrderWithMpid_Decode,
    AddOrderWithMpid_decode_body, wire, BODY, AddOrderWithMpid_spec, AddOrderWithMpid.BODY_LEN in *.
#[global] Instance AddOrderWithMpid_codec : BodyCodec AddOrderWithMpid.t.
Proof. solve_body_codec AddOrderWithMpid_unfold AddOrderWithMpid_fields. Qed.

(** [OrderExecuted] *)

Definition OrderExecuted_encode_body (m : OrderExecuted.t) : mut (list Z) unit ProtocolError :=
  reserve OrderExecuted.BODY_LEN ;;?
  Header_encode_at (OrderExecuted.header m) ;;?
  write_u64 10 (OrderReference.as_u64 (OrderExecuted.order_ref m)) ;;?
  write_u32 18 (Shares.as_u32 (OrderExecuted.executed_shares m)) ;;?
  write_u64 22 (MatchNumber.as_u64 (OrderExecuted.match_number m)) ;;?
  ok.

Definition OrderExecuted_decode_body (buf : list Z) : result OrderExecuted.t ProtocolError :=
  let? _ := need buf OrderExecuted.BODY_LEN in
  let? header := Header_decode_at buf in
  let? order_ref := read_u64 buf 10 in
  let? executed_shares := read_u32 buf 18 in
  let? match_number := read_u64 buf 22 in
  Ok (OrderExecuted.mk header (OrderReference.from_u64 order_ref) (Shares.from_u32 executed_shares)
      (MatchNumber.from_u64 match_number)).

#[global] Instance OrderExecuted_Encode : Encode OrderExecuted.t :=
  {| body_len := λ _, OrderExecuted.BODY_LEN; encode_body := OrderExecuted_encode_body |}.
#[global] Instance OrderExecuted_Decode : Decode OrderExecuted.t := OrderExecuted_decode_body.
#[global] Instance OrderExecuted_spec : BodySpec OrderExecuted.t := {|
  BODY := OrderExecuted.BODY_LEN;
  wire m := Header_wire (OrderExecuted.header m) ++
    to_be_bytes 8 (OrderReference.as_u64 (OrderExecuted.order_ref m)) ++
    to_be_bytes 4 (Shares.as_u32 (OrderExecuted.executed_shares m)) ++
    to_be_bytes 8 (MatchNumber.as_u64 (OrderExecuted.match_number m)) |}.

Ltac OrderExecuted_fields :=
  cbn [OrderExecuted.header OrderExecuted.order_ref OrderExecuted.executed_shares
       OrderExecuted.match_number] in *.
Ltac OrderExecuted_unfold :=
  unfold encode_body, OrderExecuted_Encode, OrderExecuted_encode_body, decode_body, OrderExecuted_Decode,
    OrderExecuted_decode_body, wire, BODY, OrderExecuted_spec, OrderExecuted.BODY_LEN in *.
#[global] Instance OrderExecuted_codec : BodyCodec OrderExecuted.t.
Proof. solve_body_codec OrderExecuted_unfold OrderExecuted_fields. Qed.

(** [OrderExecutedWithPrice] *)

Definition OrderExecutedWithPrice_encode_body (m : OrderExecutedWithPrice.t) : mut (list Z) unit ProtocolError :=
  reserve OrderExecutedWithPrice.BODY_LEN ;;?
  Header_encode_at (OrderExecutedWithPrice.header m) ;;?
  write_u64 10 (OrderReference.as_u64 (OrderExecutedWithPrice.order_ref m)) ;;?
  write_u32 18 (Shares.as_u32 (OrderExecutedWithPrice.executed_shares m)) ;;?
  write_u64 22 (MatchNumber.as_u64 (OrderExecutedWithPrice.match_number m)) ;;?
  write_u8 30 (to_byte (OrderExecutedWithPrice.printable m)) ;;?
  write_u32 31 (Price4.as_u32 (OrderExecutedWithPrice.execution_price m)) ;;?
  ok.

Definition OrderExecutedWithPrice_decode_body (buf : list Z) : result OrderExecutedWithPrice.t ProtocolError :=
  let? _ := need buf OrderExecutedWithPrice.BODY_LEN in
  let? header := Header_decode_at buf in
  let? order_ref := read_u64 buf 10 in
  let? executed_shares := read_u32 buf 18 in
  let? match_number := read_u64 buf 22 in
  let? b := read_u8 buf 30 in
  let? printable := from_byte (T := Printable.t) b in
  let? execution_price := read_u32 buf 31 in
  Ok (OrderExecutedWithPrice.mk header (OrderReference.from_u64 order_ref) (Shares.from_u32 executed_shares)
      (MatchNumber.from_u64 match_number) printable (Price4.from_u32 execution_price)).

#[global] Instance OrderExecutedWithPrice_Encode : Encode OrderExecutedWithPrice.t :=
  {| body_len := λ _, OrderExecutedWithPrice.BODY_LEN; encode_body := OrderExecutedWithPrice_encode_body |}.
#[global] Instance OrderExecutedWithPrice_Decode : Decode OrderExecutedWithPrice.t := OrderExecutedWithPrice_decode_body.
#[global] Instance OrderExecutedWithPrice_spec : BodySpec OrderExecutedWithPrice.t := {|
  BODY := OrderExecutedWithPrice.BODY_LEN;
  wire m := Header_wire (OrderExecutedWithPrice.header m) ++
    to_be_bytes 8 (OrderReference.as_u64 (OrderExecutedWithPrice.order_ref m)) ++
    to_be_bytes 4 (Shares.as_u32 (OrderExecutedWithPrice.executed_shares m)) ++
    to_be_bytes 8 (MatchNumber.as_u64 (OrderExecutedWithPrice.match_number m)) ++
    [to_byte (OrderExecutedWithPrice.printable m)] ++
    to_be_bytes 4 (Price4.as_u32 (OrderExecutedWithPrice.execution_price m)) |}.

Ltac OrderExecutedWithPrice_fields :=
  cbn [OrderExecutedWithPrice.header OrderExecutedWithPrice.order_ref
       OrderExecutedWithPrice.executed_shares OrderExecutedWithPrice.match_number
       OrderExecutedWithPrice.printable OrderExecutedWithPrice.execution_price] in *.
Ltac OrderExecutedWithPrice_unfold :=
  unfold encode_body, OrderExecutedWithPrice_Encode, OrderExecutedWithPrice_encode_body, decode_body, OrderExecutedWithPrice_Decode,
    OrderExecutedWithPrice_decode_body, wire, BODY, OrderExecutedWithPrice_spec, OrderExecutedWithPrice.BODY_LEN in *.
#[global] Instance OrderExecutedWithPrice_codec : BodyCodec OrderExecutedWithPrice.t.
Proof. solve_body_codec OrderExecutedWithPrice_unfold OrderExecutedWithPrice_fields. Qed.

(** [OrderCancel] *)

Definition OrderCancel_encode_body (m : OrderCancel.t) : mut (list Z) unit ProtocolError :=
  reserve OrderCancel.BODY_LEN ;;?
  Header_encode_at (OrderCancel.header m) ;;?
  write_u64 10 (OrderReference.as_u64 (OrderCancel.order_ref m)) ;;?
  write_u32 18 (Shares.as_u32 (OrderCancel.cancelled_shares m)) ;;?
  ok.

Definition OrderCancel_decode_body (buf : list Z) : result OrderCancel.t ProtocolError :=
  let? _ := need buf OrderCancel.BODY_LEN in
  let? header := Header_decode_at buf in
  let? order_ref := read_u64 buf 10 in
  let? cancelled_shares := read_u32 buf 18 in
  Ok (OrderCancel.mk header (OrderReference.from_u64 order_ref) (Shares.from_u32 cancelled_shares)).

#[global] Instance OrderCancel_Encode : Encode OrderCancel.t :=
  {| body_len := λ _, OrderCancel.BODY_LEN; encode_body := OrderCancel_encode_body |}.
#[global] Instance OrderCancel_Decode : Decode OrderCancel.t := OrderCancel_decode_body.
#[global] Instance OrderCancel_spec : BodySpec OrderCancel.t := {|
  BODY := OrderCancel.BODY_LEN;
  wire m := Header_wire (OrderCancel.header m) ++
    to_be_bytes 8 (OrderReference.as_u64 (OrderCancel.order_ref m)) ++
    to_be_bytes 4 (Shares.as_u32 (OrderCancel.cancelled_shares m)) |}.

Ltac OrderCancel_fields :=
  cbn [OrderCancel.header OrderCancel.order_ref OrderCancel.cancelled_shares] in *.
Ltac OrderCancel_unfold :=
  unfold encode_body, OrderCancel_Encode, OrderCancel_encode_body, decode_body, OrderCancel_Decode,
    OrderCancel_decode_body, wire, BODY, OrderCancel_spec, OrderCancel.BODY_LEN in *.
#[global] Instance OrderCancel_codec : BodyCodec OrderCancel.t.
Proof. solve_body_codec OrderCancel_unfold OrderCancel_fields. Qed.

(** [OrderDelete] *)

Definition OrderDelete_encode_body (m : OrderDelete.t) : mut (list Z) unit ProtocolError :=
  reserve OrderDelete.BODY_LEN ;;?
  Header_encode_at (OrderDelete.header m) ;;?
  write_u64 10 (OrderReference.as_u64 (OrderDelete.order_ref m)) ;;?
  ok.

Definition OrderDelete_decode_body (buf : list Z) : result OrderDelete.t ProtocolError :=
  let? _ := need buf OrderDelete.BODY_LEN in
  let? header := Header_decode_at buf in
  let? order_ref := read_u64 buf 10 in
  Ok (OrderDelete.mk header (OrderReference.from_u64 order_ref)).

#[global] Instance OrderDelete_Encode : Encode OrderDelete.t :=
  {| body_len := λ _, OrderDelete.BODY_LEN; encode_body := OrderDelete_encode_body |}.
#[global] Instance OrderDelete_Decode : Decode OrderDelete.t := OrderDelete_decode_body.
#[global] Instance OrderDelete_spec : BodySpec OrderDelete.t := {|
  BODY := OrderDelete.BODY_LEN;
  wire m := Header_wire (OrderDelete.header m) ++
    to_be_bytes 8 (OrderReference.as_u64 (OrderDelete.order_ref m)) |}.

Ltac OrderDelete_fields :=
  cbn [OrderDelete.header OrderDelete.order_ref] in *.
Ltac OrderDelete_unfold :=
  unfold encode_body, OrderDelete_Encode, OrderDelete_encode_body, decode_body, OrderDelete_Decode,
    OrderDelete_decode_body, wire, BODY, OrderDelete_spec, OrderDelete.BODY_LEN in *.
#[global] Instance OrderDelete_codec : BodyCodec OrderDelete.t.
Proof. solve_body_codec OrderDelete_unfold OrderDelete_fields. Qed.

(** [OrderReplace] *)

Definition OrderReplace_encode_body (m : OrderReplace.t) : mut (list Z) unit ProtocolError :=
  reserve OrderReplace.BODY_LEN ;;?
  Header_encode_at (OrderReplace.header m) ;;?
  write_u64 10 (OrderReference.as_u64 (OrderReplace.original_order_ref m)) ;;?
  write_u64 18 (OrderReference.as_u64 (OrderReplace.new_order_ref m)) ;;?
  write_u32 26 (Shares.as_u32 (OrderReplace.shares m)) ;;?
  write_u32 30 (Price4.as_u32 (OrderReplace.price m)) ;;?
  ok.

Definition OrderReplace_decode_body (buf : list Z) : result OrderReplace.t ProtocolError :=
  let? _ := need buf OrderReplace.BODY_LEN in
  let? header := Header_decode_at buf in
  let? original_order_ref := read_u64 buf 10 in
  let? new_order_ref := read_u64 buf 18 in
  let? shares := read_u32 buf 26 in
  let? price := read_u32 buf 30 in
  Ok (OrderReplace.mk header (OrderReference.from_u64 original_order_ref)
      (OrderReference.from_u64 new_order_ref) (Shares.from_u32 shares)
      (Price4.from_u32 price)).

#[global] Instance OrderReplace_Encode : Encode OrderReplace.t :=
  {| body_len := λ _, OrderReplace.BODY_LEN; encode_body := OrderReplace_encode_body |}.
#[global] Instance OrderReplace_Decode : Decode OrderReplace.t := OrderReplace_decode_body.
#[global] Instance OrderReplace_spec : BodySpec OrderReplace.t := {|
  BODY := OrderReplace.BODY_LEN;
  wire m := Header_wire (OrderReplace.header m) ++
    to_be_bytes 8 (OrderReference.as_u64 (OrderReplace.original_order_ref m)) ++
    to_be_bytes 8 (OrderReference.as_u64 (OrderReplace.new_order_ref m)) ++
    to_be_bytes 4 (Shares.as_u32 (OrderReplace.shares m)) ++
    to_be_bytes 4 (Price4.as_u32 (OrderReplace.price m)) |}.

Ltac OrderReplace_fields :=
  cbn [OrderReplace.header OrderReplace.original_order_ref OrderReplace.new_order_ref
       OrderReplace.shares OrderReplace.price] in *.
Ltac OrderReplace_unfold :=
  unfold encode_body, OrderReplace_Encode, OrderReplace_encode_body, decode_body, OrderReplace_Decode,
    OrderReplace_decode_body, wire, BODY, OrderReplace_spec, OrderReplace.BODY_LEN in *.
#[global] Instance OrderReplace_codec : BodyCodec OrderReplace.t.
Proof. solve_body_codec OrderReplace_unfold OrderReplace_fields. Qed.

(** [TradeNonCross] *)

Definition TradeNonCross_encode_body (m : TradeNonCross.t) : mut (list Z) unit ProtocolError :=
  reserve TradeNonCross.BODY_LEN ;;?
  Header_encode_at (TradeNonCross.header m) ;;?
  write_u64 10 (OrderReference.as_u64 (TradeNonCross.order_ref m)) ;;?
  write_u8 18 (to_byte (TradeNonCross.side m)) ;;?
  write_u32 19 (Shares.as_u32 (TradeNonCross.shares m)) ;;?
  write_bytes 23 (Stock.as_bytes (TradeNonCross.stock m)) ;;?
  write_u32 31 (Price4.as_u32 (TradeNonCross.price m)) ;;?
  write_u64 35 (MatchNumber.as_u64 (TradeNonCross.match_number m)) ;;?
  ok.

Definition TradeNonCross_decode_body (buf : list Z) : result TradeNonCross.t ProtocolError :=
  let? _ := need buf TradeNonCross.BODY_LEN in
  let? header := Header_decode_at buf in
  let? order_ref := read_u64 buf 10 in
  let? b := read_u8 buf 18 in
  let? side := from_byte (T := Side.t) b in
  let? shares := read_u32 buf 19 in
  let? stock := read_bytes_n 8 buf 23 in
  let? price := read_u32 buf 31 in
  let? match_number := read_u64 buf 35 in
  Ok (TradeNonCross.mk header (OrderReference.from_u64 order_ref) side (Shares.from_u32 shares)
      (Stock.from_bytes stock) (Price4.from_u32 price)
      (MatchNumber.from_u64 match_number)).

#[global] Instance TradeNonCross_Encode : Encode TradeNonCross.t :=
  {| body_len := λ _, TradeNonCross.BODY_LEN; encode_body := TradeNonCross_encode_body |}.
#[global] Instance TradeNonCross_Decode : Decode TradeNonCross.t := TradeNonCross_decode_body.
#[global] Instance TradeNonCross_spec : BodySpec TradeNonCross.t := {|
  BODY := TradeNonCross.BODY_LEN;
  wire m := Header_wire (TradeNonCross.header m) ++
    to_be_bytes 8 (OrderReference.as_u64 (TradeNonCross.order_ref m)) ++
    [to_byte (TradeNonCross.side m)] ++
    to_be_bytes 4 (Shares.as_u32 (TradeNonCross.shares m)) ++
    Stock.as_bytes (TradeNonCross.stock m) ++
    to_be_bytes 4 (Price4.as_u32 (TradeNonCross.price m)) ++
    to_be_bytes 8 (MatchNumber.as_u64 (TradeNonCross.match_number m)) |}.

Ltac TradeNonCross_fields :=
  cbn [TradeNonCross.header TradeNonCross.order_ref TradeNonCross.side
       TradeNonCross.shares TradeNonCross.stock TradeNonCross.price
       TradeNonCross.match_number] in *.
Ltac TradeNonCross_unfold :=
  unfold encode_body, TradeNonCross_Encode, TradeNonCross_encode_body, decode_body, TradeNonCross_Decode,
    TradeNonCross_decode_body, wire, BODY, TradeNonCross_spec, TradeNonCross.BODY_LEN in *.
#[global] Instance TradeNonCross_codec : BodyCodec TradeNonCross.t.
Proof. solve_body_codec TradeNonCross_unfold TradeNonCross_fields. Qed.

(** [CrossTrade] *)

Definition CrossTrade_encode_body (m : CrossTrade.t) : mut (list Z) unit ProtocolError :=
  reserve CrossTrade.BODY_LEN ;;?
  Header_encode_at (CrossTrade.header m) ;;?
  write_u64 10 (CrossTrade.shares m) ;;?
  write_bytes 18 (Stock.as_bytes (CrossTrade.stock m)) ;;?
  write_u32 26 (Price4.as_u32 (CrossTrade.cross_price m)) ;;?
  write_u64 30 (MatchNumber.as_u64 (CrossTrade.match_number m)) ;;?
  write_u8 38 (to_byte (CrossTrade.cross_type m)) ;;?
  ok.

Definition CrossTrade_decode_body (buf : list Z) : result CrossTrade.t ProtocolError :=
  let? _ := need buf CrossTrade.BODY_LEN in
  let? header := Header_decode_at buf in
  let? shares := read_u64 buf 10 in
  let? stock := read_bytes_n 8 buf 18 in
  let? cross_price := read_u32 buf 26 in
  let? match_number := read_u64 buf 30 in
  let? b := read_u8 buf 38 in
  let? cross_type := from_byte (T := CrossType.t) b in
  Ok (CrossTrade.mk header shares (Stock.from_bytes stock) (Price4.from_u32 cross_price)
      (MatchNumber.from_u64 match_number) cross_type).

#[global] Instance CrossTrade_Encode : Encode CrossTrade.t :=
  {| body_len := λ _, CrossTrade.BODY_LEN; encode_body := CrossTrade_encode_body |}.
#[global] Instance CrossTrade_Decode : Decode CrossTrade.t := CrossTrade_decode_body.
#[global] Instance CrossTrade_spec : BodySpec CrossTrade.t := {|
  BODY := CrossTrade.BODY_LEN;
  wire m := Header_wire (CrossTrade.header m) ++
    to_be_bytes 8 (CrossTrade.shares m) ++
    Stock.as_bytes (CrossTrade.stock m) ++
    to_be_bytes 4 (Price4.as_u32 (CrossTrade.cross_price m)) ++
    to_be_bytes 8 (MatchNumber.as_u64 (CrossTrade.match_number m)) ++
    [to_byte (CrossTrade.cross_type m)] |}.

Ltac CrossTrade_fields :=
  cbn [CrossTrade.header CrossTrade.shares CrossTrade.stock CrossTrade.cross_price
       CrossTrade.match_number CrossTrade.cross_type] in *.
Ltac CrossTrade_unfold :=
  unfold encode_body, CrossTrade_Encode, CrossTrade_encode_body, decode_body, CrossTrade_Decode,
    CrossTrade_decode_body, wire, BODY, CrossTrade_spec, CrossTrade.BODY_LEN in *.
#[global] Instance CrossTrade_codec : BodyCodec CrossTrade.t.
Proof. solve_body_codec CrossTrade_unfold CrossTrade_fields. Qed.

(** [BrokenTrade] *)

Definition BrokenTrade_encode_body (m : BrokenTrade.t) : mut (list Z) unit ProtocolError :=
  reserve BrokenTrade.BODY_LEN ;;?
  Header_encode_at (BrokenTrade.header m) ;;?
  write_u64 10 (MatchNumber.as_u64 (BrokenTrade.match_number m)) ;;?
  ok.

Definition BrokenTrade_decode_body (buf : list Z) : result BrokenTrade.t ProtocolError :=
  let? _ := need buf BrokenTrade.BODY_LEN in
  let? header := Header_decode_at buf in
  let? match_number := read_u64 buf 10 in
  Ok (BrokenTrade.mk header (MatchNumber.from_u64 match_number)).

#[global] Instance BrokenTrade_Encode : Encode BrokenTrade.t :=
  {| body_len := λ _, BrokenTrade.BODY_LEN; encode_body := BrokenTrade_encode_body |}.
#[global] Instance BrokenTrade_Decode : Decode BrokenTrade.t := BrokenTrade_decode_body.
#[global] Instance BrokenTrade_spec : BodySpec BrokenTrade.t := {|
  BODY := BrokenTrade.BODY_LEN;
  wire m := Header_wire (BrokenTrade.header m) ++
    to_be_bytes 8 (MatchNumber.as_u64 (BrokenTrade.match_number m)) |}.

Ltac BrokenTrade_fields :=
  cbn [BrokenTrade.header BrokenTrade.match_number] in *.
Ltac BrokenTrade_unfold :=
  unfold encode_body, BrokenTrade_Encode, BrokenTrade_encode_body, decode_body, BrokenTrade_Decode,
    BrokenTrade_decode_body, wire, BODY, BrokenTrade_spec, BrokenTrade.BODY_LEN in *.
#[global] Instance BrokenTrade_codec : BodyCodec BrokenTrade.t.
Proof. solve_body_codec BrokenTrade_unfold BrokenTrade_fields. Qed.

(** [Noii] *)

Definition Noii_encode_body (m : Noii.t) : mut (list Z) unit ProtocolError :=
  reserve Noii.BODY_LEN ;;?
  Header_encode_at (Noii.header m) ;;?
  write_u64 10 (Noii.paired_shares m) ;;?
  write_u64 18 (Noii.imbalance_shares m) ;;?
  write_u8 26 (to_byte (Noii.imbalance_direction m)) ;;?
  write_bytes 27 (Stock.as_bytes (Noii.stock m)) ;;?
  write_u32 35 (Price4.as_u32 (Noii.far_price m)) ;;?
  write_u32 39 (Price4.as_u32 (Noii.near_price m)) ;;?
  write_u32 43 (Price4.as_u32 (Noii.current_reference_price m)) ;;?
  write_u8 47 (to_byte (Noii.cross_type m)) ;;?
  write_u8 48 (to_byte (Noii.price_variation m)) ;;?
  ok.

Definition Noii_decode_body (buf : list Z) : result Noii.t ProtocolError :=
  let? _ := need buf Noii.BODY_LEN in
  let? header := Header_decode_at buf in
  let? paired_shares := read_u64 buf 10 in
  let? imbalance_shares := read_u64 buf 18 in
  let? b := read_u8 buf 26 in
  let? imbalance_direction := from_byte (T := ImbalanceDirection.t) b in
  let? stock := read_bytes_n 8 buf 27 in
  let? far_price := read_u32 buf 35 in
  let? near_price := read_u32 buf 39 in
  let? current_reference_price := read_u32 buf 43 in
  let? b := read_u8 buf 47 in
  let? cross_type := from_byte (T := CrossType.t) b in
  let? b := read_u8 buf 48 in
  let? price_variation := from_byte (T := PriceVariation.t) b in
  Ok (Noii.mk header paired_shares imbalance_shares imbalance_direction (Stock.from_bytes stock)
      (Price4.from_u32 far_price) (Price4.from_u32 near_price)
      (Price4.from_u32 current_reference_price) cross_type price_variation).

#[global] Instance Noii_Encode : Encode Noii.t :=
  {| body_len := λ _, Noii.BODY_LEN; encode_body := Noii_encode_body |}.
#[global] Instance Noii_Decode : Decode Noii.t := Noii_decode_body.
#[global] Instance Noii_spec : BodySpec Noii.t := {|
  BODY := Noii.BODY_LEN;
  wire m := Header_wire (Noii.header m) ++
    to_be_bytes 8 (Noii.paired_shares m) ++
    to_be_bytes 8 (Noii.imbalance_shares m) ++
    [to_byte (Noii.imbalance_direction m)] ++
    Stock.as_bytes (Noii.stock m) ++
    to_be_bytes 4 (Price4.as_u32 (Noii.far_price m)) ++
    to_be_bytes 4 (Price4.as_u32 (Noii.near_price m)) ++
    to_be_bytes 4 (Price4.as_u32 (Noii.current_reference_price m)) ++
    [to_byte (Noii.cross_type m)] ++
    [to_byte (Noii.price_variation m)] |}.

Ltac Noii_fields :=
  cbn [Noii.header Noii.paired_shares Noii.imbalance_shares Noii.imbalance_direction
       Noii.stock Noii.far_price Noii.near_price Noii.current_reference_price
       Noii.cross_type Noii.price_variation] in *.
Ltac Noii_unfold :=
  unfold encode_body, Noii_Encode, Noii_encode_body, decode_body, Noii_Decode,
    Noii_decode_body, wire, BODY, Noii_spec, Noii.BODY_LEN in *.
#[global] Instance Noii_codec : BodyCodec Noii.t.
Proof. solve_body_codec Noii_unfold Noii_fields. Qed.

(** [RetailPriceImprovement] *)

Definition RetailPriceImprovement_encode_body (m : RetailPriceImprovement.t) : mut (list Z) unit ProtocolError :=
  reserve RetailPriceImprovement.BODY_LEN ;;?
  Header_encode_at (RetailPriceImprovement.header m) ;;?
  write_bytes 10 (Stock.as_bytes (RetailPriceImprovement.stock m)) ;;?
  write_u8 18 (to_byte (RetailPriceImprovement.interest_flag m)) ;;?
  ok.

Definition RetailPriceImprovement_decode_body (buf : list Z) : result RetailPriceImprovement.t ProtocolError :=
  let? _ := need buf RetailPriceImprovement.BODY_LEN in
  let? header := Header_decode_at buf in
  let? stock := read_bytes_n 8 buf 10 in
  let? b := read_u8 buf 18 in
  let? interest_flag := from_byte (T := RpiInterestFlag.t) b in
  Ok (RetailPriceImprovement.mk header (Stock.from_bytes stock) interest_flag).

#[global] Instance RetailPriceImprovement_Encode : Encode RetailPriceImprovement.t :=
  {| body_len := λ _, RetailPriceImprovement.BODY_LEN; encode_body := RetailPriceImprovement_encode_body |}.
#[global] Instance RetailPriceImprovement_Decode : Decode RetailPriceImprovement.t := RetailPriceImprovement_decode_body.
#[global] Instance RetailPriceImprovement_spec : BodySpec RetailPriceImprovement.t := {|
  BODY := RetailPriceImprovement.BODY_LEN;
  wire m := Header_wire (RetailPriceImprovement.header m) ++
    Stock.as_bytes (RetailPriceImprovement.stock m) ++
    [to_byte (RetailPriceImprovement.interest_flag m)] |}.

Ltac RetailPriceImprovement_fields :=
  cbn [RetailPriceImprovement.header RetailPriceImprovement.stock
       RetailPriceImprovement.interest_flag] in *.
Ltac RetailPriceImprovement_unfold :=
  unfold encode_body, RetailPriceImprovement_Encode, RetailPriceImprovement_encode_body, decode_body, RetailPriceImprovement_Decode,
    RetailPriceImprovement_decode_body, wire, BODY, RetailPriceImprovement_spec, RetailPriceImprovement.BODY_LEN in *.
#[global] Instance RetailPriceImprovement_codec : BodyCodec RetailPriceImprovement.t.
Proof. solve_body_codec RetailPriceImprovement_unfold RetailPriceImprovement_fields. Qed.
