(* ===== verification/MessageCodec.v ===== *)
(** [Message::encode] and [Message::decode]
    ([crates/itch-protocol/src/codec.rs], lines 852-918): the one-byte tag in
    front of the body.

    The twenty kinds are collected in the list [kinds], each with its tag, its
    constructor of [Message] and its [BodyCodec]; the theorems about whole
    messages are proved once, for an arbitrary kind, against that contract. *)

From S2P Require Import Prelude Primitives Enums Messages Codec CodecMessages.

(** The [match self] of [Message::encode]. *)
Definition message_encode_body (msg : Message.t) : mut (list Z) unit ProtocolError :=
  match msg with
  | Message.SystemEvent m => encode_body m
  | Message.StockDirectory m => encode_body m
  | Message.StockTradingAction m => encode_body m
  | Message.RegShoRestriction m => encode_body m
  | Message.MarketParticipantPosition m => encode_body m
  | Message.MwcbDeclineLevel m => encode_body m
  | Message.MwcbStatus m => encode_body m
  | Message.IpoQuotingPeriodUpdate m => encode_body m
  | Message.AddOrder m => encode_body m
  | Message.AddOrderWithMpid m => encode_body m
  | Message.OrderExecuted m => encode_body m
  | Message.OrderExecutedWithPrice m => encode_body m
  | Message.OrderCancel m => encode_body m
  | Message.OrderDelete m => encode_body m
  | Message.OrderReplace m => encode_body m
  | Message.TradeNonCross m => encode_body m
  | Message.CrossTrade m => encode_body m
  | Message.BrokenTrade m => encode_body m
  | Message.Noii m => encode_body m
  | Message.RetailPriceImprovement m => encode_body m
  end.

Definition Message_encode (msg : Message.t) : mut (list Z) nat ProtocolError :=
  let total := Message.encoded_len msg in
  borrow_mut 0 total (λ out,
    let out := <[0%nat := Message.tag msg]> out in
    let '(body, r) := message_encode_body msg (drop 1 out) in
    (take 1 out ++ body, let? _ := r in Ok total)).

Definition Message_decode (buf : list Z) : result Message.t ProtocolError :=
  match buf with
  | [] => Err (Truncated 1 0)
  | tag :: body =>
    if tag =? b@"S" then let? m := decode_body body in Ok (Message.SystemEvent m) else
    if tag =? b@"R" then let? m := decode_body body in Ok (Message.StockDirectory m) else
    if tag =? b@"H" then let? m := decode_body body in Ok (Message.StockTradingAction m) else
    if tag =? b@"Y" then let? m := decode_body body in Ok (Message.RegShoRestriction m) else
    if tag =? b@"L" then let? m := decode_body body in Ok (Message.MarketParticipantPosition m) else
    if tag =? b@"V" then let? m := decode_body body in Ok (Message.MwcbDeclineLevel m) else
    if tag =? b@"W" then let? m := decode_body body in Ok (Message.MwcbStatus m) else
    if tag =? b@"K" then let? m := decode_body body in Ok (Message.IpoQuotingPeriodUpdate m) else
    if tag =? b@"A" then let? m := decode_body body in Ok (Message.AddOrder m) else
    if tag =? b@"F" then let? m := decode_body body in Ok (Message.AddOrderWithMpid m) else
    if tag =? b@"E" then let? m := decode_body body in Ok (Message.OrderExecuted m) else
    if tag =? b@"C" then let? m := decode_body body in Ok (Message.OrderExecutedWithPrice m) else
    if tag =? b@"X" then let? m := decode_body body in Ok (Message.OrderCancel m) else
    if tag =? b@"D" then let? m := decode_body body in Ok (Message.OrderDelete m) else
    if tag =? b@"U" then let? m := decode_body body in Ok (Message.OrderReplace m) else
    if tag =? b@"P" then let? m := decode_body body in Ok (Message.TradeNonCross m) else
    if tag =? b@"Q" then let? m := decode_body body in Ok (Message.CrossTrade m) else
    if tag =? b@"B" then let? m := decode_body body in Ok (Message.BrokenTrade m) else
    if tag =? b@"I" then let? m := decode_body body in Ok (Message.Noii m) else
    if tag =? b@"N" then let? m := decode_body body in Ok (Message.RetailPriceImprovement m) else
    Err (UnknownMessageType tag)
  end.

(** ** The kinds *)

Record Kind := MkKind {
  K : Type;
  k_enc :: Encode K;
  k_dec :: Decode K;
  k_wf :: WellFormed K;
  k_spec :: BodySpec K;
  k_codec :: BodyCodec K;
  k_tag : Z;
  k_msg : K → Message.t;
}.
Arguments MkKind K {_ _ _ _ _} k_tag k_msg.

Definition kinds : list Kind := [
  MkKind SystemEvent.t b@"S" Message.SystemEvent;
  MkKind StockDirectory.t b@"R" Message.StockDirectory;
  MkKind StockTradingAction.t b@"H" Message.StockTradingAction;
  MkKind RegShoRestriction.t b@"Y" Message.RegShoRestriction;
  MkKind MarketParticipantPosition.t b@"L" Message.MarketParticipantPosition;
  MkKind MwcbDeclineLevel.t b@"V" Message.MwcbDeclineLevel;
  MkKind MwcbStatus.t b@"W" Message.MwcbStatus;
  MkKind IpoQuotingPeriodUpdate.t b@"K" Message.IpoQuotingPeriodUpdate;
  MkKind AddOrder.t b@"A" Message.AddOrder;
  MkKind AddOrderWithMpid.t b@"F" Message.AddOrderWithMpid;
  MkKind OrderExecuted.t b@"E" Message.OrderExecuted;
  MkKind OrderExecutedWithPrice.t b@"C" Message.OrderExecutedWithPrice;
  MkKind OrderCancel.t b@"X" Message.OrderCancel;
  MkKind OrderDelete.t b@"D" Message.OrderDelete;
  MkKind OrderReplace.t b@"U" Message.OrderReplace;
  MkKind TradeNonCross.t b@"P" Message.TradeNonCross;
  MkKind CrossTrade.t b@"Q" Message.CrossTrade;
  MkKind BrokenTrade.t b@"B" Message.BrokenTrade;
  MkKind Noii.t b@"I" Message.Noii;
  MkKind RetailPriceImprovement.t b@"N" Message.RetailPriceImprovement].

(** The reference encoding of a message. *)
Definition body_wire (msg : Message.t) : list Z :=
  match msg with
  | Message.SystemEvent m => wire m
  | Message.StockDirectory m => wire m
  | Message.StockTradingAction m => wire m
  | Message.RegShoRestriction m => wire m
  | Message.MarketParticipantPosition m => wire m
  | Message.MwcbDeclineLevel m => wire m
  | Message.MwcbStatus m => wire m
  | Message.IpoQuotingPeriodUpdate m => wire m
  | Message.AddOrder m => wire m
  | Message.AddOrderWithMpid m => wire m
  | Message.OrderExecuted m => wire m
  | Message.OrderExecutedWithPrice m => wire m
  | Message.OrderCancel m => wire m
  | Message.OrderDelete m => wire m
  | Message.OrderReplace m => wire m
  | Message.TradeNonCross m => wire m
  | Message.CrossTrade m => wire m
  | Message.BrokenTrade m => wire m
  | Message.Noii m => wire m
  | Message.RetailPriceImprovement m => wire m
  end.
Definition message_wire (msg : Message.t) : list Z := Message.tag msg :: body_wire msg.

(** How the functions on [Message] treat a message of kind [k]. *)
Record KindLaws (k : Kind) : Prop := {
  kl_tag m : Message.tag (k_msg k m) = k_tag k;
  kl_u8 : is_u8 (k_tag k);
  kl_len m : Message.body_len (k_msg k m) = BODY (K k);
  kl_small : (10 ≤ BODY (K k) < 64)%nat;
  kl_wf m : wf (k_msg k m) = wf m;
  kl_enc m : message_encode_body (k_msg k m) = encode_body m;
  kl_wire m : body_wire (k_msg k m) = wire m;
  kl_dec body : Message_decode (k_tag k :: body) = let? m := decode_body body in Ok (k_msg k m);
}.

Lemma kinds_laws : Forall KindLaws kinds.
Proof.
  repeat constructor; try reflexivity; try (vm_compute; discriminate); vm_compute; lia.
Qed.

Ltac in_kinds := repeat first [apply list_elem_of_here | apply list_elem_of_further].

Lemma kinds_cover msg : ∃ k m, k ∈ kinds ∧ msg = k_msg k m.
Proof.
  destruct msg as [m|m|m|m|m|m|m|m|m|m|m|m|m|m|m|m|m|m|m|m];
    (let T := type of m in
     eexists (MkKind T _ _), m; split; cycle 1; [reflexivity|in_kinds]).
Qed.

Lemma kind_of msg : ∃ k m, KindLaws k ∧ msg = k_msg k m.
Proof.
  destruct (kinds_cover msg) as (k & m & Hk & ->). exists k, m. split; [|done].
  pose proof kinds_laws as H. rewrite Forall_forall in H. auto.
Qed.

(** The body length announced by a tag. *)
Definition tag_body_len (tag : Z) : option nat :=
  match list_find (λ k, k_tag k = tag) kinds with
  | Some (_, k) => Some (BODY (K k))
  | None => None
  end.

Lemma tag_cases tag :
  (∃ k, KindLaws k ∧ tag = k_tag k ∧ tag_body_len tag = Some (BODY (K k)))
  ∨ (tag_body_len tag = None ∧
     ∀ body, Message_decode (tag :: body) = Err (UnknownMessageType tag)).
Proof.
  unfold tag_body_len. destruct (list_find _ kinds) as [[i k]|] eqn:E; [left|right].
  - apply list_find_Some in E as (Hi & Ht & _). exists k. split_and!; [|done|done].
    pose proof kinds_laws as H. rewrite Forall_lookup in H. eauto.
  - apply list_find_None in E. split; [done|]. intros body.
    unfold kinds in E. rewrite !Forall_cons in E. unfold k_tag in E. destruct_and!.
    cbn [Message_decode]. by rewrite !(proj2 (Z.eqb_neq _ _)) by (by apply not_eq_sym).
Qed.

(** ** Whole messages *)

(** The two lemmas every theorem below goes through: what encoding writes, and
    what a successful decoding has read. *)
Lemma Message_encode_wire msg buf :
  wf msg → (Message.encoded_len msg ≤ length buf)%nat →
  Message_encode msg buf
  = (message_wire msg ++ drop (Message.encoded_len msg) buf, Ok (Message.encoded_len msg)).
Proof.
  intros Hwf Hl. destruct (kind_of msg) as (k & m & Hk & ->).
  rewrite (kl_wf _ Hk) in Hwf. pose proof (kl_small _ Hk).
  unfold Message_encode, message_wire, Message.encoded_len in *.
  rewrite (kl_len _ Hk), (kl_enc _ Hk), (kl_wire _ Hk) in *.
  apply (borrow_mut_append [] (_ :: wire m) buf 0 (1 + BODY (K k)));
    [done|done|unfold usize_max; lia|simpl; by rewrite wire_length|].
  intros s Hs. destruct s as [|b s]; [done|]. simpl in Hs. simpl.
  rewrite (encode_body_ok m s) by (done || lia).
  by rewrite drop_ge, app_nil_r by lia.
Qed.

Lemma Message_decode_wire msg rest : wf msg → Message_decode (message_wire msg ++ rest) = Ok msg.
Proof.
  intros Hwf. destruct (kind_of msg) as (k & m & Hk & ->). rewrite (kl_wf _ Hk) in Hwf.
  unfold message_wire. rewrite (kl_tag _ Hk), (kl_wire _ Hk). simpl app.
  by rewrite (kl_dec _ Hk), decode_body_wire.
Qed.

Lemma Message_decode_ok_inv buf msg :
  Forall is_u8 buf → Message_decode buf = Ok msg →
  wf msg ∧ (Message.encoded_len msg ≤ length buf)%nat
  ∧ take (Message.encoded_len msg) buf = message_wire msg.
Proof.
  intros Hb E. destruct buf as [|tag body]; [done|]. inversion Hb; subst.
  destruct (tag_cases tag) as [(k & Hk & -> & _)|[_ Hu]]; [|by rewrite Hu in E].
  rewrite (kl_dec _ Hk) in E. destruct (decode_body body) as [m|] eqn:Em; [|done].
  simplify_eq. apply decode_body_inv in Em as (Hwf & Hl & Ht); [|done].
  unfold message_wire, Message.encoded_len.
  rewrite (kl_wf _ Hk), (kl_len _ Hk), (kl_tag _ Hk), (kl_wire _ Hk).
  simpl. rewrite Ht. split_and!; [done|lia|done].
Qed.

Lemma length_message_wire msg : wf msg → length (message_wire msg) = Message.encoded_len msg.
Proof.
  intros Hwf. destruct (kind_of msg) as (k & m & Hk & ->). rewrite (kl_wf _ Hk) in Hwf.
  unfold message_wire, Message.encoded_len. rewrite (kl_len _ Hk), (kl_wire _ Hk).
  simpl. by rewrite wire_length.
Qed.

Lemma message_wire_u8 msg : wf msg → Forall is_u8 (message_wire msg).
Proof.
  intros Hwf. destruct (kind_of msg) as (k & m & Hk & ->). rewrite (kl_wf _ Hk) in Hwf.
  unfold message_wire. rewrite (kl_tag _ Hk), (kl_wire _ Hk).
  constructor; [apply (kl_u8 _ Hk)|by apply wire_u8].
Qed.

Lemma encoded_len_bounds msg : (11 ≤ Message.encoded_len msg < 65)%nat.
Proof.
  destruct (kind_of msg) as (k & m & Hk & ->). pose proof (kl_small _ Hk).
  unfold Message.encoded_len. rewrite (kl_len _ Hk). lia.
Qed.

(** [let mut buf = vec![0; msg.encoded_len()]; msg.encode(&mut buf)]. *)
Lemma Message_encode_fresh msg :
  wf msg → Message_encode msg (replicate (Message.encoded_len msg) 0)
           = (message_wire msg, Ok (Message.encoded_len msg)).
Proof.
  intros Hwf. rewrite Message_encode_wire by (by rewrite ?length_replicate).
  by rewrite drop_ge, app_nil_r by by rewrite length_replicate.
Qed.

Lemma Message_decode_all msg : wf msg → Message_decode (message_wire msg) = Ok msg.
Proof. intros Hwf. rewrite <-(app_nil_r (message_wire msg)). by apply Message_decode_wire. Qed.

(** Encoding succeeds only when the buffer is large enough. *)
Lemma Message_encode_ok msg buf buf' n :
  wf msg → Message_encode msg buf = (buf', Ok n) →
  n = Message.encoded_len msg ∧ take n buf' = message_wire msg.
Proof.
  intros Hwf E. destruct (le_lt_dec (Message.encoded_len msg) (length buf)) as [Hl|Hl].
  - rewrite Message_encode_wire in E by done. simplify_eq. split; [done|].
    by rewrite <-(length_message_wire msg) at 1 by done; rewrite take_app_length.
  - pose proof (encoded_len_bounds msg). unfold Message_encode, borrow_mut in E.
    by rewrite slice_n_mut_short in E by (done || unfold usize_max; lia).
Qed.

(** ** Properties *)

(** C1: encoding a well-formed message into a large enough buffer succeeds,
    reports exactly [encoded_len] bytes, leaves the rest of the buffer alone,
    and decoding the result gives the message back. *)
Theorem message_roundtrip msg buf :
  wf msg → (Message.encoded_len msg ≤ length buf)%nat →
  ∃ buf', Message_encode msg buf = (buf', Ok (Message.encoded_len msg))
    ∧ Message_decode buf' = Ok msg
    ∧ length buf' = length buf
    ∧ drop (Message.encoded_len msg) buf' = drop (Message.encoded_len msg) buf.
Proof.
  intros Hwf Hl. exists (message_wire msg ++ drop (Message.encoded_len msg) buf).
  split_and!.
  - by apply Message_encode_wire.
  - by apply Message_decode_wire.
  - rewrite length_app, length_message_wire, length_drop by done. lia.
  - rewrite <-(length_message_wire msg) at 1 by done. by rewrite drop_app_length.
Qed.

Lemma message_roundtrip_witness :
  ∃ buf', Message_encode (Message.Noii Noii.default) (replicate 64 7)
          = (buf', Ok 50%nat)
    ∧ Message_decode buf' = Ok (Message.Noii Noii.default).
Proof.
  destruct (message_roundtrip (Message.Noii Noii.default) (replicate 64 7))
    as (buf' & He & Hd & _).
  - vm_compute. repeat split; repeat constructor; discriminate.
  - vm_compute. lia.
  - exists buf'. split; [exact He|exact Hd].
Defined.

(** C13: the encoding is canonical. Whatever bytes decode to a message are the
    bytes that encoding the message writes (re-encoding in place changes
    nothing), and the decoded message is well formed. *)
Theorem decode_canonical buf msg :
  Forall is_u8 buf → Message_decode buf = Ok msg →
  wf msg ∧ Message_encode msg buf = (buf, Ok (Message.encoded_len msg)).
Proof.
  intros Hb E. destruct (Message_decode_ok_inv _ _ Hb E) as (Hwf & Hl & Ht).
  split; [done|]. by rewrite Message_encode_wire, <-Ht, take_drop.
Qed.

Lemma decode_canonical_witness :
  let buf := [b@"S"; 0; 1; 0; 2; 0; 0; 0; 0; 0; 9; b@"O"; 99] in
  ∃ msg, Message_decode buf = Ok msg ∧ Message_encode msg buf = (buf, Ok 12%nat).
Proof.
  intros buf. eexists. split; [vm_compute; reflexivity|].
  refine (proj2 (decode_canonical buf _ _ _)).
  - apply (bool_decide_unpack _). vm_compute. exact I.
  - reflexivity.
Defined.

(** Encoding any message into a buffer shorter than its [encoded_len] fails
    with both lengths and has written nothing. *)
Theorem encode_too_small msg buf :
  (length buf < Message.encoded_len msg)%nat →
  Message_encode msg buf
  = (buf, Err (BufferTooSmall (Z.of_nat (Message.encoded_len msg)) (Z.of_nat (length buf)))).
Proof.
  intros Hl. pose proof (encoded_len_bounds msg). unfold Message_encode, borrow_mut.
  rewrite slice_n_mut_short; [done|done|unfold usize_max; lia].
Qed.

Lemma encode_too_small_witness :
  Message_encode (Message.OrderDelete OrderDelete.default) [1; 2; 3]
  = ([1; 2; 3], Err (BufferTooSmall 19 3)).
Proof. apply (encode_too_small (Message.OrderDelete OrderDelete.default) [1; 2; 3]). vm_compute. lia. Defined.

(** The byte stream is unambiguous. If the bytes that encoding one message
    writes are the start of the bytes that encoding another writes (or of more
    data after it), the messages are the same: no encoding is a proper prefix of
    another. *)
Theorem wire_unambiguous m1 m2 b1 b2 c1 c2 n1 n2 more :
  wf m1 → wf m2 →
  Message_encode m1 b1 = (c1, Ok n1) → Message_encode m2 b2 = (c2, Ok n2) →
  take n1 c1 `prefix_of` take n2 c2 ++ more → m1 = m2 ∧ n1 = n2.
Proof.
  intros H1 H2 E1 E2 [rest Hp].
  destruct (Message_encode_ok _ _ _ _ H1 E1) as [-> Ht1].
  destruct (Message_encode_ok _ _ _ _ H2 E2) as [-> Ht2]. rewrite Ht1, Ht2 in Hp.
  pose proof (Message_decode_wire m2 more H2) as D.
  rewrite Hp, (Message_decode_wire m1 rest H1) in D. by simplify_eq.
Qed.

Lemma wire_unambiguous_witness :
  Message.BrokenTrade BrokenTrade.default = Message.BrokenTrade BrokenTrade.default
  ∧ 19%nat = 19%nat.
Proof.
  apply (wire_unambiguous (Message.BrokenTrade BrokenTrade.default)
           (Message.BrokenTrade BrokenTrade.default) (replicate 19 0) (replicate 30 1)
           (Message_encode (Message.BrokenTrade BrokenTrade.default) (replicate 19 0)).1
           (Message_encode (Message.BrokenTrade BrokenTrade.default) (replicate 30 1)).1
           19 19 [5]).
  - vm_compute. repeat split; discriminate.
  - vm_compute. repeat split; discriminate.
  - vm_compute. reflexivity.
  - vm_compute. reflexivity.
  - exists [5]. vm_compute. reflexivity.
Defined.
