(* ===== verification/DecodeErrors.v ===== *)
(** How decoding fails.

    [layouts] is the layout of the twenty messages as far as decoding can object to
    it: the tag, the length of the body, and the bytes that hold a code, each with
    its offset, the name under which an error reports it and the codes that it may
    have.  [decode_failure] reads off the table what is wrong with a buffer; it is
    the specification of the error paths of [Message::decode]
    ([crates/itch-protocol/src/codec.rs]). *)

From S2P Require Import Prelude Primitives Text Enums Messages Codec CodecMessages MessageCodec.

Module CodedField.
Record t := mk { offset : nat; name : string; codes : list Z }.
End CodedField.
Definition coded (offset : nat) (name codes : string) : CodedField.t :=
  CodedField.mk offset name (text codes).

Definition layouts : list (Z * (nat * list CodedField.t)) := [
  (b@"S", (11%nat, [coded 10 "EventCode" "OSQMEC"]));
  (b@"R", (38%nat, [coded 18 "MarketCategory" "QGSANPZV ";
       coded 19 "FinancialStatus" "DEQSGHJKCN "; coded 24 "YesNo" "YN ";
       coded 28 "Authenticity" "PT"; coded 29 "YesNo" "YN "; coded 30 "YesNo" "YN ";
       coded 31 "LuldTier" "12 "; coded 32 "YesNo" "YN "; coded 37 "YesNo" "YN "]));
  (b@"H", (24%nat, [coded 18 "TradingState" "HPQT"]));
  (b@"Y", (19%nat, [coded 18 "RegShoAction" "012"]));
  (b@"L", (25%nat, [coded 22 "YesNo" "YN "; coded 23 "MarketMakerMode" "NPSRL";
       coded 24 "MarketParticipantState" "AEWSD"]));
  (b@"V", (34%nat, []));
  (b@"W", (11%nat, [coded 10 "BreachedLevel" "123"]));
  (b@"K", (27%nat, [coded 22 "IpoReleaseQualifier" "AC"]));
  (b@"A", (35%nat, [coded 18 "Side" "BS"]));
  (b@"F", (39%nat, [coded 18 "Side" "BS"]));
  (b@"E", (30%nat, []));
  (b@"C", (35%nat, [coded 30 "Printable" "NY"]));
  (b@"X", (22%nat, []));
  (b@"D", (18%nat, []));
  (b@"U", (34%nat, []));
  (b@"P", (43%nat, [coded 18 "Side" "BS"]));
  (b@"Q", (39%nat, [coded 38 "CrossType" "OCHI"]));
  (b@"B", (18%nat, []));
  (b@"I", (49%nat, [coded 26 "ImbalanceDirection" "BSNO"; coded 47 "CrossType" "OCHI";
       coded 48 "PriceVariation" "L123456789ABC "]));
  (b@"N", (19%nat, [coded 18 "RpiInterestFlag" "BSAN"]))].

Definition layout (tag : Z) : option (nat * list CodedField.t) :=
  match list_find (λ row, row.1 = tag) layouts with Some (_, row) => Some row.2 | None => None end.

(** The first byte of [body] that should hold a code and does not. *)
Fixpoint first_bad (fields : list CodedField.t) (body : list Z) : option ProtocolError :=
  match fields with
  | [] => None
  | f :: fields =>
      match body !! CodedField.offset f with
      | Some code =>
          if decide (code ∈ CodedField.codes f) then first_bad fields body
          else Some (InvalidEnumCode (CodedField.name f) code)
      | None => None
      end
  end.

(** What is wrong with a buffer; [None] where nothing is. *)
Definition decode_failure (buf : list Z) : option ProtocolError :=
  match buf with
  | [] => Some (Truncated 1 0)
  | tag :: body =>
      match layout tag with
      | None => Some (UnknownMessageType tag)
      | Some (len, fields) =>
          if (length body <? len)%nat
          then Some (Truncated (Z.of_nat len) (Z.of_nat (length body)))
          else first_bad fields body
      end
  end.

(** ** One kind *)

(** [from_byte] accepts exactly the bytes of its table. *)
Lemma from_byte_accepts `{AlphaLaws T} codes (b : Z) :
  codes = map snd (arms (T := T)) → b ∈ codes → ∃ v : T, from_byte b = Ok v.
Proof. intros -> ([v b'] & -> & Hin)%list_elem_of_fmap. exists v. by apply from_byte_arm. Qed.
Lemma from_byte_refuses `{AlphaLaws T} codes (b : Z) :
  codes = map snd (arms (T := T)) → b ∉ codes → from_byte (T := T) b = Err (InvalidEnumCode FIELD b).
Proof.
  intros -> Hb. destruct (from_byte b) as [v|e] eqn:E; [|by rewrite (from_byte_err _ _ E)].
  destruct Hb. apply from_byte_ok in E as <-. apply list_elem_of_fmap. eexists. split; [|apply arm_of]. done.
Qed.

(** A result fails exactly with the given failure. *)
Definition fails_as {T E} (r : result T E) (failure : option E) : Prop :=
  match r with Ok _ => failure = None | Err e => failure = Some e end.

Ltac read_next :=
  match goal with
  | |- context [match ?r with Ok _ => _ | Err _ => _ end] =>
      let E := fresh "E" in
      destruct r eqn:E;
      [ try apply read_u8_lookup in E
      | exfalso;
        first [ apply read_u8_err in E | apply read_u32_err in E | apply read_u64_err in E
              | apply read_bytes_n_err in E ]; [lia | usize_bound] ]
  end.
Ltac code_next :=
  match goal with
  | L : ?b !! ?o = Some ?c |- context [from_byte (T := ?T) ?c] =>
      cbn [first_bad CodedField.offset CodedField.codes CodedField.name coded]; rewrite L;
      let H := fresh "H" in let C := fresh "C" in
      match goal with
      | |- context [decide (c ∈ ?codes)] =>
          assert (codes = map snd (arms (T := T))) as C by (vm_compute; reflexivity)
      end;
      case_decide as H;
      [ let v := fresh "v" in let E := fresh "E" in
        destruct (from_byte_accepts (T := T) _ c C H) as [v E]; rewrite E; clear L E C
      | rewrite (from_byte_refuses (T := T) _ c C H); unfold fails_as; reflexivity ]
  end.
Ltac solve_objects unf :=
  unf; rewrite need_ok by lia;
  match goal with
  | |- context [Header_decode_at ?b] =>
      let E := fresh "E" in
      destruct (Header_decode_at b) eqn:E; [|apply Header_decode_at_err in E; lia]
  end;
  repeat first [code_next | read_next]; unfold fails_as; reflexivity.

(** ** All kinds *)

(** A row of the table describes a kind. *)
Record row_ok (k : Kind) (row : Z * (nat * list CodedField.t)) : Prop := {
  row_tag : k_tag k = row.1;
  row_len : BODY (K k) = row.2.1;
  row_fails body : (BODY (K k) ≤ length body)%nat →
    fails_as (decode_body (T := K k) body) (first_bad row.2.2 body);
}.
Ltac row_next unf :=
  apply Forall2_cons; split;
  [ split; [reflexivity | reflexivity
           | intros body Hl; cbn [K k_dec k_spec fst snd] in *; solve_objects unf] |].

Lemma layouts_ok : Forall2 row_ok kinds layouts.
Proof.
  row_next SystemEvent_unfold.
  row_next StockDirectory_unfold.
  row_next StockTradingAction_unfold.
  row_next RegShoRestriction_unfold.
  row_next MarketParticipantPosition_unfold.
  row_next MwcbDeclineLevel_unfold.
  row_next MwcbStatus_unfold.
  row_next IpoQuotingPeriodUpdate_unfold.
  row_next AddOrder_unfold.
  row_next AddOrderWithMpid_unfold.
  row_next OrderExecuted_unfold.
  row_next OrderExecutedWithPrice_unfold.
  row_next OrderCancel_unfold.
  row_next OrderDelete_unfold.
  row_next OrderReplace_unfold.
  row_next TradeNonCross_unfold.
  row_next CrossTrade_unfold.
  row_next BrokenTrade_unfold.
  row_next Noii_unfold.
  row_next RetailPriceImprovement_unfold.
  apply Forall2_nil_2.
Qed.

Lemma row_of_tag tag len fields :
  layout tag = Some (len, fields) → ∃ k, KindLaws k ∧ k_tag k = tag ∧ row_ok k (tag, (len, fields)).
Proof.
  unfold layout. intros Hr. destruct (list_find _ layouts) as [[i [t row]]|] eqn:E; [|done].
  apply list_find_Some in E as (Hi & Ht & _). simpl in *. simplify_eq.
  destruct (Forall2_lookup_r _ _ _ _ _ layouts_ok Hi) as (k & Hk & Hrow).
  exists k. split_and!; [|apply (row_tag _ _ Hrow)|done].
  pose proof kinds_laws as H. rewrite Forall_lookup in H. eauto.
Qed.

Lemma no_row_of_tag tag body :
  layout tag = None → Message_decode (tag :: body) = Err (UnknownMessageType tag).
Proof.
  unfold layout. intros Hr. destruct (list_find _ layouts) as [[i row]|] eqn:E; [done|].
  apply list_find_None in E. unfold layouts in E. rewrite !Forall_cons in E. cbn [fst] in E.
  destruct_and!. cbn [Message_decode]. by rewrite !(proj2 (Z.eqb_neq _ _)) by (by apply not_eq_sym).
Qed.

Lemma decode_fails_as buf : fails_as (Message_decode buf) (decode_failure buf).
Proof.
  destruct buf as [|tag body]; [done|]. cbn [decode_failure].
  destruct (layout tag) as [[len fields]|] eqn:E; [|by rewrite no_row_of_tag].
  destruct (row_of_tag _ _ _ E) as (k & Hk & <- & [_ Hlen Hf]). simpl in Hlen, Hf. subst len.
  rewrite (kl_dec _ Hk). destruct (Nat.ltb_spec (length body) (BODY (K k))) as [Hl|Hl].
  - by rewrite decode_body_short.
  - specialize (Hf body Hl). by destruct (decode_body body).
Qed.

(** ** Properties *)

(** C14: every error of decoding has its cause, and every cause its error.
    [Message::decode] fails with an error exactly when the layout of the messages
    says so: an empty buffer or a body shorter than its tag announces is
    [Truncated] with the two lengths, a tag that no message has is unknown, and a
    body of full length is refused exactly for the first of its coded bytes that
    is none of the codes of its field, under the name of that field and with that
    byte.  Nothing else is refused, and no other error comes out of decoding. *)
Theorem decode_error_complete buf e : Message_decode buf = Err e ↔ decode_failure buf = Some e.
Proof.
  pose proof (decode_fails_as buf) as H. destruct (Message_decode buf) as [m|e']; simpl in H; rewrite H.
  - done.
  - split; congruence.
Qed.

(** A directory message with a bad financial status and a bad authenticity is
    refused for the first. *)
Example decode_failure_example :
  let body := replicate 18 0 ++ [b@"Q"; b@"!"; 0; 0; 0; 100; b@"N"; 0; 0; 0; b@"?"] ++ replicate 9 0 in
  decode_failure (b@"R" :: body) = Some (InvalidEnumCode "FinancialStatus" b@"!")
  ∧ decode_failure (b@"R" :: take 30 body) = Some (Truncated 38 30)
  ∧ decode_failure [b@"D"] = Some (Truncated 18 0)
  ∧ decode_failure [b@"~"; 0] = Some (UnknownMessageType b@"~").
Proof. vm_compute. auto. Qed.
