(* ===== verification/BookSpec.v ===== *)
(** What an order book promises ([crates/itch-book/src/error.rs] and the
    [OrderEntry] record of [crates/itch-book/src/book.rs]).

    The abstract state of a single-symbol book is its set of resting orders, a
    map from order reference to [OrderEntry].  [order_apply] says what each of
    the twenty messages does to that set; [level_of] says what a price level
    must show for it.  The L2 and the L3 book both implement this contract. *)

From S2P Require Import Prelude Primitives Enums Messages.

Inductive BookError :=
| UnknownOrderRef (order : OrderReference.t)
| OverExecution (order : OrderReference.t) (executed remaining : Z)
| MismatchedSide (order : OrderReference.t) (expected got : Side.t)
| FifoViolation (expected got : OrderReference.t)
| Protocol (e : ProtocolError).

#[global] Instance BookError_eq_dec : EqDecision BookError.
Proof. solve_decision. Defined.

#[global] Instance Price4_OrdKey : OrdKey Price4.t.
Proof. refine {| ord_key := Price4.as_u32 |}. by intros [] [] [=->]. Defined.

Module OrderEntry.
Record t := mk {
  price : Price4.t; shares : Z; side : Side.t; stock_locate : StockLocate.t }.
#[global] Instance t_eq_dec : EqDecision t. Proof. solve_decision. Defined.
(** [entry.shares -= n]. *)
Definition take_shares (n : Z) (e : t) : t :=
  mk (price e) (shares e - n) (side e) (stock_locate e).
End OrderEntry.

Abbreviation orders_map := (gmap OrderReference.t OrderEntry.t).

(** ** The effect of a message on the resting orders *)

(** Execution and cancellation remove [n] shares, and the order with its last. *)
Definition order_reduce (r : OrderReference.t) (n : Z) : mut orders_map unit BookError := λ os,
  match os !! r with
  | None => (os, Ok tt)
  | Some e =>
      if OrderEntry.shares e <? n
      then (os, Err (OverExecution r n (OrderEntry.shares e)))
      else if OrderEntry.shares e =? n then (delete r os, Ok tt)
      else (<[r := OrderEntry.take_shares n e]> os, Ok tt)
  end.

Definition order_add (loc : StockLocate.t) (hdr : Header.t) (r : OrderReference.t)
    (side : Side.t) (shares : Z) (price : Price4.t) : mut orders_map unit BookError := λ os,
  if decide (Header.stock_locate hdr = loc)
  then (<[r := OrderEntry.mk price shares side loc]> os, Ok tt)
  else (os, Ok tt).

Definition order_replace (loc : StockLocate.t) (old new : OrderReference.t) (shares : Z)
    (price : Price4.t) : mut orders_map unit BookError := λ os,
  match os !! old with
  | None => (os, Ok tt)
  | Some e => (<[new := OrderEntry.mk price shares (OrderEntry.side e) loc]> (delete old os), Ok tt)
  end.

Definition order_apply (loc : StockLocate.t) (msg : Message.t)
    : mut orders_map unit BookError :=
  match msg with
  | Message.AddOrder m =>
      order_add loc (AddOrder.header m) (AddOrder.order_ref m) (AddOrder.side m)
        (Shares.as_u32 (AddOrder.shares m)) (AddOrder.price m)
  | Message.AddOrderWithMpid m =>
      order_add loc (AddOrderWithMpid.header m) (AddOrderWithMpid.order_ref m)
        (AddOrderWithMpid.side m) (Shares.as_u32 (AddOrderWithMpid.shares m))
        (AddOrderWithMpid.price m)
  | Message.OrderExecuted m =>
      order_reduce (OrderExecuted.order_ref m) (Shares.as_u32 (OrderExecuted.executed_shares m))
  | Message.OrderExecutedWithPrice m =>
      order_reduce (OrderExecutedWithPrice.order_ref m)
        (Shares.as_u32 (OrderExecutedWithPrice.executed_shares m))
  | Message.OrderCancel m =>
      order_reduce (OrderCancel.order_ref m) (Shares.as_u32 (OrderCancel.cancelled_shares m))
  | Message.OrderDelete m => λ os, (delete (OrderDelete.order_ref m) os, Ok tt)
  | Message.OrderReplace m =>
      order_replace loc (OrderReplace.original_order_ref m) (OrderReplace.new_order_ref m)
        (Shares.as_u32 (OrderReplace.shares m)) (OrderReplace.price m)
  | _ => ok
  end.

(** ** What the feed guarantees of a message, given the resting orders *)

(** The reference of a new order is not in use, and its displayed quantity is
    a positive [u32]. *)
Definition new_order_ok (os : orders_map) (r : OrderReference.t) (shares : Z) : Prop :=
  os !! r = None ∧ 0 < shares ∧ is_u32 shares.
#[global] Instance new_order_ok_dec os r n : Decision (new_order_ok os r n).
Proof. unfold new_order_ok. apply _. Defined.

Definition msg_ok (loc : StockLocate.t) (os : orders_map) (msg : Message.t) : Prop :=
  match msg with
  | Message.AddOrder m =>
      Header.stock_locate (AddOrder.header m) = loc →
      new_order_ok os (AddOrder.order_ref m) (Shares.as_u32 (AddOrder.shares m))
  | Message.AddOrderWithMpid m =>
      Header.stock_locate (AddOrderWithMpid.header m) = loc →
      new_order_ok os (AddOrderWithMpid.order_ref m) (Shares.as_u32 (AddOrderWithMpid.shares m))
  | Message.OrderExecuted m => is_u32 (Shares.as_u32 (OrderExecuted.executed_shares m))
  | Message.OrderExecutedWithPrice m =>
      is_u32 (Shares.as_u32 (OrderExecutedWithPrice.executed_shares m))
  | Message.OrderCancel m => is_u32 (Shares.as_u32 (OrderCancel.cancelled_shares m))
  | Message.OrderReplace m =>
      is_Some (os !! OrderReplace.original_order_ref m) →
      new_order_ok (delete (OrderReplace.original_order_ref m) os)
        (OrderReplace.new_order_ref m) (Shares.as_u32 (OrderReplace.shares m))
  | _ => True
  end.

#[global] Instance msg_ok_dec loc os msg : Decision (msg_ok loc os msg).
Proof. destruct msg; simpl; apply _. Defined.

(** Resting orders: positive [u32] quantities, all of the book's symbol. *)
Definition orders_ok (loc : StockLocate.t) (os : orders_map) : Prop :=
  map_Forall (λ _ e, 0 < OrderEntry.shares e ∧ is_u32 (OrderEntry.shares e)
                     ∧ OrderEntry.stock_locate e = loc) os.

(** The number of resting orders for which no level total can exceed [u64]. *)
Definition max_orders : Z := 2 ^ 32.

(** ** Price levels *)

Definition shares_at (side : Side.t) (p : Price4.t) (e : OrderEntry.t) : Z :=
  if decide (OrderEntry.side e = side ∧ OrderEntry.price e = p) then OrderEntry.shares e else 0.

Definition level_sum (os : orders_map) (side : Side.t) (p : Price4.t) : Z :=
  map_sum (shares_at side p) os.

(** The level a book must show: the total of the resting orders, if there are any. *)
Definition level_of (os : orders_map) (side : Side.t) (p : Price4.t) : option Z :=
  if 0 <? level_sum os side p then Some (level_sum os side p) else None.

Section levels.
Context (loc : StockLocate.t).
Implicit Types (os : orders_map) (side : Side.t) (p : Price4.t) (r : OrderReference.t).

Lemma shares_at_nonneg os side p :
  orders_ok loc os → map_Forall (λ _ e, 0 ≤ shares_at side p e) os.
Proof.
  intros Hos. eapply map_Forall_impl; [exact Hos|]. intros _ e (? & _ & _).
  unfold shares_at. case_decide; lia.
Qed.

Lemma level_sum_nonneg os side p : orders_ok loc os → 0 ≤ level_sum os side p.
Proof. intros. by apply map_sum_nonneg, shares_at_nonneg. Qed.

Lemma level_sum_le os side p :
  orders_ok loc os → level_sum os side p ≤ u32_max * Z.of_nat (size os).
Proof.
  intros Hos. apply map_sum_le_size; [done|].
  eapply map_Forall_impl; [exact Hos|]. intros _ e (_ & [? ?] & _).
  unfold shares_at, u32_max. case_decide; lia.
Qed.

Lemma level_sum_ge os side p r e :
  orders_ok loc os → os !! r = Some e → OrderEntry.side e = side → OrderEntry.price e = p →
  OrderEntry.shares e ≤ level_sum os side p.
Proof.
  intros Hos Hr Hs Hp. replace (OrderEntry.shares e) with (shares_at side p e).
  - apply (map_sum_ge _ _ r); [by apply shares_at_nonneg|done].
  - unfold shares_at. by rewrite decide_True.
Qed.

Lemma level_of_default os side p :
  orders_ok loc os → default 0 (level_of os side p) = level_sum os side p.
Proof.
  intros Hos. pose proof (level_sum_nonneg os side p Hos). unfold level_of.
  destruct (Z.ltb_spec 0 (level_sum os side p)); simpl; lia.
Qed.

(** A level exists exactly when an order rests at it. *)
Lemma level_of_Some os side p :
  orders_ok loc os →
  is_Some (level_of os side p) ↔
  ∃ r e, os !! r = Some e ∧ OrderEntry.side e = side ∧ OrderEntry.price e = p.
Proof.
  intros Hos. split.
  - intros [s Hs]. unfold level_of in Hs.
    destruct (Z.ltb_spec 0 (level_sum os side p)) as [Hpos|]; [|done]. clear Hs.
    unfold level_sum in Hpos. clear Hos. revert Hpos.
    induction os as [|r e os Hr IH] using map_ind; intros Hpos.
    + by rewrite map_sum_empty in Hpos.
    + rewrite map_sum_insert in Hpos by done. unfold shares_at in Hpos at 1.
      case_decide as Hd.
      * destruct Hd. exists r, e. by rewrite lookup_insert_eq.
      * destruct IH as (r' & e' & Hr' & ? & ?); [lia|]. exists r', e'.
        rewrite lookup_insert_ne by congruence. done.
  - intros (r & e & Hr & Hs & Hp). unfold level_of.
    pose proof (level_sum_ge _ _ _ _ _ Hos Hr Hs Hp). destruct (Hos _ _ Hr) as (? & _ & _).
    destruct (Z.ltb_spec 0 (level_sum os side p)); [eauto|lia].
Qed.
End levels.

(** ** The order map under each operation *)

Section orders_ok.
Context (loc : StockLocate.t).
Implicit Types os : orders_map.

Lemma orders_ok_insert os r price shares side :
  orders_ok loc os → 0 < shares → is_u32 shares →
  orders_ok loc (<[r := OrderEntry.mk price shares side loc]> os).
Proof. intros. by apply map_Forall_insert_2. Qed.

Lemma orders_ok_delete os r : orders_ok loc os → orders_ok loc (delete r os).
Proof. apply map_Forall_delete. Qed.

Lemma orders_ok_take os r e n :
  orders_ok loc os → os !! r = Some e → 0 ≤ n → n < OrderEntry.shares e →
  orders_ok loc (<[r := OrderEntry.take_shares n e]> os).
Proof.
  intros Hos Hr Hn Hlt. apply map_Forall_insert_2; [|done].
  destruct (Hos _ _ Hr) as (? & [? ?] & ?). unfold in_width. simpl. split_and!; try done; lia.
Qed.

Lemma order_reduce_ok os r n :
  orders_ok loc os → 0 ≤ n → orders_ok loc (order_reduce r n os).1.
Proof.
  intros Hos Hn. unfold order_reduce. destruct (os !! r) as [e|] eqn:Hr; [|done].
  destruct (Z.ltb_spec (OrderEntry.shares e) n); [done|].
  destruct (Z.eqb_spec (OrderEntry.shares e) n); [by apply orders_ok_delete|].
  apply orders_ok_take; try done; lia.
Qed.

Lemma order_add_ok os hdr r side shares price :
  orders_ok loc os → (Header.stock_locate hdr = loc → new_order_ok os r shares) →
  orders_ok loc (order_add loc hdr r side shares price os).1.
Proof.
  intros Hos Hm. unfold order_add. case_decide as Hl; [|done].
  destruct (Hm Hl) as (? & ? & ?). by apply orders_ok_insert.
Qed.

Lemma order_replace_ok os old new shares price :
  orders_ok loc os →
  (is_Some (os !! old) → new_order_ok (delete old os) new shares) →
  orders_ok loc (order_replace loc old new shares price os).1.
Proof.
  intros Hos Hm. unfold order_replace. destruct (os !! old) as [e|] eqn:Hr; [|done].
  destruct (Hm ltac:(eauto)) as (? & ? & ?).
  by apply orders_ok_insert; [apply orders_ok_delete|..].
Qed.

(** The messages keep the resting orders well formed, whatever they return. *)
Lemma order_apply_ok os msg :
  orders_ok loc os → msg_ok loc os msg → orders_ok loc (order_apply loc msg os).1.
Proof.
  intros Hos Hm. destruct msg; simpl in *; try done;
    first [ by apply order_add_ok | by apply order_reduce_ok; [|apply Hm]
          | by apply orders_ok_delete | by apply order_replace_ok ].
Qed.
End orders_ok.

(** A message that is refused changes nothing. *)
Lemma order_apply_err loc os os' msg e : order_apply loc msg os = (os', Err e) → os' = os.
Proof.
  destruct msg; simpl; unfold order_add, order_reduce, order_replace;
    repeat case_match; intros; by simplify_eq.
Qed.

(** [level_sum] after each change of the map. *)
Section level_sum.
Implicit Types (os : orders_map) (side : Side.t) (p : Price4.t).

Lemma level_sum_insert os r e side p :
  os !! r = None → level_sum (<[r := e]> os) side p = shares_at side p e + level_sum os side p.
Proof. apply map_sum_insert. Qed.

Lemma level_sum_delete os r e side p :
  os !! r = Some e → level_sum (delete r os) side p = level_sum os side p - shares_at side p e.
Proof. apply map_sum_delete. Qed.

Lemma level_sum_take os r e n side p :
  os !! r = Some e →
  level_sum (<[r := OrderEntry.take_shares n e]> os) side p
  = level_sum os side p
    - (if decide (OrderEntry.side e = side ∧ OrderEntry.price e = p) then n else 0).
Proof.
  intros Hr. unfold level_sum. rewrite (map_sum_update _ _ _ e) by done.
  unfold shares_at, OrderEntry.take_shares. simpl. case_decide; simpl; lia.
Qed.
End level_sum.

(** ** The contract of a book implementation *)

(** [Book B] is a single-symbol book: a state [B] with the operation
    [apply], whose resting orders can be observed. *)
Class Book (B : Type) := {
  book_locate : B → StockLocate.t;
  book_orders : B → orders_map;
  book_apply : Message.t → mut B unit BookError;
  (** Room for [n] more messages in the book's own counters. *)
  book_room : nat → B → Prop;
}.

Definition not_fifo (r : result unit BookError) : Prop := ∀ x y, r ≠ Err (FifoViolation x y).

(** [BookRefines B inv] says that on states satisfying [inv] the operation does to the
    resting orders what [order_apply] says and returns what it returns, for
    every message the feed can send. *)
Class BookRefines (B : Type) `{Book B} (inv : B → Prop) := {
  refines_orders_ok (b : B) : inv b → orders_ok (book_locate b) (book_orders b);
  refines_apply (b b' : B) (msg : Message.t) res :
    inv b → msg_ok (book_locate b) (book_orders b) msg →
    Z.of_nat (size (book_orders b)) < max_orders → book_room 1 b →
    book_apply msg b = (b', res) → not_fifo res →
    inv b' ∧ book_locate b' = book_locate b
    ∧ order_apply (book_locate b) msg (book_orders b) = (book_orders b', res)
    ∧ ∀ n, book_room (S n) b → book_room n b';
  refines_room (b : B) n : book_room (S n) b → book_room 1 b;
}.

(** ** Feeds *)

(** Applying a whole feed: errors are reported and the feed goes on. *)
Fixpoint order_run (loc : StockLocate.t) (msgs : list Message.t) (os : orders_map)
    : orders_map * list (result unit BookError) :=
  match msgs with
  | [] => (os, [])
  | msg :: msgs =>
      let '(os, r) := order_apply loc msg os in
      let '(os, rs) := order_run loc msgs os in (os, r :: rs)
  end.

Fixpoint book_run `{Book B} (msgs : list Message.t) (b : B) : B * list (result unit BookError) :=
  match msgs with
  | [] => (b, [])
  | msg :: msgs =>
      let '(b, r) := book_apply msg b in
      let '(b, rs) := book_run msgs b in (b, r :: rs)
  end.

(** A feed that never reuses the reference of a resting order, adds positive
    [u32] share counts only, and never has [max_orders] orders or more before a
    message.  The code checks none of this. *)
Fixpoint feed_ok (loc : StockLocate.t) (os : orders_map) (msgs : list Message.t) : Prop :=
  match msgs with
  | [] => True
  | msg :: msgs =>
      msg_ok loc os msg ∧ Z.of_nat (size os) < max_orders
      ∧ feed_ok loc (order_apply loc msg os).1 msgs
  end.

#[global] Instance feed_ok_dec loc os msgs : Decision (feed_ok loc os msgs).
Proof. revert os. induction msgs; intros os; simpl; apply _. Defined.

(** An implementation that refines the contract does so along every feed. *)
Lemma book_run_refines `{BookRefines B inv} (msgs : list Message.t) (b b' : B) rs :
  inv b → feed_ok (book_locate b) (book_orders b) msgs → book_room (length msgs) b →
  book_run msgs b = (b', rs) → Forall not_fifo rs →
  inv b' ∧ book_locate b' = book_locate b
  ∧ order_run (book_locate b) msgs (book_orders b) = (book_orders b', rs).
Proof.
  revert b rs. induction msgs as [|msg msgs IH]; intros b rs Hinv Hfeed Hroom E Hrs; simpl in *.
  { by simplify_eq. }
  destruct Hfeed as (Hm & Hsz & Hfeed).
  destruct (book_apply msg b) as [b1 r] eqn:E1. destruct (book_run msgs b1) as [b2 rs2] eqn:E2.
  simplify_eq. apply Forall_cons in Hrs as [Hr Hrs].
  destruct (refines_apply b b1 msg r Hinv Hm Hsz (refines_room _ _ Hroom) E1 Hr)
    as (Hinv1 & Hloc & Ho & Hroom').
  rewrite Ho in Hfeed |- *. rewrite <-Hloc in Hfeed |- *. simpl in Hfeed.
  destruct (IH b1 rs2 Hinv1 Hfeed (Hroom' _ Hroom) E2 Hrs) as (? & ? & Hrun). rewrite Hrun. done.
Qed.

(** Along a feed the resting orders stay well formed and bounded. *)
Lemma order_apply_size loc os msg :
  (size (order_apply loc msg os).1 ≤ S (size os))%nat.
Proof.
  assert (∀ r (os : orders_map), (size (delete r os) ≤ size os)%nat) as Hdel.
  { intros r os'. rewrite map_size_delete. destruct (os' !! r); simpl; lia. }
  assert (∀ r e (os : orders_map), (size (<[r := e]> os) ≤ S (size os))%nat) as Hins.
  { intros r e os'. rewrite map_size_insert. destruct (os' !! r); simpl; lia. }
  destruct msg; simpl; try lia; try (etrans; [apply Hdel|lia]);
    unfold order_add, order_reduce, order_replace; repeat (case_match; simpl); try lia; auto;
    try (etrans; [apply Hdel|lia]).
  etrans; [apply Hins|]. specialize (Hdel (OrderReplace.original_order_ref m) os). lia.
Qed.

Lemma order_run_ok loc os msgs :
  orders_ok loc os → feed_ok loc os msgs → Z.of_nat (size os) ≤ max_orders →
  orders_ok loc (order_run loc msgs os).1
  ∧ Z.of_nat (size (order_run loc msgs os).1) ≤ max_orders.
Proof.
  revert os. induction msgs as [|msg msgs IH]; intros os Hok Hfeed Hsz; [done|]. simpl in *.
  destruct Hfeed as (Hm & Hlt & Hfeed). pose proof (order_apply_ok _ _ _ Hok Hm) as Hok'.
  pose proof (order_apply_size loc os msg) as Hs.
  destruct (order_apply loc msg os) as [os1 r]. simpl in *.
  specialize (IH os1 Hok' Hfeed ltac:(lia)). by destruct (order_run loc msgs os1).
Qed.
