(* ===== verification/L2Book.v ===== *)
(** The single-symbol price-level book ([crates/itch-book/src/book.rs]).

    [BTreeMap] and [HashMap] are [gmap]s; the [BTreeMap]s are read in key order
    through the prelude's [btree_iter].  [L2_inv] is the book's invariant: both
    sides are exactly the [level_of] the resting orders. *)

From S2P Require Import Prelude Primitives Enums Messages BookSpec.

Module L2Book.
Record t := mk {
  stock_locate : StockLocate.t;
  bids : gmap Price4.t Z;
  asks : gmap Price4.t Z;
  orders : orders_map }.

Definition new (loc : StockLocate.t) : t := mk loc ∅ ∅ ∅.

Definition best_bid (b : t) : option (Price4.t * Z) := btree_last (bids b).
Definition best_ask (b : t) : option (Price4.t * Z) := btree_first (asks b).

(** [match side { Buy => &self.bids, Sell => &self.asks }] *)
Definition side_levels (side : Side.t) (b : t) : gmap Price4.t Z :=
  match side with Side.Buy => bids b | Side.Sell => asks b end.

Definition levels (side : Side.t) (b : t) : list (Price4.t * Z) :=
  match side with
  | Side.Buy => reverse (btree_iter (bids b))
  | Side.Sell => btree_iter (asks b)
  end.

Definition order_count (b : t) : nat := size (orders b).
Definition levels_count (side : Side.t) (b : t) : nat :=
  match side with Side.Buy => size (bids b) | Side.Sell => size (asks b) end.

Definition set_orders (f : orders_map → orders_map) (b : t) : t :=
  mk (stock_locate b) (bids b) (asks b) (f (orders b)).
Definition on_side (side : Side.t) (f : gmap Price4.t Z → gmap Price4.t Z) (b : t) : t :=
  match side with
  | Side.Buy => mk (stock_locate b) (f (bids b)) (asks b) (orders b)
  | Side.Sell => mk (stock_locate b) (bids b) (f (asks b)) (orders b)
  end.

Definition add_order (order_ref : OrderReference.t) (side : Side.t) (shares : Z)
    (price : Price4.t) (b : t) : t :=
  let b := set_orders <[order_ref := OrderEntry.mk price shares side (stock_locate b)]> b in
  on_side side (λ levels,
    let level := default 0 (levels !! price) in
    <[price := u64_saturating_add level shares]> levels) b.

Definition reduce_level (price : Price4.t) (shares : Z) (levels : gmap Price4.t Z)
    : gmap Price4.t Z :=
  match levels !! price with
  | Some level =>
      let level := u64_saturating_sub level shares in
      let levels := <[price := level]> levels in
      if level =? 0 then delete price levels else levels
  | None => levels
  end.

Definition execute (order_ref : OrderReference.t) (shares : Z) : mut t unit BookError := λ b,
  match orders b !! order_ref with
  | None => (b, Ok tt)
  | Some entry =>
      if OrderEntry.shares entry <? shares
      then (b, Err (OverExecution order_ref shares (OrderEntry.shares entry)))
      else
        let entry := OrderEntry.take_shares shares entry in
        let b := set_orders <[order_ref := entry]> b in
        let exhausted := OrderEntry.shares entry =? 0 in
        let b := on_side (OrderEntry.side entry)
                   (reduce_level (OrderEntry.price entry) shares) b in
        let b := if exhausted then set_orders (delete order_ref) b else b in
        (b, Ok tt)
  end.

Definition delete (order_ref : OrderReference.t) (b : t) : t :=
  match orders b !! order_ref with
  | None => b
  | Some entry =>
      let b := set_orders (base.delete order_ref) b in
      on_side (OrderEntry.side entry)
        (reduce_level (OrderEntry.price entry) (OrderEntry.shares entry)) b
  end.

Definition replace (original_ref new_ref : OrderReference.t) (new_shares : Z)
    (new_price : Price4.t) : mut t unit BookError := λ b,
  match orders b !! original_ref with
  | None => (b, Ok tt)
  | Some original =>
      let b := set_orders (base.delete original_ref) b in
      let b := on_side (OrderEntry.side original)
                 (reduce_level (OrderEntry.price original) (OrderEntry.shares original)) b in
      (add_order new_ref (OrderEntry.side original) new_shares new_price b, Ok tt)
  end.

Definition apply (msg : Message.t) : mut t unit BookError := λ b,
  match msg with
  | Message.AddOrder m =>
      if decide (Header.stock_locate (AddOrder.header m) ≠ stock_locate b) then (b, Ok tt)
      else (add_order (AddOrder.order_ref m) (AddOrder.side m)
              (Shares.as_u32 (AddOrder.shares m)) (AddOrder.price m) b, Ok tt)
  | Message.AddOrderWithMpid m =>
      if decide (Header.stock_locate (AddOrderWithMpid.header m) ≠ stock_locate b)
      then (b, Ok tt)
      else (add_order (AddOrderWithMpid.order_ref m) (AddOrderWithMpid.side m)
              (Shares.as_u32 (AddOrderWithMpid.shares m)) (AddOrderWithMpid.price m) b, Ok tt)
  | Message.OrderExecuted m =>
      execute (OrderExecuted.order_ref m) (Shares.as_u32 (OrderExecuted.executed_shares m)) b
  | Message.OrderExecutedWithPrice m =>
      execute (OrderExecutedWithPrice.order_ref m)
        (Shares.as_u32 (OrderExecutedWithPrice.executed_shares m)) b
  | Message.OrderCancel m =>
      execute (OrderCancel.order_ref m) (Shares.as_u32 (OrderCancel.cancelled_shares m)) b
  | Message.OrderDelete m => (delete (OrderDelete.order_ref m) b, Ok tt)
  | Message.OrderReplace m =>
      replace (OrderReplace.original_order_ref m) (OrderReplace.new_order_ref m)
        (Shares.as_u32 (OrderReplace.shares m)) (OrderReplace.price m) b
  | Message.SystemEvent _ | Message.StockDirectory _ | Message.StockTradingAction _
  | Message.RegShoRestriction _ | Message.MarketParticipantPosition _
  | Message.MwcbDeclineLevel _ | Message.MwcbStatus _ | Message.IpoQuotingPeriodUpdate _
  | Message.TradeNonCross _ | Message.CrossTrade _ | Message.BrokenTrade _
  | Message.Noii _ | Message.RetailPriceImprovement _ => (b, Ok tt)
  end.

#[global] Instance book : Book t :=
  {| book_locate := stock_locate; book_orders := orders; book_apply := apply;
     book_room := λ _ _, True |}.
End L2Book.

(** ** Invariant *)

Record L2_inv (b : L2Book.t) : Prop := {
  l2_orders : orders_ok (L2Book.stock_locate b) (L2Book.orders b);
  l2_levels side p : L2Book.side_levels side b !! p = level_of (L2Book.orders b) side p;
}.

(** The price-level half of a state whose orders have already changed: [levels]
    is what the book shows for [os]. *)
Lemma reduce_level_lookup price n levels p s :
  levels !! price = (if 0 <? s then Some s else None) → 0 ≤ n ≤ s →
  L2Book.reduce_level price n levels !! p
  = if decide (p = price) then (if 0 <? s - n then Some (s - n) else None) else levels !! p.
Proof.
  intros Hl Hn. unfold L2Book.reduce_level. rewrite Hl.
  destruct (Z.ltb_spec 0 s) as [Hs|Hs].
  - rewrite u64_saturating_sub_small by lia. destruct (Z.eqb_spec (s - n) 0) as [E|E].
    + case_decide as Hp; [subst; rewrite lookup_delete_eq, E; done|].
      by rewrite lookup_delete_ne, lookup_insert_ne by congruence.
    + case_decide as Hp; [subst; rewrite lookup_insert_eq|by rewrite lookup_insert_ne by congruence].
      by destruct (Z.ltb_spec 0 (s - n)); [|lia].
  - case_decide as Hp; [subst|done]. rewrite Hl. by destruct (Z.ltb_spec 0 (s - n)); [lia|].
Qed.

Lemma side_levels_on_side side side' f b :
  L2Book.side_levels side' (L2Book.on_side side f b)
  = if decide (side' = side) then f (L2Book.side_levels side b) else L2Book.side_levels side' b.
Proof. by destruct side, side'. Qed.

Lemma orders_on_side side f b : L2Book.orders (L2Book.on_side side f b) = L2Book.orders b.
Proof. by destruct side. Qed.
Lemma locate_on_side side f b :
  L2Book.stock_locate (L2Book.on_side side f b) = L2Book.stock_locate b.
Proof. by destruct side. Qed.
Lemma side_levels_set_orders side f b :
  L2Book.side_levels side (L2Book.set_orders f b) = L2Book.side_levels side b.
Proof. by destruct side. Qed.
Lemma orders_set_orders f b : L2Book.orders (L2Book.set_orders f b) = f (L2Book.orders b).
Proof. done. Qed.
Lemma locate_set_orders f b : L2Book.stock_locate (L2Book.set_orders f b) = L2Book.stock_locate b.
Proof. done. Qed.

Create Rewrite HintDb l2.
#[export] Hint Rewrite orders_on_side locate_on_side side_levels_set_orders
  orders_set_orders locate_set_orders : l2.

(** Removing [n] shares from the level of a resting order, in a book that shows
    the orders [os], gives the book that shows [os'] if [os'] has [n] fewer there. *)
Lemma reduce_level_shows b os os' e n :
  (∀ side p, L2Book.side_levels side b !! p = level_of os side p) →
  0 ≤ n ≤ level_sum os (OrderEntry.side e) (OrderEntry.price e) →
  (∀ side p, level_sum os' side p
     = level_sum os side p
       - (if decide (OrderEntry.side e = side ∧ OrderEntry.price e = p) then n else 0)) →
  ∀ side p,
    L2Book.side_levels side
      (L2Book.on_side (OrderEntry.side e) (L2Book.reduce_level (OrderEntry.price e) n) b) !! p
    = level_of os' side p.
Proof.
  intros Hb Hn Hos' side p. rewrite side_levels_on_side.
  destruct (decide (side = OrderEntry.side e)) as [->|Hne].
  - rewrite (reduce_level_lookup _ _ _ _ (level_sum os (OrderEntry.side e) (OrderEntry.price e)))
      by (done || apply Hb).
    case_decide as Hp; [subst p|].
    + unfold level_of. rewrite Hos', decide_True by done. done.
    + rewrite Hb. unfold level_of. rewrite Hos', decide_False by (intros []; congruence).
      by rewrite Z.sub_0_r.
  - rewrite Hb. unfold level_of. rewrite Hos', decide_False by (intros []; congruence).
    by rewrite Z.sub_0_r.
Qed.

Lemma add_order_inv b r side shares price :
  L2_inv b → new_order_ok (L2Book.orders b) r shares →
  Z.of_nat (size (L2Book.orders b)) < max_orders →
  L2_inv (L2Book.add_order r side shares price b).
Proof.
  intros [Hok Hlv] (Hr & Hpos & Hu) Hsize. unfold L2Book.add_order.
  split; autorewrite with l2; [by apply orders_ok_insert|].
  intros side' p. rewrite side_levels_on_side. autorewrite with l2. unfold level_of.
  pose proof (level_sum_nonneg _ _ side price Hok).
  pose proof (level_sum_le _ _ side price Hok).
  cbn [L2Book.orders L2Book.set_orders]. rewrite level_sum_insert by done.
  unfold shares_at. cbn [OrderEntry.side OrderEntry.price OrderEntry.shares].
  destruct (decide (side' = side)) as [->|Hs].
  - destruct (decide (p = price)) as [->|Hp].
    + rewrite lookup_insert_eq, decide_True, Hlv, (level_of_default _ _ _ _ Hok) by done.
      rewrite u64_saturating_add_small.
      * destruct (Z.ltb_spec 0 (shares + level_sum (L2Book.orders b) side price)); [|lia].
        f_equal. lia.
      * destruct Hu. unfold max_orders, u32_max, u64_max in *. nia.
    + rewrite lookup_insert_ne, decide_False, Hlv by (done || congruence || intros []; congruence). done.
  - rewrite decide_False, Hlv by (intros []; congruence). done.
Qed.

Lemma delete_inv b r : L2_inv b → L2_inv (L2Book.delete r b).
Proof.
  intros [Hok Hlv]. unfold L2Book.delete.
  destruct (L2Book.orders b !! r) as [e|] eqn:Hr; [|done].
  split; autorewrite with l2; [by apply orders_ok_delete|].
  apply (reduce_level_shows _ (L2Book.orders b)).
  - intros side p. autorewrite with l2. apply Hlv.
  - destruct (Hok _ _ Hr) as (? & _ & _). pose proof (level_sum_ge _ _ _ _ r e Hok Hr eq_refl eq_refl).
    lia.
  - intros side p. apply level_sum_delete; done.
Qed.

Lemma orders_delete b r : L2Book.orders (L2Book.delete r b) = delete r (L2Book.orders b).
Proof.
  unfold L2Book.delete. destruct (L2Book.orders b !! r) as [e|] eqn:Hr.
  - by autorewrite with l2.
  - by rewrite delete_id.
Qed.

Lemma locate_delete b r : L2Book.stock_locate (L2Book.delete r b) = L2Book.stock_locate b.
Proof. unfold L2Book.delete. destruct (_ !! r); by autorewrite with l2. Qed.

Lemma orders_add_order b r side shares price :
  L2Book.orders (L2Book.add_order r side shares price b)
  = <[r := OrderEntry.mk price shares side (L2Book.stock_locate b)]> (L2Book.orders b).
Proof. unfold L2Book.add_order. by autorewrite with l2. Qed.

Lemma locate_add_order b r side shares price :
  L2Book.stock_locate (L2Book.add_order r side shares price b) = L2Book.stock_locate b.
Proof. unfold L2Book.add_order. by autorewrite with l2. Qed.

(** [replace] is [delete] followed by [add_order]. *)
Lemma replace_delete_add b old new shares price :
  L2Book.replace old new shares price b
  = match L2Book.orders b !! old with
    | None => (b, Ok tt)
    | Some e => (L2Book.add_order new (OrderEntry.side e) shares price (L2Book.delete old b), Ok tt)
    end.
Proof. unfold L2Book.replace, L2Book.delete. by destruct (L2Book.orders b !! old). Qed.

Lemma execute_spec b b' r n res :
  L2_inv b → 0 ≤ n → L2Book.execute r n b = (b', res) →
  L2_inv b' ∧ L2Book.stock_locate b' = L2Book.stock_locate b
  ∧ order_reduce r n (L2Book.orders b) = (L2Book.orders b', res).
Proof.
  intros [Hok Hlv] Hn E. unfold L2Book.execute in E. unfold order_reduce.
  destruct (L2Book.orders b !! r) as [e|] eqn:Hr; [|by simplify_eq].
  destruct (Z.ltb_spec (OrderEntry.shares e) n) as [|Hle]; [by simplify_eq|].
  assert (∀ side p, L2Book.side_levels side (L2Book.on_side (OrderEntry.side e)
      (L2Book.reduce_level (OrderEntry.price e) n)
      (L2Book.set_orders <[r:=OrderEntry.take_shares n e]> b)) !! p
    = level_of (<[r:=OrderEntry.take_shares n e]> (L2Book.orders b)) side p) as Hshow.
  { apply (reduce_level_shows _ (L2Book.orders b)).
    - intros side p. autorewrite with l2. apply Hlv.
    - pose proof (level_sum_ge _ _ _ _ r e Hok Hr eq_refl eq_refl). lia.
    - intros side p. by apply level_sum_take. }
  cbn [OrderEntry.shares OrderEntry.side OrderEntry.price OrderEntry.take_shares] in E.
  destruct (Z.eqb_spec (OrderEntry.shares e - n) 0) as [E0|E0]; simplify_eq.
  - rewrite (proj2 (Z.eqb_eq _ _)) by lia.
    split_and!; [split|by autorewrite with l2|].
    + autorewrite with l2. rewrite delete_insert_eq. by apply orders_ok_delete.
    + intros side p. autorewrite with l2. rewrite Hshow, delete_insert_eq. unfold level_of.
      rewrite (level_sum_take _ _ e), (level_sum_delete _ _ e) by done.
      unfold shares_at. by replace (OrderEntry.shares e) with n by lia.
    + autorewrite with l2. by rewrite delete_insert_eq.
  - rewrite (proj2 (Z.eqb_neq _ _)) by lia. split_and!; [split|by autorewrite with l2|].
    + autorewrite with l2. apply orders_ok_take; try done; lia.
    + intros side p. rewrite Hshow. by autorewrite with l2.
    + by autorewrite with l2.
Qed.

Lemma L2_inv_new loc : L2_inv (L2Book.new loc).
Proof.
  split; [done|]. intros side p. unfold level_of, level_sum. simpl.
  rewrite map_sum_empty. by destruct side.
Qed.

Lemma L2_apply_not_fifo msg b b' res : L2Book.apply msg b = (b', res) → not_fifo res.
Proof.
  intros E r r' ->. unfold L2Book.apply, L2Book.execute, L2Book.replace in E.
  repeat (case_match; simplify_eq).
Qed.

(** The two add messages, with their guard on the symbol. *)
Lemma add_guarded_spec b b' hdr r side shares price res :
  L2_inv b →
  (Header.stock_locate hdr = L2Book.stock_locate b → new_order_ok (L2Book.orders b) r shares) →
  Z.of_nat (size (L2Book.orders b)) < max_orders →
  (if decide (Header.stock_locate hdr ≠ L2Book.stock_locate b) then (b, Ok tt)
   else (L2Book.add_order r side shares price b, Ok tt)) = (b', res) →
  L2_inv b' ∧ L2Book.stock_locate b' = L2Book.stock_locate b
  ∧ order_add (L2Book.stock_locate b) hdr r side shares price (L2Book.orders b)
    = (L2Book.orders b', res).
Proof.
  intros Hinv Hm Hsize E. unfold order_add.
  case_decide as Hl; simplify_eq; [by rewrite decide_False by done|].
  rewrite decide_True, orders_add_order, locate_add_order by done.
  split_and!; [|done..]. auto using add_order_inv.
Qed.

(** The L2 book implements the contract. *)
#[global] Instance L2_refines : BookRefines L2Book.t L2_inv.
Proof.
  constructor; [by intros b []| |done].
  intros b b' msg res Hinv Hm Hsize _ E _. simpl in *.
  assert (L2_inv b' ∧ L2Book.stock_locate b' = L2Book.stock_locate b
    ∧ order_apply (L2Book.stock_locate b) msg (L2Book.orders b) = (L2Book.orders b', res));
    [|naive_solver].
  destruct msg; simpl in E, Hm |- *; try by simplify_eq.
  - by eapply add_guarded_spec.
  - by eapply add_guarded_spec.
  - apply execute_spec; [done|apply Hm|done].
  - apply execute_spec; [done|apply Hm|done].
  - apply execute_spec; [done|apply Hm|done].
  - simplify_eq. rewrite orders_delete, locate_delete. split_and!; [by apply delete_inv|done..].
  - rewrite replace_delete_add in E. unfold order_replace.
    destruct (L2Book.orders b !! _) as [e|] eqn:Hr; simplify_eq; [|done].
    rewrite orders_add_order, locate_add_order, orders_delete, locate_delete.
    split_and!; [|done..]. apply add_order_inv; [by apply delete_inv| |];
      rewrite orders_delete; [by apply Hm|].
    rewrite map_size_delete. by rewrite Hr; simpl; lia.
Qed.

Lemma book_run_not_fifo msgs (b b' : L2Book.t) rs :
  book_run msgs b = (b', rs) → Forall not_fifo rs.
Proof.
  revert b rs. induction msgs as [|msg msgs IH]; intros b rs E; simpl in E; [by simplify_eq|].
  destruct (L2Book.apply msg b) as [b1 r] eqn:E1.
  destruct (book_run msgs b1) as [b2 rs2] eqn:E2. simplify_eq.
  constructor; [by eapply L2_apply_not_fifo|eauto].
Qed.

(** What the resting orders determine, for any two states with the invariant. *)
Lemma L2_inv_ext b1 b2 :
  L2_inv b1 → L2_inv b2 → L2Book.stock_locate b1 = L2Book.stock_locate b2 →
  L2Book.orders b1 = L2Book.orders b2 → b1 = b2.
Proof.
  intros [_ H1] [_ H2] Hl Ho. destruct b1 as [l1 b1 a1 o1], b2 as [l2 b2 a2 o2]. simpl in *. subst.
  f_equal; apply map_eq; intros p.
  - specialize (H1 Side.Buy p). specialize (H2 Side.Buy p). simpl in *. congruence.
  - specialize (H1 Side.Sell p). specialize (H2 Side.Sell p). simpl in *. congruence.
Qed.

Lemma L2_run_inv loc msgs :
  feed_ok loc ∅ msgs →
  let b := (book_run msgs (L2Book.new loc)).1 in
  L2_inv b ∧ L2Book.stock_locate b = loc
  ∧ order_run loc msgs ∅ = (L2Book.orders b, (book_run msgs (L2Book.new loc)).2).
Proof.
  intros Hfeed. simpl. destruct (book_run msgs (L2Book.new loc)) as [b rs] eqn:E.
  pose proof (book_run_refines (inv := L2_inv) msgs (L2Book.new loc) b rs (L2_inv_new loc)) as X.
  exact (X Hfeed I E (book_run_not_fifo _ _ _ _ E)).
Qed.

(** ** Properties *)

(** A feed of five messages for symbol 7, used as a concrete instance below:
    two bids and an ask, an execution, and a replace. *)
Definition example_header : Header.t :=
  Header.mk (StockLocate.from_u16 7) TrackingNumber.default Timestamp.default.
Definition example_add (r : Z) (side : Side.t) (n p : Z) : Message.t :=
  Message.AddOrder (AddOrder.mk example_header (OrderReference.from_u64 r) side
    (Shares.from_u32 n) Stock.default (Price4.from_u32 p)).
Definition example_feed : list Message.t :=
  [ example_add 1 Side.Buy 100 5000; example_add 2 Side.Buy 50 5100;
    example_add 3 Side.Sell 70 5200;
    Message.OrderExecuted (OrderExecuted.mk example_header (OrderReference.from_u64 1)
      (Shares.from_u32 40) MatchNumber.default);
    Message.OrderReplace (OrderReplace.mk example_header (OrderReference.from_u64 3)
      (OrderReference.from_u64 4) (Shares.from_u32 80) (Price4.from_u32 5150)) ].

(** C2: the L2 book refines the order-level specification. Along any feed that
    does not reuse live order references, adds positive [u32] share counts and
    keeps fewer than 2^32 orders resting, the book reports the outcomes and holds
    the resting orders that [order_apply] prescribes, and each price level shows
    exactly the total of the orders resting at it: it is present when there is one
    and absent otherwise. *)
Theorem L2_refines_orders loc msgs :
  feed_ok loc ∅ msgs →
  let '(b, rs) := book_run msgs (L2Book.new loc) in
  order_run loc msgs ∅ = (L2Book.orders b, rs)
  ∧ ∀ side p, L2Book.side_levels side b !! p = level_of (L2Book.orders b) side p.
Proof.
  intros Hfeed. destruct (L2_run_inv loc msgs Hfeed) as ([_ Hlv] & _ & Hrun).
  by destruct (book_run msgs (L2Book.new loc)).
Qed.

Lemma L2_refines_orders_witness :
  let '(b, rs) := book_run example_feed (L2Book.new (StockLocate.from_u16 7)) in
  order_run (StockLocate.from_u16 7) example_feed ∅ = (L2Book.orders b, rs)
  ∧ ∀ side p, L2Book.side_levels side b !! p = level_of (L2Book.orders b) side p.
Proof.
  apply (L2_refines_orders (StockLocate.from_u16 7) example_feed).
  apply (bool_decide_unpack _). vm_compute. exact I.
Defined.

(** [best_bid] is the best bid. After any such feed it is the highest price
    at which a buy order rests, with the total displayed there, and [best_ask]
    the lowest price of a sell order. *)
Theorem best_prices_correct loc msgs p s :
  feed_ok loc ∅ msgs →
  let b := (book_run msgs (L2Book.new loc)).1 in
  let rests side q := ∃ r e, L2Book.orders b !! r = Some e
    ∧ OrderEntry.side e = side ∧ OrderEntry.price e = q in
  (L2Book.best_bid b = Some (p, s) ↔
     rests Side.Buy p ∧ (∀ q, rests Side.Buy q → Price4.as_u32 q ≤ Price4.as_u32 p)
     ∧ s = level_sum (L2Book.orders b) Side.Buy p)
  ∧ (L2Book.best_ask b = Some (p, s) ↔
     rests Side.Sell p ∧ (∀ q, rests Side.Sell q → Price4.as_u32 p ≤ Price4.as_u32 q)
     ∧ s = level_sum (L2Book.orders b) Side.Sell p).
Proof.
  intros Hfeed b rests. destruct (L2_run_inv loc msgs Hfeed) as ([Hok Hlv] & _ & _).
  fold b in Hok, Hlv.
  assert (∀ side q n, L2Book.side_levels side b !! q = Some n ↔
    rests side q ∧ n = level_sum (L2Book.orders b) side q) as Hshow.
  { intros side q n. rewrite Hlv. pose proof (level_of_Some _ _ side q Hok) as Hsome.
    split.
    - intros E. split; [apply Hsome; eauto|]. unfold level_of in E. by case_match; simplify_eq.
    - intros [Hr ->]. apply Hsome in Hr as [n' Hn']. unfold level_of in Hn' |- *.
      by case_match. }
  unfold L2Book.best_bid, L2Book.best_ask.
  change (L2Book.bids b) with (L2Book.side_levels Side.Buy b).
  change (L2Book.asks b) with (L2Book.side_levels Side.Sell b).
  rewrite btree_last_Some, btree_first_Some. setoid_rewrite Hshow. simpl. split.
  - split; [intros [[? ?] Hq]|intros (? & Hq & ?)]; split_and!; try done.
    + intros q Hr. by eapply Hq.
    + intros q n [Hr _]. by apply Hq.
  - split; [intros [[? ?] Hq]|intros (? & Hq & ?)]; split_and!; try done.
    + intros q Hr. by eapply Hq.
    + intros q n [Hr _]. by apply Hq.
Qed.

Lemma best_prices_correct_witness :
  50 = level_sum (L2Book.orders (book_run example_feed (L2Book.new (StockLocate.from_u16 7))).1)
         Side.Buy (Price4.from_u32 5100).
Proof.
  destruct (best_prices_correct (StockLocate.from_u16 7) example_feed (Price4.from_u32 5100) 50)
    as [[H _] _].
  - apply (bool_decide_unpack _). vm_compute. exact I.
  - apply H. vm_compute. reflexivity.
Defined.

(** The L2 book reports an error exactly when an execution or a cancellation
    takes more shares than rest on the order, reports what rests there, and
    leaves the book as it was. *)
Theorem L2_error_atomic msg b b' e :
  L2Book.apply msg b = (b', Err e) →
  b' = b ∧ ∃ r n entry,
    (match msg with
     | Message.OrderExecuted m =>
         (OrderExecuted.order_ref m, Shares.as_u32 (OrderExecuted.executed_shares m)) = (r, n)
     | Message.OrderExecutedWithPrice m =>
         (OrderExecutedWithPrice.order_ref m,
          Shares.as_u32 (OrderExecutedWithPrice.executed_shares m)) = (r, n)
     | Message.OrderCancel m =>
         (OrderCancel.order_ref m, Shares.as_u32 (OrderCancel.cancelled_shares m)) = (r, n)
     | _ => False
     end)
    ∧ L2Book.orders b !! r = Some entry ∧ OrderEntry.shares entry < n
    ∧ e = OverExecution r n (OrderEntry.shares entry).
Proof.
  assert (∀ r n, L2Book.execute r n b = (b', Err e) →
    b' = b ∧ ∃ entry, L2Book.orders b !! r = Some entry ∧ OrderEntry.shares entry < n
      ∧ e = OverExecution r n (OrderEntry.shares entry)) as Hexec.
  { intros r n E. unfold L2Book.execute in E.
    destruct (L2Book.orders b !! r) as [entry|] eqn:Hr; [|done].
    destruct (Z.ltb_spec (OrderEntry.shares entry) n); [|done]. simplify_eq. eauto. }
  intros E. unfold L2Book.apply in E. destruct msg; simplify_eq;
    [by case_decide|by case_decide|..|unfold L2Book.replace in E; by case_match];
    destruct (Hexec _ _ E) as (-> & entry & ? & ? & ?); (split; [done|]); by eexists _, _, entry.
Qed.

Lemma L2_error_atomic_witness :
  let b := (book_run example_feed (L2Book.new (StockLocate.from_u16 7))).1 in
  let msg := Message.OrderCancel (OrderCancel.mk example_header (OrderReference.from_u64 1)
               (Shares.from_u32 61)) in
  (L2Book.apply msg b).1 = b.
Proof.
  intros b msg.
  destruct (L2_error_atomic msg b (L2Book.apply msg b).1
    (OverExecution (OrderReference.from_u64 1) 61 60)) as [H _].
  - vm_compute. reflexivity.
  - exact H.
Defined.

(** The order index is not protected against a live reference that is added
    again: after adding reference [r] at two prices of one side and deleting
    it, no order is left and the first price still shows its shares. *)
Theorem L2_duplicate_ref_phantom loc hdr r side n1 n2 p1 p2 st :
  Header.stock_locate hdr = loc → p1 ≠ p2 → 0 < n1 → is_u32 n1 → 0 < n2 → is_u32 n2 →
  let add n p := Message.AddOrder (AddOrder.mk hdr r side (Shares.from_u32 n) st p) in
  let b := (book_run [add n1 p1; add n2 p2; Message.OrderDelete (OrderDelete.mk hdr r)]
              (L2Book.new loc)).1 in
  L2Book.orders b = ∅ ∧ L2Book.side_levels side b !! p1 = Some n1.
Proof.
  intros Hl Hp H1 [_ U1] H2 [_ U2] add b. subst b add. simpl.
  do 2 (rewrite ?locate_add_order, decide_False by (intros Hn; by apply Hn); simpl).
  rewrite orders_delete, !orders_add_order, insert_insert_eq.
  split; [by rewrite delete_insert_eq|]. unfold L2Book.delete.
  rewrite !orders_add_order, lookup_insert_eq.
  cbn [OrderEntry.side OrderEntry.price OrderEntry.shares].
  rewrite side_levels_on_side, decide_True by done. autorewrite with l2.
  unfold L2Book.add_order. autorewrite with l2.
  do 2 (rewrite side_levels_on_side, decide_True by done; autorewrite with l2).
  replace (L2Book.side_levels side (L2Book.new loc)) with (∅ : gmap Price4.t Z) by by destruct side.
  unfold L2Book.reduce_level. rewrite lookup_insert_eq, lookup_empty, lookup_insert_ne, lookup_empty by done.
  simpl. rewrite !u64_saturating_add_small by (unfold u64_max; lia).
  rewrite u64_saturating_sub_small, Z.sub_diag by lia. simpl.
  by rewrite lookup_delete_ne, !lookup_insert_ne, lookup_insert_eq by done.
Qed.

Lemma L2_duplicate_ref_phantom_witness :
  let b := (book_run [example_add 1 Side.Buy 100 5000; example_add 1 Side.Buy 50 5100;
      Message.OrderDelete (OrderDelete.mk example_header (OrderReference.from_u64 1))]
      (L2Book.new (StockLocate.from_u16 7))).1 in
  L2Book.orders b = ∅ ∧ L2Book.side_levels Side.Buy b !! Price4.from_u32 5000 = Some 100.
Proof.
  apply (L2_duplicate_ref_phantom (StockLocate.from_u16 7) example_header
    (OrderReference.from_u64 1) Side.Buy 100 50 (Price4.from_u32 5000) (Price4.from_u32 5100)
    Stock.default); (reflexivity || discriminate || (unfold in_width; lia)).
Defined.
