(* ===== verification/L3Book.v ===== *)
(** The single-symbol per-order book with FIFO queues
    ([crates/itch-book/src/l3.rs]).

    A [VecDeque] of order references is a list whose head is the front.  The
    invariant [queues_inv] ties the queues to the order index: a queue holds
    exactly the orders of its side and price, in strictly increasing arrival
    sequence, and no empty queue is kept.  [HashMap] iteration, which
    [summary_l2] uses, has no specified order, so the iteration is an argument
    and the theorem quantifies over every permutation of the entries. *)

From S2P Require Import Prelude Primitives Enums Messages BookSpec L2Book.

Module L3OrderEntry.
Record t := mk {
  price : Price4.t; shares : Z; side : Side.t; stock_locate : StockLocate.t;
  mpid : option Mpid.t; arrival_seq : Z }.
#[global] Instance t_eq_dec : EqDecision t. Proof. solve_decision. Defined.
Definition take_shares (n : Z) (e : t) : t :=
  mk (price e) (shares e - n) (side e) (stock_locate e) (mpid e) (arrival_seq e).
(** The part of the entry that the L2 book keeps. *)
Definition to_l2 (e : t) : OrderEntry.t :=
  OrderEntry.mk (price e) (shares e) (side e) (stock_locate e).
End L3OrderEntry.

Abbreviation queue_map := (gmap Price4.t (list OrderReference.t)).

(** [if let Some(idx) = queue.iter().position(|r| *r == order_ref) { queue.remove(idx); }] *)
Definition remove_ref (r : OrderReference.t) (q : list OrderReference.t)
    : list OrderReference.t :=
  match list_find (λ x, x = r) q with
  | Some (idx, _) => delete idx q
  | None => q
  end.

Module L3Book.
Record t := mk {
  stock_locate : StockLocate.t;
  bids : queue_map;
  asks : queue_map;
  orders : gmap OrderReference.t L3OrderEntry.t;
  arrival_seq : Z }.

Definition new (loc : StockLocate.t) : t := mk loc ∅ ∅ ∅ 0.

Definition order_count (b : t) : nat := size (orders b).
Definition levels_count (side : Side.t) (b : t) : nat :=
  match side with Side.Buy => size (bids b) | Side.Sell => size (asks b) end.
Definition order (r : OrderReference.t) (b : t) : option L3OrderEntry.t := orders b !! r.

Definition side_queues (side : Side.t) (b : t) : queue_map :=
  match side with Side.Buy => bids b | Side.Sell => asks b end.

Definition queue_position (order_ref : OrderReference.t) (b : t) : option nat :=
  entry ← orders b !! order_ref;
  queue ← side_queues (L3OrderEntry.side entry) b !! L3OrderEntry.price entry;
  fst <$> list_find (λ r, r = order_ref) queue.

Definition level_orders (side : Side.t) (price : Price4.t) (b : t) : list L3OrderEntry.t :=
  match side_queues side b !! price with
  | Some q => omap (λ r, orders b !! r) q
  | None => []
  end.

(** The body of the loop of [summary_l2]. *)
Definition summary_step (b : t) (l2 : L2Book.t) (x : OrderReference.t * L3OrderEntry.t)
    : L2Book.t :=
  let '(order_ref, entry) := x in
  let header := Header.mk (stock_locate b) (TrackingNumber.from_u16 0) (Timestamp.from_u64 0) in
  if decide (L3OrderEntry.stock_locate entry ≠ stock_locate b) then l2
  else
    let msg := Message.AddOrder (AddOrder.mk header order_ref (L3OrderEntry.side entry)
      (Shares.from_u32 (L3OrderEntry.shares entry)) Stock.default (L3OrderEntry.price entry)) in
    (L2Book.apply msg l2).1.

Definition summary_l2 (entries : list (OrderReference.t * L3OrderEntry.t)) (b : t) : L2Book.t :=
  foldl (summary_step b) (L2Book.new (stock_locate b)) entries.

Definition set_orders (f : gmap OrderReference.t L3OrderEntry.t →
    gmap OrderReference.t L3OrderEntry.t) (b : t) : t :=
  mk (stock_locate b) (bids b) (asks b) (f (orders b)) (arrival_seq b).
Definition on_side (side : Side.t) (f : queue_map → queue_map) (b : t) : t :=
  match side with
  | Side.Buy => mk (stock_locate b) (f (bids b)) (asks b) (orders b) (arrival_seq b)
  | Side.Sell => mk (stock_locate b) (bids b) (f (asks b)) (orders b) (arrival_seq b)
  end.

Definition insert_order (order_ref : OrderReference.t) (side : Side.t) (shares : Z)
    (price : Price4.t) (mpid : option Mpid.t) (b : t) : t :=
  let seq := u64_add (arrival_seq b) 1 in
  let b := mk (stock_locate b) (bids b) (asks b) (orders b) seq in
  let b := set_orders
    <[order_ref := L3OrderEntry.mk price shares side (stock_locate b) mpid seq]> b in
  on_side side (λ qs, <[price := default [] (qs !! price) ++ [order_ref]]> qs) b.

Definition remove_from_queue (side : Side.t) (price : Price4.t) (order_ref : OrderReference.t)
    (b : t) : t :=
  on_side side (λ levels,
    match levels !! price with
    | None => levels
    | Some queue =>
        let queue := remove_ref order_ref queue in
        let levels := <[price := queue]> levels in
        match queue with [] => delete price levels | _ => levels end
    end) b.

Definition execute (order_ref : OrderReference.t) (shares : Z) : mut t unit BookError := λ b,
  match orders b !! order_ref with
  | None => (b, Ok tt)
  | Some entry =>
      if L3OrderEntry.shares entry <? shares
      then (b, Err (OverExecution order_ref shares (L3OrderEntry.shares entry)))
      else
        let entry := L3OrderEntry.take_shares shares entry in
        let b := set_orders <[order_ref := entry]> b in
        let price := L3OrderEntry.price entry in
        let side := L3OrderEntry.side entry in
        if L3OrderEntry.shares entry =? 0 then
          match side_queues side b !! price with
          | None => (set_orders (delete order_ref) b, Ok tt)
          | Some [] => (set_orders (delete order_ref) b, Ok tt)
          | Some (front :: queue) =>
              if decide (front = order_ref) then
                let b := on_side side <[price := queue]> b in
                let b := match queue with [] => on_side side (delete price) b | _ => b end in
                (set_orders (delete order_ref) b, Ok tt)
              else
                let b := on_side side <[price := front :: queue]> b in
                (b, Err (FifoViolation order_ref front))
          end
        else (b, Ok tt)
  end.

Definition cancel (order_ref : OrderReference.t) (shares : Z) : mut t unit BookError := λ b,
  match orders b !! order_ref with
  | None => (b, Ok tt)
  | Some entry =>
      if L3OrderEntry.shares entry <? shares
      then (b, Err (OverExecution order_ref shares (L3OrderEntry.shares entry)))
      else
        let entry := L3OrderEntry.take_shares shares entry in
        let b := set_orders <[order_ref := entry]> b in
        if L3OrderEntry.shares entry =? 0 then
          let b := remove_from_queue (L3OrderEntry.side entry) (L3OrderEntry.price entry)
                     order_ref b in
          (set_orders (delete order_ref) b, Ok tt)
        else (b, Ok tt)
  end.

Definition delete (order_ref : OrderReference.t) (b : t) : t :=
  match orders b !! order_ref with
  | None => b
  | Some entry =>
      let b := set_orders (base.delete order_ref) b in
      remove_from_queue (L3OrderEntry.side entry) (L3OrderEntry.price entry) order_ref b
  end.

Definition replace (original_ref new_ref : OrderReference.t) (new_shares : Z)
    (new_price : Price4.t) : mut t unit BookError := λ b,
  match orders b !! original_ref with
  | None => (b, Ok tt)
  | Some original =>
      let b := set_orders (base.delete original_ref) b in
      let b := remove_from_queue (L3OrderEntry.side original) (L3OrderEntry.price original)
                 original_ref b in
      (insert_order new_ref (L3OrderEntry.side original) new_shares new_price
         (L3OrderEntry.mpid original) b, Ok tt)
  end.

Definition apply (msg : Message.t) : mut t unit BookError := λ b,
  match msg with
  | Message.AddOrder m =>
      if decide (Header.stock_locate (AddOrder.header m) ≠ stock_locate b) then (b, Ok tt)
      else (insert_order (AddOrder.order_ref m) (AddOrder.side m)
              (Shares.as_u32 (AddOrder.shares m)) (AddOrder.price m) None b, Ok tt)
  | Message.AddOrderWithMpid m =>
      if decide (Header.stock_locate (AddOrderWithMpid.header m) ≠ stock_locate b)
      then (b, Ok tt)
      else (insert_order (AddOrderWithMpid.order_ref m) (AddOrderWithMpid.side m)
              (Shares.as_u32 (AddOrderWithMpid.shares m)) (AddOrderWithMpid.price m)
              (Some (AddOrderWithMpid.attribution m)) b, Ok tt)
  | Message.OrderExecuted m =>
      execute (OrderExecuted.order_ref m) (Shares.as_u32 (OrderExecuted.executed_shares m)) b
  | Message.OrderExecutedWithPrice m =>
      execute (OrderExecutedWithPrice.order_ref m)
        (Shares.as_u32 (OrderExecutedWithPrice.executed_shares m)) b
  | Message.OrderCancel m =>
      cancel (OrderCancel.order_ref m) (Shares.as_u32 (OrderCancel.cancelled_shares m)) b
  | Message.OrderDelete m => (delete (OrderDelete.order_ref m) b, Ok tt)
  | Message.OrderReplace m =>
      replace (OrderReplace.original_order_ref m) (OrderReplace.new_order_ref m)
        (Shares.as_u32 (OrderReplace.shares m)) (OrderReplace.price m) b
  | Message.SystemEvent _ | Message.StockDirectory _ | Message.StockTradingAction _
  | Message.RegShoRestriction _ | Message.MarketParticipantPosition _
  | Message.MwcbDeclineLevel _ | Message.MwcbStatus _ | Message.IpoQuotingPeriodUpdate _
  | Message.TradeNonCross _ | Message.CrossTrade _ | Message.BrokenTrade _
  | Message.Noii _ | Message.RetailPriceImprovement _ => (b, Ok tt)
  end.

#[global] Instance book : Book t := {|
  book_locate := stock_locate;
  book_orders b := L3OrderEntry.to_l2 <$> orders b;
  book_apply := apply;
  book_room n b := arrival_seq b + Z.of_nat n ≤ u64_max |}.
End L3Book.

(** ** Queues and index *)

(** Where an order stands: side, price and arrival number. *)
Record place := Place { pl_side : Side.t; pl_price : Price4.t; pl_seq : Z }.
Definition place_of (e : L3OrderEntry.t) : place :=
  Place (L3OrderEntry.side e) (L3OrderEntry.price e) (L3OrderEntry.arrival_seq e).
Abbreviation place_map := (gmap OrderReference.t place).
Definition places (b : L3Book.t) : place_map := place_of <$> L3Book.orders b.

Definition queue (b : L3Book.t) (side : Side.t) (p : Price4.t) : list OrderReference.t :=
  default [] (L3Book.side_queues side b !! p).

Definition arrives_before (pm : place_map) (r1 r2 : OrderReference.t) : Prop :=
  ∃ x1 x2, pm !! r1 = Some x1 ∧ pm !! r2 = Some x2 ∧ pl_seq x1 < pl_seq x2.

Record fifo (q : Side.t → Price4.t → list OrderReference.t) (pm : place_map) (seq : Z) : Prop := {
  fifo_elem side p r : r ∈ q side p ↔ ∃ s, pm !! r = Some (Place side p s);
  fifo_sorted side p : StronglySorted (arrives_before pm) (q side p);
  fifo_seq r x : pm !! r = Some x → 0 < pl_seq x ≤ seq;
}.

Record queues_inv (b : L3Book.t) : Prop := {
  qi_fifo : fifo (queue b) (places b) (L3Book.arrival_seq b);
  qi_nonempty side p : L3Book.side_queues side b !! p ≠ Some [];
  qi_seq : 0 ≤ L3Book.arrival_seq b;
}.

Section fifo.
Implicit Types (q : Side.t → Price4.t → list OrderReference.t) (pm : place_map).

Lemma arrives_before_irrefl pm r : ¬ arrives_before pm r r.
Proof. intros (x & y & ? & ? & ?). simplify_eq. lia. Qed.

Lemma fifo_nodup q pm seq side p : fifo q pm seq → NoDup (q side p).
Proof.
  intros Hf. pose proof (fifo_sorted _ _ _ Hf side p) as Hs.
  induction Hs as [|r l Hl IH Hr]; constructor; [|done].
  intros Hin. rewrite Forall_forall in Hr. apply (arrives_before_irrefl pm r). auto.
Qed.

(** A fresh order joins the back of its queue. *)
Lemma fifo_insert q q' pm seq r side p :
  fifo q pm seq → pm !! r = None → 0 ≤ seq →
  (∀ side' p', q' side' p' = if decide (side' = side ∧ p' = p)
                             then q side p ++ [r] else q side' p') →
  fifo q' (<[r := Place side p (seq + 1)]> pm) (seq + 1).
Proof.
  intros [He Hs Hq] Hr Hseq Hq'.
  assert (∀ side' p', r ∉ q side' p') as Hfresh.
  { intros side' p' Hin. apply He in Hin as [s Hs']. congruence. }
  assert (∀ side' p', StronglySorted (arrives_before (<[r := Place side p (seq + 1)]> pm))
            (q side' p')) as Hs'.
  { intros side' p'. eapply StronglySorted_weaken; [|apply Hs].
    intros x y Hx Hy (a & b & Ha & Hb & Hlt). exists a, b.
    rewrite !lookup_insert_ne by congruence. done. }
  split.
  - intros side' p' x. rewrite Hq'. destruct (decide (x = r)) as [->|Hx].
    + rewrite lookup_insert_eq. case_decide as Hd; split.
      * destruct Hd; subst. eauto.
      * intros _. apply elem_of_app. right. by apply list_elem_of_singleton.
      * intros Hin. by destruct (Hfresh _ _ Hin).
      * intros [s ?]. simplify_eq. by destruct Hd.
    + rewrite lookup_insert_ne by done. rewrite <-He. case_decide as Hd; [|done].
      destruct Hd; subst. rewrite elem_of_app, list_elem_of_singleton. tauto.
  - intros side' p'. rewrite Hq'. case_decide; [|apply Hs'].
    apply StronglySorted_snoc; [apply Hs'|]. apply Forall_forall. intros x Hx.
    assert (x ≠ r) as Hne by (intros ->; by destruct (Hfresh _ _ Hx)).
    apply He in Hx as [s Hx]. exists (Place side p s), (Place side p (seq + 1)).
    rewrite lookup_insert_ne, lookup_insert_eq by done. split_and!; [done..|].
    destruct (Hq _ _ Hx). simpl in *. lia.
  - intros x y. destruct (decide (x = r)) as [->|Hx].
    + rewrite lookup_insert_eq. intros [=<-]. simpl. lia.
    + rewrite lookup_insert_ne by done. intros Hy. destruct (Hq _ _ Hy). lia.
Qed.

(** An order leaves its queue from any position. *)
Lemma fifo_delete q q' pm seq r :
  fifo q pm seq → (∀ side p, q' side p = filter (λ x, x ≠ r) (q side p)) →
  fifo q' (delete r pm) seq.
Proof.
  intros [He Hs Hq] Hq'. split.
  - intros side p x. rewrite Hq', list_elem_of_filter, He.
    destruct (decide (x = r)) as [->|Hx].
    + rewrite lookup_delete_eq. split; [tauto|]. by intros [s ?].
    + rewrite lookup_delete_ne by done. tauto.
  - intros side p. rewrite Hq'.
    eapply StronglySorted_weaken; [|apply StronglySorted_filter', Hs].
    intros x y Hx Hy (a & b & Ha & Hb & Hlt). exists a, b.
    apply list_elem_of_filter in Hx as [Hx _], Hy as [Hy _].
    rewrite !lookup_delete_ne by done. done.
  - intros x y Hy. apply lookup_delete_Some in Hy as [_ Hy]. eauto.
Qed.
End fifo.

Lemma remove_ref_filter r q : NoDup q → remove_ref r q = filter (λ x, x ≠ r) q.
Proof.
  unfold remove_ref. induction 1 as [|x q Hx Hq IH]; [done|].
  cbn [list_find]. rewrite filter_cons. destruct (decide (x = r)) as [->|Hne].
  - rewrite decide_False by (intros Hn; by apply Hn). simpl. symmetry.
    clear IH Hq. induction q as [|y q IH]; [done|].
    apply not_elem_of_cons in Hx as [? ?].
    rewrite filter_cons_True by congruence. by rewrite IH.
  - rewrite decide_True by done. rewrite <-IH. by destruct (list_find _ q) as [[]|].
Qed.

Lemma remove_ref_front r q : remove_ref r (r :: q) = q.
Proof. unfold remove_ref. cbn [list_find]. by rewrite decide_True. Qed.
#[global] Arguments remove_ref : simpl never.

Lemma filter_ne_id (r : OrderReference.t) (q : list OrderReference.t) : r ∉ q → filter (λ x, x ≠ r) q = q.
Proof.
  induction q as [|x q IH]; intros Hr; [done|]. apply not_elem_of_cons in Hr as [? ?].
  rewrite filter_cons_True by congruence. by rewrite IH.
Qed.

(** Storing a queue, or dropping the level when the queue is empty. *)
Lemma put_queue_lookup price q (levels : queue_map) p :
  match q with [] => delete price (<[price := q]> levels) | _ => <[price := q]> levels end !! p
  = if decide (p = price) then match q with [] => None | _ => Some q end else levels !! p.
Proof.
  destruct q; case_decide as Hp; subst;
    by rewrite ?lookup_delete_eq, ?lookup_delete_ne, ?lookup_insert_eq, ?lookup_insert_ne
      by congruence.
Qed.

Lemma side_queues_on_side side side' f b :
  L3Book.side_queues side' (L3Book.on_side side f b)
  = if decide (side' = side) then f (L3Book.side_queues side b) else L3Book.side_queues side' b.
Proof. by destruct side, side'. Qed.
Lemma l3_orders_on_side side f b : L3Book.orders (L3Book.on_side side f b) = L3Book.orders b.
Proof. by destruct side. Qed.
Lemma l3_locate_on_side side f b :
  L3Book.stock_locate (L3Book.on_side side f b) = L3Book.stock_locate b.
Proof. by destruct side. Qed.
Lemma l3_seq_on_side side f b :
  L3Book.arrival_seq (L3Book.on_side side f b) = L3Book.arrival_seq b.
Proof. by destruct side. Qed.
Lemma side_queues_set_orders side f b :
  L3Book.side_queues side (L3Book.set_orders f b) = L3Book.side_queues side b.
Proof. by destruct side. Qed.
Lemma l3_orders_set_orders f b : L3Book.orders (L3Book.set_orders f b) = f (L3Book.orders b).
Proof. done. Qed.
Lemma l3_locate_set_orders f b :
  L3Book.stock_locate (L3Book.set_orders f b) = L3Book.stock_locate b.
Proof. done. Qed.
Lemma l3_seq_set_orders f b : L3Book.arrival_seq (L3Book.set_orders f b) = L3Book.arrival_seq b.
Proof. done. Qed.

Create Rewrite HintDb l3.
#[export] Hint Rewrite l3_orders_on_side l3_locate_on_side l3_seq_on_side
  side_queues_set_orders l3_orders_set_orders l3_locate_set_orders l3_seq_set_orders : l3.

(** An order leaves the book: out of its queue and out of the index. *)
Definition drop_order (r : OrderReference.t) (e : L3OrderEntry.t) (b : L3Book.t) : L3Book.t :=
  L3Book.set_orders (delete r)
    (L3Book.remove_from_queue (L3OrderEntry.side e) (L3OrderEntry.price e) r b).

Lemma in_own_queue b r e :
  queues_inv b → L3Book.orders b !! r = Some e →
  r ∈ queue b (L3OrderEntry.side e) (L3OrderEntry.price e).
Proof.
  intros Hq Hr. apply (fifo_elem _ _ _ (qi_fifo _ Hq)). exists (L3OrderEntry.arrival_seq e).
  unfold places. by rewrite lookup_fmap, Hr.
Qed.

Lemma only_own_queue b r e side p :
  queues_inv b → L3Book.orders b !! r = Some e → r ∈ queue b side p →
  side = L3OrderEntry.side e ∧ p = L3OrderEntry.price e.
Proof.
  intros Hq Hr Hin. apply (fifo_elem _ _ _ (qi_fifo _ Hq)) in Hin as [s Hs].
  unfold places, place_of in Hs. rewrite lookup_fmap, Hr in Hs. by simplify_eq/=.
Qed.

Lemma drop_order_queue b r e side p :
  queues_inv b → L3Book.orders b !! r = Some e →
  queue (drop_order r e b) side p = filter (λ x, x ≠ r) (queue b side p)
  ∧ L3Book.side_queues side (drop_order r e b) !! p ≠ Some [].
Proof.
  intros Hq Hr. pose proof (in_own_queue _ _ _ Hq Hr) as Hown.
  pose proof (qi_nonempty _ Hq side p) as Hne.
  pose proof (fifo_nodup _ _ _ (L3OrderEntry.side e) (L3OrderEntry.price e) (qi_fifo _ Hq)) as Hnd.
  unfold drop_order, queue, L3Book.remove_from_queue in *. autorewrite with l3.
  rewrite side_queues_on_side.
  destruct (decide (side = L3OrderEntry.side e)) as [->|Hs].
  - destruct (L3Book.side_queues (L3OrderEntry.side e) b !! L3OrderEntry.price e) as [q|] eqn:Eq;
      simpl in Hown, Hnd; [|by apply elem_of_nil in Hown].
    rewrite put_queue_lookup, remove_ref_filter by done.
    destruct (decide (p = L3OrderEntry.price e)) as [->|Hp].
    + rewrite Eq. simpl. by destruct (filter _ q).
    + split; [|done]. symmetry. apply filter_ne_id. intros Hin.
      by destruct (only_own_queue b r e _ p Hq Hr Hin).
  - split; [|done]. symmetry. apply filter_ne_id. intros Hin.
    by destruct (only_own_queue b r e side p Hq Hr Hin).
Qed.

Lemma drop_order_inv b r e :
  queues_inv b → L3Book.orders b !! r = Some e → queues_inv (drop_order r e b).
Proof.
  intros Hq Hr. split.
  - replace (places (drop_order r e b)) with (delete r (places b)).
    + unfold drop_order, L3Book.remove_from_queue. cbn [L3Book.set_orders L3Book.arrival_seq].
      autorewrite with l3. eapply fifo_delete; [apply (qi_fifo _ Hq)|].
      intros side p. apply (drop_order_queue b r e side p Hq Hr).
    + unfold places, drop_order, L3Book.remove_from_queue.
      cbn [L3Book.set_orders L3Book.orders]. autorewrite with l3. by rewrite fmap_delete.
  - intros side p. apply (drop_order_queue b r e side p Hq Hr).
  - unfold drop_order, L3Book.remove_from_queue. cbn [L3Book.set_orders L3Book.arrival_seq].
    autorewrite with l3. apply (qi_seq _ Hq).
Qed.

(** Changing the remaining shares moves no order. *)
Lemma take_shares_inv b r e n :
  queues_inv b → L3Book.orders b !! r = Some e →
  queues_inv (L3Book.set_orders <[r := L3OrderEntry.take_shares n e]> b).
Proof.
  intros [Hf Hne Hs] Hr. assert (places (L3Book.set_orders <[r := L3OrderEntry.take_shares n e]> b)
    = places b) as Hp.
  { unfold places. simpl. rewrite fmap_insert. apply insert_id. rewrite lookup_fmap, Hr. done. }
  split; [|intros side p; autorewrite with l3; apply Hne|done]. rewrite Hp.
  cbn [L3Book.set_orders L3Book.arrival_seq]. destruct Hf as [He Hst Hb].
  split; [|by intros side p; unfold queue; autorewrite with l3; apply Hst|done].
  intros side p x. unfold queue. autorewrite with l3. apply He.
Qed.

Lemma insert_order_inv b r side n p mpid :
  queues_inv b → L3Book.orders b !! r = None → L3Book.arrival_seq b < u64_max →
  queues_inv (L3Book.insert_order r side n p mpid b).
Proof.
  intros [Hf Hne Hs] Hr Hlt. unfold L3Book.insert_order.
  rewrite u64_add_small by lia. split.
  - unfold places. autorewrite with l3. cbn [L3Book.set_orders L3Book.orders L3Book.arrival_seq].
    rewrite fmap_insert. unfold place_of at 1. simpl.
    eapply fifo_insert; [exact Hf|by unfold places; rewrite lookup_fmap, Hr|done|].
    intros side' p'. unfold queue. rewrite side_queues_on_side. autorewrite with l3.
    destruct (decide (side' = side)) as [->|Hsd].
    + destruct (decide (p' = p)) as [->|Hp].
      * rewrite lookup_insert_eq, decide_True by done. by destruct side.
      * rewrite lookup_insert_ne, decide_False by (congruence || intros []; congruence).
        by destruct side.
    + rewrite decide_False by (intros []; congruence). by destruct side'.
  - intros side' p'. rewrite side_queues_on_side. autorewrite with l3. case_decide.
    + subst. destruct (decide (p' = p)) as [->|Hp].
      * rewrite lookup_insert_eq. intros [=E]. by destruct (default [] _).
      * rewrite lookup_insert_ne by congruence. specialize (Hne side p'). by destruct side.
    + specialize (Hne side' p'). by destruct side'.
  - autorewrite with l3. simpl. lia.
Qed.

(** ** The operations in terms of [drop_order] *)

Lemma set_orders_ext f g b :
  f (L3Book.orders b) = g (L3Book.orders b) → L3Book.set_orders f b = L3Book.set_orders g b.
Proof. intros E. unfold L3Book.set_orders. by rewrite E. Qed.

(** A change of the order's own entry does not outlive its removal. *)
Lemma drop_order_take r e n b :
  L3Book.set_orders (delete r)
    (L3Book.remove_from_queue (L3OrderEntry.side e) (L3OrderEntry.price e) r
       (L3Book.set_orders <[r := L3OrderEntry.take_shares n e]> b)) = drop_order r e b.
Proof.
  unfold drop_order, L3Book.remove_from_queue, L3Book.set_orders.
  destruct (L3OrderEntry.side e); cbn; by rewrite delete_insert_eq.
Qed.

Lemma delete_cases r b :
  L3Book.delete r b = match L3Book.orders b !! r with None => b | Some e => drop_order r e b end.
Proof.
  unfold L3Book.delete, drop_order, L3Book.remove_from_queue.
  destruct (L3Book.orders b !! r) as [e|]; [|done]. by destruct (L3OrderEntry.side e).
Qed.

Lemma replace_cases old new n p b :
  L3Book.replace old new n p b
  = match L3Book.orders b !! old with
    | None => (b, Ok tt)
    | Some e => (L3Book.insert_order new (L3OrderEntry.side e) n p (L3OrderEntry.mpid e)
                   (drop_order old e b), Ok tt)
    end.
Proof.
  unfold L3Book.replace, drop_order, L3Book.remove_from_queue.
  destruct (L3Book.orders b !! old) as [e|]; [|done]. by destruct (L3OrderEntry.side e).
Qed.

Lemma cancel_cases r n b :
  L3Book.cancel r n b
  = match L3Book.orders b !! r with
    | None => (b, Ok tt)
    | Some e =>
        if L3OrderEntry.shares e <? n
        then (b, Err (OverExecution r n (L3OrderEntry.shares e)))
        else if L3OrderEntry.shares e =? n then (drop_order r e b, Ok tt)
        else (L3Book.set_orders <[r := L3OrderEntry.take_shares n e]> b, Ok tt)
    end.
Proof.
  unfold L3Book.cancel. destruct (L3Book.orders b !! r) as [e|]; [|done].
  destruct (Z.ltb_spec (L3OrderEntry.shares e) n); [done|].
  cbn [L3OrderEntry.take_shares L3OrderEntry.shares L3OrderEntry.side L3OrderEntry.price].
  destruct (Z.eqb_spec (L3OrderEntry.shares e) n) as [En|En].
  - rewrite (proj2 (Z.eqb_eq _ _)) by lia. by rewrite drop_order_take.
  - by rewrite (proj2 (Z.eqb_neq _ _)) by lia.
Qed.

(** Execution differs from cancellation only in the order it insists on: the
    defensive branches of the source, an order without a queue, cannot be taken. *)
Lemma execute_cases r n b :
  queues_inv b →
  L3Book.execute r n b
  = match L3Book.orders b !! r with
    | None => (b, Ok tt)
    | Some e =>
        if L3OrderEntry.shares e <? n
        then (b, Err (OverExecution r n (L3OrderEntry.shares e)))
        else if L3OrderEntry.shares e =? n then
          match queue b (L3OrderEntry.side e) (L3OrderEntry.price e) with
          | front :: _ =>
              if decide (front = r) then (drop_order r e b, Ok tt)
              else (L3Book.set_orders <[r := L3OrderEntry.take_shares n e]> b,
                    Err (FifoViolation r front))
          | [] => (drop_order r e b, Ok tt)
          end
        else (L3Book.set_orders <[r := L3OrderEntry.take_shares n e]> b, Ok tt)
    end.
Proof.
  intros Hq. unfold L3Book.execute. destruct (L3Book.orders b !! r) as [e|] eqn:Hr; [|done].
  destruct (Z.ltb_spec (L3OrderEntry.shares e) n); [done|].
  cbn [L3OrderEntry.take_shares L3OrderEntry.shares L3OrderEntry.side L3OrderEntry.price].
  destruct (Z.eqb_spec (L3OrderEntry.shares e) n) as [En|En];
    [|by rewrite (proj2 (Z.eqb_neq _ _)) by lia].
  rewrite (proj2 (Z.eqb_eq _ _)) by lia. autorewrite with l3.
  pose proof (in_own_queue _ _ _ Hq Hr) as Hin. unfold queue in Hin |- *.
  destruct (L3Book.side_queues (L3OrderEntry.side e) b !! L3OrderEntry.price e)
    as [[|front q]|] eqn:Eq; simpl in Hin; [by apply elem_of_nil in Hin| |by apply elem_of_nil in Hin].
  simpl default. destruct (decide (front = r)) as [Hf|Hf].
  - subst front. rewrite ?decide_True by done. f_equal. rewrite <-(drop_order_take r e n b).
    unfold L3Book.remove_from_queue.
    destruct (L3OrderEntry.side e) eqn:Es; simpl in Eq |- *; rewrite Eq, remove_ref_front;
      by destruct q.
  - rewrite ?decide_False by done. f_equal. unfold L3Book.on_side, L3Book.set_orders.
    destruct (L3OrderEntry.side e) eqn:Es; simpl in Eq |- *; by rewrite insert_id.
Qed.

(** ** The L3 book implements the contract *)

Record L3_inv (b : L3Book.t) : Prop := {
  l3_queues : queues_inv b;
  l3_orders : orders_ok (L3Book.stock_locate b) (L3OrderEntry.to_l2 <$> L3Book.orders b);
}.

Lemma drop_order_orders r e b : L3Book.orders (drop_order r e b) = delete r (L3Book.orders b).
Proof.
  unfold drop_order, L3Book.remove_from_queue. by autorewrite with l3.
Qed.
Lemma drop_order_locate r e b : L3Book.stock_locate (drop_order r e b) = L3Book.stock_locate b.
Proof.
  unfold drop_order, L3Book.remove_from_queue. by autorewrite with l3.
Qed.
Lemma drop_order_seq r e b : L3Book.arrival_seq (drop_order r e b) = L3Book.arrival_seq b.
Proof.
  unfold drop_order, L3Book.remove_from_queue. by autorewrite with l3.
Qed.
Lemma insert_order_orders r side n p mpid b :
  L3OrderEntry.to_l2 <$> L3Book.orders (L3Book.insert_order r side n p mpid b)
  = <[r := OrderEntry.mk p n side (L3Book.stock_locate b)]>
      (L3OrderEntry.to_l2 <$> L3Book.orders b).
Proof.
  unfold L3Book.insert_order. autorewrite with l3. simpl. by rewrite fmap_insert.
Qed.
Lemma insert_order_locate r side n p mpid b :
  L3Book.stock_locate (L3Book.insert_order r side n p mpid b) = L3Book.stock_locate b.
Proof. unfold L3Book.insert_order. by autorewrite with l3. Qed.
Lemma insert_order_seq r side n p mpid b :
  L3Book.arrival_seq (L3Book.insert_order r side n p mpid b)
  = u64_add (L3Book.arrival_seq b) 1.
Proof. unfold L3Book.insert_order. by autorewrite with l3. Qed.

#[export] Hint Rewrite drop_order_orders drop_order_locate drop_order_seq
  insert_order_orders insert_order_locate insert_order_seq : l3.

(** Reducing an order, by execution or cancellation. *)
Lemma reduce_spec b b' r n res :
  queues_inv b → L3Book.execute r n b = (b', res) ∨ L3Book.cancel r n b = (b', res) →
  queues_inv b' ∧ L3Book.stock_locate b' = L3Book.stock_locate b
  ∧ L3Book.arrival_seq b' = L3Book.arrival_seq b
  ∧ (not_fifo res →
     order_reduce r n (L3OrderEntry.to_l2 <$> L3Book.orders b)
     = (L3OrderEntry.to_l2 <$> L3Book.orders b', res)).
Proof.
  intros Hq E. rewrite execute_cases, cancel_cases in E by done. unfold order_reduce.
  rewrite lookup_fmap. destruct (L3Book.orders b !! r) as [e|] eqn:Hr; simpl;
    [|by destruct E; simplify_eq].
  destruct (Z.ltb_spec (L3OrderEntry.shares e) n); [by destruct E; simplify_eq|].
  assert (∀ m, L3OrderEntry.to_l2 <$> <[r := L3OrderEntry.take_shares n e]> m
    = <[r := OrderEntry.take_shares n (L3OrderEntry.to_l2 e)]> (L3OrderEntry.to_l2 <$> m)) as Ht
    by (intros m; by rewrite fmap_insert).
  destruct (Z.eqb_spec (L3OrderEntry.shares e) n) as [En|En].
  - assert (b' = drop_order r e b ∧ res = Ok tt ∨
            b' = L3Book.set_orders <[r := L3OrderEntry.take_shares n e]> b ∧ ¬ not_fifo res)
      as [[-> ->]|[-> Hres]].
    { destruct E as [E|E]; [|by simplify_eq; left].
      destruct (queue b _ _) as [|front q]; [by simplify_eq; left|].
      case_decide; simplify_eq; [by left|right]. split; [done|]. intros Hn. by eapply Hn. }
    + autorewrite with l3. rewrite fmap_delete. split_and!; [by apply drop_order_inv|done..].
    + split_and!; [by apply take_shares_inv|done..|done].
  - destruct E as [E|E]; simplify_eq; (split_and!; [by apply take_shares_inv|done..|]);
      intros _; by rewrite <-Ht.
Qed.

Lemma to_l2_None b r :
  (L3OrderEntry.to_l2 <$> L3Book.orders b) !! r = None → L3Book.orders b !! r = None.
Proof. by rewrite lookup_fmap, fmap_None. Qed.

(** The two add messages, with their guard on the symbol. *)
Lemma l3_add_guarded_spec b b' hdr r side n p mpid res :
  queues_inv b → L3Book.arrival_seq b < u64_max →
  (Header.stock_locate hdr = L3Book.stock_locate b →
     new_order_ok (L3OrderEntry.to_l2 <$> L3Book.orders b) r n) →
  (if decide (Header.stock_locate hdr ≠ L3Book.stock_locate b) then (b, Ok tt)
   else (L3Book.insert_order r side n p mpid b, Ok tt)) = (b', res) →
  queues_inv b' ∧ L3Book.stock_locate b' = L3Book.stock_locate b
  ∧ L3Book.arrival_seq b ≤ L3Book.arrival_seq b' ≤ L3Book.arrival_seq b + 1
  ∧ (not_fifo res →
     order_add (L3Book.stock_locate b) hdr r side n p (L3OrderEntry.to_l2 <$> L3Book.orders b)
     = (L3OrderEntry.to_l2 <$> L3Book.orders b', res)).
Proof.
  intros Hq Hlt Hm E. unfold order_add.
  case_decide as Hl; simplify_eq; [by rewrite decide_False by done; split_and!; try done; lia|].
  destruct (Hm Hl) as (Hr & _ & _). apply to_l2_None in Hr. pose proof (qi_seq _ Hq).
  rewrite decide_True by done. autorewrite with l3. rewrite u64_add_small by lia.
  split_and!; [by apply insert_order_inv|done|lia|lia|done].
Qed.

(** Every message, on every outcome: the queues stay consistent with the index;
    and unless the queue order was violated, the orders change as specified. *)
Lemma L3_apply_spec b b' msg res :
  queues_inv b → msg_ok (L3Book.stock_locate b) (L3OrderEntry.to_l2 <$> L3Book.orders b) msg →
  L3Book.arrival_seq b < u64_max → L3Book.apply msg b = (b', res) →
  queues_inv b' ∧ L3Book.stock_locate b' = L3Book.stock_locate b
  ∧ L3Book.arrival_seq b ≤ L3Book.arrival_seq b' ≤ L3Book.arrival_seq b + 1
  ∧ (not_fifo res →
     order_apply (L3Book.stock_locate b) msg (L3OrderEntry.to_l2 <$> L3Book.orders b)
     = (L3OrderEntry.to_l2 <$> L3Book.orders b', res)).
Proof.
  intros Hq Hm Hlt E. pose proof (qi_seq _ Hq).
  destruct msg; simpl in E, Hm |- *;
    try (simplify_eq; split_and!; [done|done|lia|lia|done]);
    try (eapply l3_add_guarded_spec; by eauto).
  - destruct (reduce_spec _ _ _ _ _ Hq (or_introl E)) as (? & ? & ? & ?).
    split_and!; [done|done|lia|lia|done].
  - destruct (reduce_spec _ _ _ _ _ Hq (or_introl E)) as (? & ? & ? & ?).
    split_and!; [done|done|lia|lia|done].
  - destruct (reduce_spec _ _ _ _ _ Hq (or_intror E)) as (? & ? & ? & ?).
    split_and!; [done|done|lia|lia|done].
  - rewrite delete_cases in E. destruct (L3Book.orders b !! _) as [e|] eqn:Hr; simplify_eq.
    + autorewrite with l3. rewrite fmap_delete.
      split_and!; [by apply drop_order_inv|done|lia|lia|done].
    + rewrite delete_id by by rewrite lookup_fmap, Hr. split_and!; [done|done|lia|lia|done].
  - rewrite replace_cases in E. unfold order_replace. rewrite lookup_fmap in Hm |- *.
    destruct (L3Book.orders b !! _) as [e|] eqn:Hr; simplify_eq;
      [|split_and!; [done|done|lia|lia|done]].
    destruct (Hm ltac:(eauto)) as (Hnew & _ & _). rewrite <-fmap_delete in Hnew.
    autorewrite with l3. rewrite u64_add_small, fmap_delete by lia.
    split_and!; [|done|lia|lia|done].
    apply insert_order_inv; [by apply drop_order_inv| |by autorewrite with l3].
    autorewrite with l3. by rewrite lookup_fmap, fmap_None in Hnew.
Qed.

#[global] Instance L3_refines : BookRefines L3Book.t L3_inv.
Proof.
  constructor; [by intros b []| |].
  - intros b b' msg res [Hq Ho] Hm Hsize Hroom E Hres. simpl in *.
    destruct (L3_apply_spec b b' msg res Hq Hm ltac:(lia) E) as (Hq' & Hl & Hseq & Ha).
    specialize (Ha Hres). split_and!; [split; [done|]|done|done|intros; lia]. rewrite Hl.
    pose proof (order_apply_ok _ _ _ Ho Hm) as Hok. by rewrite Ha in Hok.
  - intros b n. simpl. lia.
Qed.

Lemma L3_inv_new loc : L3_inv (L3Book.new loc).
Proof.
  split; [|done]. split; [split| |done].
  - intros side p r. unfold queue, places. simpl. rewrite fmap_empty, lookup_empty.
    destruct side; simpl; rewrite lookup_empty; split; [by intros ?%elem_of_nil|by intros []
      |by intros ?%elem_of_nil|by intros []].
  - intros side p. destruct side; constructor.
  - intros r x. unfold places. simpl. by rewrite fmap_empty, lookup_empty.
  - by intros [] p.
Qed.

(** ** Properties *)

(** The states an L3 book goes through on a feed that does not reuse the
    reference of an order it still holds, errors of every kind included. *)
Inductive L3_reach (loc : StockLocate.t) : L3Book.t → Prop :=
| L3_reach_new : L3_reach loc (L3Book.new loc)
| L3_reach_apply b b' msg res :
    L3_reach loc b →
    msg_ok (L3Book.stock_locate b) (L3OrderEntry.to_l2 <$> L3Book.orders b) msg →
    L3Book.arrival_seq b < u64_max →
    L3Book.apply msg b = (b', res) →
    L3_reach loc b'.

Lemma L3_reach_queues loc b : L3_reach loc b → queues_inv b.
Proof.
  induction 1 as [|b b' msg res _ IH Hm Hlt E]; [apply L3_inv_new|].
  by destruct (L3_apply_spec b b' msg res IH Hm Hlt E).
Qed.

(** The same for a list of messages, as a condition that can be evaluated. *)
Fixpoint L3_feed_ok (b : L3Book.t) (msgs : list Message.t) : Prop :=
  match msgs with
  | [] => True
  | msg :: msgs =>
      msg_ok (L3Book.stock_locate b) (L3OrderEntry.to_l2 <$> L3Book.orders b) msg
      ∧ L3Book.arrival_seq b < u64_max ∧ L3_feed_ok (L3Book.apply msg b).1 msgs
  end.
#[global] Instance L3_feed_ok_dec b msgs : Decision (L3_feed_ok b msgs).
Proof. revert b. induction msgs; intros b; simpl; apply _. Defined.

Lemma L3_feed_reach loc b msgs :
  L3_reach loc b → L3_feed_ok b msgs → L3_reach loc (book_run msgs b).1.
Proof.
  revert b. induction msgs as [|msg msgs IH]; intros b Hb Hf; [done|].
  destruct Hf as (Hm & Hlt & Hf). simpl. destruct (L3Book.apply msg b) as [b' r] eqn:E.
  simpl in Hf. specialize (IH b' (L3_reach_apply _ _ _ _ _ Hb Hm Hlt E) Hf).
  by destruct (book_run msgs b').
Qed.

(** Three orders at one price, the first partly filled and the second cancelled. *)
Definition example_l3_feed : list Message.t :=
  [ example_add 1 Side.Buy 100 5000; example_add 2 Side.Buy 50 5000;
    example_add 3 Side.Buy 70 5000;
    Message.OrderExecuted (OrderExecuted.mk example_header (OrderReference.from_u64 1)
      (Shares.from_u32 40) MatchNumber.default);
    Message.OrderCancel (OrderCancel.mk example_header (OrderReference.from_u64 2)
      (Shares.from_u32 50)) ].
Definition example_l3 : L3Book.t :=
  (book_run example_l3_feed (L3Book.new (StockLocate.from_u16 7))).1.

Lemma example_l3_reach : L3_reach (StockLocate.from_u16 7) example_l3.
Proof.
  apply L3_feed_reach; [constructor|]. apply (bool_decide_unpack _). vm_compute. exact I.
Qed.

(** The orders ahead of position [n] of a queue are those that arrived earlier. *)
Lemma queue_prefix q pm seq side p n r x :
  fifo q pm seq → q side p !! n = Some r →
  x ∈ take n (q side p) ↔ x ∈ q side p ∧ arrives_before pm x r.
Proof.
  intros Hf Hn. pose proof (fifo_sorted _ _ _ Hf side p) as Hs.
  pose proof (take_drop_middle _ _ _ Hn) as Eq. rewrite <-Eq in Hs. split.
  - intros Hx. split; [by rewrite <-Eq; apply elem_of_app; left|].
    eapply StronglySorted_app_1_elem_of; [exact Hs|done|apply list_elem_of_here].
  - intros [Hx Hlt]. rewrite <-Eq in Hx.
    apply elem_of_app in Hx as [Hx|Hx]; [done|exfalso].
    apply StronglySorted_app_1_r in Hs. inversion Hs as [|? ? _ Hall]; subst.
    apply elem_of_cons in Hx as [->|Hx]; [by eapply arrives_before_irrefl|].
    rewrite Forall_forall in Hall. destruct (Hall _ Hx) as (? & ? & ? & ? & ?).
    destruct Hlt as (? & ? & ? & ? & ?). simplify_eq. lia.
Qed.

Lemma own_queue_lookup b r e :
  queues_inv b → L3Book.orders b !! r = Some e →
  L3Book.side_queues (L3OrderEntry.side e) b !! L3OrderEntry.price e
  = Some (queue b (L3OrderEntry.side e) (L3OrderEntry.price e)).
Proof.
  intros Hq Hr. pose proof (in_own_queue _ _ _ Hq Hr) as Hin. unfold queue in *.
  destruct (L3Book.side_queues _ b !! _); [done|]. simpl in Hin. by apply elem_of_nil in Hin.
Qed.

(** C18: [queue_position] is the queue position. After any feed that does not
    reuse the reference of an order still held and adds positive [u32] share
    counts, as long as the arrival counter has not reached its maximum, and with
    whatever errors the feed caused, the position of a resting order is the number
    of orders resting at its side and price that arrived before it, and an order
    that is not resting has none. *)
Theorem queue_position_correct loc b r :
  L3_reach loc b →
  L3Book.queue_position r b =
  match L3Book.orders b !! r with
  | None => None
  | Some e => Some (size (filter (λ '(_, e'),
      L3OrderEntry.side e' = L3OrderEntry.side e ∧ L3OrderEntry.price e' = L3OrderEntry.price e
      ∧ L3OrderEntry.arrival_seq e' < L3OrderEntry.arrival_seq e) (L3Book.orders b)))
  end.
Proof.
  intros Hb%L3_reach_queues. unfold L3Book.queue_position.
  destruct (L3Book.orders b !! r) as [e|] eqn:Hr; [simpl|done].
  pose proof (in_own_queue _ _ _ Hb Hr) as Hin.
  pose proof (fifo_nodup _ _ _ (L3OrderEntry.side e) (L3OrderEntry.price e) (qi_fifo _ Hb)) as Hnd.
  destruct (list_find_elem_of (λ x, x = r) _ _ Hin eq_refl) as [[n x] Hf].
  pose proof Hf as (Hn & -> & _)%list_find_Some.
  rewrite (own_queue_lookup _ _ _ Hb Hr). simpl. rewrite Hf. simpl. f_equal.
  rewrite <-(size_dom (D := gset OrderReference.t)).
  rewrite (dom_filter_L _ _ 
    (list_to_set (take n (queue b (L3OrderEntry.side e) (L3OrderEntry.price e))))).
  - rewrite size_list_to_set, length_take, Nat.min_l; [done| |].
    + apply Nat.lt_le_incl. by eapply lookup_lt_Some.
    + eapply sublist_NoDup; [exact Hnd|apply sublist_take].
  - intros x. rewrite elem_of_list_to_set, (queue_prefix _ _ _ _ _ _ _ x (qi_fifo _ Hb) Hn).
    rewrite (fifo_elem _ _ _ (qi_fifo _ Hb)). unfold arrives_before, places.
    rewrite !lookup_fmap, Hr. split.
    + intros [[s Hs] (x1 & x2 & H1 & H2 & Hlt)].
      unfold place_of in *. destruct (L3Book.orders b !! x) as [e'|]; simplify_eq/=. eauto.
    + intros (e' & -> & Hs & Hp & Hlt). split; [|simpl; eauto].
      exists (L3OrderEntry.arrival_seq e'). simpl. unfold place_of. congruence.
Qed.

Lemma queue_position_correct_witness :
  L3Book.queue_position (OrderReference.from_u64 3) example_l3 = Some 1%nat.
Proof.
  rewrite (queue_position_correct (StockLocate.from_u16 7) example_l3 (OrderReference.from_u64 3)
    example_l3_reach).
  vm_compute. reflexivity.
Defined.

(** Adding resting orders one by one to an L2 book. *)
Lemma summary_fold b es l2 :
  L2_inv l2 → L2Book.stock_locate l2 = L3Book.stock_locate b →
  NoDup es.*1 → Forall (λ r, L2Book.orders l2 !! r = None) es.*1 →
  Forall (λ x, 0 < L3OrderEntry.shares x.2 ∧ is_u32 (L3OrderEntry.shares x.2)
               ∧ L3OrderEntry.stock_locate x.2 = L3Book.stock_locate b) es →
  Z.of_nat (size (L2Book.orders l2) + length es) ≤ max_orders →
  let l2' := foldl (L3Book.summary_step b) l2 es in
  L2_inv l2' ∧ L2Book.stock_locate l2' = L3Book.stock_locate b
  ∧ L2Book.orders l2' = (L3OrderEntry.to_l2 <$> list_to_map es) ∪ L2Book.orders l2.
Proof.
  revert l2. induction es as [|[r e] es IH]; intros l2 Hinv Hl Hnd Hfresh Hok Hsz; simpl.
  { split_and!; [done|done|]. by rewrite fmap_empty, map_empty_union. }
  simpl in Hnd, Hfresh, Hsz. apply NoDup_cons in Hnd as [Hr Hnd].
  apply Forall_cons in Hfresh as [Hfr Hfresh]. apply Forall_cons in Hok as [(Hp & Hu & He) Hok].
  simpl in Hp, Hu, He.
  do 2 (rewrite decide_False by (intros Hn; by apply Hn); simpl).
  set (l2' := L2Book.add_order _ _ _ _ l2).
  assert (L2Book.orders l2' = <[r := L3OrderEntry.to_l2 e]> (L2Book.orders l2)) as Ho.
  { unfold l2', L3OrderEntry.to_l2. by rewrite orders_add_order, Hl, He. }
  destruct (IH l2') as (Hinv' & Hl' & Ho').
  - apply add_order_inv; [done|done|lia].
  - unfold l2'. by rewrite locate_add_order.
  - done.
  - rewrite Forall_forall in Hfresh |- *. intros x Hx.
    rewrite Ho, lookup_insert_ne; [by apply Hfresh|by intros ->].
  - done.
  - rewrite Ho, map_size_insert_None by done. lia.
  - split_and!; [done|done|]. rewrite Ho', Ho, fmap_insert, <-insert_union_l.
    symmetry. apply insert_union_r. rewrite lookup_fmap, not_elem_of_list_to_map_1; done.
Qed.

Lemma summary_l2_spec b es :
  orders_ok (L3Book.stock_locate b) (L3OrderEntry.to_l2 <$> L3Book.orders b) →
  Z.of_nat (size (L3Book.orders b)) ≤ max_orders → es ≡ₚ map_to_list (L3Book.orders b) →
  L2_inv (L3Book.summary_l2 es b)
  ∧ L2Book.stock_locate (L3Book.summary_l2 es b) = L3Book.stock_locate b
  ∧ L2Book.orders (L3Book.summary_l2 es b) = L3OrderEntry.to_l2 <$> L3Book.orders b.
Proof.
  intros Hok Hsz Hes. assert (NoDup es.*1) as Hnd by (rewrite Hes; apply NoDup_fst_map_to_list).
  destruct (summary_fold b es (L2Book.new (L3Book.stock_locate b))) as (Hinv & Hls & Hos).
  - apply L2_inv_new.
  - done.
  - done.
  - apply Forall_forall. intros. apply lookup_empty.
  - apply Forall_forall. intros [r e] Hin. rewrite Hes, elem_of_map_to_list in Hin.
    apply (Hok r (L3OrderEntry.to_l2 e)). by rewrite lookup_fmap, Hin.
  - simpl. rewrite map_size_empty, Hes. by rewrite length_map_to_list.
  - split_and!; [exact Hinv|exact Hls|]. unfold L3Book.summary_l2. rewrite Hos. simpl.
    rewrite map_union_empty, (list_to_map_proper _ _ Hnd Hes). by rewrite list_to_map_to_list.
Qed.

(** C4: the two books agree. On any feed of at most 2^64 - 1 messages that does
    not reuse live references, adds positive [u32] share counts, keeps fewer than
    2^32 orders resting and causes no queue violation, the L3 book reports what
    the L2 book reports, and the summary re-derived from its orders, in whatever
    order the hash map yields them, is the L2 book, levels included. *)
Theorem L3_agrees_with_L2 loc msgs es b3 rs :
  feed_ok loc ∅ msgs → Z.of_nat (length msgs) ≤ u64_max →
  book_run msgs (L3Book.new loc) = (b3, rs) → Forall not_fifo rs →
  es ≡ₚ map_to_list (L3Book.orders b3) →
  book_run msgs (L2Book.new loc) = (L3Book.summary_l2 es b3, rs).
Proof.
  intros Hfeed Hlen E3 Hrs Hes.
  pose proof (book_run_refines (inv := L3_inv) msgs (L3Book.new loc) b3 rs (L3_inv_new loc)) as X.
  simpl in X. destruct (X Hfeed Hlen E3 Hrs) as ([_ Hok] & Hl & Hrun). clear X.
  destruct (L2_run_inv loc msgs Hfeed) as (Hinv2 & Hl2 & Hrun2).
  destruct (order_run_ok loc ∅ msgs) as [_ Hsz]; [done|done|done|].
  change (L3OrderEntry.to_l2 <$> ∅) with (∅ : orders_map) in Hrun.
  rewrite Hrun in Hrun2, Hsz. simpl in Hsz. injection Hrun2 as Ho Hr. rewrite map_size_fmap in Hsz.
  destruct (summary_l2_spec b3 es Hok Hsz Hes) as (Hinv & Hls & Hos).
  rewrite (surjective_pairing (book_run msgs (L2Book.new loc))). rewrite <-Hr. f_equal.
  apply L2_inv_ext; [done|done| |congruence]. etrans; [exact Hl2|]. symmetry. by etrans.
Qed.

Lemma L3_agrees_with_L2_witness :
  book_run example_l3_feed (L2Book.new (StockLocate.from_u16 7))
  = (L3Book.summary_l2 (map_to_list (L3Book.orders example_l3)) example_l3,
     [Ok tt; Ok tt; Ok tt; Ok tt; Ok tt]).
Proof.
  apply (L3_agrees_with_L2 (StockLocate.from_u16 7) example_l3_feed).
  - apply (bool_decide_unpack _). vm_compute. exact I.
  - vm_compute. discriminate.
  - vm_compute. reflexivity.
  - repeat constructor; intros x y; discriminate.
  - reflexivity.
Defined.

(** An execution that exhausts an order behind others in its queue is
    reported as a violation, but it has already emptied the order: the entry
    stays in the index and in its queue with no shares left, where the
    specification (and the L2 book) removes it. *)
Theorem fifo_violation_leaves_empty_order loc b b' m x front :
  L3_reach loc b →
  L3Book.apply (Message.OrderExecuted m) b = (b', Err (FifoViolation x front)) →
  let r := OrderExecuted.order_ref m in
  x = r ∧ front ≠ r ∧ ∃ e,
    L3Book.orders b !! r = Some e
    ∧ L3Book.orders b' !! r = Some (L3OrderEntry.take_shares (L3OrderEntry.shares e) e)
    ∧ L3Book.queue_position r b' = L3Book.queue_position r b
    ∧ head (queue b (L3OrderEntry.side e) (L3OrderEntry.price e)) = Some front
    ∧ (order_apply (L3Book.stock_locate b) (Message.OrderExecuted m)
         (L3OrderEntry.to_l2 <$> L3Book.orders b)).1 !! r = None.
Proof.
  intros Hq%L3_reach_queues E r. simpl in E. rewrite execute_cases in E by done.
  unfold order_apply, order_reduce. rewrite lookup_fmap. fold r in E |- *.
  destruct (L3Book.orders b !! r) as [e|] eqn:Hr; [|done]. simpl in E |- *.
  destruct (Z.ltb_spec (L3OrderEntry.shares e) (Shares.as_u32 (OrderExecuted.executed_shares m)));
    [done|].
  destruct (Z.eqb_spec (L3OrderEntry.shares e) (Shares.as_u32 (OrderExecuted.executed_shares m)))
    as [En|]; [|done].
  destruct (queue b (L3OrderEntry.side e) (L3OrderEntry.price e)) as [|f q] eqn:Hqu; [done|].
  case_decide as Hf; [done|]. injection E as <- <- <-. split_and!; [done|done|].
  exists e. rewrite <-En. unfold L3Book.queue_position. autorewrite with l3.
  rewrite Hqu, lookup_insert_eq, Hr. simpl. rewrite lookup_delete_eq. autorewrite with l3.
  split_and!; done.
Qed.

Lemma fifo_violation_leaves_empty_order_witness :
  let m := OrderExecuted.mk example_header (OrderReference.from_u64 3) (Shares.from_u32 70)
             MatchNumber.default in
  OrderReference.from_u64 1 ≠ OrderReference.from_u64 3
  ∧ (order_apply (StockLocate.from_u16 7) (Message.OrderExecuted m)
       (L3OrderEntry.to_l2 <$> L3Book.orders example_l3)).1 !! OrderReference.from_u64 3 = None.
Proof.
  intros m.
  destruct (fifo_violation_leaves_empty_order (StockLocate.from_u16 7) example_l3
    (L3Book.apply (Message.OrderExecuted m) example_l3).1 m
    (OrderReference.from_u64 3) (OrderReference.from_u64 1) example_l3_reach)
    as (_ & Hne & e & _ & _ & _ & _ & Hnone).
  - vm_compute. reflexivity.
  - split; [exact Hne|exact Hnone].
Defined.
