(* ===== verification/BookManager.v ===== *)
(** The multi-symbol router ([crates/itch-book/src/manager.rs], with its
    default feature [l3]).

    [manager_run] applies a list of messages, going on after errors as a
    caller that logs them does; [BookManager.run] is the source's runner, which
    stops at the first one. *)

From S2P Require Import Prelude Primitives Enums Messages BookSpec L2Book L3Book.

Module BookManager.
Record t := mk {
  directory : gmap StockLocate.t Stock.t;
  l2 : gmap StockLocate.t L2Book.t;
  l3 : gmap StockLocate.t L3Book.t;
  last_seq : Z }.

Definition new : t := mk ∅ ∅ ∅ 0.
Definition symbol (loc : StockLocate.t) (m : t) : option Stock.t := directory m !! loc.
Definition locates (m : t) : gset StockLocate.t := dom (l2 m).

(** [self.l2.entry(locate).or_insert_with(|| L2Book::new(locate))] *)
Definition l2_entry (loc : StockLocate.t) (m : t) : L2Book.t :=
  default (L2Book.new loc) (l2 m !! loc).
Definition l3_entry (loc : StockLocate.t) (m : t) : L3Book.t :=
  default (L3Book.new loc) (l3 m !! loc).

Definition apply (msg : Message.t) : mut t unit BookError := λ m,
  let last_seq := u64_add (last_seq m) 1 in
  let directory :=
    match msg with
    | Message.StockDirectory r =>
        <[Header.stock_locate (StockDirectory.header r) := StockDirectory.stock r]> (directory m)
    | _ => directory m
    end in
  let locate := Header.stock_locate (Message.header msg) in
  let '(b2, r2) := L2Book.apply msg (l2_entry locate m) in
  let l2 := <[locate := b2]> (l2 m) in
  match r2 with
  | Err e => (mk directory l2 (l3 m) last_seq, Err e)
  | Ok _ =>
      let '(b3, r3) := L3Book.apply msg (l3_entry locate m) in
      (mk directory l2 (<[locate := b3]> (l3 m)) last_seq, r3)
  end.

(** [run]: the stream is drained up to its first error, which is returned. *)
Fixpoint run (stream : list (result Message.t ProtocolError)) : mut t unit BookError := λ m,
  match stream with
  | [] => (m, Ok tt)
  | Err e :: _ => (m, Err (Protocol e))
  | Ok msg :: stream =>
      let '(m, r) := apply msg m in
      match r with
      | Err e => (m, Err e)
      | Ok _ => run stream m
      end
  end.
End BookManager.

Fixpoint manager_run (msgs : list Message.t) (m : BookManager.t)
    : BookManager.t * list (result unit BookError) :=
  match msgs with
  | [] => (m, [])
  | msg :: msgs =>
      let '(m, r) := BookManager.apply msg m in
      let '(m, rs) := manager_run msgs m in (m, r :: rs)
  end.

Definition locate_of (msg : Message.t) : StockLocate.t := Header.stock_locate (Message.header msg).

(** The part of the feed that is for one symbol. *)
Definition msgs_at (loc : StockLocate.t) (msgs : list Message.t) : list Message.t :=
  filter (λ msg, locate_of msg = loc) msgs.

(** ** One step *)

Section step.
Context (msg : Message.t) (m m' : BookManager.t) (r : result unit BookError).
Hypothesis Hstep : BookManager.apply msg m = (m', r).

Lemma apply_l2 loc :
  BookManager.l2 m' !! loc
  = if decide (locate_of msg = loc)
    then Some (L2Book.apply msg (BookManager.l2_entry loc m)).1
    else BookManager.l2 m !! loc.
Proof.
  unfold BookManager.apply in Hstep. fold (locate_of msg) in Hstep.
  destruct (L2Book.apply msg _) as [b2 r2] eqn:E2 in Hstep.
  assert (BookManager.l2 m' = <[locate_of msg := b2]> (BookManager.l2 m)) as ->.
  { destruct r2; [destruct (L3Book.apply _ _)|]; by simplify_eq. }
  case_decide as Hl; [subst loc; by rewrite lookup_insert_eq, E2|by rewrite lookup_insert_ne].
Qed.

Lemma apply_l3_other loc : locate_of msg ≠ loc → BookManager.l3 m' !! loc = BookManager.l3 m !! loc.
Proof.
  intros Hl. unfold BookManager.apply in Hstep. fold (locate_of msg) in Hstep.
  destruct (L2Book.apply msg _) as [b2 [|e]] in Hstep; [|by simplify_eq].
  destruct (L3Book.apply msg _) as [b3 r3] in Hstep. simplify_eq. simpl.
  by rewrite lookup_insert_ne.
Qed.

(** The L3 book of the message's symbol, and the outcome. *)
Lemma apply_l3_own :
  let '(b3, r3) := L3Book.apply msg (BookManager.l3_entry (locate_of msg) m) in
  match (L2Book.apply msg (BookManager.l2_entry (locate_of msg) m)).2 with
  | Ok _ => BookManager.l3 m' !! locate_of msg = Some b3 ∧ r = r3
  | Err e => BookManager.l3 m' = BookManager.l3 m ∧ r = Err e
  end.
Proof.
  unfold BookManager.apply in Hstep. fold (locate_of msg) in Hstep.
  destruct (L2Book.apply msg _) as [b2 [|e]] in Hstep |- *;
    destruct (L3Book.apply msg _) as [b3 r3] in Hstep |- *; simplify_eq; simpl; [|done].
  by rewrite lookup_insert_eq.
Qed.

Lemma apply_directory loc :
  BookManager.directory m' !! loc
  = match msg with
    | Message.StockDirectory d =>
        if decide (locate_of msg = loc) then Some (StockDirectory.stock d)
        else BookManager.directory m !! loc
    | _ => BookManager.directory m !! loc
    end.
Proof.
  unfold BookManager.apply in Hstep.
  destruct (L2Book.apply msg _) as [b2 [|e]] in Hstep;
    [destruct (L3Book.apply msg _) as [b3 r3] in Hstep|]; simplify_eq; simpl;
    (destruct msg; try done); unfold locate_of; simpl;
    (case_decide; [subst; by rewrite lookup_insert_eq|by rewrite lookup_insert_ne]).
Qed.

Lemma apply_last_seq : BookManager.last_seq m' = u64_add (BookManager.last_seq m) 1.
Proof.
  unfold BookManager.apply in Hstep.
  destruct (L2Book.apply msg _) as [b2 [|e]] in Hstep;
    [destruct (L3Book.apply msg _) as [b3 r3] in Hstep|]; by simplify_eq.
Qed.
End step.

(** ** Feeds *)

Lemma manager_run_l2 msgs m loc :
  BookManager.l2 (manager_run msgs m).1 !! loc
  = match msgs_at loc msgs with
    | [] => BookManager.l2 m !! loc
    | ms => Some (book_run ms (BookManager.l2_entry loc m)).1
    end.
Proof.
  revert m. induction msgs as [|msg msgs IH]; intros m; [done|]. simpl.
  destruct (BookManager.apply msg m) as [m1 r] eqn:E. specialize (IH m1).
  pose proof (apply_l2 _ _ _ _ E loc) as Hl2.
  destruct (manager_run msgs m1) as [m2 rs]. simpl in IH |- *. rewrite IH. unfold msgs_at.
  rewrite filter_cons. unfold BookManager.l2_entry at 1. rewrite Hl2.
  destruct (decide (locate_of msg = loc)) as [Hl|Hl]; [|done]. cbn [book_run default].
  change (book_apply msg) with (L2Book.apply msg).
  destruct (L2Book.apply msg (BookManager.l2_entry loc m)) as [b r']. simpl.
  destruct (filter _ msgs) as [|msg' ms]; [done|]. simpl.
  destruct (L2Book.apply msg' b) as [b1 r1]. by destruct (book_run ms b1).
Qed.

Lemma l2_entry_other msg m m' r loc :
  BookManager.apply msg m = (m', r) → locate_of msg ≠ loc →
  BookManager.l2_entry loc m' = BookManager.l2_entry loc m.
Proof.
  intros E Hl. unfold BookManager.l2_entry. by rewrite (apply_l2 _ _ _ _ E), decide_False.
Qed.

(** The two books of one symbol hold the resting orders [os]. *)
Record books_hold (loc : StockLocate.t) (os : orders_map) (m : BookManager.t) : Prop := {
  bh_l2 : L2_inv (BookManager.l2_entry loc m);
  bh_l2_loc : L2Book.stock_locate (BookManager.l2_entry loc m) = loc;
  bh_l2_os : L2Book.orders (BookManager.l2_entry loc m) = os;
  bh_l3 : L3_inv (BookManager.l3_entry loc m);
  bh_l3_loc : L3Book.stock_locate (BookManager.l3_entry loc m) = loc;
  bh_l3_os : L3OrderEntry.to_l2 <$> L3Book.orders (BookManager.l3_entry loc m) = os;
}.

(** One message for the symbol: both books follow the specification. *)
Lemma books_hold_own msg m m' r os :
  BookManager.apply msg m = (m', r) → not_fifo r →
  books_hold (locate_of msg) os m → msg_ok (locate_of msg) os msg →
  Z.of_nat (size os) < max_orders →
  L3Book.arrival_seq (BookManager.l3_entry (locate_of msg) m) < u64_max →
  books_hold (locate_of msg) (order_apply (locate_of msg) msg os).1 m'
  ∧ L3Book.arrival_seq (BookManager.l3_entry (locate_of msg) m')
    ≤ L3Book.arrival_seq (BookManager.l3_entry (locate_of msg) m) + 1.
Proof.
  intros E Hr [H2 H2l H2o H3 H3l H3o] Hm Hsz Hseq.
  pose proof (apply_l2 _ _ _ _ E (locate_of msg)) as Hl2. rewrite decide_True in Hl2 by done.
  pose proof (apply_l3_own _ _ _ _ E) as Hl3.
  set (b2 := BookManager.l2_entry (locate_of msg) m) in *.
  set (b3 := BookManager.l3_entry (locate_of msg) m) in *.
  destruct (L2Book.apply msg b2) as [b2' r2] eqn:E2. simpl in Hl2, Hl3.
  pose proof (refines_apply (inv := L2_inv) b2 b2' msg r2 H2) as X2. simpl in X2.
  rewrite H2l, H2o in X2.
  destruct (X2 Hm Hsz I E2 (L2_apply_not_fifo _ _ _ _ E2)) as (H2' & H2l' & H2o' & _).
  destruct (L3Book.apply msg b3) as [b3' r3] eqn:E3.
  assert (BookManager.l2_entry (locate_of msg) m' = b2') as Eb2
    by (unfold BookManager.l2_entry; by rewrite Hl2).
  destruct r2 as [[]|e].
  - destruct Hl3 as [Hl3 ->].
    assert (BookManager.l3_entry (locate_of msg) m' = b3') as Eb3
      by (unfold BookManager.l3_entry; by rewrite Hl3).
    pose proof (L3_apply_spec b3 b3' msg r3 (l3_queues _ H3)) as X3.
    pose proof (refines_apply (inv := L3_inv) b3 b3' msg r3 H3) as Y3. simpl in Y3.
    rewrite H3l, H3o in X3, Y3.
    destruct (X3 Hm Hseq E3) as (_ & _ & Hs & _).
    destruct (Y3 Hm Hsz ltac:(lia) E3 Hr) as (H3' & H3l' & H3o' & _).
    rewrite Eb3. split; [|lia]. rewrite H2o'. simpl.
    split; rewrite ?Eb2, ?Eb3; done || congruence.
  - destruct Hl3 as [Hl3 ->].
    assert (BookManager.l3_entry (locate_of msg) m' = b3) as Eb3
      by (unfold BookManager.l3_entry; by rewrite Hl3).
    rewrite Eb3. split; [|lia]. rewrite H2o'. simpl.
    apply order_apply_err in H2o'. split; rewrite ?Eb2, ?Eb3; done || congruence.
Qed.

Lemma books_hold_other loc os msg m m' r :
  BookManager.apply msg m = (m', r) → locate_of msg ≠ loc →
  books_hold loc os m → books_hold loc os m'
  ∧ BookManager.l3_entry loc m' = BookManager.l3_entry loc m.
Proof.
  intros E Hl [H2 H2l H2o H3 H3l H3o].
  assert (BookManager.l3_entry loc m' = BookManager.l3_entry loc m) as E3
    by (unfold BookManager.l3_entry; by rewrite (apply_l3_other _ _ _ _ E)).
  pose proof (l2_entry_other _ _ _ _ _ E Hl) as E2. split; [|done]. by split; rewrite ?E2, ?E3.
Qed.

Lemma manager_run_hold loc msgs m m' rs os :
  manager_run msgs m = (m', rs) → Forall not_fifo rs → books_hold loc os m →
  feed_ok loc os (msgs_at loc msgs) →
  L3Book.arrival_seq (BookManager.l3_entry loc m) + Z.of_nat (length msgs) ≤ u64_max →
  books_hold loc (order_run loc (msgs_at loc msgs) os).1 m'.
Proof.
  revert m rs os. induction msgs as [|msg msgs IH]; intros m rs os E Hrs Hb Hfeed Hseq.
  { simpl in E. by simplify_eq. }
  simpl in E. destruct (BookManager.apply msg m) as [m1 r] eqn:E1.
  destruct (manager_run msgs m1) as [m2 rs2] eqn:E2. simplify_eq.
  apply Forall_cons in Hrs as [Hr Hrs]. simpl length in Hseq. unfold msgs_at in Hfeed |- *.
  rewrite filter_cons in Hfeed |- *. destruct (decide (locate_of msg = loc)) as [<-|Hl].
  - destruct Hfeed as (Hm & Hsz & Hfeed).
    destruct (books_hold_own _ _ _ _ _ E1 Hr Hb Hm Hsz ltac:(lia)) as [Hb1 Hs1].
    specialize (IH m1 rs2 _ E2 Hrs Hb1 Hfeed ltac:(lia)). simpl.
    destruct (order_apply (locate_of msg) msg os) as [os1 r1]. simpl in IH.
    unfold msgs_at in IH. by destruct (order_run _ _ os1).
  - destruct (books_hold_other _ _ _ _ _ _ E1 Hl Hb) as [Hb1 Es].
    apply (IH m1 rs2); [done..|]. rewrite Es. lia.
Qed.

Lemma books_hold_new loc : books_hold loc ∅ BookManager.new.
Proof. split; try done; [apply L2_inv_new|apply L3_inv_new]. Qed.

(** ** Properties *)

(** The router keeps symbols apart. After any feed whatsoever, errors
    included, the L2 book of a symbol is the book that the symbol's own
    messages build, and there is none if the symbol had no message. *)
Theorem manager_routes loc msgs :
  BookManager.l2 (manager_run msgs BookManager.new).1 !! loc
  = match msgs_at loc msgs with
    | [] => None
    | ms => Some (book_run ms (L2Book.new loc)).1
    end.
Proof. apply manager_run_l2. Qed.

(** C27: the router keeps its two books of a symbol in agreement. On a feed of at
    most 2^64 - 1 messages, none of which is answered by a queue violation, and
    whose part for the symbol does not reuse live references, adds positive [u32]
    share counts and keeps fewer than 2^32 orders resting, the summary of the L3
    book is the L2 book, although the L3 book is not consulted for a message that
    the L2 book refused. *)
Theorem manager_books_agree loc msgs m rs b2 b3 es :
  manager_run msgs BookManager.new = (m, rs) → Forall not_fifo rs →
  feed_ok loc ∅ (msgs_at loc msgs) → Z.of_nat (length msgs) ≤ u64_max →
  BookManager.l2 m !! loc = Some b2 → BookManager.l3 m !! loc = Some b3 →
  es ≡ₚ map_to_list (L3Book.orders b3) →
  L3Book.summary_l2 es b3 = b2.
Proof.
  intros E Hrs Hfeed Hlen E2 E3 Hes.
  destruct (manager_run_hold loc msgs _ m rs ∅ E Hrs (books_hold_new loc) Hfeed Hlen)
    as [H2 H2l H2o H3 H3l H3o].
  unfold BookManager.l2_entry, BookManager.l3_entry in *. rewrite E2, E3 in *. simpl in *.
  destruct (order_run_ok loc ∅ (msgs_at loc msgs)) as [_ Hsz]; [done|done|done|].
  rewrite <-H3o, map_size_fmap in Hsz.
  destruct (summary_l2_spec b3 es (l3_orders _ H3) Hsz Hes) as (Hinv & Hls & Hos).
  apply L2_inv_ext; [done|done|congruence|congruence].
Qed.

Lemma manager_books_agree_witness :
  let m := (manager_run example_l3_feed BookManager.new).1 in
  let b3 := BookManager.l3_entry (StockLocate.from_u16 7) m in
  L3Book.summary_l2 (map_to_list (L3Book.orders b3)) b3
  = BookManager.l2_entry (StockLocate.from_u16 7) m.
Proof.
  intros m b3.
  apply (manager_books_agree (StockLocate.from_u16 7) example_l3_feed m
           [Ok tt; Ok tt; Ok tt; Ok tt; Ok tt]).
  - vm_compute. reflexivity.
  - repeat constructor; intros x y; discriminate.
  - apply (bool_decide_unpack _). vm_compute. exact I.
  - vm_compute. discriminate.
  - vm_compute. reflexivity.
  - vm_compute. reflexivity.
  - reflexivity.
Defined.

(** The name a directory message gives to [loc]. *)
Definition name_in (loc : StockLocate.t) (msg : Message.t) : option Stock.t :=
  match msg with
  | Message.StockDirectory d =>
      if decide (Header.stock_locate (StockDirectory.header d) = loc)
      then Some (StockDirectory.stock d) else None
  | _ => None
  end.

Lemma manager_run_last_seq msgs m :
  is_u64 (BookManager.last_seq m) →
  BookManager.last_seq (manager_run msgs m).1
  = (BookManager.last_seq m + Z.of_nat (length msgs)) mod 2 ^ 64.
Proof.
  revert m. induction msgs as [|msg msgs IH]; intros m Hm.
  { simpl. rewrite Z.add_0_r. symmetry. by apply Z.mod_small. }
  simpl manager_run. destruct (BookManager.apply msg m) as [m1 r] eqn:E.
  pose proof (apply_last_seq _ _ _ _ E) as Hs. unfold u64_add in Hs.
  assert (is_u64 (BookManager.last_seq m1)) as Hm1 by (rewrite Hs; by apply Z.mod_pos_bound).
  specialize (IH m1 Hm1). destruct (manager_run msgs m1) as [m2 rs]. simpl in IH |- *.
  rewrite IH, Hs, Zplus_mod_idemp_l. f_equal. lia.
Qed.

Lemma manager_run_symbol loc msgs m :
  BookManager.symbol loc (manager_run msgs m).1
  = match last (omap (name_in loc) msgs) with
    | Some s => Some s
    | None => BookManager.symbol loc m
    end.
Proof.
  revert m. induction msgs as [|msg msgs IH]; intros m; [done|].
  simpl manager_run. destruct (BookManager.apply msg m) as [m1 r] eqn:E.
  pose proof (apply_directory _ _ _ _ E loc) as Hd. specialize (IH m1).
  destruct (manager_run msgs m1) as [m2 rs]. cbn [fst] in IH |- *. rewrite IH.
  assert (BookManager.symbol loc m1 = match name_in loc msg with
    | Some s => Some s | None => BookManager.symbol loc m end) as ->.
  { unfold BookManager.symbol. rewrite Hd. unfold name_in, locate_of.
    destruct msg; try done. simpl. repeat case_decide; done. }
  cbn [omap list_omap]. destruct (name_in loc msg); [|done]. rewrite last_cons.
  by destruct (last _).
Qed.

(** The counter and the directory. Every applied message is counted, also
    one that failed, and a symbol's name is the one of its latest directory
    message. *)
Theorem manager_observes loc msgs :
  let m := (manager_run msgs BookManager.new).1 in
  BookManager.last_seq m = Z.of_nat (length msgs) mod 2 ^ 64
  ∧ BookManager.symbol loc m = last (omap (name_in loc) msgs).
Proof.
  split; [by apply manager_run_last_seq|]. rewrite manager_run_symbol. by destruct (last _).
Qed.

(** The manager itself never reports a decoding error. *)
Lemma apply_not_protocol msg m m' e : BookManager.apply msg m ≠ (m', Err (Protocol e)).
Proof.
  intros E. unfold BookManager.apply in E.
  destruct (L2Book.apply _ _) as [b2 [|e2]] eqn:E2.
  - destruct (L3Book.apply _ _) as [b3 r3] eqn:E3. simplify_eq.
    unfold L3Book.apply, L3Book.execute, L3Book.cancel, L3Book.replace in E3.
    repeat case_match; simplify_eq.
  - simplify_eq. unfold L2Book.apply, L2Book.execute, L2Book.replace in E2.
    repeat case_match; simplify_eq.
Qed.

(** The stream runner applies the messages of the stream in order up to the
    first failure and no further. It returns [Ok] only at the end of the stream
    with every message applied, a decoding error only for an undecodable item
    after all the messages before it were applied, and any other error for the
    last message it applied. *)
Theorem run_stops_at_first_error stream m m' res :
  BookManager.run stream m = (m', res) →
  ∃ msgs rest,
    stream = map Ok msgs ++ rest
    ∧ (manager_run msgs m).1 = m'
    ∧ match res with
      | Ok _ => rest = [] ∧ Forall (λ r, r = Ok tt) (manager_run msgs m).2
      | Err (Protocol e) =>
          (∃ rest', rest = Err e :: rest') ∧ Forall (λ r, r = Ok tt) (manager_run msgs m).2
      | Err e => ∃ rs, (manager_run msgs m).2 = rs ++ [Err e] ∧ Forall (λ r, r = Ok tt) rs
      end.
Proof.
  revert m. induction stream as [|[msg|e] stream IH]; intros m E; simpl in E.
  - simplify_eq. by exists [], [].
  - destruct (BookManager.apply msg m) as [m1 [[]|e]] eqn:E1.
    + destruct (IH _ E) as (msgs & rest & -> & Hm & Hres). exists (msg :: msgs), rest.
      simpl. rewrite E1. destruct (manager_run msgs m1) as [m2 rs]. simpl in *.
      split_and!; [done|done|]. destruct res as [[]|[]];
        first [ by destruct Hres; split; [|constructor]
              | destruct Hres as (rs' & -> & Hrs); by exists (Ok tt :: rs'); split; [|constructor] ].
    + simplify_eq. exists [msg], stream. simpl. rewrite E1. simpl. split_and!; [done|done|].
      destruct e; first [by exists [] | by destruct (apply_not_protocol _ _ _ _ E1)].
  - simplify_eq. exists [], (Err e :: stream). simpl. split_and!; [done|done|eauto|done].
Qed.

Lemma run_stops_at_first_error_witness :
  ∃ msgs rest,
    [Ok (example_add 1 Side.Buy 100 5000); Err (Truncated 35 3); Ok (example_add 2 Side.Buy 1 1)]
    = map Ok msgs ++ rest
    ∧ (manager_run msgs BookManager.new).1
      = (BookManager.apply (example_add 1 Side.Buy 100 5000) BookManager.new).1.
Proof.
  destruct (run_stops_at_first_error
    [Ok (example_add 1 Side.Buy 100 5000); Err (Truncated 35 3); Ok (example_add 2 Side.Buy 1 1)]
    BookManager.new (BookManager.apply (example_add 1 Side.Buy 100 5000) BookManager.new).1
    (Err (Protocol (Truncated 35 3)))) as (msgs & rest & H1 & H2 & _).
  - vm_compute. reflexivity.
  - exists msgs, rest. split; [exact H1|exact H2].
Defined.
