(* ===== verification/Conformance.v ===== *)
(** The conformance suite of [crates/itch-conformance/src/vectors.rs] and
    [enum_vectors.rs], and the reference session of
    [crates/itch-source/src/synthetic.rs].

    The vectors are byte strings written out by hand next to the messages they
    stand for: an account of the wire format that is independent of the codec.
    The theorems show that the codec agrees with it on every vector, in both
    directions and with anything behind the message, and that the enum
    tables list exactly the bytes that the decoders accept. *)

From S2P Require Import Prelude Primitives Enums Messages Codec CodecMessages MessageCodec.
From S2P Require Import BookSpec L2Book L3Book BookManager.

Module Vectors.
Record ConformanceVector := mk {
  name : string;
  bytes : list Z;
  message : Message.t;
}.

Definition stock_header : Header.t :=
  {| Header.stock_locate := StockLocate.from_u16 1;
     Header.tracking_number := TrackingNumber.from_u16 2;
     Header.timestamp := Timestamp.from_u64 305419896 |}.
Definition session_header : Header.t :=
  {| Header.stock_locate := StockLocate.from_u16 0;
     Header.tracking_number := TrackingNumber.from_u16 2;
     Header.timestamp := Timestamp.from_u64 305419896 |}.

Definition SYSTEM_EVENT_BYTES : list Z :=
  [b@"S"; 0x00; 0x00; 0x00; 0x02; 0x00; 0x00; 0x12; 0x34; 0x56; 0x78; b@"O"].
Definition STOCK_DIRECTORY_BYTES : list Z :=
  [b@"R"; 0x00; 0x01; 0x00; 0x02; 0x00; 0x00; 0x12; 0x34; 0x56; 0x78; b@"A"; b@"A"; b@"P";
   b@"L"; b@" "; b@" "; b@" "; b@" "; b@"Q"; b@"N"; 0x00; 0x00; 0x00; 0x64; b@"N"; b@"C"; b@" ";
   b@" "; b@"P"; b@"N"; b@"N"; b@"1"; b@"N"; 0x00; 0x00; 0x00; 0x00; b@"N"].
Definition STOCK_TRADING_ACTION_BYTES : list Z :=
  [b@"H"; 0x00; 0x01; 0x00; 0x02; 0x00; 0x00; 0x12; 0x34; 0x56; 0x78; b@"A"; b@"A"; b@"P";
   b@"L"; b@" "; b@" "; b@" "; b@" "; b@"T"; b@" "; b@"N"; b@"O"; b@"R"; b@"M"].
Definition REG_SHO_RESTRICTION_BYTES : list Z :=
  [b@"Y"; 0x00; 0x01; 0x00; 0x02; 0x00; 0x00; 0x12; 0x34; 0x56; 0x78; b@"T"; b@"S"; b@"L";
   b@"A"; b@" "; b@" "; b@" "; b@" "; b@"2"].
Definition MARKET_PARTICIPANT_POSITION_BYTES : list Z :=
  [b@"L"; 0x00; 0x01; 0x00; 0x02; 0x00; 0x00; 0x12; 0x34; 0x56; 0x78; b@"N"; b@"S"; b@"D";
   b@"Q"; b@"A"; b@"A"; b@"P"; b@"L"; b@" "; b@" "; b@" "; b@" "; b@"Y"; b@"N"; b@"A"].
Definition MWCB_DECLINE_LEVEL_BYTES : list Z :=
  [b@"V"; 0x00; 0x00; 0x00; 0x02; 0x00; 0x00; 0x12; 0x34; 0x56; 0x78; 0x00; 0x00; 0x00; 0x17;
   0x48; 0x76; 0xE8; 0x00; 0x00; 0x00; 0x00; 0x2E; 0x90; 0xED; 0xD0; 0x00; 0x00; 0x00; 0x00;
   0x45; 0xD9; 0x64; 0xB8; 0x00].
Definition MWCB_STATUS_BYTES : list Z :=
  [b@"W"; 0x00; 0x00; 0x00; 0x02; 0x00; 0x00; 0x12; 0x34; 0x56; 0x78; b@"2"].
Definition IPO_QUOTING_PERIOD_UPDATE_BYTES : list Z :=
  [b@"K"; 0x00; 0x00; 0x00; 0x02; 0x00; 0x00; 0x12; 0x34; 0x56; 0x78; b@"N"; b@"E"; b@"W";
   b@"C"; b@"O"; b@" "; b@" "; b@" "; 0x00; 0x00; 0x85; 0x98; b@"A"; 0x00; 0x16; 0xE3; 0x60].
Definition ADD_ORDER_BYTES : list Z :=
  [b@"A"; 0x00; 0x01; 0x00; 0x02; 0x00; 0x00; 0x12; 0x34; 0x56; 0x78; 0x00; 0x00; 0x00; 0x00;
   0x00; 0x00; 0x03; 0xE9; b@"B"; 0x00; 0x00; 0x01; 0xF4; b@"A"; b@"A"; b@"P"; b@"L"; b@" ";
   b@" "; b@" "; b@" "; 0x00; 0x1D; 0x5F; 0x88].
Definition ADD_ORDER_WITH_MPID_BYTES : list Z :=
  [b@"F"; 0x00; 0x01; 0x00; 0x02; 0x00; 0x00; 0x12; 0x34; 0x56; 0x78; 0x00; 0x00; 0x00; 0x00;
   0x00; 0x00; 0x03; 0xEA; b@"S"; 0x00; 0x00; 0x01; 0x2C; b@"A"; b@"A"; b@"P"; b@"L"; b@" ";
   b@" "; b@" "; b@" "; 0x00; 0x1D; 0x63; 0x70; b@"N"; b@"S"; b@"D"; b@"Q"].
Definition ORDER_EXECUTED_BYTES : list Z :=
  [b@"E"; 0x00; 0x01; 0x00; 0x02; 0x00; 0x00; 0x12; 0x34; 0x56; 0x78; 0x00; 0x00; 0x00; 0x00;
   0x00; 0x00; 0x03; 0xE9; 0x00; 0x00; 0x00; 0x64; 0x00; 0x00; 0x00; 0x00; 0x00; 0x00; 0x00;
   0x2A].
Definition ORDER_EXECUTED_WITH_PRICE_BYTES : list Z :=
  [b@"C"; 0x00; 0x01; 0x00; 0x02; 0x00; 0x00; 0x12; 0x34; 0x56; 0x78; 0x00; 0x00; 0x00; 0x00;
   0x00; 0x00; 0x03; 0xE9; 0x00; 0x00; 0x00; 0x32; 0x00; 0x00; 0x00; 0x00; 0x00; 0x00; 0x00;
   0x2B; b@"Y"; 0x00; 0x1D; 0x5D; 0x94].
Definition ORDER_CANCEL_BYTES : list Z :=
  [b@"X"; 0x00; 0x01; 0x00; 0x02; 0x00; 0x00; 0x12; 0x34; 0x56; 0x78; 0x00; 0x00; 0x00; 0x00;
   0x00; 0x00; 0x03; 0xE9; 0x00; 0x00; 0x00; 0x4B].
Definition ORDER_DELETE_BYTES : list Z :=
  [b@"D"; 0x00; 0x01; 0x00; 0x02; 0x00; 0x00; 0x12; 0x34; 0x56; 0x78; 0x00; 0x00; 0x00; 0x00;
   0x00; 0x00; 0x03; 0xE9].
Definition ORDER_REPLACE_BYTES : list Z :=
  [b@"U"; 0x00; 0x01; 0x00; 0x02; 0x00; 0x00; 0x12; 0x34; 0x56; 0x78; 0x00; 0x00; 0x00; 0x00;
   0x00; 0x00; 0x03; 0xE9; 0x00; 0x00; 0x00; 0x00; 0x00; 0x00; 0x07; 0xD1; 0x00; 0x00; 0x01;
   0xA9; 0x00; 0x1D; 0x69; 0x4C].
Definition TRADE_NON_CROSS_POST_2014_BYTES : list Z :=
  [b@"P"; 0x00; 0x01; 0x00; 0x02; 0x00; 0x00; 0x12; 0x34; 0x56; 0x78; 0x00; 0x00; 0x00; 0x00;
   0x00; 0x00; 0x00; 0x00; b@"B"; 0x00; 0x00; 0x00; 0xC8; b@"A"; b@"A"; b@"P"; b@"L"; b@" ";
   b@" "; b@" "; b@" "; 0x00; 0x1D; 0x61; 0x7C; 0x00; 0x00; 0x00; 0x00; 0x00; 0x00; 0x1E; 0x61].
Definition TRADE_NON_CROSS_PRE_2014_BYTES : list Z :=
  [b@"P"; 0x00; 0x01; 0x00; 0x02; 0x00; 0x00; 0x12; 0x34; 0x56; 0x78; 0x00; 0x00; 0x00; 0x00;
   0x00; 0x00; 0x04; 0xD2; b@"S"; 0x00; 0x00; 0x00; 0x96; b@"M"; b@"S"; b@"F"; b@"T"; b@" ";
   b@" "; b@" "; b@" "; 0x00; 0x35; 0x67; 0xE0; 0x00; 0x00; 0x00; 0x00; 0x00; 0x00; 0x22; 0xB8].
Definition CROSS_TRADE_BYTES : list Z :=
  [b@"Q"; 0x00; 0x01; 0x00; 0x02; 0x00; 0x00; 0x12; 0x34; 0x56; 0x78; 0x00; 0x00; 0x00; 0x00;
   0x00; 0x0F; 0x42; 0x40; b@"S"; b@"P"; b@"Y"; b@" "; b@" "; b@" "; b@" "; b@" "; 0x00; 0x3D;
   0x09; 0x00; 0x00; 0x00; 0x00; 0x00; 0x00; 0x00; 0x00; 0x63; b@"C"].
Definition BROKEN_TRADE_BYTES : list Z :=
  [b@"B"; 0x00; 0x01; 0x00; 0x02; 0x00; 0x00; 0x12; 0x34; 0x56; 0x78; 0x00; 0x00; 0x00; 0x00;
   0x00; 0x06; 0x79; 0x32].
Definition NOII_BYTES : list Z :=
  [b@"I"; 0x00; 0x01; 0x00; 0x02; 0x00; 0x00; 0x12; 0x34; 0x56; 0x78; 0x00; 0x00; 0x00; 0x00;
   0x00; 0x0F; 0x42; 0x40; 0x00; 0x00; 0x00; 0x00; 0x00; 0x07; 0xA1; 0x20; b@"B"; b@"Q"; b@"Q";
   b@"Q"; b@" "; b@" "; b@" "; b@" "; b@" "; 0x00; 0x38; 0x75; 0x20; 0x00; 0x38; 0x9C; 0x30;
   0x00; 0x38; 0x88; 0xA8; b@"C"; b@"1"].
Definition RPI_BYTES : list Z :=
  [b@"N"; 0x00; 0x01; 0x00; 0x02; 0x00; 0x00; 0x12; 0x34; 0x56; 0x78; b@"A"; b@"A"; b@"P";
   b@"L"; b@" "; b@" "; b@" "; b@" "; b@"A"].

Definition system_event_message : Message.t :=
  Message.SystemEvent
    {| SystemEvent.header := session_header; SystemEvent.event_code := EventCode.StartOfMessages |}.
Definition stock_directory_message : Message.t :=
  Message.StockDirectory
    {| StockDirectory.header := stock_header;
       StockDirectory.stock := Stock.new [b@"A"; b@"A"; b@"P"; b@"L"];
       StockDirectory.market_category := MarketCategory.NasdaqGlobalSelect;
       StockDirectory.financial_status := FinancialStatus.Normal;
       StockDirectory.round_lot_size := Shares.from_u32 100;
       StockDirectory.round_lots_only := YesNo.No; StockDirectory.issue_classification := b@"C";
       StockDirectory.issue_subtype := [b@" "; b@" "];
       StockDirectory.authenticity := Authenticity.Live;
       StockDirectory.short_sale_threshold := YesNo.No; StockDirectory.ipo_flag := YesNo.No;
       StockDirectory.luld_reference_price_tier := LuldTier.Tier1;
       StockDirectory.etp_flag := YesNo.No; StockDirectory.etp_leverage_factor := 0;
       StockDirectory.inverse_indicator := YesNo.No |}.
Definition stock_trading_action_message : Message.t :=
  Message.StockTradingAction
    {| StockTradingAction.header := stock_header;
       StockTradingAction.stock := Stock.new [b@"A"; b@"A"; b@"P"; b@"L"];
       StockTradingAction.trading_state := TradingState.Trading;
       StockTradingAction.reserved := b@" ";
       StockTradingAction.reason := [b@"N"; b@"O"; b@"R"; b@"M"] |}.
Definition reg_sho_restriction_message : Message.t :=
  Message.RegShoRestriction
    {| RegShoRestriction.header := stock_header;
       RegShoRestriction.stock := Stock.new [b@"T"; b@"S"; b@"L"; b@"A"];
       RegShoRestriction.reg_sho_action := RegShoAction.InEffect |}.
Definition market_participant_position_message : Message.t :=
  Message.MarketParticipantPosition
    {| MarketParticipantPosition.header := stock_header;
       MarketParticipantPosition.mpid := Mpid.new [b@"N"; b@"S"; b@"D"; b@"Q"];
       MarketParticipantPosition.stock := Stock.new [b@"A"; b@"A"; b@"P"; b@"L"];
       MarketParticipantPosition.primary_market_maker := YesNo.Yes;
       MarketParticipantPosition.market_maker_mode := MarketMakerMode.Normal;
       MarketParticipantPosition.market_participant_state := MarketParticipantState.Active |}.
Definition mwcb_decline_level_message : Message.t :=
  Message.MwcbDeclineLevel
    {| MwcbDeclineLevel.header := session_header;
       MwcbDeclineLevel.level1 := Price8.from_u64 100000000000;
       MwcbDeclineLevel.level2 := Price8.from_u64 200000000000;
       MwcbDeclineLevel.level3 := Price8.from_u64 300000000000 |}.
Definition mwcb_status_message : Message.t :=
  Message.MwcbStatus
    {| MwcbStatus.header := session_header; MwcbStatus.breached_level := BreachedLevel.Level2 |}.
Definition ipo_quoting_period_update_message : Message.t :=
  Message.IpoQuotingPeriodUpdate
    {| IpoQuotingPeriodUpdate.header := session_header;
       IpoQuotingPeriodUpdate.stock := Stock.new [b@"N"; b@"E"; b@"W"; b@"C"; b@"O"];
       IpoQuotingPeriodUpdate.ipo_quotation_release_time := 34200;
       IpoQuotingPeriodUpdate.ipo_quotation_release_qualifier := IpoReleaseQualifier.Anticipated;
       IpoQuotingPeriodUpdate.ipo_price := Price4.from_u32 1500000 |}.
Definition add_order_message : Message.t :=
  Message.AddOrder
    {| AddOrder.header := stock_header; AddOrder.order_ref := OrderReference.from_u64 1001;
       AddOrder.side := Side.Buy; AddOrder.shares := Shares.from_u32 500;
       AddOrder.stock := Stock.new [b@"A"; b@"A"; b@"P"; b@"L"];
       AddOrder.price := Price4.from_u32 1925000 |}.
Definition add_order_with_mpid_message : Message.t :=
  Message.AddOrderWithMpid
    {| AddOrderWithMpid.header := stock_header;
       AddOrderWithMpid.order_ref := OrderReference.from_u64 1002;
       AddOrderWithMpid.side := Side.Sell; AddOrderWithMpid.shares := Shares.from_u32 300;
       AddOrderWithMpid.stock := Stock.new [b@"A"; b@"A"; b@"P"; b@"L"];
       AddOrderWithMpid.price := Price4.from_u32 1926000;
       AddOrderWithMpid.attribution := Mpid.new [b@"N"; b@"S"; b@"D"; b@"Q"] |}.
Definition order_executed_message : Message.t :=
  Message.OrderExecuted
    {| OrderExecuted.header := stock_header;
       OrderExecuted.order_ref := OrderReference.from_u64 1001;
       OrderExecuted.executed_shares := Shares.from_u32 100;
       OrderExecuted.match_number := MatchNumber.from_u64 42 |}.
Definition order_executed_with_price_message : Message.t :=
  Message.OrderExecutedWithPrice
    {| OrderExecutedWithPrice.header := stock_header;
       OrderExecutedWithPrice.order_ref := OrderReference.from_u64 1001;
       OrderExecutedWithPrice.executed_shares := Shares.from_u32 50;
       OrderExecutedWithPrice.match_number := MatchNumber.from_u64 43;
       OrderExecutedWithPrice.printable := Printable.Printable;
       OrderExecutedWithPrice.execution_price := Price4.from_u32 1924500 |}.
Definition order_cancel_message : Message.t :=
  Message.OrderCancel
    {| OrderCancel.header := stock_header;
       OrderCancel.order_ref := OrderReference.from_u64 1001;
       OrderCancel.cancelled_shares := Shares.from_u32 75 |}.
Definition order_delete_message : Message.t :=
  Message.OrderDelete
    {| OrderDelete.header := stock_header; OrderDelete.order_ref := OrderReference.from_u64 1001 |}.
Definition order_replace_message : Message.t :=
  Message.OrderReplace
    {| OrderReplace.header := stock_header;
       OrderReplace.original_order_ref := OrderReference.from_u64 1001;
       OrderReplace.new_order_ref := OrderReference.from_u64 2001;
       OrderReplace.shares := Shares.from_u32 425; OrderReplace.price := Price4.from_u32 1927500 |}.
Definition trade_non_cross_post_2014_message : Message.t :=
  Message.TradeNonCross
    {| TradeNonCross.header := stock_header;
       TradeNonCross.order_ref := OrderReference.from_u64 0; TradeNonCross.side := Side.Buy;
       TradeNonCross.shares := Shares.from_u32 200;
       TradeNonCross.stock := Stock.new [b@"A"; b@"A"; b@"P"; b@"L"];
       TradeNonCross.price := Price4.from_u32 1925500;
       TradeNonCross.match_number := MatchNumber.from_u64 7777 |}.
Definition trade_non_cross_pre_2014_message : Message.t :=
  Message.TradeNonCross
    {| TradeNonCross.header := stock_header;
       TradeNonCross.order_ref := OrderReference.from_u64 1234; TradeNonCross.side := Side.Sell;
       TradeNonCross.shares := Shares.from_u32 150;
       TradeNonCross.stock := Stock.new [b@"M"; b@"S"; b@"F"; b@"T"];
       TradeNonCross.price := Price4.from_u32 3500000;
       TradeNonCross.match_number := MatchNumber.from_u64 8888 |}.
Definition cross_trade_message : Message.t :=
  Message.CrossTrade
    {| CrossTrade.header := stock_header; CrossTrade.shares := 1000000;
       CrossTrade.stock := Stock.new [b@"S"; b@"P"; b@"Y"];
       CrossTrade.cross_price := Price4.from_u32 4000000;
       CrossTrade.match_number := MatchNumber.from_u64 99;
       CrossTrade.cross_type := CrossType.Closing |}.
Definition broken_trade_message : Message.t :=
  Message.BrokenTrade
    {| BrokenTrade.header := stock_header;
       BrokenTrade.match_number := MatchNumber.from_u64 424242 |}.
Definition noii_message : Message.t :=
  Message.Noii
    {| Noii.header := stock_header; Noii.paired_shares := 1000000;
       Noii.imbalance_shares := 500000; Noii.imbalance_direction := ImbalanceDirection.Buy;
       Noii.stock := Stock.new [b@"Q"; b@"Q"; b@"Q"]; Noii.far_price := Price4.from_u32 3700000;
       Noii.near_price := Price4.from_u32 3710000;
       Noii.current_reference_price := Price4.from_u32 3705000;
       Noii.cross_type := CrossType.Closing; Noii.price_variation := PriceVariation.Pct1To2 |}.
Definition rpi_message : Message.t :=
  Message.RetailPriceImprovement
    {| RetailPriceImprovement.header := stock_header;
       RetailPriceImprovement.stock := Stock.new [b@"A"; b@"A"; b@"P"; b@"L"];
       RetailPriceImprovement.interest_flag := RpiInterestFlag.BothSides |}.

Definition SYSTEM_EVENT : ConformanceVector :=
  mk "system_event_start_of_messages"
    SYSTEM_EVENT_BYTES system_event_message.
Definition STOCK_DIRECTORY : ConformanceVector :=
  mk "stock_directory_aapl"
    STOCK_DIRECTORY_BYTES stock_directory_message.
Definition STOCK_TRADING_ACTION : ConformanceVector :=
  mk "stock_trading_action_aapl_trading"
    STOCK_TRADING_ACTION_BYTES stock_trading_action_message.
Definition REG_SHO_RESTRICTION : ConformanceVector :=
  mk "reg_sho_restriction_in_effect"
    REG_SHO_RESTRICTION_BYTES reg_sho_restriction_message.
Definition MARKET_PARTICIPANT_POSITION : ConformanceVector :=
  mk "market_participant_position_aapl_nsdq_active"
    MARKET_PARTICIPANT_POSITION_BYTES market_participant_position_message.
Definition MWCB_DECLINE_LEVEL : ConformanceVector :=
  mk "mwcb_decline_level"
    MWCB_DECLINE_LEVEL_BYTES mwcb_decline_level_message.
Definition MWCB_STATUS : ConformanceVector :=
  mk "mwcb_status_level2"
    MWCB_STATUS_BYTES mwcb_status_message.
Definition IPO_QUOTING_PERIOD_UPDATE : ConformanceVector :=
  mk "ipo_quoting_period_update"
    IPO_QUOTING_PERIOD_UPDATE_BYTES ipo_quoting_period_update_message.
Definition ADD_ORDER : ConformanceVector :=
  mk "add_order_aapl_buy_500_at_192_50"
    ADD_ORDER_BYTES add_order_message.
Definition ADD_ORDER_WITH_MPID : ConformanceVector :=
  mk "add_order_with_mpid_aapl_sell_300_nsdq"
    ADD_ORDER_WITH_MPID_BYTES add_order_with_mpid_message.
Definition ORDER_EXECUTED : ConformanceVector :=
  mk "order_executed"
    ORDER_EXECUTED_BYTES order_executed_message.
Definition ORDER_EXECUTED_WITH_PRICE : ConformanceVector :=
  mk "order_executed_with_price"
    ORDER_EXECUTED_WITH_PRICE_BYTES order_executed_with_price_message.
Definition ORDER_CANCEL : ConformanceVector :=
  mk "order_cancel"
    ORDER_CANCEL_BYTES order_cancel_message.
Definition ORDER_DELETE : ConformanceVector :=
  mk "order_delete"
    ORDER_DELETE_BYTES order_delete_message.
Definition ORDER_REPLACE : ConformanceVector :=
  mk "order_replace"
    ORDER_REPLACE_BYTES order_replace_message.
Definition TRADE_NON_CROSS_POST_2014 : ConformanceVector :=
  mk "trade_non_cross_post_2014_quirk"
    TRADE_NON_CROSS_POST_2014_BYTES trade_non_cross_post_2014_message.
Definition TRADE_NON_CROSS_PRE_2014 : ConformanceVector :=
  mk "trade_non_cross_pre_2014_shape"
    TRADE_NON_CROSS_PRE_2014_BYTES trade_non_cross_pre_2014_message.
Definition CROSS_TRADE : ConformanceVector :=
  mk "cross_trade_closing"
    CROSS_TRADE_BYTES cross_trade_message.
Definition BROKEN_TRADE : ConformanceVector :=
  mk "broken_trade"
    BROKEN_TRADE_BYTES broken_trade_message.
Definition NOII : ConformanceVector :=
  mk "noii_closing_buy_imbalance"
    NOII_BYTES noii_message.
Definition RETAIL_PRICE_IMPROVEMENT : ConformanceVector :=
  mk "retail_price_improvement_both_sides"
    RPI_BYTES rpi_message.

Definition all : list ConformanceVector :=
  [SYSTEM_EVENT; STOCK_DIRECTORY; STOCK_TRADING_ACTION; REG_SHO_RESTRICTION;
   MARKET_PARTICIPANT_POSITION; MWCB_DECLINE_LEVEL; MWCB_STATUS; IPO_QUOTING_PERIOD_UPDATE;
   ADD_ORDER; ADD_ORDER_WITH_MPID; ORDER_EXECUTED; ORDER_EXECUTED_WITH_PRICE; ORDER_CANCEL;
   ORDER_DELETE; ORDER_REPLACE; TRADE_NON_CROSS_POST_2014; TRADE_NON_CROSS_PRE_2014;
   CROSS_TRADE; BROKEN_TRADE; NOII; RETAIL_PRICE_IMPROVEMENT].
End Vectors.

(** The tables keep the source's names; [None] of [RpiInterestFlag] is
    qualified. *)
Module EnumVectors.
Definition EVENT_CODE_VARIANTS : list (Z * EventCode.t) :=
  [(b@"O", EventCode.StartOfMessages); (b@"S", EventCode.StartOfSystemHours);
   (b@"Q", EventCode.StartOfMarketHours); (b@"M", EventCode.EndOfMarketHours);
   (b@"E", EventCode.EndOfSystemHours); (b@"C", EventCode.EndOfMessages)].
Definition EVENT_CODE_UNKNOWN : list Z := [0x00; b@" "; b@"Z"; 0xFF].
Definition SIDE_VARIANTS : list (Z * Side.t) :=
  [(b@"B", Side.Buy); (b@"S", Side.Sell)].
Definition SIDE_UNKNOWN : list Z := [0x00; b@" "; b@"X"; 0xFF].
Definition MARKET_CATEGORY_VARIANTS : list (Z * MarketCategory.t) :=
  [(b@"Q", MarketCategory.NasdaqGlobalSelect); (b@"G", MarketCategory.NasdaqGlobalMarket);
   (b@"S", MarketCategory.NasdaqCapitalMarket); (b@"A", MarketCategory.NyseMkt);
   (b@"N", MarketCategory.Nyse); (b@"P", MarketCategory.NyseArca);
   (b@"Z", MarketCategory.BatsZ); (b@"V", MarketCategory.Iex);
   (b@" ", MarketCategory.Unavailable)].
Definition MARKET_CATEGORY_UNKNOWN : list Z := [0x00; b@"X"; b@"!"; 0xFF].
Definition FINANCIAL_STATUS_VARIANTS : list (Z * FinancialStatus.t) :=
  [(b@"D", FinancialStatus.Deficient); (b@"E", FinancialStatus.Delinquent);
   (b@"Q", FinancialStatus.Bankrupt); (b@"S", FinancialStatus.Suspended);
   (b@"G", FinancialStatus.DeficientAndBankrupt);
   (b@"H", FinancialStatus.DeficientAndDelinquent);
   (b@"J", FinancialStatus.DelinquentAndBankrupt);
   (b@"K", FinancialStatus.DeficientDelinquentBankrupt);
   (b@"C", FinancialStatus.CreationsRedemptionsSuspended); (b@"N", FinancialStatus.Normal);
   (b@" ", FinancialStatus.Unavailable)].
Definition FINANCIAL_STATUS_UNKNOWN : list Z := [0x00; b@"X"; b@"?"; 0xFF].
Definition AUTHENTICITY_VARIANTS : list (Z * Authenticity.t) :=
  [(b@"P", Authenticity.Live); (b@"T", Authenticity.Test)].
Definition AUTHENTICITY_UNKNOWN : list Z := [0x00; b@" "; b@"X"; 0xFF].
Definition YES_NO_VARIANTS : list (Z * YesNo.t) :=
  [(b@"Y", YesNo.Yes); (b@"N", YesNo.No); (b@" ", YesNo.Unavailable)].
Definition YES_NO_UNKNOWN : list Z := [0x00; b@"X"; b@"?"; 0xFF].
Definition LULD_TIER_VARIANTS : list (Z * LuldTier.t) :=
  [(b@"1", LuldTier.Tier1); (b@"2", LuldTier.Tier2); (b@" ", LuldTier.Unavailable)].
Definition LULD_TIER_UNKNOWN : list Z := [0x00; b@"9"; b@"X"; 0xFF].
Definition TRADING_STATE_VARIANTS : list (Z * TradingState.t) :=
  [(b@"H", TradingState.Halted); (b@"P", TradingState.Paused);
   (b@"Q", TradingState.QuotationOnly); (b@"T", TradingState.Trading)].
Definition TRADING_STATE_UNKNOWN : list Z := [0x00; b@" "; b@"X"; 0xFF].
Definition REG_SHO_ACTION_VARIANTS : list (Z * RegShoAction.t) :=
  [(b@"0", RegShoAction.NoPriceTest); (b@"1", RegShoAction.InEffectIntradayDrop);
   (b@"2", RegShoAction.InEffect)].
Definition REG_SHO_ACTION_UNKNOWN : list Z := [0x00; b@" "; b@"9"; 0xFF].
Definition MARKET_MAKER_MODE_VARIANTS : list (Z * MarketMakerMode.t) :=
  [(b@"N", MarketMakerMode.Normal); (b@"P", MarketMakerMode.Passive);
   (b@"S", MarketMakerMode.Syndicate); (b@"R", MarketMakerMode.PreSyndicate);
   (b@"L", MarketMakerMode.Penalty)].
Definition MARKET_MAKER_MODE_UNKNOWN : list Z := [0x00; b@" "; b@"X"; 0xFF].
Definition MARKET_PARTICIPANT_STATE_VARIANTS : list (Z * MarketParticipantState.t) :=
  [(b@"A", MarketParticipantState.Active); (b@"E", MarketParticipantState.ExcusedOrWithdrawn);
   (b@"W", MarketParticipantState.Withdrawn); (b@"S", MarketParticipantState.Suspended);
   (b@"D", MarketParticipantState.Deleted)].
Definition MARKET_PARTICIPANT_STATE_UNKNOWN : list Z := [0x00; b@" "; b@"X"; 0xFF].
Definition BREACHED_LEVEL_VARIANTS : list (Z * BreachedLevel.t) :=
  [(b@"1", BreachedLevel.Level1); (b@"2", BreachedLevel.Level2); (b@"3", BreachedLevel.Level3)].
Definition BREACHED_LEVEL_UNKNOWN : list Z := [0x00; b@" "; b@"9"; 0xFF].
Definition IPO_RELEASE_QUALIFIER_VARIANTS : list (Z * IpoReleaseQualifier.t) :=
  [(b@"A", IpoReleaseQualifier.Anticipated); (b@"C", IpoReleaseQualifier.Cancelled)].
Definition IPO_RELEASE_QUALIFIER_UNKNOWN : list Z := [0x00; b@" "; b@"X"; 0xFF].
Definition PRINTABLE_VARIANTS : list (Z * Printable.t) :=
  [(b@"N", Printable.NonPrintable); (b@"Y", Printable.Printable)].
Definition PRINTABLE_UNKNOWN : list Z := [0x00; b@" "; b@"X"; 0xFF].
Definition CROSS_TYPE_VARIANTS : list (Z * CrossType.t) :=
  [(b@"O", CrossType.Opening); (b@"C", CrossType.Closing); (b@"H", CrossType.Halted);
   (b@"I", CrossType.Intraday)].
Definition CROSS_TYPE_UNKNOWN : list Z := [0x00; b@" "; b@"X"; 0xFF].
Definition IMBALANCE_DIRECTION_VARIANTS : list (Z * ImbalanceDirection.t) :=
  [(b@"B", ImbalanceDirection.Buy); (b@"S", ImbalanceDirection.Sell);
   (b@"N", ImbalanceDirection.NoImbalance); (b@"O", ImbalanceDirection.InsufficientToCalc)].
Definition IMBALANCE_DIRECTION_UNKNOWN : list Z := [0x00; b@" "; b@"X"; 0xFF].
Definition PRICE_VARIATION_VARIANTS : list (Z * PriceVariation.t) :=
  [(b@"L", PriceVariation.LessThan1Percent); (b@"1", PriceVariation.Pct1To2);
   (b@"2", PriceVariation.Pct2To3); (b@"3", PriceVariation.Pct3To4);
   (b@"4", PriceVariation.Pct4To5); (b@"5", PriceVariation.Pct5To6);
   (b@"6", PriceVariation.Pct6To7); (b@"7", PriceVariation.Pct7To8);
   (b@"8", PriceVariation.Pct8To9); (b@"9", PriceVariation.Pct9To10);
   (b@"A", PriceVariation.Pct10To20); (b@"B", PriceVariation.Pct20To30);
   (b@"C", PriceVariation.Pct30OrGreater); (b@" ", PriceVariation.CannotBeCalculated)].
Definition PRICE_VARIATION_UNKNOWN : list Z := [0x00; b@"X"; b@"?"; 0xFF].
Definition RPI_INTEREST_FLAG_VARIANTS : list (Z * RpiInterestFlag.t) :=
  [(b@"B", RpiInterestFlag.BuySide); (b@"S", RpiInterestFlag.SellSide);
   (b@"A", RpiInterestFlag.BothSides); (b@"N", RpiInterestFlag.None)].
Definition RPI_INTEREST_FLAG_UNKNOWN : list Z := [0x00; b@" "; b@"X"; 0xFF].
End EnumVectors.

Definition canonical_session : list Message.t :=
  let h ns locate := {| Header.stock_locate := StockLocate.from_u16 locate;
                        Header.tracking_number := TrackingNumber.from_u16 0;
                        Header.timestamp := Timestamp.from_u64 ns |} in
  let session := h 32400000000000 0 in
  let aapl := h 32400005000000 1 in
  [Message.SystemEvent
     {| SystemEvent.header := session; SystemEvent.event_code := EventCode.StartOfMessages |};
   Message.SystemEvent
     {| SystemEvent.header := h 32400001000000 0;
        SystemEvent.event_code := EventCode.StartOfSystemHours |};
   Message.StockDirectory
     {| StockDirectory.header := h 32400002000000 1;
        StockDirectory.stock := Stock.new [b@"A"; b@"A"; b@"P"; b@"L"];
        StockDirectory.market_category := MarketCategory.NasdaqGlobalSelect;
        StockDirectory.financial_status := FinancialStatus.Normal;
        StockDirectory.round_lot_size := Shares.from_u32 100;
        StockDirectory.round_lots_only := YesNo.No;
        StockDirectory.issue_classification := b@"C";
        StockDirectory.issue_subtype := [b@" "; b@" "];
        StockDirectory.authenticity := Authenticity.Live;
        StockDirectory.short_sale_threshold := YesNo.No; StockDirectory.ipo_flag := YesNo.No;
        StockDirectory.luld_reference_price_tier := LuldTier.Tier1;
        StockDirectory.etp_flag := YesNo.No; StockDirectory.etp_leverage_factor := 0;
        StockDirectory.inverse_indicator := YesNo.No |};
   Message.StockDirectory
     {| StockDirectory.header := h 32400002100000 2;
        StockDirectory.stock := Stock.new [b@"M"; b@"S"; b@"F"; b@"T"];
        StockDirectory.market_category := MarketCategory.NasdaqGlobalSelect;
        StockDirectory.financial_status := FinancialStatus.Normal;
        StockDirectory.round_lot_size := Shares.from_u32 100;
        StockDirectory.round_lots_only := YesNo.No;
        StockDirectory.issue_classification := b@"C";
        StockDirectory.issue_subtype := [b@" "; b@" "];
        StockDirectory.authenticity := Authenticity.Live;
        StockDirectory.short_sale_threshold := YesNo.No; StockDirectory.ipo_flag := YesNo.No;
        StockDirectory.luld_reference_price_tier := LuldTier.Tier1;
        StockDirectory.etp_flag := YesNo.No; StockDirectory.etp_leverage_factor := 0;
        StockDirectory.inverse_indicator := YesNo.No |};
   Message.StockDirectory
     {| StockDirectory.header := h 32400002200000 3;
        StockDirectory.stock := Stock.new [b@"S"; b@"P"; b@"Y"];
        StockDirectory.market_category := MarketCategory.NyseArca;
        StockDirectory.financial_status := FinancialStatus.Normal;
        StockDirectory.round_lot_size := Shares.from_u32 100;
        StockDirectory.round_lots_only := YesNo.No;
        StockDirectory.issue_classification := b@"O";
        StockDirectory.issue_subtype := [b@" "; b@" "];
        StockDirectory.authenticity := Authenticity.Live;
        StockDirectory.short_sale_threshold := YesNo.No; StockDirectory.ipo_flag := YesNo.No;
        StockDirectory.luld_reference_price_tier := LuldTier.Tier1;
        StockDirectory.etp_flag := YesNo.Yes; StockDirectory.etp_leverage_factor := 1000;
        StockDirectory.inverse_indicator := YesNo.No |};
   Message.StockTradingAction
     {| StockTradingAction.header := h 32400003000000 1;
        StockTradingAction.stock := Stock.new [b@"A"; b@"A"; b@"P"; b@"L"];
        StockTradingAction.trading_state := TradingState.Trading;
        StockTradingAction.reserved := b@" ";
        StockTradingAction.reason := [b@"N"; b@"O"; b@"R"; b@"M"] |};
   Message.RegShoRestriction
     {| RegShoRestriction.header := h 32400003500000 1;
        RegShoRestriction.stock := Stock.new [b@"A"; b@"A"; b@"P"; b@"L"];
        RegShoRestriction.reg_sho_action := RegShoAction.NoPriceTest |};
   Message.MarketParticipantPosition
     {| MarketParticipantPosition.header := h 32400003700000 1;
        MarketParticipantPosition.mpid := Mpid.new [b@"N"; b@"S"; b@"D"; b@"Q"];
        MarketParticipantPosition.stock := Stock.new [b@"A"; b@"A"; b@"P"; b@"L"];
        MarketParticipantPosition.primary_market_maker := YesNo.Yes;
        MarketParticipantPosition.market_maker_mode := MarketMakerMode.Normal;
        MarketParticipantPosition.market_participant_state := MarketParticipantState.Active |};
   Message.MwcbDeclineLevel
     {| MwcbDeclineLevel.header := h 32400003800000 0;
        MwcbDeclineLevel.level1 := Price8.from_u64 100000000000;
        MwcbDeclineLevel.level2 := Price8.from_u64 200000000000;
        MwcbDeclineLevel.level3 := Price8.from_u64 300000000000 |};
   Message.MwcbStatus
     {| MwcbStatus.header := h 32400003900000 0;
        MwcbStatus.breached_level := BreachedLevel.Level1 |};
   Message.IpoQuotingPeriodUpdate
     {| IpoQuotingPeriodUpdate.header := h 32400003950000 0;
        IpoQuotingPeriodUpdate.stock := Stock.new [b@"N"; b@"E"; b@"W"; b@"C"; b@"O"];
        IpoQuotingPeriodUpdate.ipo_quotation_release_time := 34200;
        IpoQuotingPeriodUpdate.ipo_quotation_release_qualifier := IpoReleaseQualifier.Anticipated;
        IpoQuotingPeriodUpdate.ipo_price := Price4.from_u32 1500000 |};
   Message.SystemEvent
     {| SystemEvent.header := h 32400004000000 0;
        SystemEvent.event_code := EventCode.StartOfMarketHours |};
   Message.AddOrder
     {| AddOrder.header := aapl; AddOrder.order_ref := OrderReference.from_u64 1001;
        AddOrder.side := Side.Buy; AddOrder.shares := Shares.from_u32 500;
        AddOrder.stock := Stock.new [b@"A"; b@"A"; b@"P"; b@"L"];
        AddOrder.price := Price4.from_u32 1925000 |};
   Message.AddOrderWithMpid
     {| AddOrderWithMpid.header := h 32400006000000 1;
        AddOrderWithMpid.order_ref := OrderReference.from_u64 1002;
        AddOrderWithMpid.side := Side.Sell; AddOrderWithMpid.shares := Shares.from_u32 300;
        AddOrderWithMpid.stock := Stock.new [b@"A"; b@"A"; b@"P"; b@"L"];
        AddOrderWithMpid.price := Price4.from_u32 1926000;
        AddOrderWithMpid.attribution := Mpid.new [b@"N"; b@"S"; b@"D"; b@"Q"] |};
   Message.OrderExecuted
     {| OrderExecuted.header := h 32400007000000 1;
        OrderExecuted.order_ref := OrderReference.from_u64 1001;
        OrderExecuted.executed_shares := Shares.from_u32 100;
        OrderExecuted.match_number := MatchNumber.from_u64 42 |};
   Message.OrderExecutedWithPrice
     {| OrderExecutedWithPrice.header := h 32400008000000 1;
        OrderExecutedWithPrice.order_ref := OrderReference.from_u64 1001;
        OrderExecutedWithPrice.executed_shares := Shares.from_u32 50;
        OrderExecutedWithPrice.match_number := MatchNumber.from_u64 43;
        OrderExecutedWithPrice.printable := Printable.Printable;
        OrderExecutedWithPrice.execution_price := Price4.from_u32 1924500 |};
   Message.OrderCancel
     {| OrderCancel.header := h 32400009000000 1;
        OrderCancel.order_ref := OrderReference.from_u64 1001;
        OrderCancel.cancelled_shares := Shares.from_u32 50 |};
   Message.OrderReplace
     {| OrderReplace.header := h 32400009500000 1;
        OrderReplace.original_order_ref := OrderReference.from_u64 1002;
        OrderReplace.new_order_ref := OrderReference.from_u64 2002;
        OrderReplace.shares := Shares.from_u32 250;
        OrderReplace.price := Price4.from_u32 1927500 |};
   Message.OrderDelete
     {| OrderDelete.header := h 32400009700000 1;
        OrderDelete.order_ref := OrderReference.from_u64 2002 |};
   Message.TradeNonCross
     {| TradeNonCross.header := h 32400010000000 2;
        TradeNonCross.order_ref := OrderReference.from_u64 0; TradeNonCross.side := Side.Buy;
        TradeNonCross.shares := Shares.from_u32 100;
        TradeNonCross.stock := Stock.new [b@"M"; b@"S"; b@"F"; b@"T"];
        TradeNonCross.price := Price4.from_u32 3500000;
        TradeNonCross.match_number := MatchNumber.from_u64 7777 |};
   Message.CrossTrade
     {| CrossTrade.header := h 32400010500000 3; CrossTrade.shares := 1000000;
        CrossTrade.stock := Stock.new [b@"S"; b@"P"; b@"Y"];
        CrossTrade.cross_price := Price4.from_u32 4000000;
        CrossTrade.match_number := MatchNumber.from_u64 99;
        CrossTrade.cross_type := CrossType.Closing |};
   Message.BrokenTrade
     {| BrokenTrade.header := h 32400011000000 2;
        BrokenTrade.match_number := MatchNumber.from_u64 424242 |};
   Message.Noii
     {| Noii.header := h 32400012000000 1; Noii.paired_shares := 1000000;
        Noii.imbalance_shares := 500000; Noii.imbalance_direction := ImbalanceDirection.Buy;
        Noii.stock := Stock.new [b@"A"; b@"A"; b@"P"; b@"L"];
        Noii.far_price := Price4.from_u32 1926000; Noii.near_price := Price4.from_u32 1925500;
        Noii.current_reference_price := Price4.from_u32 1925500;
        Noii.cross_type := CrossType.Closing; Noii.price_variation := PriceVariation.Pct1To2 |};
   Message.RetailPriceImprovement
     {| RetailPriceImprovement.header := h 32400013000000 1;
        RetailPriceImprovement.stock := Stock.new [b@"A"; b@"A"; b@"P"; b@"L"];
        RetailPriceImprovement.interest_flag := RpiInterestFlag.BothSides |};
   Message.SystemEvent
     {| SystemEvent.header := h 32400014000000 0;
        SystemEvent.event_code := EventCode.EndOfMarketHours |};
   Message.SystemEvent
     {| SystemEvent.header := h 32400015000000 0;
        SystemEvent.event_code := EventCode.EndOfSystemHours |};
   Message.SystemEvent
     {| SystemEvent.header := h 32400016000000 0;
        SystemEvent.event_code := EventCode.EndOfMessages |}].

Lemma exists_tag {A} (f : A → Message.t) (l : list A) tag :
  existsb (λ x, Message.tag (f x) =? tag) l = true → ∃ x, x ∈ l ∧ Message.tag (f x) = tag.
Proof.
  intros Ht. apply existsb_exists in Ht as (x & Hin & Heq). exists x.
  split; [by apply list_elem_of_In|by apply Z.eqb_eq].
Qed.

(** ** The vectors *)

Section vectors.
Import Vectors.

(** A vector that is the wire form of its message. *)
Definition vector_ok (v : ConformanceVector) : Prop :=
  wf (message v) ∧ message_wire (message v) = bytes v.

Lemma all_ok : Forall vector_ok all.
Proof.
  assert (∀ v, wf (message v) → message_wire (message v) = bytes v → vector_ok v) as Hok by done.
  unfold all.
  repeat (apply Forall_cons_2;
    [apply Hok; [vm_compute; repeat (split || constructor); done|reflexivity]|]).
  constructor.
Qed.

(** Every proper prefix of a vector is refused as truncated. *)
Definition cut_refused (v : ConformanceVector) (k : nat) : bool :=
  match Message_decode (take k (bytes v)) with Err (Truncated _ _) => true | _ => false end.
Lemma all_cuts_refused : forallb (λ v, forallb (cut_refused v) (seq 0 (length (bytes v)))) all = true.
Proof. vm_compute. reflexivity. Qed.

Lemma cut_refused_spec v k :
  v ∈ all → (k < length (bytes v))%nat →
  ∃ need got, Message_decode (take k (bytes v)) = Err (Truncated need got).
Proof.
  intros Hv Hk. pose proof all_cuts_refused as Hall. rewrite forallb_forall in Hall.
  apply list_elem_of_In, Hall in Hv. rewrite forallb_forall in Hv.
  specialize (Hv k ltac:(apply in_seq; lia)). unfold cut_refused in Hv.
  repeat case_match; try done. by do 2 eexists.
Qed.

(** The codec agrees with the hand-written vectors.  Each vector's bytes,
    whatever follows them, decode to its message; the message encodes to exactly
    those bytes in any buffer that is long enough, whatever it held; cut anywhere,
    the bytes are refused as truncated.  The vectors have different names, and
    there is one for every kind of message. *)
Theorem vectors_conform :
  Forall (λ v,
    (∀ rest, Message_decode (bytes v ++ rest) = Ok (message v))
    ∧ (∀ buf, (length (bytes v) ≤ length buf)%nat →
         Message_encode (message v) buf
         = (bytes v ++ drop (length (bytes v)) buf, Ok (length (bytes v))))
    ∧ (∀ k, (k < length (bytes v))%nat →
         ∃ need got, Message_decode (take k (bytes v)) = Err (Truncated need got))) all
  ∧ NoDup (map name all)
  ∧ ∀ msg, ∃ v, v ∈ all ∧ Message.tag (message v) = Message.tag msg.
Proof.
  split_and!.
  - pose proof all_ok as Hok. rewrite Forall_forall in *. intros v Hv. destruct (Hok v Hv) as [Hwf Hw].
    assert (length (bytes v) = Message.encoded_len (message v)) as Hlen.
    { by rewrite <-Hw, length_message_wire. }
    split_and!.
    + intros rest. rewrite <-Hw. by apply Message_decode_wire.
    + intros buf Hb. rewrite Message_encode_wire by (done || lia). by rewrite Hw, Hlen.
    + intros k Hk. by apply cut_refused_spec.
  - apply (bool_decide_eq_true (NoDup (map name all))). vm_compute. reflexivity.
  - intros msg. apply exists_tag. by destruct msg.
Qed.
End vectors.

(** ** The enum tables *)

Section tables.
Import EnumVectors.

(** The table lists the accepted bytes with their variants, and only these; the
    unknown bytes are refused, with the field and the byte. *)
Definition table_ok {T} `{AlphaCoded T} (variants : list (Z * T)) (unknown : list Z) : Prop :=
  (∀ b (v : T), from_byte b = Ok v ↔ (b, v) ∈ variants)
  ∧ (∀ v : T, (to_byte v, v) ∈ variants)
  ∧ Forall (λ b, from_byte (T := T) b = Err (InvalidEnumCode (FIELD (T := T)) b)) unknown.

Definition swap {A B} (x : A * B) : B * A := (x.2, x.1).

Lemma table_ok_arms {T} `{AlphaLaws T} (variants : list (Z * T)) (unknown : list Z) :
  variants ≡ₚ map swap arms → forallb (λ b, negb (bool_decide (b ∈ map fst variants))) unknown = true →
  table_ok variants unknown.
Proof.
  intros Hp Hu.
  assert (∀ b (v : T), (b, v) ∈ variants ↔ (v, b) ∈ arms) as Hin.
  { intros b v. rewrite Hp. rewrite list_elem_of_fmap. split.
    - intros ([v' b'] & [= -> ->] & Hx). done.
    - intros Hx. by exists (v, b). }
  assert (∀ b (v : T), from_byte b = Ok v ↔ (b, v) ∈ variants) as Hiff.
  { intros b v. rewrite Hin. split; [|apply from_byte_arm].
    intros E. apply from_byte_ok in E as <-. apply arm_of. }
  split_and!; [done|intros v; apply Hin, arm_of|].
  rewrite forallb_forall in Hu. apply Forall_forall. intros b Hb%list_elem_of_In.
  specialize (Hu b Hb). destruct (from_byte b) as [v|e] eqn:E.
  - exfalso. apply Hiff in E. rewrite bool_decide_true in Hu; [done|].
    apply list_elem_of_fmap. by exists (b, v).
  - by rewrite (from_byte_err _ _ E).
Qed.

(** For each of the eighteen enums, the published table is the whole of what
    the decoder accepts and the encoder writes: a byte decodes to a variant if
    and only if the table pairs them, every variant is in it under the byte it
    encodes to, and the published unknown bytes are refused with the field's
    name and the byte. *)
Theorem enum_vectors_conform :
  table_ok EVENT_CODE_VARIANTS EVENT_CODE_UNKNOWN
  ∧ table_ok SIDE_VARIANTS SIDE_UNKNOWN
  ∧ table_ok MARKET_CATEGORY_VARIANTS MARKET_CATEGORY_UNKNOWN
  ∧ table_ok FINANCIAL_STATUS_VARIANTS FINANCIAL_STATUS_UNKNOWN
  ∧ table_ok AUTHENTICITY_VARIANTS AUTHENTICITY_UNKNOWN
  ∧ table_ok YES_NO_VARIANTS YES_NO_UNKNOWN
  ∧ table_ok LULD_TIER_VARIANTS LULD_TIER_UNKNOWN
  ∧ table_ok TRADING_STATE_VARIANTS TRADING_STATE_UNKNOWN
  ∧ table_ok REG_SHO_ACTION_VARIANTS REG_SHO_ACTION_UNKNOWN
  ∧ table_ok MARKET_MAKER_MODE_VARIANTS MARKET_MAKER_MODE_UNKNOWN
  ∧ table_ok MARKET_PARTICIPANT_STATE_VARIANTS MARKET_PARTICIPANT_STATE_UNKNOWN
  ∧ table_ok BREACHED_LEVEL_VARIANTS BREACHED_LEVEL_UNKNOWN
  ∧ table_ok IPO_RELEASE_QUALIFIER_VARIANTS IPO_RELEASE_QUALIFIER_UNKNOWN
  ∧ table_ok PRINTABLE_VARIANTS PRINTABLE_UNKNOWN
  ∧ table_ok CROSS_TYPE_VARIANTS CROSS_TYPE_UNKNOWN
  ∧ table_ok IMBALANCE_DIRECTION_VARIANTS IMBALANCE_DIRECTION_UNKNOWN
  ∧ table_ok PRICE_VARIATION_VARIANTS PRICE_VARIATION_UNKNOWN
  ∧ table_ok RPI_INTEREST_FLAG_VARIANTS RPI_INTEREST_FLAG_UNKNOWN.
Proof.
  split_and!; (apply table_ok_arms;
    [apply (bool_decide_eq_true (_ ≡ₚ _)); vm_compute; reflexivity|vm_compute; reflexivity]).
Qed.
End tables.

(** ** The reference session *)

Definition a_locate : StockLocate.t := StockLocate.from_u16 1.

(** The stock that an order, a trade or a report names. *)
Definition stock_named (msg : Message.t) : option Stock.t :=
  match msg with
  | Message.AddOrder m => Some (AddOrder.stock m)
  | Message.AddOrderWithMpid m => Some (AddOrderWithMpid.stock m)
  | Message.TradeNonCross m => Some (TradeNonCross.stock m)
  | Message.CrossTrade m => Some (CrossTrade.stock m)
  | Message.Noii m => Some (Noii.stock m)
  | Message.RetailPriceImprovement m => Some (RetailPriceImprovement.stock m)
  | _ => None
  end.

Fixpoint times_ordered (ts : list Z) : bool :=
  match ts with
  | t :: (t' :: _) as rest => (t <=? t') && times_ordered rest
  | _ => true
  end.

Lemma canonical_session_wf : Forall wf canonical_session.
Proof.
  unfold canonical_session. cbv zeta beta.
  repeat (apply Forall_cons_2; [vm_compute; repeat (split || constructor); done|]). constructor.
Qed.

(** The reference session is a proper one: its messages are well formed and
    of every kind, time does not run backwards, and what the manager keeps for a
    locate code is the stock that its orders, trades and reports name; the books
    take the session without an error, and its order lifecycle leaves the 300
    shares of order 1001 as the only bid of AAPL, with no ask, in both books. *)
Theorem canonical_session_ok :
  let m := (manager_run canonical_session BookManager.new).1 in
  let b2 := BookManager.l2_entry a_locate m in
  let b3 := BookManager.l3_entry a_locate m in
  Forall wf canonical_session
  ∧ (∀ msg, ∃ msg', msg' ∈ canonical_session ∧ Message.tag msg' = Message.tag msg)
  ∧ times_ordered (map (λ x, Timestamp.as_u64 (Header.timestamp (Message.header x))) canonical_session)
    = true
  ∧ (∀ msg s, msg ∈ canonical_session → stock_named msg = Some s →
       BookManager.symbol (locate_of msg) m = Some s)
  ∧ Forall (λ r, r = Ok tt) (manager_run canonical_session BookManager.new).2
  ∧ L2Book.best_bid b2 = Some (Price4.from_u32 1925000, 300) ∧ L2Book.best_ask b2 = None
  ∧ L3Book.order_count b3 = 1%nat ∧ L3Book.levels_count Side.Sell b3 = 0%nat
  ∧ option_map L3OrderEntry.shares (L3Book.order (OrderReference.from_u64 1001) b3) = Some 300.
Proof.
  cbv zeta. split_and!.
  - exact canonical_session_wf.
  - intros msg. apply (exists_tag id). by destruct msg.
  - vm_compute. reflexivity.
  - set (m := (manager_run canonical_session BookManager.new).1).
    assert (forallb (λ msg, bool_decide (stock_named msg = None
      ∨ BookManager.symbol (locate_of msg) m = stock_named msg)) canonical_session = true) as Hall.
    { vm_compute. reflexivity. }
    rewrite forallb_forall in Hall. intros msg s Hin%list_elem_of_In Hs. specialize (Hall msg Hin).
    apply bool_decide_eq_true in Hall as [?|?]; congruence.
  - apply (bool_decide_eq_true (Forall _ _)). vm_compute. reflexivity.
  - vm_compute. reflexivity.
  - vm_compute. reflexivity.
  - vm_compute. reflexivity.
  - vm_compute. reflexivity.
  - vm_compute. reflexivity.
Qed.
