(* ===== verification/Ohlcv.v ===== *)
(** The per-symbol OHLCV accumulator ([crates/itch-book/src/ohlcv.rs]) against
    the list of a symbol's printable trades. *)

From S2P Require Import Prelude Primitives Enums Messages.

Module OhlcvBar.
Record t := mk {
  stock_locate : StockLocate.t;
  open : Price4.t; high : Price4.t; low : Price4.t; close : Price4.t;
  volume : Z; trade_count : Z }.
#[global] Instance t_eq_dec : EqDecision t. Proof. solve_decision. Defined.
End OhlcvBar.

Module OhlcvAccumulator.
Record t := mk { per_symbol : gmap StockLocate.t OhlcvBar.t }.
Definition new : t := mk ∅.
Definition len (a : t) : nat := size (per_symbol a).
Definition is_empty (a : t) : bool := (len a =? 0)%nat.
(** [per_symbol.values()]; a [HashMap] has no order of its own. *)
Definition bars (a : t) : list OhlcvBar.t := map snd (map_to_list (per_symbol a)).
Definition bar (loc : StockLocate.t) (a : t) : option OhlcvBar.t := per_symbol a !! loc.

(** The closure of [and_modify]. *)
Definition update_bar (price : Price4.t) (shares : Z) (bar : OhlcvBar.t) : OhlcvBar.t :=
  let high := if Price4.as_u32 (OhlcvBar.high bar) <? Price4.as_u32 price
              then price else OhlcvBar.high bar in
  let low := if Price4.as_u32 price <? Price4.as_u32 (OhlcvBar.low bar)
             then price else OhlcvBar.low bar in
  OhlcvBar.mk (OhlcvBar.stock_locate bar) (OhlcvBar.open bar) high low price
    (u64_saturating_add (OhlcvBar.volume bar) shares)
    (u64_saturating_add (OhlcvBar.trade_count bar) 1).

Definition apply_trade (locate : StockLocate.t) (price : Price4.t) (shares : Z) (a : t) : t :=
  mk (<[locate :=
        match per_symbol a !! locate with
        | Some bar => update_bar price shares bar
        | None => OhlcvBar.mk locate price price price price shares 1
        end]> (per_symbol a)).

Definition apply (msg : Message.t) (a : t) : t :=
  match msg with
  | Message.TradeNonCross p =>
      apply_trade (Header.stock_locate (TradeNonCross.header p)) (TradeNonCross.price p)
        (Shares.as_u32 (TradeNonCross.shares p)) a
  | Message.CrossTrade q =>
      apply_trade (Header.stock_locate (CrossTrade.header q)) (CrossTrade.cross_price q)
        (CrossTrade.shares q) a
  | Message.OrderExecutedWithPrice c =>
      match OrderExecutedWithPrice.printable c with
      | Printable.Printable =>
          apply_trade (Header.stock_locate (OrderExecutedWithPrice.header c))
            (OrderExecutedWithPrice.execution_price c)
            (Shares.as_u32 (OrderExecutedWithPrice.executed_shares c)) a
      | Printable.NonPrintable => a
      end
  | Message.OrderExecuted _ | Message.SystemEvent _ | Message.StockDirectory _
  | Message.StockTradingAction _ | Message.RegShoRestriction _
  | Message.MarketParticipantPosition _ | Message.MwcbDeclineLevel _ | Message.MwcbStatus _
  | Message.IpoQuotingPeriodUpdate _ | Message.AddOrder _ | Message.AddOrderWithMpid _
  | Message.OrderCancel _ | Message.OrderDelete _ | Message.OrderReplace _
  | Message.BrokenTrade _ | Message.Noii _ | Message.RetailPriceImprovement _ => a
  end.
End OhlcvAccumulator.

(** ** Reference *)

Record print := Print { pr_price : Price4.t; pr_shares : Z }.

(** The printable trade a message carries, with its symbol. *)
Definition print_of (msg : Message.t) : option (StockLocate.t * print) :=
  match msg with
  | Message.TradeNonCross p =>
      Some (Header.stock_locate (TradeNonCross.header p),
            Print (TradeNonCross.price p) (Shares.as_u32 (TradeNonCross.shares p)))
  | Message.CrossTrade q =>
      Some (Header.stock_locate (CrossTrade.header q),
            Print (CrossTrade.cross_price q) (CrossTrade.shares q))
  | Message.OrderExecutedWithPrice c =>
      if decide (OrderExecutedWithPrice.printable c = Printable.Printable)
      then Some (Header.stock_locate (OrderExecutedWithPrice.header c),
                 Print (OrderExecutedWithPrice.execution_price c)
                       (Shares.as_u32 (OrderExecutedWithPrice.executed_shares c)))
      else None
  | _ => None
  end.

Definition prints (loc : StockLocate.t) (msgs : list Message.t) : list print :=
  omap (λ msg, match print_of msg with
               | Some (l, p) => if decide (l = loc) then Some p else None
               | None => None
               end) msgs.

Definition price_z (p : print) : Z := Price4.as_u32 (pr_price p).

Definition total_shares (ps : list print) : Z := foldr (λ p acc, pr_shares p + acc) 0 ps.

(** [bar] summarises the trades [first :: rest]. *)
Record summarises (loc : StockLocate.t) (first : print) (rest : list print)
    (bar : OhlcvBar.t) : Prop := {
  sum_locate : OhlcvBar.stock_locate bar = loc;
  sum_open : OhlcvBar.open bar = pr_price first;
  sum_close : Some (OhlcvBar.close bar) = pr_price <$> last (first :: rest);
  sum_high_in : OhlcvBar.high bar ∈ map pr_price (first :: rest);
  sum_high_max p : p ∈ first :: rest → price_z p ≤ Price4.as_u32 (OhlcvBar.high bar);
  sum_low_in : OhlcvBar.low bar ∈ map pr_price (first :: rest);
  sum_low_min p : p ∈ first :: rest → Price4.as_u32 (OhlcvBar.low bar) ≤ price_z p;
  sum_volume : OhlcvBar.volume bar
    = Z.min (total_shares (first :: rest)) u64_max;
  sum_count : OhlcvBar.trade_count bar = Z.min (Z.of_nat (S (length rest))) u64_max;
}.

Lemma summarises_one loc p :
  is_u64 (pr_shares p) →
  summarises loc p [] (OhlcvBar.mk loc (pr_price p) (pr_price p) (pr_price p) (pr_price p)
                         (pr_shares p) 1).
Proof.
  intros [? ?]. split; simpl; try done.
  - by left.
  - intros q ->%list_elem_of_singleton. done.
  - by left.
  - intros q ->%list_elem_of_singleton. done.
  - unfold u64_max. lia.
Qed.

Lemma total_shares_snoc ps p : total_shares (ps ++ [p]) = total_shares ps + pr_shares p.
Proof. unfold total_shares. induction ps as [|q ps IH]; simpl in *; lia. Qed.

Lemma total_shares_nonneg ps : Forall (λ q, 0 ≤ pr_shares q) ps → 0 ≤ total_shares ps.
Proof. unfold total_shares. induction 1; simpl; lia. Qed.

(** One more trade. *)
Lemma summarises_snoc loc first rest p bar :
  Forall (λ q, 0 ≤ pr_shares q) (first :: rest) → 0 ≤ pr_shares p →
  summarises loc first rest bar →
  summarises loc first (rest ++ [p])
    (OhlcvAccumulator.update_bar (pr_price p) (pr_shares p) bar).
Proof.
  intros Hnn Hp [Hl Ho Hc Hhi Hhm Hli Hlm Hv Hn].
  assert (∀ q, q ∈ first :: rest ++ [p] ↔ q ∈ first :: rest ∨ q = p) as Hin.
  { intros q. by rewrite app_comm_cons, elem_of_app, list_elem_of_singleton. }
  assert (∀ x, x ∈ map pr_price (first :: rest) ∨ x = pr_price p →
    x ∈ map pr_price (first :: rest ++ [p])) as Hmap.
  { intros x Hx. rewrite app_comm_cons, map_app, elem_of_app.
    destruct Hx as [Hx | ->]; [by left|right; apply list_elem_of_here]. }
  split; cbn [OhlcvAccumulator.update_bar OhlcvBar.stock_locate OhlcvBar.open OhlcvBar.close
              OhlcvBar.high OhlcvBar.low OhlcvBar.volume OhlcvBar.trade_count]; try done.
  - by rewrite app_comm_cons, last_snoc.
  - apply Hmap. case_match; auto.
  - intros q [Hq| ->]%Hin; [specialize (Hhm q Hq)|]; unfold price_z in *;
      destruct (Z.ltb_spec (Price4.as_u32 (OhlcvBar.high bar)) (Price4.as_u32 (pr_price p))); lia.
  - apply Hmap. case_match; auto.
  - intros q [Hq| ->]%Hin; [specialize (Hlm q Hq)|]; unfold price_z in *;
      destruct (Z.ltb_spec (Price4.as_u32 (pr_price p)) (Price4.as_u32 (OhlcvBar.low bar))); lia.
  - rewrite Hv, app_comm_cons, total_shares_snoc.
    pose proof (total_shares_nonneg _ Hnn). unfold u64_saturating_add. lia.
  - rewrite Hn, length_app. simpl length. unfold u64_saturating_add. lia.
Qed.

(** The bar of one symbol, along a feed. *)
Definition bar_step (loc : StockLocate.t) (bar : option OhlcvBar.t) (p : print) : option OhlcvBar.t :=
  Some match bar with
       | Some b => OhlcvAccumulator.update_bar (pr_price p) (pr_shares p) b
       | None => OhlcvBar.mk loc (pr_price p) (pr_price p) (pr_price p) (pr_price p) (pr_shares p) 1
       end.

Lemma apply_bar loc msg a :
  OhlcvAccumulator.bar loc (OhlcvAccumulator.apply msg a)
  = match print_of msg with
    | Some (l, p) => if decide (l = loc) then bar_step loc (OhlcvAccumulator.bar loc a) p
                     else OhlcvAccumulator.bar loc a
    | None => OhlcvAccumulator.bar loc a
    end.
Proof.
  assert (∀ l price n, OhlcvAccumulator.bar loc (OhlcvAccumulator.apply_trade l price n a)
    = if decide (l = loc) then bar_step loc (OhlcvAccumulator.bar loc a) (Print price n)
      else OhlcvAccumulator.bar loc a) as Htrade.
  { intros l price n. unfold OhlcvAccumulator.bar, OhlcvAccumulator.apply_trade. simpl.
    case_decide; [subst; by rewrite lookup_insert_eq|by rewrite lookup_insert_ne]. }
  destruct msg; simpl; try done; try apply Htrade.
  destruct (OrderExecutedWithPrice.printable m) eqn:E; case_decide; by try apply Htrade.
Qed.

Lemma run_bar loc msgs a :
  OhlcvAccumulator.bar loc (foldl (λ a msg, OhlcvAccumulator.apply msg a) a msgs)
  = foldl (bar_step loc) (OhlcvAccumulator.bar loc a) (prints loc msgs).
Proof.
  revert a. induction msgs as [|msg msgs IH]; intros a; [done|]. cbn [foldl].
  rewrite IH, apply_bar. unfold prints. cbn [omap list_omap].
  destruct (print_of msg) as [[l p]|]; [|done]. by case_decide.
Qed.

Lemma prints_wf loc msgs : Forall wf msgs → Forall (λ p, is_u64 (pr_shares p)) (prints loc msgs).
Proof.
  intros Hwf. apply Forall_forall. intros p Hp. unfold prints in Hp.
  apply list_elem_of_omap in Hp as (msg & Hin & Hp). rewrite Forall_forall in Hwf.
  specialize (Hwf _ Hin).
  assert (∀ x, is_u32 x → is_u64 x) as Hu by (intros x; by apply (in_width_mono 32)).
  destruct msg; simpl in Hp; try done; repeat (case_decide; [|done]); simplify_eq; simpl;
    unfold wf, Message.t_wf in Hwf; autounfold with wf_unfold in Hwf; destruct_and!; auto.
Qed.

(** ** Properties *)

(** C29: after any feed of well-formed messages a symbol's bar summarises exactly
    its printable trades, in order: it exists when there is one, opens at the
    first price, closes at the last, its high and low are prices traded and
    bound all of them, and volume and count are the totals (capped at the
    largest [u64]). *)
Theorem ohlcv_summarises loc msgs :
  Forall wf msgs →
  let bar := OhlcvAccumulator.bar loc
    (foldl (λ a msg, OhlcvAccumulator.apply msg a) OhlcvAccumulator.new msgs) in
  match prints loc msgs with
  | [] => bar = None
  | first :: rest => ∃ b, bar = Some b ∧ summarises loc first rest b
  end.
Proof.
  intros Hwf bar. subst bar. rewrite run_bar. pose proof (prints_wf loc msgs Hwf) as Hp.
  destruct (prints loc msgs) as [|first rest]; [done|]. apply Forall_cons in Hp as [Hf Hp].
  cbn [foldl]. change (OhlcvAccumulator.bar loc OhlcvAccumulator.new) with (None : option OhlcvBar.t).
  induction rest as [|p rest IH] using rev_ind.
  - eexists. split; [done|]. by apply summarises_one.
  - apply Forall_app in Hp as [Hp [Hlast _]%Forall_cons].
    destruct (IH Hp) as (b & Hb & Hs). rewrite foldl_app. cbn [foldl]. rewrite Hb.
    eexists. split; [done|]. apply summarises_snoc; [|apply Hlast|done].
    constructor; [apply Hf|]. eapply Forall_impl; [exact Hp|]. by intros q [? ?].
Qed.

Definition example_trade (p n : Z) : Message.t :=
  Message.TradeNonCross (TradeNonCross.mk
    (Header.mk (StockLocate.from_u16 7) TrackingNumber.default Timestamp.default)
    OrderReference.default Side.Buy (Shares.from_u32 n) Stock.default (Price4.from_u32 p)
    MatchNumber.default).

Lemma ohlcv_summarises_witness :
  let feed := [example_trade 10 5; example_trade 30 7; example_trade 20 1] in
  ∃ b, OhlcvAccumulator.bar (StockLocate.from_u16 7)
         (foldl (λ a msg, OhlcvAccumulator.apply msg a) OhlcvAccumulator.new feed) = Some b
    ∧ summarises (StockLocate.from_u16 7) (Print (Price4.from_u32 10) 5)
        [Print (Price4.from_u32 30) 7; Print (Price4.from_u32 20) 1] b.
Proof.
  intros feed. apply (ohlcv_summarises (StockLocate.from_u16 7) feed).
  repeat constructor; vm_compute; repeat split; try discriminate; repeat constructor;
    try discriminate.
Defined.
