(* ===== verification/BookTypes.v ===== *)
(** The books hold machine values.

    The model keeps integers as [Z]; the source keeps them at their widths.  The
    instances of [wf] below say that a book holds only values of the source's
    types: [u32] shares and prices, [u64] references, level totals, counters and
    arrival numbers.  Every operation keeps them, on every well-formed message,
    errors and reused references included, so that no arithmetic of the books
    leaves the range of its type unnoticed. *)

From S2P Require Import Prelude Primitives Enums Messages BookSpec L2Book L3Book BookManager Ohlcv.

(** A map whose keys and values are well formed. *)
#[global] Instance gmap_wf `{Countable K, WellFormed K, WellFormed A} : WellFormed (gmap K A) :=
  λ m, map_Forall (λ k x, wf k ∧ wf x) m.
#[global] Instance list_wf `{WellFormed A} : WellFormed (list A) := λ l, Forall wf l.
#[global] Instance option_wf `{WellFormed A} : WellFormed (option A) :=
  λ o, match o with Some x => wf x | None => True end.

Section maps.
Context `{Countable K, WellFormed K, WellFormed A}.
Implicit Types m : gmap K A.

Lemma wf_empty : wf (∅ : gmap K A).
Proof. apply map_Forall_empty. Qed.
Lemma wf_insert m k x : wf m → wf k → wf x → wf (<[k := x]> m).
Proof. intros Hm Hk Hx. by apply map_Forall_insert_2. Qed.
Lemma wf_delete m k : wf m → wf (delete k m).
Proof. intros Hm. by apply map_Forall_delete. Qed.
Lemma wf_lookup m k x : wf m → m !! k = Some x → wf k ∧ wf x.
Proof. intros Hm Hk. by apply (Hm k x). Qed.
End maps.

(** The total of a level is a [u64]. *)
#[local] Instance level_wf : WellFormed Z := in_width 64.

#[global] Instance OrderEntry_wf : WellFormed OrderEntry.t := λ e,
  wf (OrderEntry.price e) ∧ is_u32 (OrderEntry.shares e) ∧ wf (OrderEntry.stock_locate e).
#[global] Instance L3OrderEntry_wf : WellFormed L3OrderEntry.t := λ e,
  wf (L3OrderEntry.price e) ∧ is_u32 (L3OrderEntry.shares e) ∧ wf (L3OrderEntry.stock_locate e)
  ∧ wf (L3OrderEntry.mpid e) ∧ is_u64 (L3OrderEntry.arrival_seq e).

#[global] Instance L2Book_wf : WellFormed L2Book.t := λ b,
  wf (L2Book.stock_locate b) ∧ wf (L2Book.bids b) ∧ wf (L2Book.asks b) ∧ wf (L2Book.orders b).
#[global] Instance L3Book_wf : WellFormed L3Book.t := λ b,
  wf (L3Book.stock_locate b) ∧ wf (L3Book.bids b) ∧ wf (L3Book.asks b) ∧ wf (L3Book.orders b)
  ∧ is_u64 (L3Book.arrival_seq b).
#[global] Instance BookManager_wf : WellFormed BookManager.t := λ m,
  wf (BookManager.directory m) ∧ wf (BookManager.l2 m) ∧ wf (BookManager.l3 m)
  ∧ is_u64 (BookManager.last_seq m).
#[global] Instance OhlcvBar_wf : WellFormed OhlcvBar.t := λ b,
  wf (OhlcvBar.stock_locate b) ∧ wf (OhlcvBar.open b) ∧ wf (OhlcvBar.high b) ∧ wf (OhlcvBar.low b)
  ∧ wf (OhlcvBar.close b) ∧ is_u64 (OhlcvBar.volume b) ∧ is_u64 (OhlcvBar.trade_count b).
#[global] Instance OhlcvAccumulator_wf : WellFormed OhlcvAccumulator.t := λ a,
  wf (OhlcvAccumulator.per_symbol a).

(** ** Arithmetic *)

Create HintDb widths.
#[local] Hint Resolve wf_empty wf_insert wf_delete : widths.

Lemma is_u32_u64 n : is_u32 n → is_u64 n.
Proof. unfold in_width. lia. Qed.
Lemma u64_add_width x y : is_u64 (u64_add x y).
Proof. unfold in_width, u64_add. apply Z.mod_pos_bound. lia. Qed.
Lemma saturating_add_width x y : is_u64 x → is_u64 y → is_u64 (u64_saturating_add x y).
Proof. unfold in_width, u64_saturating_add, u64_max. lia. Qed.
Lemma saturating_sub_width x y : is_u64 x → is_u64 y → is_u64 (u64_saturating_sub x y).
Proof. unfold in_width, u64_saturating_sub. lia. Qed.
#[local] Hint Resolve is_u32_u64 u64_add_width saturating_add_width saturating_sub_width : widths.

(** ** The L2 book *)

Section l2.
Import L2Book.
Implicit Types b : L2Book.t.

Lemma l2_set_orders f b : wf b → (wf (orders b) → wf (f (orders b))) → wf (set_orders f b).
Proof. intros (? & ? & ? & ?) Hf. split_and!; simpl; auto. Qed.
Lemma l2_on_side side f b :
  wf b → (∀ ls, wf ls → wf (f ls)) → wf (on_side side f b).
Proof. intros (? & ? & ? & ?) Hf. destruct side; split_and!; simpl; auto. Qed.

Lemma reduce_level_wf p n ls : wf p → is_u64 n → wf ls → wf (reduce_level p n ls).
Proof.
  intros Hp Hn Hls. unfold reduce_level. destruct (ls !! p) as [l|] eqn:E; [|done].
  destruct (wf_lookup _ _ _ Hls E) as [_ Hl]. cbv zeta.
  assert (wf (<[p := u64_saturating_sub l n]> ls)) by (apply wf_insert; auto; by apply saturating_sub_width).
  destruct (_ =? 0); [by apply wf_delete|done].
Qed.

Lemma l2_add_order_wf r side n p b :
  wf r → is_u32 n → wf p → wf b → wf (add_order r side n p b).
Proof.
  intros Hr Hn Hp Hb. unfold add_order. apply l2_on_side.
  - apply l2_set_orders; [done|]. intros Ho. apply wf_insert; [done|done|].
    split_and!; simpl; [done|done|]. apply Hb.
  - intros ls Hls. apply wf_insert; [done|done|]. apply saturating_add_width; [|by apply is_u32_u64].
    destruct (ls !! p) as [l|] eqn:E; simpl; [|unfold in_width; lia]. by apply (wf_lookup _ _ _ Hls E).
Qed.

Lemma l2_execute_wf r n b : is_u32 n → wf b → wf (execute r n b).1.
Proof.
  intros Hn Hb. unfold execute. destruct (orders b !! r) as [e|] eqn:E; [|done].
  destruct (wf_lookup _ _ _ (proj2 (proj2 (proj2 Hb))) E) as [Hr (Hp & Hs & Hl)].
  destruct (Z.ltb_spec (OrderEntry.shares e) n); [done|]. cbv zeta.
  assert (wf (on_side (OrderEntry.side e) (reduce_level (OrderEntry.price e) n)
    (set_orders <[r := OrderEntry.take_shares n e]> b))) as Hb'.
  { apply l2_on_side; [apply l2_set_orders; [done|]|].
    - intros Ho. apply wf_insert; [done|done|]. split_and!; simpl; [done| |done]. unfold in_width in *. lia.
    - intros ls Hls. apply reduce_level_wf; auto with widths. }
  cbn [fst]. destruct (_ =? 0); [|done]. apply l2_set_orders; [done|]. apply wf_delete.
Qed.

Lemma l2_delete_wf r b : wf b → wf (delete r b).
Proof.
  intros Hb. unfold delete. destruct (orders b !! r) as [e|] eqn:E; [|done].
  destruct (wf_lookup _ _ _ (proj2 (proj2 (proj2 Hb))) E) as [Hr (Hp & Hs & Hl)].
  apply l2_on_side; [apply l2_set_orders; [done|apply wf_delete]|].
  intros ls Hls. apply reduce_level_wf; auto with widths.
Qed.

Lemma l2_replace_wf r r' n p b :
  wf r' → is_u32 n → wf p → wf b → wf (replace r r' n p b).1.
Proof.
  intros Hr Hn Hp Hb. unfold replace. pose proof (l2_delete_wf r b Hb) as Hd. unfold delete in Hd.
  destruct (orders b !! r) as [e|]; [|done]. by apply l2_add_order_wf.
Qed.

Lemma l2_apply_wf msg b : wf msg → wf b → wf (apply msg b).1.
Proof.
  intros Hm Hb. destruct msg as [| | | | | | | |m|m|m|m|m|m|m| | | | |]; try done;
    unfold wf, Message.t_wf in Hm; autounfold with wf_unfold in Hm; destruct_and? Hm; simpl.
  - case_decide; [done|]. by apply l2_add_order_wf.
  - case_decide; [done|]. by apply l2_add_order_wf.
  - by apply l2_execute_wf.
  - by apply l2_execute_wf.
  - by apply l2_execute_wf.
  - by apply l2_delete_wf.
  - by apply l2_replace_wf.
Qed.
End l2.

(** ** The L3 book *)

Section l3.
Import L3Book.
Implicit Types b : L3Book.t.

Lemma l3_orders_wf b : wf b → wf (orders b).
Proof. by intros (? & ? & ? & ? & ?). Qed.
Lemma l3_set_orders f b : wf b → (wf (orders b) → wf (f (orders b))) → wf (set_orders f b).
Proof. intros (? & ? & ? & ? & ?) Hf. split_and!; simpl; auto. Qed.
Lemma l3_on_side side f b : wf b → (∀ qs, wf qs → wf (f qs)) → wf (on_side side f b).
Proof. intros (? & ? & ? & ? & ?) Hf. destruct side; split_and!; simpl; auto. Qed.

Lemma remove_ref_wf r q : wf q → wf (remove_ref r q).
Proof.
  intros Hq. unfold remove_ref. destruct (list_find _ q) as [[i x]|]; [|done].
  by apply Forall_delete.
Qed.

Lemma remove_from_queue_wf side p r b : wf p → wf b → wf (remove_from_queue side p r b).
Proof.
  intros Hp Hb. apply l3_on_side; [done|]. intros qs Hqs. destruct (qs !! p) as [q|] eqn:E; [|done].
  destruct (wf_lookup _ _ _ Hqs E) as [_ Hq]. cbv zeta.
  assert (wf (<[p := remove_ref r q]> qs)) by (apply wf_insert; auto; by apply remove_ref_wf).
  destruct (remove_ref r q); [by apply wf_delete|done].
Qed.

Lemma insert_order_wf r side n p mpid b :
  wf r → is_u32 n → wf p → wf mpid → wf b → wf (insert_order r side n p mpid b).
Proof.
  intros Hr Hn Hp Hm (Hl & Hb & Ha & Ho & Hs). unfold insert_order. cbv zeta. apply l3_on_side.
  - apply l3_set_orders; [split_and!; simpl; auto with widths|]. intros _. simpl.
    apply wf_insert; [done|done|]. split_and!; simpl; auto with widths.
  - intros qs Hqs. apply wf_insert; [done|done|]. apply Forall_app. split; [|by constructor].
    destruct (qs !! p) as [q|] eqn:E; simpl; [|constructor]. by apply (wf_lookup _ _ _ Hqs E).
Qed.

(** The entry after [n] of its shares are taken. *)
Lemma take_shares_wf n e :
  wf e → is_u32 n → n ≤ L3OrderEntry.shares e → wf (L3OrderEntry.take_shares n e).
Proof.
  intros (? & Hs & ? & ? & ?) Hn Hle. split_and!; simpl; try done. unfold in_width in *. lia.
Qed.

Lemma l3_execute_wf r n b : is_u32 n → wf b → wf (execute r n b).1.
Proof.
  intros Hn Hb. unfold execute. destruct (orders b !! r) as [e|] eqn:E; [|done].
  destruct (wf_lookup _ _ _ (l3_orders_wf b Hb) E) as [Hr He].
  destruct (Z.ltb_spec (L3OrderEntry.shares e) n); [done|]. cbv zeta.
  pose proof (take_shares_wf n e He Hn ltac:(lia)) as He'.
  set (e' := L3OrderEntry.take_shares n e) in *. set (b1 := set_orders <[r := e']> b).
  assert (wf b1) as Hb1 by (apply l3_set_orders; [done|]; intros; by apply wf_insert).
  assert (∀ b2, wf b2 → wf (set_orders (base.delete r) b2)) as Hdel.
  { intros b2 Hb2. apply l3_set_orders; [done|]. apply wf_delete. }
  destruct (_ =? 0); [|done].
  destruct (side_queues _ b1 !! L3OrderEntry.price e') as [[|front q]|] eqn:Eq; [by apply Hdel| |by apply Hdel].
  assert (wf (side_queues (L3OrderEntry.side e') b1)) as Hq.
  { destruct Hb1 as (? & ? & ? & ? & ?). by destruct (L3OrderEntry.side e'). }
  destruct (wf_lookup _ _ _ Hq Eq) as [Hp [Hf Hrest]%Forall_cons].
  case_decide; cbn [fst].
  - apply Hdel. assert (wf (on_side (L3OrderEntry.side e') <[L3OrderEntry.price e' := q]> b1)) as Hb2.
    { apply l3_on_side; [done|]. intros qs Hqs. by apply wf_insert. }
    destruct q; [|done]. apply l3_on_side; [done|]. intros qs. apply wf_delete.
  - apply l3_on_side; [done|]. intros qs Hqs. apply wf_insert; [done|done|]. by constructor.
Qed.

Lemma l3_cancel_wf r n b : is_u32 n → wf b → wf (cancel r n b).1.
Proof.
  intros Hn Hb. unfold cancel. destruct (orders b !! r) as [e|] eqn:E; [|done].
  destruct (wf_lookup _ _ _ (l3_orders_wf b Hb) E) as [Hr He].
  destruct (Z.ltb_spec (L3OrderEntry.shares e) n); [done|]. cbv zeta.
  pose proof (take_shares_wf n e He Hn ltac:(lia)) as He'.
  assert (wf (set_orders <[r := L3OrderEntry.take_shares n e]> b)) as Hb1.
  { apply l3_set_orders; [done|]. intros. by apply wf_insert. }
  destruct (_ =? 0); [|done]. apply l3_set_orders; [|apply wf_delete].
  apply remove_from_queue_wf; [apply He'|done].
Qed.

Lemma l3_delete_wf r b : wf b → wf (delete r b).
Proof.
  intros Hb. unfold delete. destruct (orders b !! r) as [e|] eqn:E; [|done].
  destruct (wf_lookup _ _ _ (l3_orders_wf b Hb) E) as [_ He].
  apply remove_from_queue_wf; [apply He|]. apply l3_set_orders; [done|apply wf_delete].
Qed.

Lemma l3_replace_wf r r' n p b :
  wf r' → is_u32 n → wf p → wf b → wf (replace r r' n p b).1.
Proof.
  intros Hr Hn Hp Hb. unfold replace. pose proof (l3_delete_wf r b Hb) as Hd. unfold delete in Hd.
  destruct (orders b !! r) as [e|] eqn:E; [|done].
  destruct (wf_lookup _ _ _ (l3_orders_wf b Hb) E) as [_ He].
  apply insert_order_wf; try done. apply He.
Qed.

Lemma l3_apply_wf msg b : wf msg → wf b → wf (apply msg b).1.
Proof.
  intros Hm Hb. destruct msg as [| | | | | | | |m|m|m|m|m|m|m| | | | |]; try done;
    unfold wf, Message.t_wf in Hm; autounfold with wf_unfold in Hm; destruct_and? Hm; simpl.
  - case_decide; [done|]. by apply insert_order_wf.
  - case_decide; [done|]. by apply insert_order_wf.
  - by apply l3_execute_wf.
  - by apply l3_execute_wf.
  - by apply l3_cancel_wf.
  - by apply l3_delete_wf.
  - by apply l3_replace_wf.
Qed.
End l3.

(** ** The manager and the bars *)

Lemma locate_wf msg : wf msg → wf (locate_of msg).
Proof. destruct msg; intros Hm; apply Hm. Qed.

Lemma manager_apply_wf msg m : wf msg → wf m → wf (BookManager.apply msg m).1.
Proof.
  intros Hm (Hd & H2 & H3 & Hs). unfold BookManager.apply. pose proof (locate_wf msg Hm) as Hl.
  unfold locate_of in Hl. set (loc := Header.stock_locate (Message.header msg)) in *. cbv zeta.
  set (dir := match msg with Message.StockDirectory r => _ | _ => _ end).
  assert (wf dir) as Hdir.
  { unfold dir. destruct msg; try done. apply wf_insert; [done|done|]. apply Hm. }
  assert (wf (BookManager.l2_entry loc m)) as He2.
  { unfold BookManager.l2_entry. destruct (BookManager.l2 m !! loc) as [b|] eqn:E; simpl.
    - by apply (wf_lookup _ _ _ H2 E).
    - split_and!; simpl; try done; apply wf_empty. }
  assert (wf (BookManager.l3_entry loc m)) as He3.
  { unfold BookManager.l3_entry. destruct (BookManager.l3 m !! loc) as [b|] eqn:E; simpl.
    - by apply (wf_lookup _ _ _ H3 E).
    - split_and!; simpl; try done; apply wf_empty. }
  pose proof (l2_apply_wf msg _ Hm He2) as A2. pose proof (l3_apply_wf msg _ Hm He3) as A3.
  destruct (L2Book.apply msg _) as [b2 [u|e]], (L3Book.apply msg _) as [b3 r3]; cbn [fst] in *;
    split_and!; simpl; auto with widths; by apply wf_insert.
Qed.

Lemma manager_run_wf msgs m : Forall wf msgs → wf m → wf (manager_run msgs m).1.
Proof.
  intros Hms. revert m. induction Hms as [|msg msgs Hm Hms IH]; intros m Hw; [done|].
  cbn [manager_run]. pose proof (manager_apply_wf msg m Hm Hw) as H1.
  destruct (BookManager.apply msg m) as [m1 r]. specialize (IH m1 H1).
  by destruct (manager_run msgs m1).
Qed.

Lemma apply_trade_wf loc p n a :
  wf loc → wf p → is_u64 n → wf a → wf (OhlcvAccumulator.apply_trade loc p n a).
Proof.
  intros Hl Hp Hn Ha. unfold OhlcvAccumulator.apply_trade. apply wf_insert; [done|done|].
  destruct (OhlcvAccumulator.per_symbol a !! loc) as [b|] eqn:E.
  - destruct (wf_lookup _ _ _ Ha E) as [_ (? & ? & ? & ? & ? & ? & ?)].
    unfold OhlcvAccumulator.update_bar. split_and!; simpl; auto with widths; try by case_match.
    apply saturating_add_width; [done|]. unfold in_width. lia.
  - by split_and!.
Qed.

Lemma ohlcv_apply_wf msg a : wf msg → wf a → wf (OhlcvAccumulator.apply msg a).
Proof.
  intros Hm Ha. destruct msg as [| | | | | | | | | | |m| | | |m|m| | |]; try done;
    unfold wf, Message.t_wf in Hm; autounfold with wf_unfold in Hm; destruct_and? Hm; simpl.
  - destruct (OrderExecutedWithPrice.printable m); [done|]. apply apply_trade_wf; auto with widths.
  - apply apply_trade_wf; auto with widths.
  - by apply apply_trade_wf.
Qed.

(** ** Properties *)

(** The bars after a feed. *)
Definition bars_after (msgs : list Message.t) : OhlcvAccumulator.t :=
  foldl (λ a msg, OhlcvAccumulator.apply msg a) OhlcvAccumulator.new msgs.

(** C23: the books are well typed.  After any feed of well-formed messages, reused
    references and refused executions included, every price, share count,
    reference and locate code in the directory, in the books of both kinds and in
    the bars is a value of its machine type: no subtraction has gone below zero
    and no sum, counter or arrival number beyond its width. *)
Theorem books_well_typed msgs :
  Forall wf msgs →
  wf (manager_run msgs BookManager.new).1
  ∧ wf (bars_after msgs).
Proof.
  intros Hms. split.
  - apply manager_run_wf; [done|]. split_and!; simpl; try apply wf_empty. unfold in_width. lia.
  - assert (∀ a, wf a → wf (foldl (λ a msg, OhlcvAccumulator.apply msg a) a msgs)) as Hall.
    { induction Hms as [|msg msgs Hm Hms IH]; intros a Ha; [done|]. simpl. by apply IH, ohlcv_apply_wf. }
    apply Hall. apply wf_empty.
Qed.

Lemma books_well_typed_witness : wf (manager_run example_l3_feed BookManager.new).1.
Proof.
  refine (proj1 (books_well_typed example_l3_feed _)). unfold example_l3_feed.
  repeat (apply Forall_cons_2; [vm_compute; repeat (split || constructor); done|]). constructor.
Defined.
