(* ===== verification/SeqStore.v ===== *)
(** Sources and sequence stores ([crates/itch-source/src]): the errors of a
    source, the [SeqStore] trait with its contract, the two stores of the crate,
    the contract test that the crate offers to other stores, and the policies
    that choose what a new session is sent first.

    [SeqStore.Ops] has the methods of the trait and [SeqStore.Contract] what the
    servers rely on; [RingSeqStore] is [RingBufferSeqStore] (the cache of
    [itch-mold] has the same name in the source).  Each method holds the lock of
    the store from start to end, so it is one step. *)

From S2P Require Import Prelude Primitives Enums Messages.

Module SourceError.
Inductive t := Exhausted | Backend (e : string) | Invariant (reason : string).
End SourceError.

(** The messages stored under the numbers [from], [from + 1], ... up to the
    first number that has none, at most [n] of them. *)
Fixpoint run_of (m : gmap Z Message.t) (from : Z) (n : nat) : list (Z * Message.t) :=
  match n with
  | O => []
  | S n =>
      match m !! from with
      | Some msg => (from, msg) :: run_of m (from + 1) n
      | None => []
      end
  end.

Module SeqStore.
(** What [SourceError::Backend] keeps of an error, [Box<dyn Error>]. *)
Class Boxed (E : Type) := boxed : E → string.

(** The trait. *)
Class Ops (St E : Type) := {
  store : Z → Message.t → mut St unit E;
  range : Z → Z → St → result (list (Z * Message.t)) E;
  latest : St → result Z E;
  earliest : St → result Z E;
}.
#[global] Hint Mode Ops ! - : typeclass_instances.

(** What a store that retains messages promises: it answers from [contents];
    storing a number above all others succeeds, and forgets at most messages that
    are [retention] numbers back, the oldest first.  A store has numbers up to
    [seq_limit] and answers about runs below [range_limit], which leaves room for
    the 256 numbers that a replay asks for at a time. *)
Class Contract (St E : Type) `{Ops St E} := {
  inv : St → Prop;
  contents : St → gmap Z Message.t;
  high : St → Z;
  retention : St → Z;
  seq_limit : Z;
  range_limit : Z;
  limits_ok : 2 ≤ seq_limit ≤ u64_max ∧ seq_limit + 257 ≤ range_limit;
  latest_ok s : inv s → latest s = Ok (high s);
  keys_ok s k : inv s → is_Some (contents s !! k) → 0 ≤ k ≤ high s;
  high_ok s : inv s → 0 ≤ high s ≤ u64_max;
  range_ok s from count :
    inv s → is_u64 from → 0 ≤ count → from + count ≤ range_limit →
    range from count s = Ok (run_of (contents s) from (Z.to_nat count));
  earliest_ok s :
    inv s → ∃ e, earliest s = Ok e ∧ (∀ k, is_Some (contents s !! k) → e ≤ k)
      ∧ (contents s = ∅ → e = 0) ∧ (contents s ≠ ∅ → is_Some (contents s !! e));
  retention_ok s : inv s → 1 ≤ retention s;
  store_ok s seq msg :
    inv s → high s < seq ≤ seq_limit → wf msg →
    ∃ s', store seq msg s = (s', Ok tt) ∧ inv s' ∧ high s' = seq ∧ retention s' = retention s
      ∧ contents s' !! seq = Some msg
      ∧ ∀ k, k ≠ seq → contents s' !! k = contents s !! k
                       ∨ contents s' !! k = None ∧ k ≤ seq - retention s
                         ∧ ∀ j, is_Some (contents s' !! j) → k < j;
  restore_ok s seq msg :
    inv s → contents s !! seq = Some msg →
    ∃ s', store seq msg s = (s', Ok tt) ∧ inv s' ∧ high s' = high s ∧ contents s' = contents s;
}.
#[global] Arguments seq_limit St {_ _ _}.
#[global] Arguments range_limit St {_ _ _}.
End SeqStore.

(** ** The ring buffer *)

Definition DEFAULT_RING_CAPACITY : Z := 65536.

Module RingSeqStore.
Inductive Error :=
| SequenceConflict (seq : Z)
| BackingStore (reason : string).

(** [Inner], under the lock, next to the capacity. *)
Record t := mk { capacity : Z; map : gmap Z Message.t; max_seen : Z }.

Definition with_capacity (capacity : Z) : t := mk (Z.max capacity 1) ∅ 0.
Definition new : t := with_capacity DEFAULT_RING_CAPACITY.

(** [if seq > guard.max_seen { guard.max_seen = seq; }] *)
Definition raise (seq : Z) (st : t) : t :=
  if max_seen st <? seq then mk (capacity st) (map st) seq else st.

(** [guard.map.remove(&first)], when the map is full. *)
Definition evict (st : t) : t :=
  if Z.of_nat (size (map st)) =? capacity st then
    match btree_first (map st) with
    | Some (first, _) => mk (capacity st) (delete first (map st)) (max_seen st)
    | None => st
    end
  else st.

Definition store (seq : Z) (msg : Message.t) : mut t unit Error := λ st,
  match map st !! seq with
  | Some existing =>
      if decide (existing = msg) then (raise seq st, Ok tt)
      else (st, Err (SequenceConflict seq))
  | None =>
      let st := evict st in
      (raise seq (mk (capacity st) (<[seq := msg]> (map st)) (max_seen st)), Ok tt)
  end.

(** The loop over [guard.map.range(from..)]. *)
Fixpoint range_loop (entries : list (Z * Message.t)) (expected count : Z)
    (out : list (Z * Message.t)) : list (Z * Message.t) :=
  match entries with
  | [] => out
  | (s, m) :: entries =>
      if negb (s =? expected) then out
      else
        let out := out ++ [(s, m)] in
        let expected := u64_saturating_add expected 1 in
        if Z.of_nat (length out) =? count then out
        else range_loop entries expected count out
  end.

(** [BTreeMap::range(from..)]. *)
Definition from_on (from : Z) (m : gmap Z Message.t) : list (Z * Message.t) :=
  filter (λ e, from ≤ e.1) (btree_iter m).

Definition range (from count : Z) (st : t) : result (list (Z * Message.t)) Error :=
  if count =? 0 then Ok []
  else if decide (map st = ∅) then Ok []
  else Ok (range_loop (from_on from (map st)) from count []).

Definition latest (st : t) : result Z Error := Ok (max_seen st).

Definition earliest (st : t) : result Z Error :=
  Ok (match btree_first (map st) with Some (k, _) => k | None => 0 end).

#[global] Instance boxed : SeqStore.Boxed Error := λ e,
  match e with SequenceConflict _ => "SequenceConflict" | BackingStore reason => reason end.

#[global] Instance ops : SeqStore.Ops t Error := {|
  SeqStore.store := store; SeqStore.range := range;
  SeqStore.latest := latest; SeqStore.earliest := earliest |}.
End RingSeqStore.

(** ** The store that drops everything *)

Module NullSeqStore.
Inductive t := new.
(** [std::convert::Infallible]. *)
Definition Error : Type := Empty_set.

Definition store (_seq : Z) (_msg : Message.t) : mut t unit Error := λ st, (st, Ok tt).
Definition range (_from _count : Z) (_ : t) : result (list (Z * Message.t)) Error := Ok [].
Definition latest (_ : t) : result Z Error := Ok 0.
Definition earliest (_ : t) : result Z Error := Ok 0.

#[global] Instance ops : SeqStore.Ops t Error := {|
  SeqStore.store := store; SeqStore.range := range;
  SeqStore.latest := latest; SeqStore.earliest := earliest |}.
#[global] Instance boxed : SeqStore.Boxed Error := λ e, match e with end.
End NullSeqStore.

(** ** Policies *)

Module StaticPolicy.
Record t := mk { messages : list Message.t }.
Definition empty : t := mk [].
Definition new (messages : list Message.t) : t := mk messages.
Definition warmup (p : t) : result (list Message.t) SourceError.t := Ok (messages p).
End StaticPolicy.

(** [e.map_err(|e| SourceError::Backend(Box::new(e)))] *)
Definition backend `{SeqStore.Boxed E} {A} (r : result A E) : result A SourceError.t :=
  match r with Ok a => Ok a | Err e => Err (SourceError.Backend (SeqStore.boxed e)) end.

Module WarmupFromSeqStore.
(** [latest - earliest + 1] on [u64], then [as usize]. *)
Definition warmup `{SeqStore.Ops St E, SeqStore.Boxed E} (store : St) : result (list Message.t) SourceError.t :=
  let? latest := backend (SeqStore.latest store) in
  if latest =? 0 then Ok []
  else
    let? earliest := backend (SeqStore.earliest store) in
    let count := u64_add (latest - earliest) 1 in
    let? entries := backend (SeqStore.range earliest count store) in
    Ok (map snd entries).
End WarmupFromSeqStore.

(** ** The contract test *)

Definition fixture (code : EventCode.t) : Message.t :=
  Message.SystemEvent (SystemEvent.mk Header.default code).

(** [assert_seq_store_contract]: [false] where the test panics.  An [Err] makes
    an [expect] panic. *)
Section contract_test.
Context `{SeqStore.Ops St E}.

Definition expect {A} (r : result A E) (k : A → bool) : bool :=
  match r with Ok a => k a | Err _ => false end.
Definition store_then (seq : Z) (msg : Message.t) (st : St) (k : St → bool) : bool :=
  let '(st, r) := SeqStore.store seq msg st in expect r (λ _, k st).
Definition expect_range (from count : Z) (st : St) (p : list (Z * Message.t) → bool) : bool :=
  expect (SeqStore.range from count st) p.

Definition is_empty {A} (l : list A) : bool := match l with [] => true | _ => false end.

Definition assert_seq_store_contract (st : St) : bool :=
  let m1 := fixture EventCode.StartOfMessages in
  let m2 := fixture EventCode.StartOfSystemHours in
  (* Empty store. *)
  expect (SeqStore.latest st) (λ lat, expect (SeqStore.earliest st) (λ ear,
    (lat =? 0) && (ear =? 0))) &&
  expect_range 1 1 st is_empty &&
  (* Single store. *)
  store_then 1 m1 st (λ st,
    expect (SeqStore.latest st) (λ lat_after_one,
      if lat_after_one =? 0 then
        expect (SeqStore.earliest st) (λ ear, ear =? 0) &&
        expect_range 1 1 st is_empty &&
        store_then 1 m1 st (λ _, true)
      else
        (lat_after_one =? 1) &&
        expect (SeqStore.earliest st) (λ ear, ear <=? 1) &&
        expect_range 1 1 st (λ r, bool_decide (r = [(1, m1)])) &&
        (* Two consecutive stores. *)
        store_then 2 m2 st (λ st,
          expect_range 1 2 st (λ r, bool_decide (map fst r = [1; 2])) &&
          expect_range 1 100 st (λ r, (length r =? 2)%nat) &&
          (* Below earliest. *)
          expect_range 0 1 st is_empty &&
          (* Idempotent re-store. *)
          store_then 1 m1 st (λ st,
            expect_range 1 100 st (λ r, (length r =? 2)%nat))))).
End contract_test.

(** ** Runs *)

Section run_of.
Implicit Types (m : gmap Z Message.t) (from : Z) (n : nat).

Lemma run_of_map m from n :
  run_of m from n `prefix_of` omap (λ k, pair k <$> m !! k) (seqZ from (Z.of_nat n)).
Proof.
  revert from. induction n as [|n IH]; intros from; [apply prefix_nil|].
  rewrite seqZ_cons by lia. cbn [run_of omap list_omap].
  replace (Z.pred (Z.of_nat (S n))) with (Z.of_nat n) by lia.
  destruct (m !! from) as [msg|]; [by apply prefix_cons|apply prefix_nil].
Qed.

Lemma run_of_none m from n : m !! from = None → run_of m from n = [].
Proof. intros E. destruct n as [|n]; cbn [run_of]; [done|]. by rewrite E. Qed.

(** Where every number of a run is stored, the run is found whole. *)
Lemma run_of_full (msgs : Z → Message.t) m from n :
  (∀ k, from ≤ k < from + Z.of_nat n → m !! k = Some (msgs k)) →
  run_of m from n = map (λ k, (k, msgs k)) (seqZ from (Z.of_nat n)).
Proof.
  revert from. induction n as [|n IH]; intros from Hm; [done|].
  rewrite seqZ_cons by lia. cbn [run_of]. rewrite Hm by lia. cbn. f_equal.
  replace (Z.pred (Z.of_nat (S n))) with (Z.of_nat n) by lia. unfold Z.succ.
  apply IH. intros k Hk. apply Hm. lia.
Qed.

(** A run that a missing number cuts off. *)
Lemma run_of_upto (msgs : Z → Message.t) m from k n :
  (k ≤ n)%nat → (∀ j, from ≤ j < from + Z.of_nat k → m !! j = Some (msgs j)) →
  m !! (from + Z.of_nat k) = None → run_of m from n = map (λ j, (j, msgs j)) (seqZ from (Z.of_nat k)).
Proof.
  revert from n. induction k as [|k IH]; intros from n Hk Hm Hn.
  - rewrite Z.add_0_r in Hn. by rewrite run_of_none.
  - destruct n as [|n]; [lia|]. rewrite seqZ_cons by lia. cbn [run_of]. rewrite Hm by lia. cbn.
    f_equal. replace (Z.pred (Z.of_nat (S k))) with (Z.of_nat k) by lia. unfold Z.succ.
    apply IH; [lia|intros j Hj; apply Hm; lia|]. rewrite <-Hn. f_equal. lia.
Qed.

(** A run depends on the numbers it covers only. *)
Lemma run_of_ext m m' from n :
  (∀ k, from ≤ k < from + Z.of_nat n → m !! k = m' !! k) → run_of m from n = run_of m' from n.
Proof.
  revert from. induction n as [|n IH]; intros from Hm; [done|]. cbn [run_of].
  rewrite <-Hm by lia. destruct (m !! from); [|done]. f_equal. apply IH. intros k Hk. apply Hm. lia.
Qed.

Lemma length_run_of m from n : (length (run_of m from n) ≤ n)%nat.
Proof.
  revert from. induction n as [|n IH]; intros from; cbn [run_of]; [done|].
  destruct (m !! from); simpl; [|lia]. specialize (IH (from + 1)). lia.
Qed.
End run_of.

(** The keys of a map of numbers, in strictly increasing order. *)
Lemma btree_iter_strict {V} (m : gmap Z V) : StronglySorted (λ a b, a.1 < b.1) (btree_iter m).
Proof.
  assert (NoDup (fst <$> btree_iter m)) as Hn by apply btree_iter_nodup.
  pose proof (btree_iter_sorted m) as Hs. revert Hn Hs.
  induction (btree_iter m) as [|a l IH]; intros Hn Hs; [constructor|].
  apply NoDup_cons in Hn as [Ha Hn]. apply StronglySorted_inv in Hs as [Hs Hall].
  constructor; [auto|]. rewrite Forall_forall in Hall |- *. intros b Hb.
  specialize (Hall _ Hb). unfold key_le, ord_key in Hall. simpl in Hall.
  assert (a.1 ≠ b.1); [|lia]. intros E. apply Ha. rewrite E. by apply list_elem_of_fmap_2.
Qed.

Lemma StronglySorted_omap {A B} (R : relation A) (R' : relation B) (f : A → option B) l :
  (∀ a b a' b', R a b → f a = Some a' → f b = Some b' → R' a' b') →
  StronglySorted R l → StronglySorted R' (omap f l).
Proof.
  intros HR. induction 1 as [|a l Hl IH Ha]; [constructor|]. cbn [omap list_omap].
  destruct (f a) as [a'|] eqn:Ea; [|done]. constructor; [done|].
  apply Forall_forall. intros b' Hb'. apply list_elem_of_omap in Hb' as (b & Hb & Eb).
  rewrite Forall_forall in Ha. eauto.
Qed.

(** ** The ring buffer keeps the contract *)

Module RingSeqStoreFacts.
Import RingSeqStore.

Record inv (st : t) : Prop := {
  inv_cap : 1 ≤ capacity st;
  inv_size : Z.of_nat (size (map st)) ≤ capacity st;
  inv_key : map_Forall (λ k _, 0 ≤ k ≤ max_seen st) (map st);
  inv_max : 0 ≤ max_seen st ≤ u64_max;
}.

Lemma inv_with_capacity c : inv (with_capacity c).
Proof.
  split; simpl; [lia|rewrite map_size_empty; lia|apply map_Forall_empty|unfold u64_max; lia].
Qed.

Lemma map_raise seq st : map (raise seq st) = map st.
Proof. unfold raise. by case_match. Qed.
Lemma capacity_raise seq st : capacity (raise seq st) = capacity st.
Proof. unfold raise. by case_match. Qed.
Lemma max_seen_raise seq st : max_seen (raise seq st) = Z.max (max_seen st) seq.
Proof. unfold raise. case_match eqn:E; simpl; lia. Qed.
Lemma capacity_evict st : capacity (evict st) = capacity st.
Proof. unfold evict. by repeat case_match. Qed.
Lemma max_seen_evict st : max_seen (evict st) = max_seen st.
Proof. unfold evict. by repeat case_match. Qed.

(** [n] integers below [b] include one that is at most [b - n]. *)
Lemma keys_spread (m : gmap Z Message.t) k0 b :
  map_Forall (λ k _, k0 ≤ k ≤ b) m → Z.of_nat (size m) ≤ b - k0 + 1 ∨ m = ∅.
Proof.
  intros Hm. destruct (decide (m = ∅)) as [?|Hne]; [by right|left].
  assert (size (dom m) ≤ size (list_to_set (C := gset Z) (seqZ k0 (b - k0 + 1))))%nat as Hs.
  { apply subseteq_size. intros k Hk. apply elem_of_dom in Hk as [msg Hk].
    apply elem_of_list_to_set, elem_of_seqZ. specialize (Hm _ _ Hk). simpl in Hm. lia. }
  rewrite size_dom, size_list_to_set in Hs by apply NoDup_seqZ. rewrite length_seqZ in Hs.
  apply map_choose in Hne as (k & msg & Hk). specialize (Hm _ _ Hk). simpl in Hm. lia.
Qed.

(** Eviction makes room, and only an entry [capacity] numbers back goes. *)
Lemma evict_spec st : inv st →
  Z.of_nat (size (map (evict st))) < capacity st
  ∧ ∀ k, map (evict st) !! k = map st !! k
         ∨ map (evict st) !! k = None ∧ k ≤ max_seen st + 1 - capacity st
           ∧ ∀ j, is_Some (map (evict st) !! j) → k < j.
Proof.
  intros [Hc Hs Hk Hx]. unfold evict.
  case_match eqn:E; [apply Z.eqb_eq in E|apply Z.eqb_neq in E; split; [lia|by left]].
  destruct (btree_first (map st)) as [[first msg]|] eqn:Ef.
  - apply btree_first_Some in Ef as [Hf Hmin]. simpl. split.
    { rewrite map_size_delete_Some by (by eexists).
      assert (size (map st) ≠ O); [|lia]. apply map_size_ne_0_lookup. by exists first, msg. }
    intros k. destruct (decide (k = first)) as [->|]; [|left; by apply lookup_delete_ne].
    right. split; [apply lookup_delete_eq|]. split; cycle 1.
    { intros j [x Hj]. apply lookup_delete_Some in Hj as [? Hj].
      specialize (Hmin _ _ Hj). unfold ord_key in Hmin. simpl in Hmin. lia. }
    destruct (keys_spread (map st) first (max_seen st)) as [?|Hnil]; [|lia|].
    + intros k' msg' Hk'. specialize (Hmin _ _ Hk'). specialize (Hk _ _ Hk'). simpl in *.
      unfold ord_key in Hmin. simpl in Hmin. lia.
    + rewrite Hnil in Hf. by rewrite lookup_empty in Hf.
  - apply btree_first_None in Ef. rewrite Ef, map_size_empty in E. lia.
Qed.

Lemma map_evict_sub st : map (evict st) ⊆ map st.
Proof.
  unfold evict. repeat case_match; simpl; [apply delete_subseteq|done|done].
Qed.

Lemma inv_store seq msg st : inv st → is_u64 seq → inv (store seq msg st).1.
Proof.
  intros Hi Hseq. unfold store. destruct (map st !! seq) as [m'|] eqn:E.
  - case_decide; simpl; [|done]. destruct Hi as [? ? Hk ?]. specialize (Hk _ _ E) as Hseq'.
    simpl in Hseq'. unfold raise. rewrite (proj2 (Z.ltb_ge _ _)) by lia. by split.
  - destruct (evict_spec st Hi) as [Hroom Hev]. destruct Hi as [Hc Hs Hk Hx]. simpl. split.
    + rewrite capacity_raise. simpl. by rewrite capacity_evict.
    + rewrite map_raise, capacity_raise. simpl. rewrite capacity_evict.
      pose proof (map_evict_sub st) as Hsub.
      rewrite map_size_insert_None by (by eapply lookup_weaken_None). lia.
    + rewrite map_raise, max_seen_raise. simpl. rewrite max_seen_evict.
      apply map_Forall_insert_2; [unfold in_width in Hseq; lia|].
      intros k m' Hk'. eapply lookup_weaken in Hk'; [|apply map_evict_sub].
      specialize (Hk _ _ Hk'). simpl in Hk. lia.
    + rewrite max_seen_raise. simpl. rewrite max_seen_evict.
      unfold in_width in Hseq. unfold u64_max in *. lia.
Qed.

(** The loop over the entries from [e] on collects the run at [e]. *)
Lemma range_loop_run m entries e count out :
  map_Forall (λ k _, k ≤ u64_max) m → is_u64 e →
  StronglySorted (λ a b, a.1 < b.1) entries →
  (∀ k msg, (k, msg) ∈ entries ↔ m !! k = Some msg ∧ e ≤ k) →
  Z.of_nat (length out) < count →
  range_loop entries e count out
  = out ++ run_of m e (Z.to_nat (count - Z.of_nat (length out))).
Proof.
  intros Hu. revert e out. induction entries as [|[s msg] entries IH]; intros e out He Hs Hin Hout.
  - rewrite run_of_none, app_nil_r; [done|]. destruct (m !! e) as [x|] eqn:E; [|done].
    assert ((e, x) ∈ @nil (Z * Message.t)) as Hx by (apply Hin; split; [done|lia]).
    by apply elem_of_nil in Hx.
  - apply StronglySorted_inv in Hs as [Hs Hall].
    assert (m !! s = Some msg ∧ e ≤ s) as [Hm Hle] by (apply Hin; left).
    cbn [range_loop]. case_match eqn:Es; simpl in Es.
    + apply negb_true_iff, Z.eqb_neq in Es. rewrite run_of_none, app_nil_r; [done|].
      destruct (m !! e) as [x|] eqn:E; [|done].
      assert ((e, x) ∈ (s, msg) :: entries) as Hx by (apply Hin; split; [done|lia]).
      apply elem_of_cons in Hx as [?|Hx]; [congruence|].
      rewrite Forall_forall in Hall. specialize (Hall _ Hx). simpl in Hall. lia.
    + apply negb_false_iff, Z.eqb_eq in Es. subst s. rewrite length_app. cbn [length].
      replace (Z.to_nat (count - Z.of_nat (length out)))
        with (S (Z.to_nat (count - Z.of_nat (length out + 1)))) by lia.
      cbn [run_of]. rewrite Hm.
      case_match eqn:Ec; [apply Z.eqb_eq in Ec|apply Z.eqb_neq in Ec].
      { replace (Z.to_nat _) with O by lia. done. }
      assert (∀ k x, (k, x) ∈ entries ↔ m !! k = Some x ∧ e + 1 ≤ k) as Hin'.
      { intros k x. split.
        - intros Hx. rewrite Forall_forall in Hall. specialize (Hall _ Hx). simpl in Hall.
          assert ((k, x) ∈ (e, msg) :: entries) as Hx' by by right. apply Hin in Hx' as [? ?].
          split; [done|lia].
        - intros [Hx Hk]. assert ((k, x) ∈ (e, msg) :: entries) as Hx' by (apply Hin; split; [done|lia]).
          apply elem_of_cons in Hx' as [?|?]; [simplify_eq; lia|done]. }
      destruct (decide (e = u64_max)) as [->|Hmax].
      * assert (entries = []) as ->.
        { destruct entries as [|[k x] entries]; [done|].
          destruct (proj1 (Hin' k x) ltac:(left)) as [Hx Hk].
          specialize (Hu _ _ Hx). simpl in Hu. lia. }
        simpl. rewrite run_of_none; [done|]. destruct (m !! (u64_max + 1)) as [x|] eqn:E; [|done].
        specialize (Hu _ _ E). simpl in Hu. lia.
      * unfold in_width in *. rewrite u64_saturating_add_small by (unfold u64_max in *; lia).
        rewrite IH; [|unfold u64_max in *; lia|done|done|rewrite length_app; simpl; lia].
        rewrite <-app_assoc. cbn [app]. rewrite length_app. done.
Qed.

Lemma from_on_sorted from m : StronglySorted (λ a b, a.1 < b.1) (from_on from m).
Proof. unfold from_on. apply StronglySorted_filter', btree_iter_strict. Qed.

Lemma range_spec from count st :
  inv st → is_u64 from → 0 ≤ count →
  range from count st = Ok (run_of (map st) from (Z.to_nat count)).
Proof.
  intros Hi Hf Hc. unfold range. case_match eqn:E0; [apply Z.eqb_eq in E0; by subst|].
  apply Z.eqb_neq in E0. case_decide as Em; [by rewrite Em, run_of_none by apply lookup_empty|].
  f_equal. rewrite (range_loop_run (map st)); simpl; [by rewrite Z.sub_0_r| |done| | |lia].
  - intros k msg Hk. pose proof (inv_key _ Hi _ _ Hk). pose proof (inv_max _ Hi). simpl in *. lia.
  - apply from_on_sorted.
  - intros k msg. unfold from_on. rewrite list_elem_of_filter, elem_of_btree_iter. simpl. tauto.
Qed.

#[global] Program Instance contract : SeqStore.Contract t Error := {|
  SeqStore.inv := inv; SeqStore.contents := map; SeqStore.high := max_seen;
  SeqStore.retention := capacity; SeqStore.seq_limit := u64_max; SeqStore.range_limit := 2 ^ 66 |}.
Next Obligation. unfold u64_max. lia. Qed.
Next Obligation. done. Qed.
Next Obligation. intros st k Hi [msg Hk]. apply (inv_key _ Hi _ _ Hk). Qed.
Next Obligation. intros st Hi. apply Hi. Qed.
Next Obligation. intros st from count ??? _. by apply range_spec. Qed.
Next Obligation.
  intros st Hi. eexists. split; [done|]. destruct (btree_first (map st)) as [[k msg]|] eqn:E.
  - apply btree_first_Some in E as [Hk Hmin]. split_and!.
    + intros k' [msg' Hk']. apply (Hmin _ _ Hk').
    + intros Hnil. rewrite Hnil in Hk. by rewrite lookup_empty in Hk.
    + intros _. by eexists.
  - apply btree_first_None in E. rewrite E. split_and!; [|done|done].
    intros k' [msg' Hk']. by rewrite lookup_empty in Hk'.
Qed.
Next Obligation. intros st Hi. apply Hi. Qed.
Next Obligation.
  intros st seq msg Hi Hseq _. simpl.
  assert (is_u64 seq) as Hu by (pose proof (inv_max _ Hi); unfold in_width, u64_max in *; lia).
  pose proof (inv_store seq msg st Hi Hu) as Hi'. pose proof (inv_cap _ Hi) as Hcap.
  destruct (evict_spec st Hi) as [_ Hev]. unfold store in *.
  destruct (map st !! seq) as [x|] eqn:E.
  { pose proof (inv_key _ Hi _ _ E). simpl in *. lia. }
  eexists. split; [done|]. split; [done|].
  rewrite max_seen_raise, capacity_raise, map_raise. simpl.
  rewrite max_seen_evict, capacity_evict, lookup_insert_eq. split_and!; [lia|done|done|].
  intros k Hk. rewrite lookup_insert_ne by done. destruct (Hev k) as [?|(? & ? & Hlow)]; [by left|right].
  split; [done|]. split; [lia|]. intros j Hj. destruct (decide (j = seq)) as [->|]; [lia|].
  rewrite lookup_insert_ne in Hj by done. by apply Hlow.
Qed.
Next Obligation.
  intros st seq msg Hi E. exists st. simpl. unfold store. rewrite E, decide_True by done.
  pose proof (inv_key _ Hi _ _ E). simpl in *. unfold raise. by rewrite (proj2 (Z.ltb_ge _ _)) by lia.
Qed.
End RingSeqStoreFacts.

(** ** A store that is fed in order *)

Section tracking.
Context `{SeqStore.Contract St E}.
Import SeqStore.
Implicit Types (st : St) (msgs : Z → Message.t).

(** The store was fed [msgs lo], [msgs (lo + 1)], ... and nothing else. *)
Record store_tracks msgs (lo : Z) st : Prop := {
  tr_inv : inv st;
  tr_lo : 1 ≤ lo ≤ high st + 1;
  tr_agree k msg : contents st !! k = Some msg → msg = msgs k ∧ lo ≤ k;
  tr_up k j : is_Some (contents st !! k) → k ≤ j ≤ high st → is_Some (contents st !! j);
  tr_kept k : lo ≤ k ≤ high st → high st - retention st < k → is_Some (contents st !! k);
}.

Lemma tracks_lookup msgs lo st k :
  store_tracks msgs lo st → is_Some (contents st !! k) → contents st !! k = Some (msgs k).
Proof. intros Ht [msg Hk]. by destruct (tr_agree _ _ _ Ht _ _ Hk) as [<- _]. Qed.

Lemma tracks_empty msgs st : inv st → contents st = ∅ → store_tracks msgs (high st + 1) st.
Proof.
  intros Hi He. assert (∀ k, ¬ is_Some (contents st !! k)) as Hno.
  { intros k. rewrite He, lookup_empty. by intros [? ?]. }
  pose proof (high_ok _ Hi). split; [done|lia| |by intros ? ? ?%Hno|lia].
  intros k msg Hk. destruct (Hno k). by eexists.
Qed.

(** Feeding the next message. *)
Lemma tracks_store msgs lo st :
  store_tracks msgs lo st → high st < seq_limit St → wf (msgs (high st + 1)) →
  ∃ st', store (high st + 1) (msgs (high st + 1)) st = (st', Ok tt)
    ∧ store_tracks msgs lo st' ∧ high st' = high st + 1 ∧ retention st' = retention st.
Proof.
  intros [Hi Hlo Hag Hup Hkept] Hmax Hwf.
  destruct (store_ok st (high st + 1) (msgs (high st + 1))) as (st' & Hst & Hi' & Hh & Hr & Hnew & Hold);
    [done|lia|done|].
  exists st'. split; [done|]. split; [|done].
  assert (∀ k, is_Some (contents st' !! k) → k = high st + 1 ∨ is_Some (contents st !! k)) as Hsub.
  { intros k Hk. destruct (decide (k = high st + 1)) as [?|Hne]; [by left|right].
    destruct (Hold k Hne) as [<-|[E' _]]; [done|]. rewrite E' in Hk. by destruct Hk. }
  split; [done|lia| | |].
  - intros k msg Hk. destruct (decide (k = high st + 1)) as [->|Hne].
    + rewrite Hnew in Hk. simplify_eq. split; [done|lia].
    + destruct (Hold k Hne) as [E'|[E' _]]; rewrite E' in Hk; [by apply Hag|done].
  - intros k j Hk Hj. destruct (decide (j = high st + 1)) as [->|Hne]; [by eexists|].
    destruct (Hsub _ Hk) as [?|Hk']; [lia|].
    destruct (Hold j Hne) as [->|(_ & _ & Hlow)]; [apply (Hup k); [done|lia]|].
    specialize (Hlow _ Hk). lia.
  - intros k Hk Hret. destruct (decide (k = high st + 1)) as [->|Hne]; [by eexists|].
    destruct (Hold k Hne) as [->|(_ & ? & _)]; [apply Hkept; lia|lia].
Qed.

(** [range] over numbers that are all there, up to the highest. *)
Lemma range_stored msgs st from count :
  inv st → (∀ k, from ≤ k ≤ high st → contents st !! k = Some (msgs k)) →
  from ≤ high st + 1 → is_u64 from → 0 ≤ count → from + count ≤ range_limit St →
  range from count st
  = Ok (map (λ k, (k, msgs k)) (seqZ from (Z.min count (high st - from + 1)))).
Proof.
  intros Hi Hin Hfrom Hu Hc Hlim. rewrite range_ok by done. f_equal.
  destruct (Z.le_ge_cases count (high st - from + 1)) as [Hle|Hge].
  - rewrite (run_of_full msgs) by (intros k Hk; apply Hin; lia). do 2 f_equal. lia.
  - rewrite (run_of_upto msgs _ _ (Z.to_nat (high st - from + 1))); [do 2 f_equal; lia|lia| |].
    + intros j Hj. apply Hin. lia.
    + destruct (contents st !! _) as [y|] eqn:Ey; [|done].
      destruct (keys_ok st (from + Z.of_nat (Z.to_nat (high st - from + 1))) Hi) as [_ Hbad];
        [by eexists|lia].
Qed.

(** What [range] answers about numbers that are still retained. *)
Lemma tracks_range msgs lo st from count :
  store_tracks msgs lo st → lo ≤ from ≤ high st + 1 → high st - retention st < from →
  is_u64 from → 0 ≤ count → from + count ≤ range_limit St →
  range from count st
  = Ok (map (λ k, (k, msgs k)) (seqZ from (Z.min count (high st - from + 1)))).
Proof.
  intros Ht Hfrom Hret Hu Hc Hlim. apply range_stored; [apply Ht| |lia|done|done|done].
  intros k Hk. apply (tracks_lookup _ lo _ _ Ht), (tr_kept _ _ _ Ht); lia.
Qed.

(** Whatever [range] answers is a run that starts at [from]. *)
Lemma tracks_range_sound msgs lo st from count :
  store_tracks msgs lo st → is_u64 from → 0 ≤ count → from + count ≤ range_limit St →
  ∃ n, range from count st = Ok (map (λ k, (k, msgs k)) (seqZ from n))
    ∧ 0 ≤ n ≤ count ∧ (0 < n → from + n - 1 ≤ high st).
Proof.
  intros Ht Hu Hc Hlim. pose proof (tr_inv _ _ _ Ht) as Hi.
  destruct (contents st !! from) as [x|] eqn:E'.
  - assert (from ≤ high st) as Hle by (apply (keys_ok st); [done|by eexists]).
    exists (Z.min count (high st - from + 1)). split; [|lia].
    apply range_stored; [done| |lia|done|done|done].
    intros k Hk. apply (tracks_lookup _ lo _ _ Ht), (tr_up _ _ _ Ht from); [by eexists|lia].
  - exists 0. rewrite range_ok, run_of_none by done. split; [done|lia].
Qed.
End tracking.

(** Storing messages under consecutive numbers, as the servers do. *)
Fixpoint store_all `{SeqStore.Ops St E} (seq : Z) (ms : list Message.t) : mut St unit E := λ st,
  match ms with
  | [] => (st, Ok tt)
  | m :: ms =>
      let '(st, r) := SeqStore.store seq m st in
      match r with Ok _ => store_all (seq + 1) ms st | Err e => (st, Err e) end
  end.

Lemma store_all_tracks `{SeqStore.Contract St E} (msgs : Z → Message.t) lo (ms : list Message.t) st :
  store_tracks msgs lo st →
  SeqStore.high st + Z.of_nat (length ms) ≤ SeqStore.seq_limit St → Forall wf ms →
  ms = map msgs (seqZ (SeqStore.high st + 1) (Z.of_nat (length ms))) →
  ∃ st', store_all (SeqStore.high st + 1) ms st = (st', Ok tt) ∧ store_tracks msgs lo st'
    ∧ SeqStore.high st' = SeqStore.high st + Z.of_nat (length ms)
    ∧ SeqStore.retention st' = SeqStore.retention st.
Proof.
  revert st. induction ms as [|m ms IH]; intros st Ht Hmax Hwf Hms.
  - exists st. split_and!; [done|done|simpl; lia|done].
  - apply Forall_cons in Hwf as [Hm Hwf].
    cbn [length] in *. rewrite seqZ_cons in Hms by lia. cbn in Hms. simplify_eq.
    replace (Z.pred (Z.of_nat (S (length ms)))) with (Z.of_nat (length ms)) in * by lia.
    destruct (tracks_store msgs lo st) as (st1 & Hst & Ht1 & Hh & Hr); [done|lia|done|].
    destruct (IH st1) as (st' & Hall & Ht' & Hh' & Hr'); [done|lia|done| |].
    { unfold Z.succ in *. by rewrite Hh. }
    exists st'. cbn [store_all]. rewrite Hst. rewrite Hh in Hall, Hh'. rewrite Hall.
    split_and!; [done|done|lia|congruence].
Qed.

Definition nth_message (ms : list Message.t) (k : Z) : Message.t :=
  nth (Z.to_nat (k - 1)) ms (fixture EventCode.StartOfMessages).

Lemma nth_message_run ms from n :
  1 ≤ from → from - 1 + n ≤ Z.of_nat (length ms) → 0 ≤ n →
  map (λ k, (k, nth_message ms k)) (seqZ from n)
  = zip (seqZ from n) (take (Z.to_nat n) (drop (Z.to_nat (from - 1)) ms)).
Proof.
  intros Hf Hn Hn0. apply list_eq. intros i. rewrite list_lookup_fmap, lookup_zip_with.
  destruct (decide (Z.of_nat i < n)) as [Hi|Hi].
  - rewrite lookup_seqZ_lt by lia. cbn. rewrite lookup_take_lt, lookup_drop by lia.
    unfold nth_message. destruct (nth_lookup_or_length ms (Z.to_nat (from + Z.of_nat i - 1))
      (fixture EventCode.StartOfMessages)) as [E|?]; [|lia].
    replace (Z.to_nat (from - 1) + i)%nat with (Z.to_nat (from + Z.of_nat i - 1)) by lia.
    by rewrite E.
  - by rewrite lookup_seqZ_ge by lia.
Qed.

Lemma nth_message_all ms : ms = map (nth_message ms) (seqZ 1 (Z.of_nat (length ms))).
Proof.
  apply list_eq. intros i. rewrite list_lookup_fmap.
  destruct (decide (i < length ms)%nat) as [Hi|Hi].
  - rewrite lookup_seqZ_lt by lia. cbn. unfold nth_message.
    destruct (nth_lookup_or_length ms (Z.to_nat (1 + Z.of_nat i - 1))
      (fixture EventCode.StartOfMessages)) as [<-|?]; [|lia]. f_equal. lia.
  - rewrite lookup_seqZ_ge by lia. by apply lookup_ge_None; lia.
Qed.

(** The ring holds no run that is longer than its capacity. *)
Lemma ring_window (msgs : Z → Message.t) lo st k :
  store_tracks msgs lo st → k ≤ RingSeqStore.max_seen st - RingSeqStore.capacity st →
  RingSeqStore.map st !! k = None.
Proof.
  intros Ht Hk. destruct (RingSeqStore.map st !! k) as [x|] eqn:E; [exfalso|done].
  pose proof (tr_inv _ _ _ Ht) as [Hcap Hsize Hkey _].
  set (w := seqZ k (RingSeqStore.max_seen st - k + 1)).
  assert (size (list_to_set (C := gset Z) w) ≤ size (dom (RingSeqStore.map st)))%nat as Hs.
  { apply subseteq_size. intros j Hj. apply elem_of_list_to_set, elem_of_seqZ in Hj.
    apply elem_of_dom, (tr_up _ _ _ Ht k); [by eexists|simpl; lia]. }
  rewrite size_dom, size_list_to_set in Hs by apply NoDup_seqZ.
  unfold w in Hs. rewrite length_seqZ in Hs. specialize (Hkey _ _ E). simpl in Hkey. lia.
Qed.

(** C25: after messages 1 to n were stored in order, the ring reports n as its
    latest number, returns any run that starts among the last [capacity] numbers
    exactly, up to [count] and up to n, and nothing for older numbers. *)
Theorem ring_serves_recent c (ms : list Message.t) from count :
  Forall wf ms → Z.of_nat (length ms) < u64_max →
  1 ≤ from ≤ Z.of_nat (length ms) + 1 → is_u64 count →
  ∃ st, store_all 1 ms (RingSeqStore.with_capacity c) = (st, Ok tt)
    ∧ RingSeqStore.latest st = Ok (Z.of_nat (length ms))
    ∧ RingSeqStore.range from count st
      = Ok (if Z.of_nat (length ms) - Z.max c 1 <? from
            then zip (seqZ from (Z.min count (Z.of_nat (length ms) - from + 1)))
                     (take (Z.to_nat count) (drop (Z.to_nat (from - 1)) ms))
            else []).
Proof.
  intros Hwf Hn Hfrom Hc. set (st0 := RingSeqStore.with_capacity c).
  assert (store_tracks (nth_message ms) 1 st0) as Ht0.
  { change 1 with (SeqStore.high st0 + 1). apply tracks_empty; [apply RingSeqStoreFacts.inv_with_capacity|done]. }
  destruct (store_all_tracks (nth_message ms) 1 ms st0) as (st & Hst & Ht & Hh & Hr);
    [done|simpl; lia|done|apply nth_message_all|].
  exists st. split; [done|]. simpl in Hh, Hr. rewrite Z.add_0_l in Hh.
  split; [by unfold RingSeqStore.latest; rewrite Hh|].
  assert (is_u64 from) as Hu by (unfold in_width, u64_max in *; lia). unfold in_width in Hc.
  case_match eqn:Ew; [apply Z.ltb_lt in Ew|apply Z.ltb_ge in Ew].
  - change (RingSeqStore.range from count st) with (SeqStore.range from count st).
    rewrite (tracks_range (nth_message ms) 1) by (done || simpl; unfold u64_max in *; lia). simpl. rewrite Hh. f_equal. rewrite nth_message_run by lia.
    f_equal. destruct (Z.le_ge_cases count (Z.of_nat (length ms) - from + 1)) as [Hle|Hge].
    + by rewrite Z.min_l.
    + by rewrite Z.min_r, !take_ge by (rewrite ?length_drop; lia).
  - rewrite (RingSeqStoreFacts.range_spec from count st) by (done || lia || apply Ht).
    f_equal. apply run_of_none, (ring_window (nth_message ms) 1); [done|]. rewrite Hh, Hr. lia.
Qed.

Lemma ring_serves_recent_witness :
  ∃ st, store_all 1 [fixture EventCode.StartOfMessages; fixture EventCode.StartOfSystemHours;
                     fixture EventCode.EndOfMessages] (RingSeqStore.with_capacity 2) = (st, Ok tt)
    ∧ RingSeqStore.latest st = Ok 3
    ∧ RingSeqStore.range 2 5 st
      = Ok [(2, fixture EventCode.StartOfSystemHours); (3, fixture EventCode.EndOfMessages)].
Proof.
  apply (ring_serves_recent 2 [fixture EventCode.StartOfMessages;
    fixture EventCode.StartOfSystemHours; fixture EventCode.EndOfMessages] 2 5);
    [by repeat constructor|unfold u64_max; simpl; lia..|by split].
Defined.

(** The warm-up policy over a store that was fed in order returns every
    message that the store still has, from the earliest to the latest, and that
    is at least the last [retention] of them. *)
Theorem warmup_from_store_complete `{SeqStore.Contract St E, SeqStore.Boxed E}
    (msgs : Z → Message.t) lo (st : St) :
  store_tracks msgs lo st → lo ≤ SeqStore.high st < SeqStore.seq_limit St →
  ∃ e, SeqStore.earliest st = Ok e
    ∧ 1 ≤ e ≤ Z.max lo (SeqStore.high st - SeqStore.retention st + 1)
    ∧ WarmupFromSeqStore.warmup st = Ok (map msgs (seqZ e (SeqStore.high st - e + 1))).
Proof.
  intros Ht Hhi. pose proof (tr_inv _ _ _ Ht) as Hi. pose proof (tr_lo _ _ _ Ht).
  pose proof (SeqStore.retention_ok st Hi). pose proof SeqStore.limits_ok as Hlim.
  destruct (SeqStore.earliest_ok st Hi) as (e & He & Hmin & _ & Hin).
  assert (∀ k, lo ≤ k ≤ SeqStore.high st → SeqStore.high st - SeqStore.retention st < k →
    is_Some (SeqStore.contents st !! k)) as Hkept by apply (tr_kept _ _ _ Ht).
  assert (is_Some (SeqStore.contents st !! e)) as He'.
  { apply Hin. intros Hnil. destruct (Hkept (SeqStore.high st)) as [x Hx]; [lia|lia|].
    by rewrite Hnil, lookup_empty in Hx. }
  assert (lo ≤ e ≤ SeqStore.high st) as Hle.
  { destruct (SeqStore.keys_ok st e Hi He') as [_ ?]. destruct He' as [x Hx].
    destruct (tr_agree _ _ _ Ht _ _ Hx). lia. }
  exists e. split_and!; [done|lia|apply Hmin, Hkept; lia|].
  unfold WarmupFromSeqStore.warmup. rewrite SeqStore.latest_ok by done. simpl.
  rewrite (proj2 (Z.eqb_neq _ _)) by lia. rewrite He. simpl.
  rewrite u64_add_small by (unfold u64_max in *; lia).
  rewrite (range_stored msgs); simpl; [|done| |lia|unfold in_width, u64_max in *; lia|lia|lia].
  - by rewrite Z.min_id, map_map.
  - intros k Hk. apply (tracks_lookup _ lo _ _ Ht), (tr_up _ _ _ Ht e); [done|lia].
Qed.

(** The state after three messages in a ring of two. *)
Definition ring_of_three : RingSeqStore.t :=
  (store_all 1 (map fixture [EventCode.StartOfMessages; EventCode.StartOfSystemHours;
                           EventCode.EndOfMessages]) (RingSeqStore.with_capacity 2)).1.

Lemma ring_of_three_tracks :
  store_tracks (nth_message (map fixture [EventCode.StartOfMessages; EventCode.StartOfSystemHours;
    EventCode.EndOfMessages])) 1 ring_of_three.
Proof.
  set (ms := map fixture _). set (st0 := RingSeqStore.with_capacity 2).
  destruct (store_all_tracks (nth_message ms) 1 ms st0) as (st & Hst & Ht & _).
  - change 1 with (SeqStore.high st0 + 1).
    apply tracks_empty; [apply RingSeqStoreFacts.inv_with_capacity|done].
  - simpl. unfold u64_max. lia.
  - by repeat constructor.
  - apply nth_message_all.
  - change (SeqStore.high st0 + 1) with 1 in Hst. unfold ring_of_three.
    change (store_all 1 (map fixture _) _) with (store_all 1 ms st0). by rewrite Hst.
Qed.

Lemma warmup_from_store_complete_witness :
  ∃ e, SeqStore.earliest ring_of_three = Ok e ∧ 1 ≤ e ≤ 2
    ∧ WarmupFromSeqStore.warmup ring_of_three
      = Ok (map (nth_message (map fixture [EventCode.StartOfMessages; EventCode.StartOfSystemHours;
              EventCode.EndOfMessages])) (seqZ e (3 - e + 1))).
Proof.
  apply (warmup_from_store_complete _ 1 ring_of_three ring_of_three_tracks).
  vm_compute. split; [discriminate|reflexivity].
Defined.

(** The contract test accepts every empty store that retains two messages. *)
Lemma contract_test_passes `{SeqStore.Contract St E} (st : St) :
  SeqStore.inv st → SeqStore.contents st = ∅ → SeqStore.high st = 0 → 2 ≤ SeqStore.retention st →
  assert_seq_store_contract st = true.
Proof.
  intros Hi He Hh Hret. set (m1 := fixture EventCode.StartOfMessages).
  set (m2 := fixture EventCode.StartOfSystemHours).
  set (msgs := λ k, if k =? 1 then m1 else m2).
  assert (store_tracks msgs 1 st) as Ht.
  { pose proof (tracks_empty msgs st Hi He) as Ht. by rewrite Hh in Ht. }
  pose proof SeqStore.limits_ok as Hlim.
  assert (∀ k, wf (msgs k)) as Hwf by (intros k; unfold msgs; by case_match).
  destruct (tracks_store msgs 1 st) as (st1 & Hs1 & Ht1 & Hh1 & Hr1); [done|lia|done|].
  destruct (tracks_store msgs 1 st1) as (st2 & Hs2 & Ht2 & Hh2 & Hr2); [done|lia|done|].
  rewrite Hh1, Hh in *. change (0 + 1) with 1 in *. change (1 + 1) with 2 in *.
  pose proof (tr_inv _ _ _ Ht1) as Hi1. pose proof (tr_inv _ _ _ Ht2) as Hi2.
  destruct (SeqStore.earliest_ok st Hi) as (e0 & He0 & _ & He0' & _).
  destruct (SeqStore.earliest_ok st1 Hi1) as (e1 & He1 & He1' & _).
  assert (is_Some (SeqStore.contents st1 !! 1)) as Hc1.
  { apply (tr_kept _ _ _ Ht1); lia. }
  assert (SeqStore.contents st2 !! 0 = None) as Hc0.
  { destruct (SeqStore.contents st2 !! 0) as [x|] eqn:E0; [|done].
    destruct (tr_agree _ _ _ Ht2 _ _ E0). lia. }
  destruct (SeqStore.restore_ok st2 1 m1) as (st3 & Hre & Hi3 & Hh3 & Hc3); [done| |].
  { apply (tracks_lookup msgs 1 st2 1); [done|].
    apply (tr_kept _ _ _ Ht2); lia. }
  unfold assert_seq_store_contract, store_then, expect_range, expect.
  change (fixture EventCode.StartOfMessages) with m1.
  change (fixture EventCode.StartOfSystemHours) with m2.
  rewrite SeqStore.latest_ok, He0, Hh, (He0' He) by done.
  rewrite (SeqStore.range_ok st), He, run_of_none by (done || lia || apply lookup_empty).
  change m1 with (msgs 1) at 1. rewrite Hs1, SeqStore.latest_ok, Hh1, He1 by done.
  rewrite (tracks_range msgs 1 st1) by (done || lia). rewrite Hh1.
  change m2 with (msgs 2) at 1. rewrite Hs2, !(tracks_range msgs 1 st2) by (done || lia). rewrite Hh2.
  rewrite (SeqStore.range_ok st2 0), run_of_none, Hre by (done || lia).
  assert (SeqStore.range 1 100 st3 = SeqStore.range 1 100 st2) as ->
    by by rewrite !SeqStore.range_ok, Hc3 by (done || lia).
  rewrite (tracks_range msgs 1 st2) by (done || lia). rewrite Hh2. simpl.
  rewrite (proj2 (Z.leb_le _ _)) by by apply He1'.
  done.
Qed.

(** The crate's own contract test accepts a fresh ring buffer if and only
    if its capacity is at least two; it accepts the store that drops
    everything. *)
Theorem contract_test_ring c :
  assert_seq_store_contract (RingSeqStore.with_capacity c) = (2 <=? c)
  ∧ assert_seq_store_contract NullSeqStore.new = true.
Proof.
  split; [|by vm_compute]. destruct (Z.leb_spec 2 c) as [Hc|Hc].
  - apply contract_test_passes; simpl; [apply RingSeqStoreFacts.inv_with_capacity|done|done|lia].
  - unfold RingSeqStore.with_capacity. rewrite Z.max_r by lia. by vm_compute.
Qed.
