(* ===== verification/Postgres.v ===== *)
(** The PostgreSQL sequence store ([crates/itch-source-postgres/src/lib.rs]).

    The store builds the text of its statements and hands them to a connection
    pool.  The pool and the server behind it are not part of the repository:
    [Pool] has the calls that the store makes and [Documented] what PostgreSQL
    documents of the seven statements, on one table.  [Table] is a pool that has
    exactly that behaviour.  A statement is atomic, so a method is one step.

    The store keeps the contract of [SeqStore.v] for numbers that a [BIGINT] can
    hold, so what is proved of the servers holds with it. *)

From S2P Require Import Prelude Primitives Text Enums Messages Codec CodecMessages MessageCodec SeqStore.

Definition i64_max : Z := 2 ^ 63 - 1.
Definition is_i64 (x : Z) : Prop := - 2 ^ 63 ≤ x ≤ i64_max.

Module Postgres.
Definition DEFAULT_URL : list Z := text "postgres://localhost/itch".
Definition DEFAULT_TABLE : list Z := text "itch_messages".
Definition DEFAULT_MAX_CONNECTIONS : Z := 16.

Module Config.
Record t := mk { url : list Z; table : list Z; max_connections : Z }.
Definition default : t := mk DEFAULT_URL DEFAULT_TABLE DEFAULT_MAX_CONNECTIONS.
End Config.

(** A bound parameter. *)
Inductive param := Bigint (v : Z) | Bytea (bs : list Z).

(** [sqlx::Error]: the variant that the store builds itself, and [Display]. *)
Class SqlxError (Er : Type) := { protocol : list Z → Er; display : Er → list Z }.

(** The calls into [sqlx]: [open] opens a pool, [execute] runs a statement,
    [fetch_all] and [fetch_one] read its rows. *)
Class Pool (D Er : Type) := {
  open : Z → list Z → result D Er;
  execute : list Z → list param → D → D * result unit Er;
  fetch_all : list Z → list param → D → result (list (Z * list Z)) Er;
  fetch_one : list Z → list param → D → result Z Er;
}.
#[global] Hint Mode Pool ! - : typeclass_instances.

Inductive Error (Er : Type) :=
| Sqlx (e : Er)
| Encode (e : ProtocolError)
| Decode (e : ProtocolError)
| MigrationFailed (reason : list Z)
| InvalidTableName (name : list Z).
#[global] Arguments Sqlx {_} _.
#[global] Arguments Encode {_} _.
#[global] Arguments Decode {_} _.
#[global] Arguments MigrationFailed {_} _.
#[global] Arguments InvalidTableName {_} _.

Definition is_ascii_alphabetic (c : Z) : bool :=
  in_range (b@"a") (b@"z") c || in_range (b@"A") (b@"Z") c.
Definition is_ascii_alphanumeric (c : Z) : bool := is_ascii_alphabetic c || is_ascii_digit c.

(** A character outside ASCII has bytes above 127 only, which both tests refuse,
    so the loop over the characters is one over the bytes. *)
Definition validate_identifier {Er} (name : list Z) : result unit (Error Er) :=
  match name with
  | [] => Err (InvalidTableName name)
  | first :: chars =>
      if negb (is_ascii_alphabetic first || (first =? b@"_")) then Err (InvalidTableName name)
      else if forallb (λ c, is_ascii_alphanumeric c || (c =? b@"_")) chars then Ok tt
      else Err (InvalidTableName name)
  end.

Definition seq_to_i64 (seq : Z) : option Z := if i64_max <? seq then None else Some seq.

(** ** The statements *)

Definition nl : list Z := [10].
Definition ping : list Z := text "SELECT 1".
Definition create_table (table : list Z) : list Z :=
  text "CREATE TABLE IF NOT EXISTS " ++ table ++ text " (" ++ nl
  ++ text "    seq    BIGINT PRIMARY KEY," ++ nl
  ++ text "    bytes  BYTEA  NOT NULL," ++ nl
  ++ text "    stored TIMESTAMPTZ NOT NULL DEFAULT now()" ++ nl ++ text ")".
Definition create_index (table : list Z) : list Z :=
  text "CREATE INDEX IF NOT EXISTS idx_" ++ table ++ text "_seq ON " ++ table ++ text " (seq)".
Definition drop_stmt (table : list Z) : list Z := text "DROP TABLE IF EXISTS " ++ table.
Definition insert_stmt (table : list Z) : list Z :=
  text "INSERT INTO " ++ table ++ text " (seq, bytes) VALUES ($1, $2) "
  ++ text "ON CONFLICT (seq) DO NOTHING".
Definition range_stmt (table : list Z) : list Z :=
  text "SELECT seq, bytes FROM " ++ table ++ text " WHERE seq >= $1 AND seq < $1 + $2 "
  ++ text "ORDER BY seq".
Definition latest_stmt (table : list Z) : list Z :=
  text "SELECT COALESCE(MAX(seq), 0)::BIGINT AS m FROM " ++ table.
Definition earliest_stmt (table : list Z) : list Z :=
  text "SELECT COALESCE(MIN(seq), 0)::BIGINT AS m FROM " ++ table.

(** ** The store *)

Record t (D : Type) := mk { pool : D; table : list Z }.
#[global] Arguments mk {_} _ _.
#[global] Arguments pool {_} _.
#[global] Arguments table {_} _.

Section store.
Context `{Pool D Er, SqlxError Er}.

(** [r?] on an error of [sqlx]. *)
Definition sqlx {A} (r : result A Er) : result A (Error Er) :=
  match r with Ok a => Ok a | Err e => Err (Sqlx e) end.

(** [query.execute(&self.pool)], with the error mapped by [f]. *)
Definition run (stmt : list Z) (params : list param) (f : Er → Error Er) : mut (t D) unit (Error Er) :=
  λ st, let '(d, r) := execute stmt params (pool st) in
        (mk d (table st), match r with Ok _ => Ok tt | Err e => Err (f e) end).

Definition connect (config : Config.t) : result (t D) (Error Er) :=
  let? _ := validate_identifier (Config.table config) in
  let? pool := sqlx (open (Config.max_connections config) (Config.url config)) in
  let '(pool, r) := execute ping [] pool in
  let? _ := sqlx r in
  Ok (mk pool (Config.table config)).

Definition migrate : mut (t D) unit (Error Er) := λ st,
  match validate_identifier (table st) with
  | Err e => (st, Err e)
  | Ok _ =>
      (run (create_table (table st)) []
         (λ e, MigrationFailed (text "CREATE TABLE: " ++ display e));;?
       run (create_index (table st)) []
         (λ e, MigrationFailed (text "CREATE INDEX: " ++ display e))) st
  end.

Definition drop_table : mut (t D) unit (Error Er) := λ st,
  match validate_identifier (table st) with
  | Err e => (st, Err e)
  | Ok _ => run (drop_stmt (table st)) [] Sqlx st
  end.

Definition store (seq : Z) (msg : Message.t) : mut (t D) unit (Error Er) := λ st,
  match seq_to_i64 seq with
  | None =>
      (st, Err (Sqlx (protocol (text "sequence " ++ decimal seq ++ text " exceeds BIGINT range"))))
  | Some seq_i64 =>
      let '(buf, r) := Message_encode msg (replicate (Message.encoded_len msg) 0) in
      match r with
      | Err e => (st, Err (Encode e))
      | Ok _ => run (insert_stmt (table st)) [Bigint seq_i64; Bytea buf] Sqlx st
      end
  end.

(** The loop over the rows. *)
Fixpoint rows_loop (rows : list (Z * list Z)) (expected count : Z) (result_ : list (Z * Message.t))
    : result (list (Z * Message.t)) (Error Er) :=
  match rows with
  | [] => Ok result_
  | (seq_db, bytes) :: rows =>
      if seq_db <? 0 then Ok result_
      else if negb (seq_db =? expected) then Ok result_
      else
        match Message_decode bytes with
        | Err e => Err (Decode e)
        | Ok msg =>
            let result_ := result_ ++ [(seq_db, msg)] in
            let expected := u64_saturating_add expected 1 in
            if count <=? Z.of_nat (length result_) then Ok result_
            else rows_loop rows expected count result_
        end
  end.

Definition range (from count : Z) (st : t D) : result (list (Z * Message.t)) (Error Er) :=
  if count =? 0 then Ok []
  else
    match seq_to_i64 from with
    | None => Ok []
    | Some from_i64 =>
        let count_i64 := if count <=? i64_max then count else i64_max in
        let? rows := sqlx (fetch_all (range_stmt (table st)) [Bigint from_i64; Bigint count_i64] (pool st)) in
        rows_loop rows from count []
    end.

Definition latest (st : t D) : result Z (Error Er) :=
  let? v := sqlx (fetch_one (latest_stmt (table st)) [] (pool st)) in Ok (Z.max v 0).
Definition earliest (st : t D) : result Z (Error Er) :=
  let? v := sqlx (fetch_one (earliest_stmt (table st)) [] (pool st)) in Ok (Z.max v 0).

#[global] Instance boxed : SeqStore.Boxed (Error Er) := λ e,
  match e with
  | Sqlx _ => "sqlx error" | Encode _ => "encode error" | Decode _ => "decode error"
  | MigrationFailed _ => "migration failed" | InvalidTableName _ => "invalid table name"
  end.

#[global] Instance ops : SeqStore.Ops (t D) (Error Er) := {|
  SeqStore.store := store; SeqStore.range := range;
  SeqStore.latest := latest; SeqStore.earliest := earliest |}.
End store.

(** ** What PostgreSQL documents *)

(** The highest and the lowest number of a table, zero when it is empty. *)
Definition max_key (m : gmap Z (list Z)) : Z :=
  match btree_last m with Some (k, _) => k | None => 0 end.
Definition min_key (m : gmap Z (list Z)) : Z :=
  match btree_first m with Some (k, _) => k | None => 0 end.

(** On a table of this name, while the server can be reached ([up]): [rows] are
    its rows, [None] when it does not exist.  A sum outside [BIGINT] is the error
    numeric_value_out_of_range. *)
Class Documented (D Er : Type) `{Pool D Er} (table : list Z) := {
  up : D → Prop;
  rows : D → option (gmap Z (list Z));
  create_ok d : up d →
    ∃ d', execute (create_table table) [] d = (d', Ok tt) ∧ up d' ∧ rows d' = Some (default ∅ (rows d));
  index_ok d m : up d → rows d = Some m →
    ∃ d', execute (create_index table) [] d = (d', Ok tt) ∧ up d' ∧ rows d' = Some m;
  drop_ok d : up d →
    ∃ d', execute (drop_stmt table) [] d = (d', Ok tt) ∧ up d' ∧ rows d' = None;
  insert_ok d m seq bytes : up d → rows d = Some m → is_i64 seq →
    ∃ d', execute (insert_stmt table) [Bigint seq; Bytea bytes] d = (d', Ok tt) ∧ up d'
      ∧ rows d' = Some (match m !! seq with Some _ => m | None => <[seq := bytes]> m end);
  range_rows d m a b : up d → rows d = Some m → is_i64 a → is_i64 b → a + b ≤ i64_max →
    fetch_all (range_stmt table) [Bigint a; Bigint b] d
    = Ok (filter (λ r, a ≤ r.1 ∧ r.1 < a + b) (btree_iter m));
  range_overflow d m a b : up d → rows d = Some m → is_i64 a → is_i64 b → i64_max < a + b →
    ∃ e, fetch_all (range_stmt table) [Bigint a; Bigint b] d = Err e;
  latest_row d m : up d → rows d = Some m → fetch_one (latest_stmt table) [] d = Ok (max_key m);
  earliest_row d m : up d → rows d = Some m → fetch_one (earliest_stmt table) [] d = Ok (min_key m);
}.
End Postgres.

(** ** The store keeps the contract *)

Module PostgresFacts.
Import Postgres.

Definition decoded (m : gmap Z (list Z)) : gmap Z Message.t :=
  omap (λ bs, match Message_decode bs with Ok msg => Some msg | Err _ => None end) m.

(** A table that only the store wrote to. *)
Definition table_ok (m : gmap Z (list Z)) : Prop :=
  map_Forall (λ k bs, 0 ≤ k ≤ i64_max ∧ ∃ msg, wf msg ∧ bs = message_wire msg) m.

Lemma decoded_lookup m k msg :
  table_ok m → decoded m !! k = Some msg ↔ m !! k = Some (message_wire msg) ∧ wf msg.
Proof.
  intros Hm. unfold decoded. rewrite lookup_omap. destruct (m !! k) as [bs|] eqn:E; simpl.
  - destruct (Hm _ _ E) as (_ & msg' & Hwf & ->). rewrite Message_decode_all by done. split.
    + by intros [= ->].
    + intros [E' Hwf']. apply (inj Some) in E'. pose proof (Message_decode_all msg' Hwf) as Hd.
      rewrite E', Message_decode_all in Hd by done. congruence.
  - split; [done|by intros [? _]].
Qed.

Lemma decoded_some m k : table_ok m → is_Some (decoded m !! k) ↔ is_Some (m !! k).
Proof.
  intros Hm. split.
  - intros [msg Hk]. apply decoded_lookup in Hk as [? _]; [by eexists|done].
  - intros [bs Hk]. destruct (Hm _ _ Hk) as (_ & msg & Hwf & ->). exists msg. by apply decoded_lookup.
Qed.

Lemma decoded_empty m : table_ok m → decoded m = ∅ ↔ m = ∅.
Proof.
  intros Hm. split; [|intros ->; apply omap_empty]. intros He. apply map_eq. intros k.
  rewrite lookup_empty. apply eq_None_not_Some. rewrite <-(decoded_some _ _ Hm), He, lookup_empty.
  by intros [? ?].
Qed.

Lemma max_key_spec m k : table_ok m → is_Some (m !! k) → 0 ≤ k ≤ max_key m.
Proof.
  intros Hm [bs Hk]. unfold max_key. destruct (btree_last m) as [[k' bs']|] eqn:E.
  - apply btree_last_Some in E as [Hk' Hmax]. specialize (Hmax _ _ Hk). unfold ord_key in Hmax. simpl in Hmax.
    destruct (Hm _ _ Hk) as [? _]. lia.
  - apply btree_last_None in E. subst m. by rewrite lookup_empty in Hk.
Qed.

Lemma max_key_bounds m : table_ok m → 0 ≤ max_key m ≤ i64_max.
Proof.
  intros Hm. unfold max_key. destruct (btree_last m) as [[k' bs']|] eqn:E; [|unfold i64_max; lia].
  apply btree_last_Some in E as [Hk' _]. by destruct (Hm _ _ Hk') as [? _].
Qed.

Lemma max_key_in m : m ≠ ∅ → is_Some (m !! max_key m).
Proof.
  intros Hm. unfold max_key. destruct (btree_last m) as [[k bs]|] eqn:E.
  - apply btree_last_Some in E as [? _]. by eexists.
  - by apply btree_last_None in E.
Qed.

Lemma max_key_insert m k bs : table_ok m → max_key m < k → max_key (<[k := bs]> m) = k.
Proof.
  intros Hm Hk. unfold max_key at 1. rewrite (proj2 (btree_last_Some _ k bs)); [done|].
  split; [by rewrite lookup_insert_eq|]. intros k' bs' Hk'. unfold ord_key. simpl.
  apply lookup_insert_Some in Hk' as [[-> _]|[? Hk']]; [lia|].
  destruct (max_key_spec m k' Hm); [by eexists|lia].
Qed.

Section facts.
Context (tbl : list Z) `{Pool D Er, SqlxError Er} {doc : Documented D Er tbl}.
Implicit Types (st : t D) (m : gmap Z (list Z)).

Definition inv st : Prop :=
  table st = tbl ∧ up (pool st) ∧ ∃ m, rows (pool st) = Some m ∧ table_ok m.
Definition the_rows st : gmap Z (list Z) := default ∅ (rows (pool st)).

Lemma inv_rows st :
  inv st → table st = tbl ∧ up (pool st) ∧ rows (pool st) = Some (the_rows st) ∧ table_ok (the_rows st).
Proof.
  intros (? & ? & m & Hm & ?). unfold the_rows. rewrite Hm. by split_and!.
Qed.

(** On rows that decode, the loop is the one of the ring buffer. *)
Lemma rows_loop_ring (rs : list (Z * list Z)) e count (out : list (Z * Message.t)) :
  Forall (λ r, 0 ≤ r.1 ∧ ∃ msg, wf msg ∧ r.2 = message_wire msg) rs →
  Z.of_nat (length out) < count →
  rows_loop (Er := Er) rs e count out
  = Ok (RingSeqStore.range_loop
          (omap (λ r, match Message_decode r.2 with Ok msg => Some (r.1, msg) | Err _ => None end) rs)
          e count out).
Proof.
  intros Hrs. revert e out. induction Hrs as [|[k bs] rs [Hk (msg & Hwf & Hbs)] _ IH]; intros e out Hout; [done|].
  simpl in Hk, Hbs. subst bs. cbn [rows_loop omap list_omap fst snd]. rewrite Message_decode_all by done.
  rewrite (proj2 (Z.ltb_ge _ _)) by done. cbn [RingSeqStore.range_loop].
  destruct (negb (k =? e)); [done|]. rewrite length_app. cbn [length].
  destruct (Z.leb_spec count (Z.of_nat (length out + 1))) as [Hc|Hc].
  - rewrite (proj2 (Z.eqb_eq _ _)) by lia. done.
  - rewrite (proj2 (Z.eqb_neq _ _)) by lia. apply IH. rewrite length_app. simpl. lia.
Qed.

Lemma selected_decode m a b :
  table_ok m →
  Forall (λ r, 0 ≤ r.1 ∧ ∃ msg, wf msg ∧ r.2 = message_wire msg)
    (filter (λ r, a ≤ r.1 ∧ r.1 < b) (btree_iter m)).
Proof.
  intros Hm. apply Forall_forall. intros [k bs] Hr.
  apply list_elem_of_filter in Hr as [_ Hr]. apply elem_of_btree_iter in Hr.
  destruct (Hm _ _ Hr) as ([? _] & ?). done.
Qed.
Lemma postgres_range_spec st from count :
  inv st → is_u64 from → 0 ≤ count → from + count ≤ i64_max →
  range from count st = Ok (run_of (decoded (the_rows st)) from (Z.to_nat count)).
Proof.
  intros (Ht & Hup & Hr & Hm)%inv_rows Hf Hc Hlim. unfold in_width in Hf.
  unfold range. destruct (Z.eqb_spec count 0) as [->|Hc0]; [done|].
  unfold seq_to_i64. rewrite (proj2 (Z.ltb_ge _ _)), (proj2 (Z.leb_le count _)) by lia.
  rewrite Ht, (range_rows _ (the_rows st)) by (done || unfold is_i64, i64_max in *; lia). simpl.
  rewrite rows_loop_ring; [|by apply selected_decode|simpl; lia]. f_equal.
  set (m' := filter (λ r, r.1 < from + count) (decoded (the_rows st))).
  rewrite (RingSeqStoreFacts.range_loop_run m').
  - simpl. rewrite Z.sub_0_r. apply run_of_ext. intros k Hk. unfold m'. rewrite map_lookup_filter.
    destruct (decoded _ !! k); [|done]. simpl. by rewrite option_guard_True by (simpl; lia).
  - intros k msg [Hk _]%map_lookup_filter_Some. apply decoded_lookup in Hk as [Hk _]; [|done].
    destruct (Hm _ _ Hk) as [? _]. simpl. unfold i64_max, u64_max in *. lia.
  - unfold in_width. lia.
  - eapply StronglySorted_omap; [|apply StronglySorted_filter', btree_iter_strict].
    intros [a x] [b y] a' b' Hab Ha Hb. simpl in *. repeat case_match; by simplify_eq.
  - intros k msg. unfold m'. rewrite map_lookup_filter_Some, decoded_lookup, list_elem_of_omap by done.
    split.
    + intros ([k' bs] & Hin & Hd). apply list_elem_of_filter in Hin as [Hin Hk].
      apply elem_of_btree_iter in Hk. simpl in *. destruct (Hm _ _ Hk) as (_ & msg' & Hwf & ->).
      rewrite Message_decode_all in Hd by done. simplify_eq. split; [split; [done|simpl; lia]|lia].
    + intros [[[Hk Hwf] Hlt] Hge]. exists (k, message_wire msg). cbn [fst snd] in *.
      rewrite Message_decode_all by done. split; [|done].
      apply list_elem_of_filter. split; [simpl; lia|]. by apply elem_of_btree_iter.
  - simpl. lia.
Qed.

(** A number above all others. *)
Lemma store_new st seq msg :
  inv st → max_key (the_rows st) < seq ≤ i64_max → wf msg →
  ∃ d, store seq msg st = (mk d tbl, Ok tt) ∧ inv (mk d tbl)
    ∧ the_rows (mk d tbl) = <[seq := message_wire msg]> (the_rows st).
Proof.
  intros (Ht & Hup & Hr & Hm)%inv_rows Hseq Hwf. pose proof (max_key_bounds _ Hm).
  unfold store, seq_to_i64. rewrite (proj2 (Z.ltb_ge _ _)) by lia.
  rewrite Message_encode_fresh by done. unfold run. rewrite Ht.
  destruct (insert_ok (pool st) (the_rows st) seq (message_wire msg)) as (d & -> & Hup' & Hr');
    [done|done|unfold is_i64, i64_max in *; lia|].
  assert (the_rows st !! seq = None) as Hnew.
  { apply eq_None_not_Some. intros Hs. pose proof (max_key_spec _ _ Hm Hs). lia. }
  rewrite Hnew in Hr'. exists d. split; [done|]. unfold the_rows at 1. simpl. rewrite Hr'. split; [|done].
  split_and!; [done|done|]. eexists. split; [done|]. apply map_Forall_insert_2; [|done]. split; [lia|by exists msg].
Qed.

(** A number that is there: nothing changes, whatever the message. *)
Lemma store_again st seq msg :
  inv st → is_Some (the_rows st !! seq) → wf msg →
  ∃ d, store seq msg st = (mk d tbl, Ok tt) ∧ inv (mk d tbl) ∧ the_rows (mk d tbl) = the_rows st.
Proof.
  intros (Ht & Hup & Hr & Hm)%inv_rows Hs Hwf.
  pose proof (max_key_spec _ _ Hm Hs). pose proof (max_key_bounds _ Hm).
  unfold store, seq_to_i64. rewrite (proj2 (Z.ltb_ge _ _)) by lia.
  rewrite Message_encode_fresh by done. unfold run. rewrite Ht.
  destruct (insert_ok (pool st) (the_rows st) seq (message_wire msg)) as (d & -> & Hup' & Hr');
    [done|done|unfold is_i64, i64_max in *; lia|].
  destruct Hs as [bs Hs]. rewrite Hs in Hr'. exists d. split; [done|].
  unfold the_rows at 1. simpl. rewrite Hr'. split; [|done]. split_and!; [done|done|by eexists].
Qed.

Lemma latest_spec st : inv st → latest st = Ok (max_key (the_rows st)).
Proof.
  intros (Ht & Hup & Hr & Hm)%inv_rows. unfold latest. rewrite Ht, (latest_row _ _ Hup Hr). simpl.
  pose proof (max_key_bounds _ Hm). f_equal. lia.
Qed.

Lemma earliest_spec st :
  inv st → ∃ e, earliest st = Ok e ∧ (∀ k, is_Some (decoded (the_rows st) !! k) → e ≤ k)
    ∧ (decoded (the_rows st) = ∅ → e = 0)
    ∧ (decoded (the_rows st) ≠ ∅ → is_Some (decoded (the_rows st) !! e)).
Proof.
  intros (Ht & Hup & Hr & Hm)%inv_rows. unfold earliest. rewrite Ht, (earliest_row _ _ Hup Hr). cbn [sqlx].
  eexists. split; [done|]. unfold min_key. destruct (btree_first (the_rows st)) as [[k bs]|] eqn:E.
  - apply btree_first_Some in E as [Hk Hmin]. destruct (Hm _ _ Hk) as [? _].
    rewrite Z.max_l by lia. split_and!.
    + intros k' Hk'. apply decoded_some in Hk' as [bs' Hk']; [|done]. apply (Hmin _ _ Hk').
    + rewrite decoded_empty by done. intros E'. by rewrite E', lookup_empty in Hk.
    + intros _. apply decoded_some; [done|by eexists].
  - apply btree_first_None in E. rewrite E. unfold decoded. rewrite omap_empty. split_and!; [|done|done].
    intros k' [x Hk']. by rewrite lookup_empty in Hk'.
Qed.
End facts.

(** Numbers up to [i64_max - 257]: the last of them leave no room for a replay of
    256 below the bound of [$1 + $2]. *)
#[global] Program Instance contract tbl `{Pool D Er, SqlxError Er} {doc : Documented D Er tbl}
    : SeqStore.Contract (t D) (Error Er) := {|
  SeqStore.inv := inv tbl; SeqStore.contents := λ st, decoded (the_rows tbl st);
  SeqStore.high := λ st, max_key (the_rows tbl st); SeqStore.retention := λ _, i64_max;
  SeqStore.seq_limit := i64_max - 257; SeqStore.range_limit := i64_max |}.
Next Obligation. intros. unfold i64_max, u64_max. lia. Qed.
Next Obligation. intros. by apply latest_spec. Qed.
Next Obligation.
  intros tbl D Er ??? st k Hi Hk. apply inv_rows in Hi as (_ & _ & _ & Hm).
  apply max_key_spec; [done|]. by apply decoded_some.
Qed.
Next Obligation.
  intros tbl D Er ??? st Hi. apply inv_rows in Hi as (_ & _ & _ & Hm).
  pose proof (max_key_bounds _ Hm). unfold i64_max, u64_max in *. lia.
Qed.
Next Obligation. intros. by apply postgres_range_spec. Qed.
Next Obligation. intros. by apply earliest_spec. Qed.
Next Obligation. intros. unfold i64_max. lia. Qed.
Next Obligation.
  intros tbl D Er ??? st seq msg Hi Hseq Hwf. simpl in *.
  destruct (store_new tbl st seq msg Hi) as (d & Hst & Hi' & Hr); [lia|done|].
  apply inv_rows in Hi as (_ & _ & _ & Hm). apply inv_rows in Hi' as Hi''. destruct Hi'' as (_ & _ & _ & Hm').
  eexists. split; [exact Hst|]. split; [done|]. rewrite Hr in *. rewrite max_key_insert by (done || lia).
  split_and!; [done|done|apply decoded_lookup; [done|by rewrite lookup_insert_eq]|].
  intros k Hk. left. unfold decoded. by rewrite !lookup_omap, lookup_insert_ne.
Qed.
Next Obligation.
  intros tbl D Er ??? st seq msg Hi Hk. simpl in *.
  pose proof Hi as (_ & _ & _ & Hm)%inv_rows. pose proof (proj1 (decoded_lookup _ _ _ Hm) Hk) as [Hrow Hwf].
  destruct (store_again tbl st seq msg Hi) as (d & Hst & Hi' & Hr); [by eexists|done|].
  eexists. split; [exact Hst|]. by rewrite Hr.
Qed.
End PostgresFacts.

(** ** A pool with the documented behaviour *)

Module PgTable.
Import Postgres.

(** The table [itch_messages] of a server that can always be reached. *)
Record t := mk { content : option (gmap Z (list Z)) }.

Inductive kind := Ping | CreateTable | CreateIndex | DropTable | Insert | Range | Latest | Earliest.
Definition statements : list (list Z * kind) :=
  [(ping, Ping); (create_table DEFAULT_TABLE, CreateTable); (create_index DEFAULT_TABLE, CreateIndex);
   (drop_stmt DEFAULT_TABLE, DropTable); (insert_stmt DEFAULT_TABLE, Insert);
   (range_stmt DEFAULT_TABLE, Range); (latest_stmt DEFAULT_TABLE, Latest);
   (earliest_stmt DEFAULT_TABLE, Earliest)].
Definition kind_of (sql : list Z) : option kind :=
  snd ∘ snd <$> list_find (λ s, s.1 = sql) statements.

#[global] Instance sqlx_error : SqlxError (list Z) := {| protocol := λ m, m; display := λ m, m |}.

#[global] Instance pool : Pool t (list Z) := {|
  open := λ _ _, Ok (mk None);
  execute := λ sql params d,
    match kind_of sql, params, content d with
    | Some Ping, [], _ => (d, Ok tt)
    | Some CreateTable, [], c => (mk (Some (default ∅ c)), Ok tt)
    | Some CreateIndex, [], Some _ => (d, Ok tt)
    | Some DropTable, [], _ => (mk None, Ok tt)
    | Some Insert, [Bigint seq; Bytea bytes], Some m =>
        (mk (Some (match m !! seq with Some _ => m | None => <[seq := bytes]> m end)), Ok tt)
    | _, _, _ => (d, Err (text "error"))
    end;
  fetch_all := λ sql params d,
    match kind_of sql, params, content d with
    | Some Range, [Bigint a; Bigint b], Some m =>
        if a + b <=? i64_max then Ok (filter (λ r, a ≤ r.1 ∧ r.1 < a + b) (btree_iter m))
        else Err (text "bigint out of range")
    | _, _, _ => Err (text "error")
    end;
  fetch_one := λ sql params d,
    match kind_of sql, params, content d with
    | Some Latest, [], Some m => Ok (max_key m)
    | Some Earliest, [], Some m => Ok (min_key m)
    | _, _, _ => Err (text "error")
    end |}.

Lemma kinds_of :
  kind_of (create_table DEFAULT_TABLE) = Some CreateTable
  ∧ kind_of (create_index DEFAULT_TABLE) = Some CreateIndex
  ∧ kind_of (drop_stmt DEFAULT_TABLE) = Some DropTable
  ∧ kind_of (insert_stmt DEFAULT_TABLE) = Some Insert
  ∧ kind_of (range_stmt DEFAULT_TABLE) = Some Range
  ∧ kind_of (latest_stmt DEFAULT_TABLE) = Some Latest
  ∧ kind_of (earliest_stmt DEFAULT_TABLE) = Some Earliest.
Proof. by vm_compute. Qed.

#[global] Program Instance documented : Documented t (list Z) DEFAULT_TABLE :=
  {| up := λ _, True; rows := content |}.
Next Obligation. intros d _. unfold execute, pool. rewrite (proj1 kinds_of). by eexists. Qed.
Next Obligation.
  intros d m _ Hm. unfold execute, pool. rewrite (proj1 (proj2 kinds_of)), Hm. by eexists.
Qed.
Next Obligation.
  intros d _. unfold execute, pool. rewrite (proj1 (proj2 (proj2 kinds_of))). by eexists.
Qed.
Next Obligation.
  intros d m seq bytes _ Hm _. unfold execute, pool.
  destruct kinds_of as (_ & _ & _ & -> & _). rewrite Hm. by eexists.
Qed.
Next Obligation.
  intros d m a b _ Hm _ _ Hab. unfold fetch_all, pool. destruct kinds_of as (_ & _ & _ & _ & -> & _).
  by rewrite Hm, (proj2 (Z.leb_le _ _)).
Qed.
Next Obligation.
  intros d m a b _ Hm _ _ Hab. unfold fetch_all, pool. destruct kinds_of as (_ & _ & _ & _ & -> & _).
  rewrite Hm, (proj2 (Z.leb_gt _ _)) by done. by eexists.
Qed.
Next Obligation.
  intros d m _ Hm. unfold fetch_one, pool. destruct kinds_of as (_ & _ & _ & _ & _ & -> & _).
  by rewrite Hm.
Qed.
Next Obligation.
  intros d m _ Hm. unfold fetch_one, pool. destruct kinds_of as (_ & _ & _ & _ & _ & _ & ->).
  by rewrite Hm.
Qed.
End PgTable.

(** ** Properties *)

Section migration.
Import Postgres PostgresFacts.
Context (tbl : list Z) `{Pool D Er, SqlxError Er} {doc : Documented D Er tbl}.
Implicit Types (d : D) (st : t D).

(** [migrate] creates the table, or keeps the one that is there. *)
Lemma migrate_spec d :
  validate_identifier (Er := Er) tbl = Ok tt → up d →
  ∃ d', migrate (mk d tbl) = (mk d' tbl, Ok tt) ∧ up d' ∧ rows d' = Some (default ∅ (rows d)).
Proof.
  intros Hv Hup. unfold migrate. simpl. rewrite Hv. unfold and_then, run. simpl.
  destruct (create_ok d Hup) as (d1 & -> & Hup1 & Hr1). simpl.
  destruct (index_ok d1 _ Hup1 Hr1) as (d2 & -> & Hup2 & Hr2). by exists d2.
Qed.

Lemma migrate_inv st :
  validate_identifier (Er := Er) tbl = Ok tt → inv tbl st →
  ∃ d, migrate st = (mk d tbl, Ok tt) ∧ inv tbl (mk d tbl) ∧ the_rows tbl (mk d tbl) = the_rows tbl st.
Proof.
  intros Hv (Ht & Hup & Hr & Hm)%inv_rows. destruct st as [d t']. simpl in *. subst t'.
  destruct (migrate_spec d Hv Hup) as (d' & Hmig & Hup' & Hr'). exists d'. rewrite Hr in Hr'. simpl in Hr'.
  split; [done|]. unfold the_rows at 1. simpl. rewrite Hr'. split; [|done]. split_and!; [done|done|by eexists].
Qed.
End migration.

(** C24: the PostgreSQL store is durable.  On a database where PostgreSQL does what
    it documents, creating the table and storing the messages 1 to n succeeds;
    then, also after the schema migration has run again as it does at every start
    of a publisher, the latest number is n, every run of stored numbers is
    returned exactly, and the crate's contract test accepts the fresh table. *)
Theorem postgres_durable (tbl : list Z) `{Postgres.Pool D Er, Postgres.SqlxError Er}
    {doc : Postgres.Documented D Er tbl} (d : D) (ms : list Message.t) from count :
  Postgres.validate_identifier (Er := Er) tbl = Ok tt → Postgres.up d → Postgres.rows d = None →
  Forall wf ms → Z.of_nat (length ms) ≤ i64_max - 257 →
  1 ≤ from ≤ Z.of_nat (length ms) + 1 → 0 ≤ count → from + count ≤ i64_max →
  ∃ st0 st1 st2,
    Postgres.migrate (Postgres.mk d tbl) = (st0, Ok tt)
    ∧ store_all 1 ms st0 = (st1, Ok tt) ∧ Postgres.migrate st1 = (st2, Ok tt)
    ∧ Postgres.latest st2 = Ok (Z.of_nat (length ms))
    ∧ Postgres.range from count st2
      = Ok (zip (seqZ from (Z.min count (Z.of_nat (length ms) - from + 1)))
                (take (Z.to_nat count) (drop (Z.to_nat (from - 1)) ms)))
    ∧ assert_seq_store_contract st0 = true.
Proof.
  intros Hv Hup Hr Hwf Hn Hfrom Hc Hlim.
  destruct (migrate_spec tbl d Hv Hup) as (d0 & Hmig & Hup0 & Hr0). rewrite Hr in Hr0. simpl in Hr0.
  set (st0 := Postgres.mk d0 tbl) in *.
  assert (PostgresFacts.the_rows tbl st0 = ∅) as Hnil.
  { unfold PostgresFacts.the_rows. simpl. by rewrite Hr0. }
  assert (PostgresFacts.inv tbl st0) as Hi0.
  { split_and!; [done|done|]. exists ∅. split; [done|apply map_Forall_empty]. }
  assert (SeqStore.contents st0 = ∅) as Hc0 by (simpl; rewrite Hnil; apply omap_empty).
  assert (SeqStore.high st0 = 0) as Hh0 by (simpl; by rewrite Hnil).
  pose proof (tracks_empty (nth_message ms) st0 Hi0 Hc0) as Ht0. rewrite Hh0 in Ht0. simpl in Ht0.
  destruct (store_all_tracks (nth_message ms) 1 ms st0) as (st1 & Hst1 & Ht1 & Hh1 & _);
    [done|rewrite Hh0; simpl; lia|done|rewrite Hh0; apply nth_message_all|].
  rewrite Hh0 in Hst1, Hh1. rewrite Z.add_0_l in Hh1.
  destruct (migrate_inv tbl st1 Hv (tr_inv _ _ _ Ht1)) as (d2 & Hm2 & Hi2 & Hr2).
  exists st0, st1, (Postgres.mk d2 tbl). split_and!; [done|done|done| | |].
  - change (SeqStore.latest (Postgres.mk d2 tbl) = Ok (Z.of_nat (length ms))).
    rewrite SeqStore.latest_ok by done. simpl. rewrite Hr2. by f_equal.
  - change (SeqStore.range from count (Postgres.mk d2 tbl) = Ok (zip (seqZ from (count `min` (Z.of_nat (length ms) - from + 1)))
                (take (Z.to_nat count) (drop (Z.to_nat (from - 1)) ms)))).
    assert (is_u64 from) as Hu by (unfold in_width, i64_max in *; lia).
    rewrite SeqStore.range_ok by done. simpl. rewrite Hr2.
    change (PostgresFacts.decoded (PostgresFacts.the_rows tbl st1)) with (SeqStore.contents st1).
    rewrite <-SeqStore.range_ok by (done || apply Ht1).
    rewrite (tracks_range (nth_message ms) 1), Hh1 by (done || (rewrite Hh1; simpl; unfold i64_max in *; lia)).
    f_equal. rewrite nth_message_run by lia. f_equal.
    destruct (Z.le_ge_cases count (Z.of_nat (length ms) - from + 1)).
    + by rewrite Z.min_l.
    + by rewrite Z.min_r, !take_ge by (rewrite ?length_drop; lia).
  - apply contract_test_passes; [done|done|done|]. simpl. unfold i64_max. lia.
Qed.

Definition three_fixtures : list Message.t :=
  map fixture [EventCode.StartOfMessages; EventCode.StartOfSystemHours; EventCode.EndOfMessages].

Lemma postgres_durable_witness :
  ∃ st0 st1 st2,
    Postgres.migrate (Postgres.mk (PgTable.mk None) Postgres.DEFAULT_TABLE) = (st0, Ok tt)
    ∧ store_all 1 three_fixtures st0 = (st1, Ok tt) ∧ Postgres.migrate st1 = (st2, Ok tt)
    ∧ Postgres.latest st2 = Ok 3
    ∧ Postgres.range 2 5 st2
      = Ok [(2, fixture EventCode.StartOfSystemHours); (3, fixture EventCode.EndOfMessages)]
    ∧ assert_seq_store_contract st0 = true.
Proof.
  apply (postgres_durable Postgres.DEFAULT_TABLE (PgTable.mk None) three_fixtures 2 5);
    [reflexivity|done|reflexivity|by repeat constructor|unfold i64_max; simpl; lia..].
Defined.

(** A run whose end lies above the largest [BIGINT] is refused by the database,
    although the trait asks for the messages that there are and the code means to
    clamp the count: for every stored number [from] from 1 on, a count above
    [i64::MAX - from] makes [range] fail. *)
Theorem postgres_range_overflow (tbl : list Z) `{Postgres.Pool D Er, Postgres.SqlxError Er}
    {doc : Postgres.Documented D Er tbl} (st : Postgres.t D) from count :
  PostgresFacts.inv tbl st → 1 ≤ from ≤ i64_max → i64_max - from < count →
  ∃ e, Postgres.range from count st = Err (Postgres.Sqlx e).
Proof.
  intros (Ht & Hup & Hr & Hm)%PostgresFacts.inv_rows Hf Hc. unfold Postgres.range.
  destruct (Z.eqb_spec count 0) as [->|_]; [lia|].
  unfold Postgres.seq_to_i64. rewrite (proj2 (Z.ltb_ge _ _)) by lia. rewrite Ht.
  set (c := if count <=? i64_max then count else i64_max).
  assert (i64_max - from < c ≤ i64_max) as Hc' by (unfold c; case_match eqn:E; lia).
  destruct (Postgres.range_overflow _ _ from c Hup Hr) as [e ->]; [unfold is_i64, i64_max in *; lia..|].
  by exists e.
Qed.

Lemma postgres_range_overflow_witness :
  ∃ e, Postgres.range 1 i64_max (Postgres.mk (PgTable.mk (Some ∅)) Postgres.DEFAULT_TABLE)
       = Err (Postgres.Sqlx e).
Proof.
  apply (postgres_range_overflow Postgres.DEFAULT_TABLE); [|unfold i64_max; lia..].
  split; [done|]. split; [done|]. exists ∅. split; [done|]. apply map_Forall_empty.
Defined.

(** Storing another message under a number that is taken is reported as a
    success and changes nothing: the first message stays. *)
Theorem postgres_conflict_ignored (tbl : list Z) `{Postgres.Pool D Er, Postgres.SqlxError Er}
    {doc : Postgres.Documented D Er tbl} (st : Postgres.t D) seq msg msg' :
  PostgresFacts.inv tbl st → seq < i64_max →
  PostgresFacts.decoded (PostgresFacts.the_rows tbl st) !! seq = Some msg → wf msg' →
  ∃ st', Postgres.store seq msg' st = (st', Ok tt) ∧ Postgres.range seq 1 st' = Ok [(seq, msg)].
Proof.
  intros Hi Hseq Hk Hwf. pose proof Hi as (_ & _ & _ & Hm)%PostgresFacts.inv_rows.
  assert (is_Some (PostgresFacts.the_rows tbl st !! seq)) as Hs.
  { apply (PostgresFacts.decoded_some _ _ Hm). by eexists. }
  pose proof (PostgresFacts.max_key_spec _ _ Hm Hs).
  destruct (PostgresFacts.store_again tbl st seq msg' Hi Hs Hwf) as (d & Hst & Hi' & Hr).
  exists (Postgres.mk d tbl). split; [done|].
  rewrite (PostgresFacts.postgres_range_spec tbl) by (done || unfold in_width, i64_max in *; lia).
  rewrite Hr. simpl. by rewrite Hk.
Qed.
