(* ===== verification/Redis.v ===== *)
(** The Redis sequence store ([crates/itch-source-redis/src/lib.rs]).

    The store sends five commands to a Redis server; the connection manager and
    the server are not part of the repository.  [Server] has the commands in the
    form in which the store sends them and [Documented] what Redis documents of
    them: keys with a deadline, a clock, a Lua script whose numbers are doubles,
    and a [SCAN] whose full iteration returns every matching key.  [Memory] is a
    server that has that behaviour.

    Messages expire, so this store does not keep the contract of [SeqStore.v];
    [redis_window] says what it has at any time instead.  Commands are atomic and
    a method is their sequence; time passes between methods. *)

From S2P Require Import Prelude Primitives Text Enums Messages Codec CodecMessages MessageCodec SeqStore.

Module Redis.
Module Config.
(** [ttl] is in nanoseconds. *)
Record t := mk { url : list Z; key_prefix : list Z; ttl : Z; max_connections : Z }.
Definition default : t := mk (text "redis://127.0.0.1:6379") (text "itch:seq") (3600 * 10 ^ 9) 16.
End Config.

(** The commands: [SET k v EX s], [EVAL script 1 k a b], the two uses of [GET],
    [SCAN c MATCH p COUNT n] and [PING].  A full [SCAN] has at most [scan_pages]
    pages. *)
Class Server (D Er : Type) := {
  open : list Z → result D Er;
  manager : D → result D Er;
  ping : D → result unit Er;
  set_ex : list Z → list Z → Z → D → D * result unit Er;
  eval : list Z → list Z → Z → Z → D → D * result Z Er;
  get_bytes : list Z → D → result (option (list Z)) Er;
  get_u64 : list Z → D → result (option Z) Er;
  scan : Z → list Z → Z → D → result (Z * list (list Z)) Er;
  scan_pages : D → nat;
}.
#[global] Hint Mode Server ! - : typeclass_instances.

Inductive Error (Er : Type) :=
| Client (e : Er)
| Pool (e : Er)
| Encode (e : ProtocolError)
| Decode (e : ProtocolError)
| InvalidSequence (reason : string).
#[global] Arguments Client {_} _.
#[global] Arguments Pool {_} _.
#[global] Arguments Encode {_} _.
#[global] Arguments Decode {_} _.
#[global] Arguments InvalidSequence {_} _.

Record t (D : Type) := mk { conn : D; key_prefix : list Z; ttl_secs : Z }.
#[global] Arguments mk {_} _ _ _.
#[global] Arguments conn {_} _.
#[global] Arguments key_prefix {_} _.
#[global] Arguments ttl_secs {_} _.

Definition msg_key {D} (st : t D) (seq : Z) : list Z := key_prefix st ++ text ":msg:" ++ decimal seq.
Definition latest_key {D} (st : t D) : list Z := key_prefix st ++ text ":latest".
Definition floor_key {D} (st : t D) (seq : Z) : list Z := key_prefix st ++ text ":floor:" ++ decimal seq.

(** The script that [store] sends with [EVAL]. *)
Definition latest_script : list Z :=
  text "local cur = redis.call('GET', KEYS[1]); "
  ++ text "if cur == false or tonumber(cur) < tonumber(ARGV[1]) then "
  ++ text "redis.call('SET', KEYS[1], ARGV[1], 'EX', ARGV[2]); "
  ++ text "end; return 1".

Section store.
Context `{Server D Er}.

Definition client {A} (r : result A Er) : result A (Error Er) :=
  match r with Ok a => Ok a | Err e => Err (Client e) end.

Definition connect (config : Config.t) : result (t D) (Error Er) :=
  let? c := client (open (Config.url config)) in
  let? c := match manager c with Ok c => Ok c | Err e => Err (Pool e) end in
  let? _ := client (ping c) in
  Ok (mk c (Config.key_prefix config) (Config.ttl config / 10 ^ 9)).

(** A command that changes the server, with its error mapped. *)
Definition send {A} (f : D → D * result A Er) : mut (t D) unit (Error Er) := λ st,
  let '(c, r) := f (conn st) in
  (mk c (key_prefix st) (ttl_secs st), match r with Ok _ => Ok tt | Err e => Err (Client e) end).

Definition store (seq : Z) (msg : Message.t) : mut (t D) unit (Error Er) := λ st,
  let '(buf, r) := Message_encode msg (replicate (Message.encoded_len msg) 0) in
  match r with
  | Err e => (st, Err (Encode e))
  | Ok _ =>
      (send (set_ex (msg_key st seq) buf (ttl_secs st));;?
       send (eval latest_script (latest_key st) seq (ttl_secs st * 2));;?
       send (set_ex (floor_key st seq) (text "1") (ttl_secs st))) st
  end.

(** [for i in 0..count], from [i] on. *)
Fixpoint range_loop (n : nat) (seq : Z) (st : t D) (result_ : list (Z * Message.t))
    : result (list (Z * Message.t)) (Error Er) :=
  match n with
  | O => Ok result_
  | S n =>
      let? bytes := client (get_bytes (msg_key st seq) (conn st)) in
      match bytes with
      | Some b =>
          match Message_decode b with
          | Ok msg => range_loop n (u64_add seq 1) st (result_ ++ [(seq, msg)])
          | Err e => Err (Decode e)
          end
      | None => Ok result_
      end
  end.
Definition range (from count : Z) (st : t D) : result (list (Z * Message.t)) (Error Er) :=
  range_loop (Z.to_nat count) from st [].

Definition latest (st : t D) : result Z (Error Er) :=
  let? val := client (get_u64 (latest_key st) (conn st)) in Ok (default 0 val).

Definition pattern (st : t D) : list Z := key_prefix st ++ text ":floor:*".

(** The keys of a page, with the lowest number so far. *)
Definition lowest (keys : list (list Z)) (earliest : Z) : Z :=
  foldl (λ acc key, match parse_u64 (after_last (b@":") key) with Some seq => Z.min acc seq | None => acc end)
    earliest keys.

Fixpoint earliest_loop (fuel : nat) (cursor earliest : Z) (st : t D) : option (result Z (Error Er)) :=
  match fuel with
  | O => None
  | S fuel =>
      match scan cursor (pattern st) 100 (conn st) with
      | Err e => Some (Err (Client e))
      | Ok (new_cursor, keys) =>
          let earliest := lowest keys earliest in
          if new_cursor =? 0 then Some (Ok (if earliest =? u64_max then 0 else earliest))
          else earliest_loop fuel new_cursor earliest st
      end
  end.
Definition earliest (st : t D) : result Z (Error Er) :=
  default (Ok 0) (earliest_loop (scan_pages (conn st)) 0 u64_max st).

#[global] Instance boxed : SeqStore.Boxed (Error Er) := λ e,
  match e with
  | Client _ => "redis error" | Pool _ => "redis pool error" | Encode _ => "encode error"
  | Decode _ => "decode error" | InvalidSequence reason => reason
  end.

#[global] Instance ops : SeqStore.Ops (t D) (Error Er) := {|
  SeqStore.store := store; SeqStore.range := range;
  SeqStore.latest := latest; SeqStore.earliest := earliest |}.
End store.

(** ** What Redis documents *)

(** [tonumber] of a decimal: the nearest double, ties to even. *)
Definition lua_number (n : Z) : Z :=
  if n <=? 2 ^ 53 then n
  else
    let e := Z.log2 n - 52 in
    let q := n / 2 ^ e in
    let r := n mod 2 ^ e in
    let half := 2 ^ (e - 1) in
    if (half <? r) || (half =? r) && Z.odd q then (q + 1) * 2 ^ e else q * 2 ^ e.

(** The keys that a pattern [p ++ "*"] matches, for [p] without wildcards. *)
Definition no_glob (p : list Z) : bool :=
  forallb (λ b, negb (bool_decide (b ∈ text "*?[]\^"))) p.

(** A key with its value and its deadline, seen at the time [T]. *)
Definition live_at (T : Z) (entries : gmap (list Z) (list Z * Z)) (k : list Z) : option (list Z) :=
  match entries !! k with
  | Some (v, deadline) => if T <? deadline then Some v else None
  | None => None
  end.

(** While the server can be reached ([up]); [now] is its clock, in seconds. *)
Class Documented (D Er : Type) `{Server D Er} := {
  up : D → Prop;
  now : D → Z;
  entries : D → gmap (list Z) (list Z * Z);
  set_ok d k v s : up d → 1 ≤ s →
    ∃ d', set_ex k v s d = (d', Ok tt) ∧ up d' ∧ now d' = now d
      ∧ entries d' = <[k := (v, now d + s)]> (entries d);
  eval_ok d k n s : up d → 1 ≤ s → is_u64 n →
    (∀ v, live_at (now d) (entries d) k = Some v → ∃ c, is_u64 c ∧ v = decimal c) →
    ∃ d', eval latest_script k n s d = (d', Ok 1) ∧ up d' ∧ now d' = now d
      ∧ entries d'
        = (if match live_at (now d) (entries d) k ≫= parse_u64 with
              | Some c => lua_number c <? lua_number n
              | None => true
              end
           then <[k := (decimal n, now d + s)]> (entries d) else entries d);
  get_ok d k : up d → get_bytes k d = Ok (live_at (now d) (entries d) k);
  get_u64_ok d k n : up d → is_u64 n → live_at (now d) (entries d) k = Some (decimal n) →
    get_u64 k d = Ok (Some n);
  get_u64_none d k : up d → live_at (now d) (entries d) k = None → get_u64 k d = Ok None;
  scan_ok d p : up d → no_glob p = true →
    ∃ pages : list (Z * list (list Z)),
      pages ≠ [] ∧ (length pages ≤ scan_pages d)%nat
      ∧ (∀ i c ks, pages !! i = Some (c, ks) →
           scan (match i with O => 0 | S i => default 0 (fst <$> pages !! i) end)
             (p ++ text "*") 100 d = Ok (c, ks)
           ∧ (c = 0 ↔ S i = length pages))
      ∧ ∀ k, k ∈ concat (map snd pages) ↔ is_Some (live_at (now d) (entries d) k) ∧ p `prefix_of` k;
}.
End Redis.

Module RedisFacts.
Import Redis.

(** The messages of a log of stores, the first under the number [first], that
    have not expired at the time [T]. *)
Fixpoint unexpired (ttl T first : Z) (log : list (Message.t * Z)) : gmap Z Message.t :=
  match log with
  | [] => ∅
  | (msg, stored) :: log =>
      let rest := unexpired ttl T (first + 1) log in
      if T <? stored + ttl then <[first := msg]> rest else rest
  end.

Definition logged (first : Z) (log : list (Message.t * Z)) (seq : Z) : option (Message.t * Z) :=
  if seq <? first then None else log !! Z.to_nat (seq - first).

Lemma unexpired_lookup ttl T first log seq :
  unexpired ttl T first log !! seq
  = e ← logged first log seq; if T <? e.2 + ttl then Some e.1 else None.
Proof.
  unfold logged. revert first. induction log as [|[msg t] log IH]; intros first.
  - simpl. rewrite lookup_empty. by destruct (seq <? first).
  - cbn [unexpired]. assert (logged (first + 1) log seq
      = if seq =? first then None else logged first ((msg, t) :: log) seq) as Hl.
    { unfold logged. destruct (Z.ltb_spec seq (first + 1)), (Z.ltb_spec seq first), (Z.eqb_spec seq first);
        try done; try lia.
      replace (Z.to_nat (seq - first)) with (S (Z.to_nat (seq - (first + 1)))) by lia. done. }
    unfold logged in Hl. destruct (Z.eqb_spec seq first) as [->|Hne].
    + rewrite (proj2 (Z.ltb_ge first first)), Z.sub_diag by lia. simpl.
      destruct (T <? t + ttl); [by rewrite lookup_insert_eq|]. by rewrite IH, Hl.
    + rewrite <-Hl. destruct (T <? t + ttl); [rewrite lookup_insert_ne by done|]; apply IH.
Qed.

Lemma logged_Some first log seq e :
  logged first log seq = Some e ↔ ∃ i, seq = first + Z.of_nat i ∧ log !! i = Some e.
Proof.
  unfold logged. destruct (Z.ltb_spec seq first) as [Hlt|Hge].
  - split; [done|]. intros (i & -> & _). lia.
  - split.
    + intros Hi. exists (Z.to_nat (seq - first)). split; [lia|done].
    + intros (i & -> & Hi). by replace (Z.to_nat (first + Z.of_nat i - first)) with i by lia.
Qed.

Lemma live_at_insert T es k v dl k' :
  live_at T (<[k := (v, dl)]> es) k'
  = if decide (k' = k) then if T <? dl then Some v else None else live_at T es k'.
Proof.
  unfold live_at. case_decide as E; [subst; by rewrite lookup_insert_eq|by rewrite lookup_insert_ne].
Qed.

(** ** Keys *)

Section keys.
Context {D : Type}.
Implicit Types (st : t D) (m n : Z).

Lemma msg_key_inj st m n : is_u64 m → is_u64 n → msg_key st m = msg_key st n → m = n.
Proof. unfold msg_key. intros Hm Hn E. apply app_inv_head, app_inv_head in E. by apply decimal_inj. Qed.
Lemma floor_key_inj st m n : is_u64 m → is_u64 n → floor_key st m = floor_key st n → m = n.
Proof. unfold floor_key. intros Hm Hn E. apply app_inv_head, app_inv_head in E. by apply decimal_inj. Qed.
Lemma msg_key_latest st m : msg_key st m ≠ latest_key st.
Proof. unfold msg_key, latest_key. intros E. by apply app_inv_head in E. Qed.
Lemma msg_key_floor st m n : msg_key st m ≠ floor_key st n.
Proof. unfold msg_key, floor_key. intros E. by apply app_inv_head in E. Qed.
Lemma floor_key_latest st m : floor_key st m ≠ latest_key st.
Proof. unfold floor_key, latest_key. intros E. by apply app_inv_head in E. Qed.

Definition floor_prefix st : list Z := key_prefix st ++ text ":floor:".
Lemma floor_prefix_key st m : floor_prefix st `prefix_of` floor_key st m.
Proof. exists (decimal m). unfold floor_key, floor_prefix. by rewrite <-app_assoc. Qed.
Lemma floor_prefix_msg st m : ¬ floor_prefix st `prefix_of` msg_key st m.
Proof.
  intros [k E]. unfold msg_key, floor_prefix in E. rewrite <-app_assoc in E. by apply app_inv_head in E.
Qed.
Lemma floor_prefix_latest st : ¬ floor_prefix st `prefix_of` latest_key st.
Proof.
  intros [k E]. unfold latest_key, floor_prefix in E. rewrite <-app_assoc in E. by apply app_inv_head in E.
Qed.

(** The number of a floor key. *)
Lemma floor_key_parse st m : is_u64 m → parse_u64 (after_last (b@":") (floor_key st m)) = Some m.
Proof.
  intros Hm. destruct (decimal_spec m Hm) as (Hd & _ & _). unfold floor_key.
  replace (key_prefix st ++ text ":floor:" ++ decimal m)
    with ((key_prefix st ++ text ":floor") ++ b@":" :: decimal m).
  - rewrite after_last_app; [by apply parse_decimal|]. by apply all_digits_no.
  - by rewrite <-app_assoc.
Qed.
End keys.

Section facts.
Context `{Server D Er} {doc : Documented D Er}.
Implicit Types (st : t D) (log : list (Message.t * Z)).

(** What the server holds after the stores of [log]: each message and its floor
    key for [ttl] seconds from its store on, the highest number for twice that. *)
Record rep (first : Z) (log : list (Message.t * Z)) st : Prop := {
  r_up : up (conn st);
  r_ttl : 1 ≤ ttl_secs st;
  r_glob : no_glob (key_prefix st) = true;
  r_first : 1 ≤ first;
  r_room : first + Z.of_nat (length log) ≤ 2 ^ 53;
  r_wf : Forall (λ e, wf e.1) log;
  r_msg T seq : now (conn st) ≤ T → is_u64 seq →
    live_at T (entries (conn st)) (msg_key st seq)
    = message_wire <$> unexpired (ttl_secs st) T first log !! seq;
  r_floor T k : now (conn st) ≤ T → floor_prefix st `prefix_of` k →
    is_Some (live_at T (entries (conn st)) k)
    ↔ ∃ seq, k = floor_key st seq ∧ is_Some (unexpired (ttl_secs st) T first log !! seq);
  r_latest T : now (conn st) ≤ T →
    live_at T (entries (conn st)) (latest_key st)
    = e ← last log; if T <? e.2 + ttl_secs st * 2
                    then Some (decimal (first + Z.of_nat (length log) - 1)) else None;
}.

(** Time passes, and expired keys may be removed. *)
Definition later (d d' : D) : Prop :=
  up d' ∧ now d ≤ now d' ∧ ∀ T k, now d' ≤ T → live_at T (entries d') k = live_at T (entries d) k.

(** No key of this store is on the server. *)
Definition fresh st : Prop :=
  up (conn st) ∧ 1 ≤ ttl_secs st ∧ no_glob (key_prefix st) = true
  ∧ ∀ T k, now (conn st) ≤ T → key_prefix st `prefix_of` k → live_at T (entries (conn st)) k = None.

(** A publisher stores one message after the other, time passing in between;
    [log] has each message with the time of its store. *)
Inductive feed (first : Z) : list (Message.t * Z) → t D → Prop :=
| feed_start st : fresh st → feed first [] st
| feed_store log st msg st' :
    feed first log st → wf msg → store (first + Z.of_nat (length log)) msg st = (st', Ok tt) →
    feed first (log ++ [(msg, now (conn st))]) st'
| feed_wait log st d' :
    feed first log st → later (conn st) d' → feed first log (mk d' (key_prefix st) (ttl_secs st)).

Lemma rep_start first st : fresh st → 1 ≤ first ≤ 2 ^ 53 → rep first [] st.
Proof.
  intros (Hup & Httl & Hg & Hno) Hf. split; [done|done|done|lia|simpl; lia|constructor| | |].
  - intros T seq HT _. rewrite Hno; [|done|by eexists]. cbn [unexpired]. by rewrite lookup_empty.
  - intros T k HT Hk. rewrite Hno; [|done|].
    + split; [by intros [? ?]|]. intros (seq & _ & [x Hx]). cbn [unexpired] in Hx. by rewrite lookup_empty in Hx.
    + etrans; [|done]. by eexists.
  - intros T HT. rewrite Hno; [done|done|by eexists].
Qed.

Lemma rep_wait first log st d' :
  rep first log st → later (conn st) d' → rep first log (mk d' (key_prefix st) (ttl_secs st)).
Proof.
  intros [] (Hup & Hnow & Hlive). split; simpl; try done.
  - intros T seq HT Hs. rewrite Hlive by done. apply (r_msg0 T seq); [lia|done].
  - intros T k HT Hk. rewrite Hlive by done. apply (r_floor0 T k); [lia|done].
  - intros T HT. rewrite Hlive by done. apply (r_latest0 T). lia.
Qed.

Lemma unexpired_snoc ttl T first log msg stored :
  unexpired ttl T first (log ++ [(msg, stored)])
  = if T <? stored + ttl then <[first + Z.of_nat (length log) := msg]> (unexpired ttl T first log)
    else unexpired ttl T first log.
Proof.
  revert first. induction log as [|[m t] log IH]; intros first; cbn [unexpired app length].
  - by rewrite Z.add_0_r.
  - rewrite IH. replace (first + 1 + Z.of_nat (length log)) with (first + Z.of_nat (S (length log))) by lia.
    destruct (T <? stored + ttl); [|done]. destruct (T <? t + ttl); [|done].
    by rewrite insert_insert_ne by lia.
Qed.

Lemma lua_number_small n : n ≤ 2 ^ 53 → lua_number n = n.
Proof. intros Hn. unfold lua_number. by rewrite (proj2 (Z.leb_le _ _)). Qed.

Lemma unexpired_beyond ttl T first log n :
  first + Z.of_nat (length log) ≤ n → unexpired ttl T first log !! n = None.
Proof.
  intros Hn. rewrite unexpired_lookup. destruct (logged first log n) as [e|] eqn:E; [|done].
  apply logged_Some in E as (i & -> & Hi). apply lookup_lt_Some in Hi. lia.
Qed.

Lemma unexpired_u64 ttl T first log n :
  1 ≤ first → first + Z.of_nat (length log) ≤ 2 ^ 53 → is_Some (unexpired ttl T first log !! n) →
  is_u64 n ∧ n < 2 ^ 53.
Proof.
  intros Hf Hl [x Hx]. rewrite unexpired_lookup in Hx.
  destruct (logged first log n) as [e|] eqn:E; [|done].
  apply logged_Some in E as (i & -> & Hi). apply lookup_lt_Some in Hi. unfold in_width. lia.
Qed.

(** The entries after a store. *)
Definition stored_entries st (n : Z) (msg : Message.t) (es : gmap (list Z) (list Z * Z)) (t : Z) : gmap (list Z) (list Z * Z) :=
  <[floor_key st n := (text "1", t + ttl_secs st)]>
  (<[latest_key st := (decimal n, t + ttl_secs st * 2)]>
   (<[msg_key st n := (message_wire msg, t + ttl_secs st)]> es)).

Lemma store_entries first log st msg :
  rep first log st → wf msg →
  ∃ d, store (first + Z.of_nat (length log)) msg st = (mk d (key_prefix st) (ttl_secs st), Ok tt)
    ∧ up d ∧ now d = now (conn st)
    ∧ entries d = stored_entries st (first + Z.of_nat (length log)) msg (entries (conn st)) (now (conn st)).
Proof.
  intros [Hup Httl _ Hf Hroom _ _ _ Hlat] Hwf. set (n := first + Z.of_nat (length log)) in *.
  assert (is_u64 n) as Hn by (unfold in_width; lia).
  unfold store. rewrite Message_encode_fresh by done. unfold and_then, send. simpl.
  destruct (set_ok (conn st) (msg_key st n) (message_wire msg) (ttl_secs st)) as (d1 & -> & Hup1 & Hn1 & He1);
    [done|done|]. simpl.
  assert (live_at (now d1) (entries d1) (latest_key st)
    = live_at (now (conn st)) (entries (conn st)) (latest_key st)) as Hl1.
  { rewrite Hn1, He1, live_at_insert, decide_False; [done|]. intros E. by apply (msg_key_latest st n). }
  rewrite (Hlat (now (conn st))) in Hl1 by lia.
  destruct (eval_ok d1 (latest_key st) n (ttl_secs st * 2)) as (d2 & -> & Hup2 & Hn2 & He2);
    [done|lia|done| |].
  { rewrite Hl1. intros v Hv. destruct (last log) as [e|] eqn:E; [|done]. simpl in Hv.
    case_match; simplify_eq. exists (n - 1). split; [unfold in_width in *; lia|]. done. }
  simpl. destruct (set_ok d2 (floor_key st n) (text "1") (ttl_secs st)) as (d3 & -> & Hup3 & Hn3 & He3);
    [done|done|].
  exists d3. split; [done|]. split; [done|]. split; [congruence|].
  rewrite He3, He2, He1, Hn2, Hn1. unfold stored_entries.
  assert (match live_at (now (conn st)) (entries d1) (latest_key st) ≫= parse_u64 with
          | Some c => lua_number c <? lua_number n | None => true end = true) as Hif.
  { rewrite <-Hn1, Hl1. destruct (last log) as [e|]; [|done]. simpl.
    destruct (_ <? e.2 + _); [|done]. simpl.
    fold n. rewrite parse_decimal by (unfold in_width in *; lia).
    rewrite !lua_number_small by lia. apply Z.ltb_lt. lia. }
  rewrite He1 in Hif. by rewrite Hif.
Qed.

(** Storing the next message. *)
Lemma rep_store first log st msg st' :
  rep first log st → wf msg → first + Z.of_nat (length log) < 2 ^ 53 →
  store (first + Z.of_nat (length log)) msg st = (st', Ok tt) →
  rep first (log ++ [(msg, now (conn st))]) st'.
Proof.
  intros Hrep Hwf Hroom Hst. destruct (store_entries first log st msg Hrep Hwf) as (d & Hst' & Hup & Hnow & He).
  rewrite Hst' in Hst. simplify_eq. clear Hst'. destruct Hrep as [_ Httl Hg Hf _ Hws Hmsg Hfloor _].
  set (n := first + Z.of_nat (length log)) in *.
  assert (is_u64 n) as Hn by (unfold in_width; lia).
  split; simpl; try done.
  - rewrite length_app. simpl. lia.
  - apply Forall_app. split; [done|]. by apply Forall_singleton.
  - rewrite Hnow, He. intros T seq HT Hs. unfold stored_entries. rewrite !live_at_insert.
    change (msg_key (mk d (key_prefix st) (ttl_secs st)) seq) with (msg_key st seq).
    rewrite decide_False by apply msg_key_floor. rewrite decide_False by apply msg_key_latest.
    rewrite unexpired_snoc. fold n.
    case_decide as E.
    + apply msg_key_inj in E; [|done|done]. subst seq. case_match; [by rewrite lookup_insert_eq|].
      by rewrite unexpired_beyond by done.
    + rewrite Hmsg by done. f_equal. case_match; [|done]. rewrite lookup_insert_ne; [done|]. by intros ->.
  - rewrite Hnow, He. intros T k HT Hk. unfold stored_entries. rewrite !live_at_insert.
    change (floor_prefix _) with (floor_prefix st) in Hk.
    rewrite (decide_False (P := k = latest_key st)) by (intros ->; by apply (floor_prefix_latest st)).
    rewrite (decide_False (P := k = msg_key st n)) by (intros ->; by apply (floor_prefix_msg st n)).
    rewrite unexpired_snoc. fold n. case_decide as E.
    + subst k. destruct (T <? now (conn st) + ttl_secs st) eqn:Et.
      * split; [|by intros; eexists]. intros _. exists n. split; [done|]. by rewrite lookup_insert_eq.
      * split; [by intros [? ?]|]. intros (seq & Hk' & Hs).
        pose proof (unexpired_u64 _ _ _ _ _ Hf (Z.lt_le_incl _ _ Hroom) Hs) as [Hs64 _].
        apply (floor_key_inj st) in Hk'; [|done|done]. subst seq. rewrite unexpired_beyond in Hs by done.
        by destruct Hs.
    + rewrite Hfloor by done. split; intros (seq & -> & Hs); exists seq; (split; [done|]).
      * case_match; [|done]. rewrite lookup_insert_ne; [done|]. by intros ->.
      * case_match; [|done]. rewrite lookup_insert_ne in Hs; [done|]. by intros ->.
  - rewrite Hnow, He. intros T HT. unfold stored_entries. rewrite !live_at_insert.
    change (latest_key (mk d (key_prefix st) (ttl_secs st))) with (latest_key st).
    rewrite decide_False by (intros E; by apply (floor_key_latest st n)). rewrite decide_True by done.
    rewrite last_snoc. cbn [mbind option_bind fst snd]. rewrite length_app. simpl.
    replace (first + Z.of_nat (length log + 1) - 1) with n by lia. done.
Qed.

Lemma feed_rep first log st :
  1 ≤ first → feed first log st → first + Z.of_nat (length log) ≤ 2 ^ 53 → rep first log st.
Proof.
  intros Hf Hfeed. induction Hfeed as [st Hfr|log st msg st' _ IH Hwf Hst|log st d' _ IH Hl]; intros Hroom.
  - apply rep_start; [done|]. simpl in Hroom. lia.
  - rewrite length_app in Hroom. simpl in Hroom. eapply rep_store; [apply IH; lia|done|lia|done].
  - by apply rep_wait; [apply IH|].
Qed.

Lemma feed_next first log st msg :
  1 ≤ first → feed first log st → first + Z.of_nat (length log) ≤ 2 ^ 53 → wf msg →
  let st' := (store (first + Z.of_nat (length log)) msg st).1 in
  feed first (log ++ [(msg, now (conn st))]) st' ∧ now (conn st') = now (conn st).
Proof.
  intros Hf Hfeed Hroom Hwf. pose proof (feed_rep _ _ _ Hf Hfeed Hroom) as Hrep.
  destruct (store_entries _ _ _ _ Hrep Hwf) as (d & Hst & _ & Hnow & _). cbn zeta. rewrite Hst.
  split; [|done]. by eapply feed_store.
Qed.

(** ** What the methods answer *)

Lemma latest_rep first log st :
  rep first log st →
  latest st = Ok (match last log with
                  | Some e => if now (conn st) <? e.2 + ttl_secs st * 2
                              then first + Z.of_nat (length log) - 1 else 0
                  | None => 0 end).
Proof.
  intros Hrep. pose proof (r_latest _ _ _ Hrep _ (Z.le_refl _)) as Hl.
  pose proof (r_up _ _ _ Hrep). pose proof (r_first _ _ _ Hrep). pose proof (r_room _ _ _ Hrep).
  unfold latest. destruct (last log) as [e|] eqn:E; cycle 1.
  { by rewrite get_u64_none. }
  cbn [mbind option_bind] in Hl. case_match eqn:Ht.
  - rewrite (get_u64_ok _ _ (first + Z.of_nat (length log) - 1)); [done|done| |done].
    destruct log; [done|]. cbn [length] in *. unfold in_width. lia.
  - by rewrite get_u64_none.
Qed.

Lemma range_loop_rep first log st n seq out :
  rep first log st → is_u64 seq → seq + Z.of_nat n ≤ 2 ^ 64 →
  range_loop n seq st out
  = Ok (out ++ run_of (unexpired (ttl_secs st) (now (conn st)) first log) seq n).
Proof.
  intros Hrep. revert seq out. induction n as [|n IH]; intros seq out Hs Hlim; simpl.
  { by rewrite app_nil_r. }
  rewrite get_ok by apply Hrep. simpl. rewrite (r_msg _ _ _ Hrep) by (done || lia).
  destruct (unexpired _ _ _ _ !! seq) as [msg|] eqn:E; simpl fmap; cbv iota; [|by rewrite app_nil_r].
  assert (wf msg) as Hwf.
  { rewrite unexpired_lookup in E. destruct (logged first log seq) as [e|] eqn:El; [|done].
    simpl in E. case_match; simplify_eq. apply logged_Some in El as (i & _ & Hi).
    apply (Forall_lookup_1 _ _ _ _ (r_wf _ _ _ Hrep) Hi). }
  rewrite Message_decode_all by done.
  assert (seq < 2 ^ 53) as Hsmall.
  { eapply (unexpired_u64 (ttl_secs st) (now (conn st)) first log); [apply Hrep|apply Hrep|by eexists]. }
  unfold in_width in Hs. rewrite u64_add_small by (unfold u64_max; lia).
  rewrite IH by (unfold in_width; lia). by rewrite <-app_assoc.
Qed.

Lemma lowest_spec keys e :
  lowest keys e ≤ e
  ∧ (∀ k seq, k ∈ keys → parse_u64 (after_last (b@":") k) = Some seq → lowest keys e ≤ seq)
  ∧ (lowest keys e = e ∨ ∃ k, k ∈ keys ∧ parse_u64 (after_last (b@":") k) = Some (lowest keys e)).
Proof.
  unfold lowest. revert e. induction keys as [|k keys IH]; intros e; simpl.
  { split_and!; [done|set_solver|by left]. }
  set (e' := match parse_u64 _ with Some seq => e `min` seq | None => e end).
  destruct (IH e') as (Hle & Hall & Hor). assert (e' ≤ e) as He by (unfold e'; case_match; lia).
  split_and!; [lia| |].
  - intros k' seq [->|Hk']%elem_of_cons Hp; [|by eapply Hall].
    assert (e' ≤ seq) by (unfold e'; rewrite Hp; lia). lia.
  - destruct Hor as [Heq|(k' & Hk' & Hp)]; [|right; exists k'; split; [by right|done]].
    rewrite Heq. unfold e'. destruct (parse_u64 _) as [seq|] eqn:Hp; [|by left].
    destruct (Z.min_spec e seq) as [[_ ->]|[_ ->]]; [by left|right]. exists k. split; [by left|done].
Qed.

Lemma lowest_app ks ks' e : lowest (ks ++ ks') e = lowest ks' (lowest ks e).
Proof. apply foldl_app. Qed.

(** The loop reads the pages of an iteration to the end. *)
Lemma earliest_loop_pages st (pages : list (Z * list (list Z))) k i fuel e :
  (∀ i c ks, pages !! i = Some (c, ks) →
     scan (match i with O => 0 | S i => default 0 (fst <$> pages !! i) end) (pattern st) 100 (conn st)
     = Ok (c, ks) ∧ (c = 0 ↔ S i = length pages)) →
  (i + S k = length pages)%nat → (S k ≤ fuel)%nat →
  let low := lowest (concat (map snd (drop i pages))) e in
  earliest_loop fuel (match i with O => 0 | S i => default 0 (fst <$> pages !! i) end) e st
  = Some (Ok (if low =? u64_max then 0 else low)).
Proof.
  intros Hp. revert i fuel e. induction k as [|k IH]; intros i fuel e Hi Hfuel low.
  all: destruct fuel as [|fuel]; [lia|]; cbn [earliest_loop].
  all: destruct (lookup_lt_is_Some_2 pages i) as [[c ks] Hc]; [lia|].
  all: destruct (Hp i c ks Hc) as [-> Hz].
  all: subst low; rewrite (drop_S _ _ _ Hc); cbn [map concat snd]; rewrite lowest_app.
  - rewrite (proj2 (Z.eqb_eq c 0)) by (apply Hz; lia). rewrite drop_ge by lia. done.
  - rewrite (proj2 (Z.eqb_neq c 0)) by (rewrite Hz; lia).
    specialize (IH (S i) fuel (lowest ks e) ltac:(lia) ltac:(lia)). cbv beta iota zeta in IH.
    rewrite Hc in IH. exact IH.
Qed.

Lemma no_glob_floor st : no_glob (key_prefix st) = true → no_glob (floor_prefix st) = true.
Proof. intros Hg. unfold no_glob, floor_prefix. rewrite forallb_app. unfold no_glob in Hg. by rewrite Hg. Qed.

Lemma earliest_rep first log st :
  rep first log st →
  earliest st = Ok (match btree_first (unexpired (ttl_secs st) (now (conn st)) first log) with
                    | Some (k, _) => k | None => 0 end).
Proof.
  intros Hrep. set (m := unexpired _ _ _ _).
  destruct (scan_ok (conn st) (floor_prefix st)) as (pages & Hne & Hlen & Hpages & Hkeys);
    [apply Hrep|apply no_glob_floor, Hrep|].
  replace (floor_prefix st ++ text "*") with (pattern st) in Hpages
    by (unfold floor_prefix, pattern; by rewrite <-app_assoc).
  assert (length pages ≠ O) as Hl0 by (by destruct pages).
  pose proof (earliest_loop_pages st pages (length pages - 1) 0 (scan_pages (conn st)) u64_max Hpages
    ltac:(lia) ltac:(lia)) as Hloop. cbn zeta in Hloop. rewrite drop_0 in Hloop.
  unfold earliest. rewrite Hloop. cbn [from_option]. unfold id. f_equal.
  assert (∀ k, k ∈ concat (map snd pages) ↔ ∃ seq, k = floor_key st seq ∧ is_Some (m !! seq)) as Hk.
  { intros k. rewrite Hkeys. split.
    - intros [Hlive Hpre]. by apply (r_floor _ _ _ Hrep) in Hlive; [|lia|].
    - intros (seq & -> & Hs). split; [|apply floor_prefix_key].
      apply (r_floor _ _ _ Hrep); [lia|apply floor_prefix_key|by exists seq]. }
  assert (∀ seq, is_Some (m !! seq) → is_u64 seq ∧ seq < 2 ^ 53) as Hu.
  { intros seq. apply unexpired_u64; apply Hrep. }
  destruct (lowest_spec (concat (map snd pages)) u64_max) as (Hle & Hall & Hor).
  set (low := lowest _ _) in *. destruct (btree_first m) as [[k msg]|] eqn:E.
  - apply btree_first_Some in E as [Hm Hmin]. destruct (Hu k ltac:(by eexists)) as [Hu1 Hu2].
    assert (low ≤ k) as Hlk.
    { apply (Hall (floor_key st k)); [apply Hk; exists k; split; [done|by eexists]|by apply floor_key_parse]. }
    destruct Hor as [Hlow|(k' & Hk' & Hp)]; [unfold u64_max in *; lia|].
    apply Hk in Hk' as (seq & -> & [msg' Hs]). destruct (Hu seq ltac:(by eexists)) as [Hs1 _].
    rewrite floor_key_parse in Hp by done. simplify_eq. specialize (Hmin _ _ Hs). unfold ord_key in Hmin.
    simpl in Hmin. rewrite (proj2 (Z.eqb_neq _ _)) by (unfold u64_max in *; lia). lia.
  - apply btree_first_None in E. destruct Hor as [->|(k & Hk' & _)]; [by rewrite Z.eqb_refl|].
    apply Hk in Hk' as (seq & _ & [x Hx]). by rewrite E, lookup_empty in Hx.
Qed.
End facts.
End RedisFacts.

(** ** A server with the documented behaviour *)

Module Memory.
Import Redis.

Record t := mk { clock : Z; data : gmap (list Z) (list Z * Z) }.

(** One page has all keys. *)
Definition page (d : t) (pattern : list Z) : list (list Z) :=
  filter (λ k, is_Some (live_at (clock d) (data d) k) ∧ removelast pattern `prefix_of` k)
    (map fst (map_to_list (data d))).

Definition expiring (k v : list Z) (s : Z) (d : t) : t := mk (clock d) (<[k := (v, clock d + s)]> (data d)).

#[global] Instance server : Server t unit := {|
  open := λ _, Ok (mk 0 ∅);
  manager := λ d, Ok d;
  ping := λ _, Ok tt;
  set_ex := λ k v s d, if 1 <=? s then (expiring k v s d, Ok tt) else (d, Err tt);
  eval := λ script k n s d,
    if decide (script = latest_script) then
      if 1 <=? s then
        ((if match live_at (clock d) (data d) k ≫= parse_u64 with
             | Some c => lua_number c <? lua_number n | None => true end
          then expiring k (decimal n) s d else d), Ok 1)
      else (d, Err tt)
    else (d, Err tt);
  get_bytes := λ k d, Ok (live_at (clock d) (data d) k);
  get_u64 := λ k d,
    match live_at (clock d) (data d) k with
    | Some v => match parse_u64 v with Some n => Ok (Some n) | None => Err tt end
    | None => Ok None
    end;
  scan := λ cursor pattern _ d, if cursor =? 0 then Ok (0, page d pattern) else Err tt;
  scan_pages := λ _, 1%nat |}.

#[global] Program Instance documented : Documented t unit :=
  {| up := λ _, True; now := clock; entries := data |}.
Next Obligation.
  intros d k v s _ Hs. unfold set_ex, server. rewrite (proj2 (Z.leb_le _ _)) by done. by eexists.
Qed.
Next Obligation.
  intros d k n s _ Hs _ _. unfold eval, server. rewrite decide_True, (proj2 (Z.leb_le _ _)) by done.
  eexists. split; [done|]. by destruct (match _ ≫= _ with Some _ => _ | None => _ end).
Qed.
Next Obligation. done. Qed.
Next Obligation. intros d k n _ Hn Hl. unfold get_u64, server. by rewrite Hl, parse_decimal. Qed.
Next Obligation. intros d k _ Hl. unfold get_u64, server. by rewrite Hl. Qed.
Next Obligation.
  intros d p _ _. exists [(0, page d (p ++ text "*"))]. split_and!; [done|done| |].
  - intros [|i] c ks Hi; [|done]. by simplify_eq/=.
  - intros k. simpl. rewrite app_nil_r. unfold page. rewrite list_elem_of_filter.
    change (text "*") with [b@"*"]. rewrite removelast_last. split; [tauto|].
    intros [Hl Hp]. split; [done|]. destruct Hl as [v Hl]. unfold live_at in Hl.
    destruct (data d !! k) as [[v' dl]|] eqn:E; [|done].
    apply list_elem_of_fmap. exists (k, (v', dl)). split; [done|]. by apply elem_of_map_to_list.
Qed.
End Memory.

(** ** Properties *)

(** C26: what a Redis store has at any time.  After a publisher stored messages
    under consecutive numbers, with any waiting in between, on a server where
    Redis does what it documents: [range] returns exactly the run of messages
    stored less than [ttl] seconds ago, [earliest] the lowest such number, the
    next store succeeds, and [latest] the highest number for twice [ttl] seconds
    after the last store, and then 0, as if nothing had ever been stored. *)
Theorem redis_window `{Redis.Server D Er} {doc : Redis.Documented D Er} first log (st : Redis.t D)
    from count :
  1 ≤ first → RedisFacts.feed first log st → first + Z.of_nat (length log) ≤ 2 ^ 53 →
  is_u64 from → 0 ≤ count → from + count ≤ 2 ^ 64 →
  let T := Redis.now (Redis.conn st) in
  let ttl := Redis.ttl_secs st in
  let kept := RedisFacts.unexpired ttl T first log in
  Redis.range from count st = Ok (run_of kept from (Z.to_nat count))
  ∧ Redis.earliest st = Ok (match btree_first kept with Some (k, _) => k | None => 0 end)
  ∧ Redis.latest st = Ok (match last log with
                          | Some e => if T <? e.2 + ttl * 2 then first + Z.of_nat (length log) - 1 else 0
                          | None => 0 end)
  ∧ ∀ msg, wf msg → ∃ st', Redis.store (first + Z.of_nat (length log)) msg st = (st', Ok tt)
                          ∧ RedisFacts.feed first (log ++ [(msg, T)]) st'.
Proof.
  intros Hf Hfeed Hroom Hu Hc Hlim T ttl kept.
  pose proof (RedisFacts.feed_rep _ _ _ Hf Hfeed Hroom) as Hrep. split_and!.
  - unfold Redis.range. by rewrite (RedisFacts.range_loop_rep first log) by (done || lia).
  - by apply RedisFacts.earliest_rep.
  - by apply RedisFacts.latest_rep.
  - intros msg Hwf. destruct (RedisFacts.store_entries _ _ _ _ Hrep Hwf) as (d & Hst & _).
    eexists. split; [exact Hst|]. by eapply RedisFacts.feed_store.
Qed.

(** Messages 1 and 2, stored one second apart with a lifetime of two seconds. *)
Definition wait (clock : Z) (st : Redis.t Memory.t) : Redis.t Memory.t :=
  Redis.mk (Memory.mk clock (Memory.data (Redis.conn st))) (Redis.key_prefix st) (Redis.ttl_secs st).
Definition redis_demo (clock : Z) : Redis.t Memory.t :=
  let st := Redis.mk (Memory.mk 0 ∅) (text "itch:seq") 2 in
  let st := wait 1 (Redis.store 1 (fixture EventCode.StartOfMessages) st).1 in
  wait clock (Redis.store 2 (fixture EventCode.EndOfMessages) st).1.

Lemma feed_later first log clock (st : Redis.t Memory.t) :
  RedisFacts.feed first log st → Redis.now (Redis.conn st) ≤ clock →
  RedisFacts.feed first log (wait clock st).
Proof. intros Hfeed Hc. apply RedisFacts.feed_wait; [done|]. by split_and!. Qed.

Lemma redis_demo_feed clock :
  1 ≤ clock →
  RedisFacts.feed 1 [(fixture EventCode.StartOfMessages, 0); (fixture EventCode.EndOfMessages, 1)]
    (redis_demo clock).
Proof.
  intros Hclock. unfold redis_demo. cbn zeta.
  set (st0 := Redis.mk (Memory.mk 0 ∅) (text "itch:seq") 2).
  assert (RedisFacts.feed 1 [] st0) as H0.
  { constructor. split_and!; [done|done|by vm_compute|]. intros T k _ _. unfold Redis.live_at. simpl.
    by rewrite lookup_empty. }
  assert (wf (fixture EventCode.StartOfMessages) ∧ wf (fixture EventCode.EndOfMessages)) as [Hw1 Hw2] by done.
  destruct (RedisFacts.feed_next 1 [] st0 _ ltac:(lia) H0 ltac:(simpl; lia) Hw1) as [H1 C1].
  apply (feed_later _ _ 1) in H1; [|by rewrite C1]. set (st1 := wait 1 _) in *.
  destruct (RedisFacts.feed_next 1 _ st1 _ ltac:(lia) H1 ltac:(simpl; lia) Hw2) as [H2 C2].
  by apply (feed_later _ _ clock) in H2; [|rewrite C2].
Qed.

(** Two seconds after the first store, and after the lifetime of the counter. *)
Lemma redis_window_witness :
  Redis.range 2 5 (redis_demo 2) = Ok [(2, fixture EventCode.EndOfMessages)]
  ∧ Redis.earliest (redis_demo 2) = Ok 2 ∧ Redis.latest (redis_demo 2) = Ok 2
  ∧ Redis.latest (redis_demo 5) = Ok 0.
Proof.
  destruct (redis_window 1 _ (redis_demo 2) 2 5 ltac:(lia) (redis_demo_feed 2 ltac:(lia)) ltac:(simpl; lia)
    ltac:(unfold in_width; lia) ltac:(lia) ltac:(lia)) as (-> & -> & -> & _).
  destruct (redis_window 1 _ (redis_demo 5) 2 5 ltac:(lia) (redis_demo_feed 5 ltac:(lia)) ltac:(simpl; lia)
    ltac:(unfold in_width; lia) ltac:(lia) ltac:(lia)) as (_ & _ & -> & _).
  split_and!; vm_compute; reflexivity.
Defined.

(** From 2^53 on, the script compares doubles: storing 2^53 + 1 after 2^53 leaves
    the latest number behind. *)
Theorem redis_latest_stalls `{Redis.Server D Er} {doc : Redis.Documented D Er} (st : Redis.t D) msg :
  Redis.up (Redis.conn st) → 1 ≤ Redis.ttl_secs st → wf msg →
  Redis.live_at (Redis.now (Redis.conn st)) (Redis.entries (Redis.conn st)) (Redis.latest_key st)
  = Some (decimal (2 ^ 53)) →
  ∃ st', Redis.store (2 ^ 53 + 1) msg st = (st', Ok tt) ∧ Redis.latest st' = Ok (2 ^ 53).
Proof.
  intros Hup Httl Hwf Hl. set (n := 2 ^ 53 + 1).
  unfold Redis.store. rewrite Message_encode_fresh by done. unfold and_then, Redis.send. simpl.
  destruct (Redis.set_ok (Redis.conn st) (Redis.msg_key st n) (message_wire msg) (Redis.ttl_secs st))
    as (d1 & -> & Hup1 & Hn1 & He1); [done|done|]. simpl.
  assert (Redis.live_at (Redis.now d1) (Redis.entries d1) (Redis.latest_key st)
    = Some (decimal (2 ^ 53))) as Hl1.
  { rewrite Hn1, He1, RedisFacts.live_at_insert, decide_False; [done|].
    intros E. by apply (RedisFacts.msg_key_latest st n). }
  destruct (Redis.eval_ok d1 (Redis.latest_key st) n (Redis.ttl_secs st * 2)) as (d2 & -> & Hup2 & Hn2 & He2);
    [done|lia|by split| |].
  { rewrite Hl1. intros v [= <-]. exists (2 ^ 53). by split. }
  rewrite Hl1 in He2. simpl.
  destruct (Redis.set_ok d2 (Redis.floor_key st n) (text "1") (Redis.ttl_secs st)) as (d3 & -> & Hup3 & Hn3 & He3);
    [done|done|].
  eexists. split; [done|]. unfold Redis.latest. simpl.
  rewrite (Redis.get_u64_ok d3 _ (2 ^ 53)); [done|done|by split|].
  rewrite Hn3, He3, RedisFacts.live_at_insert, decide_False.
  - rewrite He2, Hn2. exact Hl1.
  - intros E. by apply (RedisFacts.floor_key_latest st n).
Qed.
