(* ===== verification/MoldCodec.v ===== *)
(** The MoldUDP64 downstream packet codec
    ([crates/itch-mold/src/codec.rs], [error.rs], [event.rs]).

    [packet_wire] is the reference layout: header fields, then each block with
    its length.  [MoldPacket.encode] follows the source's write cursor,
    [MoldPacket.decode] its read cursor. *)

From S2P Require Import Prelude Primitives Enums Messages Codec MessageCodec.

(** [std::io::Error] is represented by its kind, a socket address by its bytes
    and port, a [Duration] by its nanoseconds. *)
Module MoldError.
Inductive t :=
| Io (kind : string)
| Protocol (e : ProtocolError)
| Truncated (need got : Z)
| BufferTooSmall (need got : Z)
| BlockTooLarge (got max : Z)
| EmptyBlock
| TrailingBytes (extra : Z)
| TooManyBlocks (got : Z)
| SessionMismatch (expected got : list Z)
| SessionTooLong (got : Z)
| PendingBufferFull (size : Z)
| GapTooLarge (gap max : Z)
| RequestTimeout (server : list Z * Z) (seq : Z)
| SourceExhausted
| PeerSilent (elapsed : Z).
#[global] Instance t_eq_dec : EqDecision t. Proof. solve_decision. Defined.
End MoldError.

Module MoldEvent.
Inductive t :=
| Message (sequence : Z) (message : Message.t)
| Heartbeat (next_seq : Z)
| EndOfSession (next_seq : Z)
| Gap (from to : Z).
#[global] Instance t_eq_dec : EqDecision t. Proof. solve_decision. Defined.
Definition as_message (e : t) : option Message.t :=
  match e with Message _ m => Some m | _ => None end.
End MoldEvent.

Definition HEADER_LEN : nat := 20.
Definition BLOCK_LEN_PREFIX : nat := 2.
Definition MSG_COUNT_HEARTBEAT : Z := 0.
Definition MSG_COUNT_END_OF_SESSION : Z := 0xFFFF.
Definition MAX_BLOCK_LEN : nat := 1024.

Module MoldPacketHeader.
Record t := mk { session : list Z; sequence : Z; message_count : Z }.
#[global] Instance t_eq_dec : EqDecision t. Proof. solve_decision. Defined.
#[global] Instance t_wf : WellFormed t := λ h,
  length (session h) = 10%nat ∧ Forall is_u8 (session h) ∧ is_u64 (sequence h)
  ∧ is_u16 (message_count h).
#[global] Instance t_wf_dec (h : t) : Decision (wf h).
Proof. unfold wf, t_wf. apply _. Defined.

Definition to_bytes (h : t) : list Z :=
  session h ++ to_be_bytes 8 (sequence h) ++ to_be_bytes 2 (message_count h).

Definition from_bytes (buf : list Z) : result t MoldError.t :=
  if (length buf <? HEADER_LEN)%nat
  then Err (MoldError.Truncated (Z.of_nat HEADER_LEN) (Z.of_nat (length buf)))
  else Ok (mk (sub 0 10 buf) (from_be_bytes (sub 10 8 buf)) (from_be_bytes (sub 18 2 buf))).

Definition is_heartbeat (h : t) : bool := message_count h =? MSG_COUNT_HEARTBEAT.
Definition is_end_of_session (h : t) : bool := message_count h =? MSG_COUNT_END_OF_SESSION.
End MoldPacketHeader.

Module MessageBlock.
Record t := mk { data : list Z }.
#[global] Instance t_eq_dec : EqDecision t. Proof. solve_decision. Defined.
#[global] Instance t_wf : WellFormed t := λ b,
  (1 ≤ length (data b) ≤ MAX_BLOCK_LEN)%nat ∧ Forall is_u8 (data b).
#[global] Instance t_wf_dec (b : t) : Decision (wf b).
Proof. unfold wf, t_wf. apply _. Defined.

Definition new (data : list Z) : result t MoldError.t :=
  match data with
  | [] => Err MoldError.EmptyBlock
  | _ =>
      if (MAX_BLOCK_LEN <? length data)%nat
      then Err (MoldError.BlockTooLarge (Z.of_nat (length data)) (Z.of_nat MAX_BLOCK_LEN))
      else Ok (mk data)
  end.

Definition wire_len (b : t) : nat := (BLOCK_LEN_PREFIX + length (data b))%nat.
End MessageBlock.

Module MoldPacket.
Record t := mk { header : MoldPacketHeader.t; blocks : list MessageBlock.t }.
#[global] Instance t_eq_dec : EqDecision t. Proof. solve_decision. Defined.

Definition new_data (session : list Z) (sequence : Z) (blocks : list MessageBlock.t)
    : result t MoldError.t :=
  let n := Z.of_nat (length blocks) in
  if 2 ^ 16 <=? n then Err (MoldError.TooManyBlocks n)
  else if n =? MSG_COUNT_END_OF_SESSION then Err (MoldError.TooManyBlocks n)
  else Ok (mk (MoldPacketHeader.mk session sequence n) blocks).

Definition heartbeat (session : list Z) (next_sequence : Z) : t :=
  mk (MoldPacketHeader.mk session next_sequence MSG_COUNT_HEARTBEAT) [].
Definition end_of_session (session : list Z) (next_sequence : Z) : t :=
  mk (MoldPacketHeader.mk session next_sequence MSG_COUNT_END_OF_SESSION) [].

Definition wire_len (p : t) : nat :=
  (HEADER_LEN + sum_list (map MessageBlock.wire_len (blocks p)))%nat.

(** [buf[off..off + n].copy_from_slice(bs)], within bounds. *)
Definition write_at (off : nat) (bs buf : list Z) : list Z :=
  take off buf ++ bs ++ drop (off + length bs) buf.

(** The loop over the blocks, with its cursor. *)
Fixpoint encode_blocks (blocks : list MessageBlock.t) (off : nat) (buf : list Z) : list Z :=
  match blocks with
  | [] => buf
  | block :: blocks =>
      let dlen := length (MessageBlock.data block) in
      let buf := write_at off (to_be_bytes 2 (Z.of_nat dlen)) buf in
      let off := (off + 2)%nat in
      let buf := write_at off (MessageBlock.data block) buf in
      encode_blocks blocks (off + dlen) buf
  end.

Definition encode (p : t) : mut (list Z) nat MoldError.t := λ buf,
  let total := wire_len p in
  if (length buf <? total)%nat
  then (buf, Err (MoldError.BufferTooSmall (Z.of_nat total) (Z.of_nat (length buf))))
  else
    let buf := write_at 0 (MoldPacketHeader.to_bytes (header p)) buf in
    (encode_blocks (blocks p) HEADER_LEN buf, Ok total).

Definition encode_to (p : t) : mut (list Z) unit MoldError.t := λ dst,
  let total := wire_len p in
  let '(tail, r) := encode p (replicate total 0) in
  (dst ++ tail, let? _ := r in Ok tt).

(** The loop [for _ in 0..count], with the rest of the cursor. *)
Fixpoint decode_blocks (count : nat) (cursor : list Z)
    : result (list MessageBlock.t * list Z) MoldError.t :=
  match count with
  | O => Ok ([], cursor)
  | S count =>
      if (length cursor <? BLOCK_LEN_PREFIX)%nat
      then Err (MoldError.Truncated (Z.of_nat BLOCK_LEN_PREFIX) (Z.of_nat (length cursor)))
      else
        let block_len := Z.to_nat (from_be_bytes (sub 0 2 cursor)) in
        let cursor := drop BLOCK_LEN_PREFIX cursor in
        if (block_len =? 0)%nat then Err MoldError.EmptyBlock
        else if (MAX_BLOCK_LEN <? block_len)%nat
        then Err (MoldError.BlockTooLarge (Z.of_nat block_len) (Z.of_nat MAX_BLOCK_LEN))
        else if (length cursor <? block_len)%nat
        then Err (MoldError.Truncated (Z.of_nat block_len) (Z.of_nat (length cursor)))
        else
          let? (blocks, rest) := decode_blocks count (drop block_len cursor) in
          Ok (MessageBlock.mk (take block_len cursor) :: blocks, rest)
  end.

Definition decode (buf : list Z) : result t MoldError.t :=
  let? header := MoldPacketHeader.from_bytes buf in
  let cursor := drop HEADER_LEN buf in
  if MoldPacketHeader.is_heartbeat header || MoldPacketHeader.is_end_of_session header then
    if (0 <? length cursor)%nat then Err (MoldError.TrailingBytes (Z.of_nat (length cursor)))
    else Ok (mk header [])
  else
    let? (blocks, cursor) := decode_blocks (Z.to_nat (MoldPacketHeader.message_count header)) cursor in
    if (0 <? length cursor)%nat then Err (MoldError.TrailingBytes (Z.of_nat (length cursor)))
    else Ok (mk header blocks).

(** A packet as the constructors build it: the count field is the number of
    blocks, or the end-of-session mark on a packet without blocks. *)
#[global] Instance t_wf : WellFormed t := λ p,
  wf (header p) ∧ Forall wf (blocks p)
  ∧ (MoldPacketHeader.message_count (header p) = Z.of_nat (length (blocks p))
       ∧ MoldPacketHeader.message_count (header p) ≠ MSG_COUNT_END_OF_SESSION
     ∨ MoldPacketHeader.message_count (header p) = MSG_COUNT_END_OF_SESSION ∧ blocks p = []).
#[global] Instance t_wf_dec (p : t) : Decision (wf p).
Proof. unfold wf, t_wf. apply _. Defined.
End MoldPacket.

Definition decode_from_bytesmut : mut (list Z) MoldPacket.t MoldError.t := λ buf,
  match MoldPacket.decode buf with
  | Ok parsed => (drop (MoldPacket.wire_len parsed) buf, Ok parsed)
  | Err err => (buf, Err err)
  end.

Definition session_from_str (s : list Z) : result (list Z) MoldError.t :=
  if (10 <? length s)%nat then Err (MoldError.SessionTooLong (Z.of_nat (length s)))
  else Ok (s ++ drop (length s) (replicate 10 space)).

(** ** Reference layout *)

Definition block_wire (b : MessageBlock.t) : list Z :=
  to_be_bytes 2 (Z.of_nat (length (MessageBlock.data b))) ++ MessageBlock.data b.
Definition blocks_wire (bs : list MessageBlock.t) : list Z := concat (map block_wire bs).
Definition packet_wire (p : MoldPacket.t) : list Z :=
  MoldPacketHeader.to_bytes (MoldPacket.header p) ++ blocks_wire (MoldPacket.blocks p).

Lemma blocks_wire_cons b bs :
  blocks_wire (b :: bs)
  = to_be_bytes 2 (Z.of_nat (length (MessageBlock.data b))) ++ MessageBlock.data b ++ blocks_wire bs.
Proof. unfold blocks_wire, block_wire. cbn [map concat]. by rewrite <-app_assoc. Qed.

Lemma length_blocks_wire bs :
  length (blocks_wire bs) = sum_list (map MessageBlock.wire_len bs).
Proof.
  induction bs as [|b bs IH]; [done|]. unfold blocks_wire in *. cbn [map concat sum_list].
  rewrite length_app, IH. unfold block_wire. by rewrite length_app, length_to_be_bytes.
Qed.

Lemma length_header_bytes h :
  length (MoldPacketHeader.session h) = 10%nat → length (MoldPacketHeader.to_bytes h) = HEADER_LEN.
Proof.
  intros E. unfold MoldPacketHeader.to_bytes, HEADER_LEN.
  rewrite !length_app, !length_to_be_bytes, E. done.
Qed.

Lemma length_packet_wire p :
  wf p → length (packet_wire p) = MoldPacket.wire_len p.
Proof.
  intros ((Hs & _) & _). unfold packet_wire, MoldPacket.wire_len.
  by rewrite length_app, length_header_bytes, length_blocks_wire.
Qed.

(** Writing at the end of what has been written. *)
Lemma write_at_append pre bs buf off :
  length pre = off →
  MoldPacket.write_at off bs (pre ++ drop off buf) = (pre ++ bs) ++ drop (off + length bs) buf.
Proof.
  intros Hl. unfold MoldPacket.write_at. rewrite take_app_le, take_ge, drop_app_ge by lia.
  rewrite drop_drop, <-app_assoc. repeat f_equal. lia.
Qed.

Lemma encode_blocks_append bs pre buf off :
  length pre = off →
  MoldPacket.encode_blocks bs off (pre ++ drop off buf)
  = pre ++ blocks_wire bs ++ drop (off + length (blocks_wire bs)) buf.
Proof.
  revert pre off. induction bs as [|b bs IH]; intros pre off Hl.
  { simpl. by rewrite Nat.add_0_r. }
  cbn [MoldPacket.encode_blocks]. rewrite write_at_append, length_to_be_bytes by done.
  rewrite write_at_append by (rewrite length_app, length_to_be_bytes; lia).
  rewrite IH by (rewrite !length_app, length_to_be_bytes; lia).
  unfold blocks_wire, block_wire. cbn [map concat].
  rewrite !length_app, length_to_be_bytes, <-!app_assoc, <-!Nat.add_assoc. done.
Qed.

Lemma encode_wire p buf :
  wf p → (MoldPacket.wire_len p ≤ length buf)%nat →
  MoldPacket.encode p buf
  = (packet_wire p ++ drop (MoldPacket.wire_len p) buf, Ok (MoldPacket.wire_len p)).
Proof.
  intros Hwf Hl. pose proof (length_packet_wire p Hwf) as Hlen. destruct Hwf as ((Hs & _) & _).
  unfold MoldPacket.encode. destruct (Nat.ltb_spec (length buf) (MoldPacket.wire_len p)); [lia|].
  f_equal. pose proof (length_header_bytes _ Hs) as Hh.
  unfold MoldPacket.write_at. rewrite take_0, app_nil_l, Nat.add_0_l, Hh.
  rewrite encode_blocks_append by done. unfold packet_wire in Hlen |- *.
  rewrite length_app, Hh in Hlen. by rewrite Hlen, <-app_assoc.
Qed.

Lemma from_bytes_wire h rest :
  wf h → MoldPacketHeader.from_bytes (MoldPacketHeader.to_bytes h ++ rest) = Ok h.
Proof.
  intros (Hs & _ & Hq & Hc). destruct h as [s q c]. simpl in *.
  unfold MoldPacketHeader.from_bytes, MoldPacketHeader.to_bytes, HEADER_LEN.
  cbn [MoldPacketHeader.session MoldPacketHeader.sequence MoldPacketHeader.message_count].
  destruct (Nat.ltb_spec (length ((s ++ to_be_bytes 8 q ++ to_be_bytes 2 c) ++ rest)) 20) as [H|_].
  { rewrite !length_app, !length_to_be_bytes in H. lia. }
  rewrite <-!app_assoc. rewrite sub_app_here by done.
  rewrite !(sub_app_skip _ _ s) by lia. rewrite Hs. cbn [Nat.sub].
  rewrite sub_app_here by apply length_to_be_bytes.
  rewrite (sub_app_skip _ _ (to_be_bytes 8 q)) by (rewrite length_to_be_bytes; lia).
  rewrite length_to_be_bytes. cbn [Nat.sub]. rewrite sub_app_here by apply length_to_be_bytes.
  by rewrite (from_be_to_be 8 64), (from_be_to_be 2 16).
Qed.

Lemma decode_blocks_wire bs rest :
  Forall wf bs → MoldPacket.decode_blocks (length bs) (blocks_wire bs ++ rest) = Ok (bs, rest).
Proof.
  induction 1 as [|b bs [Hl Hu] Hbs IH]; [done|]. destruct b as [d]. simpl in Hl, Hu.
  unfold MAX_BLOCK_LEN in Hl. cbn [MoldPacket.decode_blocks length].
  unfold blocks_wire, block_wire in *. cbn [map concat MessageBlock.data].
  rewrite <-!app_assoc. unfold BLOCK_LEN_PREFIX, MAX_BLOCK_LEN.
  rewrite (proj2 (Nat.ltb_ge _ _)) by (rewrite length_app, length_to_be_bytes; lia).
  rewrite sub_app_here by apply length_to_be_bytes.
  rewrite (from_be_to_be 2 16) by (done || unfold in_width; lia). rewrite Nat2Z.id.
  rewrite (drop_app_length' _ _ 2) by by rewrite length_to_be_bytes.
  rewrite (proj2 (Nat.eqb_neq _ _)), !(proj2 (Nat.ltb_ge _ _))
    by (rewrite ?length_app; lia).
  rewrite drop_app_length, take_app_length, IH. done.
Qed.

Lemma decode_wire p : wf p → MoldPacket.decode (packet_wire p) = Ok p.
Proof.
  intros (Hh & Hb & Hc). unfold MoldPacket.decode, packet_wire. rewrite from_bytes_wire by done.
  rewrite drop_app_length' by by rewrite length_header_bytes; destruct Hh.
  unfold MoldPacketHeader.is_heartbeat, MoldPacketHeader.is_end_of_session.
  destruct p as [h bs]. simpl in *. destruct Hc as [[Hc He]|[Hc ->]].
  - rewrite (proj2 (Z.eqb_neq _ _) He), orb_false_r, Hc, Nat2Z.id. unfold MSG_COUNT_HEARTBEAT.
    destruct bs as [|b bs]; [done|]. rewrite (proj2 (Z.eqb_neq _ _)) by (simpl; lia).
    rewrite <-(app_nil_r (blocks_wire _)), decode_blocks_wire by done. done.
  - by rewrite Hc.
Qed.

Lemma from_bytes_inv buf h :
  Forall is_u8 buf → MoldPacketHeader.from_bytes buf = Ok h →
  wf h ∧ (HEADER_LEN ≤ length buf)%nat ∧ take HEADER_LEN buf = MoldPacketHeader.to_bytes h.
Proof.
  intros Hb E. unfold MoldPacketHeader.from_bytes in E.
  destruct (Nat.ltb_spec (length buf) HEADER_LEN) as [|Hl]; [done|]. simplify_eq.
  unfold HEADER_LEN in *.
  assert (∀ off n, (off + n ≤ 20)%nat → length (sub off n buf) = n ∧ Forall is_u8 (sub off n buf)) as Hs.
  { intros off n Hn. split; [apply length_sub; lia|by apply Forall_sub]. }
  destruct (Hs 0%nat 10%nat) as [L1 U1]; [lia|]. destruct (Hs 10%nat 8%nat) as [L2 U2]; [lia|].
  destruct (Hs 18%nat 2%nat) as [L3 U3]; [lia|].
  pose proof (from_be_bytes_bound _ U2) as B2. pose proof (from_be_bytes_bound _ U3) as B3.
  rewrite L2 in B2. rewrite L3 in B3.
  split_and!; [by split_and!|done|]. unfold MoldPacketHeader.to_bytes.
  cbn [MoldPacketHeader.session MoldPacketHeader.sequence MoldPacketHeader.message_count].
  rewrite (to_be_from_be 8), (to_be_from_be 2) by done. rewrite <-sub_0. symmetry. join_fields.
Qed.

Lemma decode_blocks_inv n cur bs rest :
  Forall is_u8 cur → MoldPacket.decode_blocks n cur = Ok (bs, rest) →
  length bs = n ∧ Forall wf bs ∧ cur = blocks_wire bs ++ rest.
Proof.
  revert cur bs rest. induction n as [|n IH]; intros cur bs rest Hu E; [by simplify_eq/=|].
  cbn [MoldPacket.decode_blocks] in E. unfold BLOCK_LEN_PREFIX in E.
  destruct (Nat.ltb_spec (length cur) 2) as [|Hl]; [done|].
  set (k := Z.to_nat (from_be_bytes (sub 0 2 cur))) in E.
  destruct (Nat.eqb_spec k 0) as [|Hk0]; [done|].
  destruct (Nat.ltb_spec MAX_BLOCK_LEN k) as [|Hk]; [done|].
  destruct (Nat.ltb_spec (length (drop 2 cur)) k) as [|Hlk]; [done|].
  destruct (MoldPacket.decode_blocks n _) as [[bs' rest']|] eqn:Ed; [|done]. simplify_eq.
  apply IH in Ed as (Hn & Hwf & Hcur); [|by apply Forall_drop, Forall_drop].
  assert (length (take k (drop 2 cur)) = k) as Hlen by (rewrite length_take; lia).
  split_and!; [simpl; lia| |].
  - constructor; [|done]. split; simpl; [lia|]. by apply Forall_take, Forall_drop.
  - rewrite blocks_wire_cons. cbn [MessageBlock.data]. rewrite Hlen.
    assert (Forall is_u8 (sub 0 2 cur)) as Hs by by apply Forall_sub.
    pose proof (from_be_bytes_bound _ Hs) as [? _]. unfold k. rewrite Z2Nat.id by done.
    rewrite (to_be_from_be 2) by (done || (rewrite length_sub; lia)).
    fold k. rewrite <-!app_assoc, <-Hcur.
    unfold sub. by rewrite drop_0, !take_drop.
Qed.

Lemma decode_inv buf p :
  Forall is_u8 buf → MoldPacket.decode buf = Ok p → wf p ∧ buf = packet_wire p.
Proof.
  intros Hb E. unfold MoldPacket.decode in E.
  destruct (MoldPacketHeader.from_bytes buf) as [h|] eqn:Eh; [|done].
  apply from_bytes_inv in Eh as (Hh & Hl & Ht); [|done]. pose proof Hh as (_ & _ & _ & [Hc0 Hc1]).
  assert (buf = MoldPacketHeader.to_bytes h ++ drop HEADER_LEN buf) as Ebuf
    by (rewrite <-Ht; by rewrite take_drop).
  unfold MoldPacketHeader.is_heartbeat, MoldPacketHeader.is_end_of_session in E.
  destruct (Z.eqb_spec (MoldPacketHeader.message_count h) MSG_COUNT_HEARTBEAT) as [Ec|Ec];
    [|destruct (Z.eqb_spec (MoldPacketHeader.message_count h) MSG_COUNT_END_OF_SESSION) as [Ee|Ee]];
    simpl in E.
  1,2: destruct (drop HEADER_LEN buf) as [|x l] eqn:Ed; [|done]; injection E as <-;
    (split; [|exact Ebuf]); (split_and!; [done|constructor|]); simpl.
  - left. rewrite Ec. done.
  - by right.
  - destruct (MoldPacket.decode_blocks _ _) as [[bs rest]|] eqn:Ed; [|done].
    apply decode_blocks_inv in Ed as (Hn & Hwf & Hcur); [|by apply Forall_drop].
    destruct rest as [|]; [|done]. injection E as <-. rewrite app_nil_r in Hcur. split.
    + split_and!; [done|done|]. left. simpl. lia.
    + unfold packet_wire. simpl. by rewrite <-Hcur.
Qed.

(** ** Properties *)

(** A well-formed packet (data, heartbeat or end of session) encodes into any
    buffer of at least [wire_len] bytes, and the bytes written decode to the
    packet. *)
Theorem mold_roundtrip p buf :
  wf p → (MoldPacket.wire_len p ≤ length buf)%nat →
  ∃ buf', MoldPacket.encode p buf = (buf', Ok (MoldPacket.wire_len p))
    ∧ MoldPacket.decode (take (MoldPacket.wire_len p) buf') = Ok p
    ∧ drop (MoldPacket.wire_len p) buf' = drop (MoldPacket.wire_len p) buf.
Proof.
  intros Hwf Hl. eexists. split; [by apply encode_wire|].
  rewrite <-(length_packet_wire p Hwf). rewrite take_app_length, drop_app_length.
  split; [by apply decode_wire|done].
Qed.

Definition example_packet : MoldPacket.t :=
  MoldPacket.mk (MoldPacketHeader.mk (replicate 10 space) 7 2)
    [MessageBlock.mk [1; 2; 3]; MessageBlock.mk [9]].

Lemma mold_roundtrip_witness :
  ∃ buf', MoldPacket.encode example_packet (replicate 40 0) = (buf', Ok 28%nat)
    ∧ MoldPacket.decode (take 28 buf') = Ok example_packet.
Proof.
  destruct (mold_roundtrip example_packet (replicate 40 0)) as (buf' & He & Hd & _).
  - apply (bool_decide_unpack _). vm_compute. exact I.
  - vm_compute. lia.
  - exists buf'. split; [exact He|exact Hd].
Defined.

(** Only the canonical bytes of a packet decode to it. A datagram that is
    accepted is well formed, is consumed to its last byte, and re-encoding the
    packet reproduces it. *)
Theorem mold_decode_canonical buf p :
  Forall is_u8 buf → MoldPacket.decode buf = Ok p →
  wf p ∧ MoldPacket.wire_len p = length buf
  ∧ MoldPacket.encode p buf = (buf, Ok (length buf)).
Proof.
  intros Hb E. destruct (decode_inv buf p Hb E) as [Hwf Ebuf].
  pose proof (length_packet_wire p Hwf) as Hl. rewrite <-Ebuf in Hl.
  split_and!; [done|done|]. rewrite encode_wire by (done || lia).
  by rewrite drop_ge, app_nil_r, <-Ebuf, Hl by lia.
Qed.

Lemma mold_decode_canonical_witness :
  let buf := replicate 10 space ++ [0; 0; 0; 0; 0; 0; 0; 5; 0; 1; 0; 2; 8; 9] in
  ∃ p, MoldPacket.decode buf = Ok p ∧ MoldPacket.encode p buf = (buf, Ok 24%nat).
Proof.
  intros buf. eexists. split; [vm_compute; reflexivity|].
  refine (proj2 (proj2 (mold_decode_canonical buf _ _ _))).
  - apply (bool_decide_unpack _). vm_compute. exact I.
  - reflexivity.
Defined.
