(* ===== verification/MoldReceiver.v ===== *)
(** The MoldUDP64 receiver's state machine
    ([crates/itch-mold/src/receiver.rs], [ReceiverState] and the retransmission
    entry [MoldStream::ingest_retransmit]).

    The state is the source's struct; [ingest], [deliver], [stash_pending] and
    [flush_pending] are state transformers.  The [while let] of [flush_pending]
    runs at most once per buffered block, so its fuel is the size of the
    buffer; [flush_loop_fuel] shows that more fuel changes nothing.  The socket,
    the silence timer and the [tracing] calls of [MoldStream] are not part of
    the state machine.

    The properties are stated against a publisher that gives every sequence
    number [s] one block, [body s]: what the receiver emits is that stream, in
    order and without repetition. *)

From S2P Require Import Prelude Primitives Enums Messages Codec MessageCodec MoldCodec.

Inductive PendingOverflowPolicy := DropOldest | Error.
#[global] Instance PendingOverflowPolicy_eq_dec : EqDecision PendingOverflowPolicy.
Proof. solve_decision. Defined.

(** [std::net::SocketAddr]: the address bytes and the port; four bytes are an
    [Ipv4Addr]. *)
Abbreviation addr := (list Z * Z)%type.
Definition is_v4 (a : addr) : bool := (length a.1 =? 4)%nat.

Definition DEFAULT_SILENCE_WARNING : Z := 1000.
Definition DEFAULT_SILENCE_DEAD_LINK : Z := 15000.
Definition DEFAULT_MAX_PENDING : nat := 10000.

(** Durations are in milliseconds. *)
Module MoldConfig.
Record t := mk {
  multicast_group : addr;
  interface : option (list Z);
  request_servers : list addr;
  session : option (list Z);
  start_sequence : Z;
  silence_warning : Z;
  silence_dead_link : Z;
  max_pending_messages : nat;
  pending_overflow : PendingOverflowPolicy }.

Definition default : t :=
  mk ([233; 252; 0; 1], 5000) None [] None 0 DEFAULT_SILENCE_WARNING DEFAULT_SILENCE_DEAD_LINK
    DEFAULT_MAX_PENDING DropOldest.
Definition new (group : addr) : t :=
  mk group (interface default) (request_servers default) (session default) (start_sequence default)
    (silence_warning default) (silence_dead_link default) (max_pending_messages default)
    (pending_overflow default).
Definition with_session (id : list Z) (c : t) : t :=
  mk (multicast_group c) (interface c) (request_servers c) (Some id) (start_sequence c)
    (silence_warning c) (silence_dead_link c) (max_pending_messages c) (pending_overflow c).
Definition with_silence (warning dead_link : Z) (c : t) : t :=
  mk (multicast_group c) (interface c) (request_servers c) (session c) (start_sequence c)
    warning dead_link (max_pending_messages c) (pending_overflow c).
Definition with_start_sequence (seq : Z) (c : t) : t :=
  mk (multicast_group c) (interface c) (request_servers c) (session c) seq
    (silence_warning c) (silence_dead_link c) (max_pending_messages c) (pending_overflow c).
Definition with_max_pending (n : nat) (c : t) : t :=
  mk (multicast_group c) (interface c) (request_servers c) (session c) (start_sequence c)
    (silence_warning c) (silence_dead_link c) n (pending_overflow c).
Definition with_pending_overflow (policy : PendingOverflowPolicy) (c : t) : t :=
  mk (multicast_group c) (interface c) (request_servers c) (session c) (start_sequence c)
    (silence_warning c) (silence_dead_link c) (max_pending_messages c) policy.
(** The fields are public. *)
Definition set_addresses (iface : option (list Z)) (servers : list addr) (c : t) : t :=
  mk (multicast_group c) iface servers (session c) (start_sequence c)
    (silence_warning c) (silence_dead_link c) (max_pending_messages c) (pending_overflow c).
End MoldConfig.

Module CachedFrame.
Record t := mk { sequence : Z; body : list Z }.
End CachedFrame.

Abbreviation event := (result MoldEvent.t MoldError.t).

Module ReceiverState.
Record t := mk {
  session : option (list Z);
  next_expected : Z;
  bootstrapped : bool;
  pending : gmap Z (list Z);
  outbox : list event;
  eos : bool;
  max_pending : nat;
  pending_overflow : PendingOverflowPolicy;
  start_sequence : Z;
  overflow_drops : Z }.

Definition new (cfg : MoldConfig.t) : t :=
  mk (MoldConfig.session cfg) (MoldConfig.start_sequence cfg) false ∅ [] false
    (MoldConfig.max_pending_messages cfg) (MoldConfig.pending_overflow cfg)
    (MoldConfig.start_sequence cfg) 0.

(** Field updates. *)
Definition push_back (e : event) (st : t) : t :=
  mk (session st) (next_expected st) (bootstrapped st) (pending st) (outbox st ++ [e]) (eos st)
    (max_pending st) (pending_overflow st) (start_sequence st) (overflow_drops st).
Definition set_session (s : list Z) (st : t) : t :=
  mk (Some s) (next_expected st) (bootstrapped st) (pending st) (outbox st) (eos st)
    (max_pending st) (pending_overflow st) (start_sequence st) (overflow_drops st).
Definition set_next (n : Z) (st : t) : t :=
  mk (session st) n (bootstrapped st) (pending st) (outbox st) (eos st)
    (max_pending st) (pending_overflow st) (start_sequence st) (overflow_drops st).
Definition set_bootstrapped (st : t) : t :=
  mk (session st) (next_expected st) true (pending st) (outbox st) (eos st)
    (max_pending st) (pending_overflow st) (start_sequence st) (overflow_drops st).
Definition set_eos (st : t) : t :=
  mk (session st) (next_expected st) (bootstrapped st) (pending st) (outbox st) true
    (max_pending st) (pending_overflow st) (start_sequence st) (overflow_drops st).
Definition set_pending (p : gmap Z (list Z)) (st : t) : t :=
  mk (session st) (next_expected st) (bootstrapped st) p (outbox st) (eos st)
    (max_pending st) (pending_overflow st) (start_sequence st) (overflow_drops st).
Definition add_drop (st : t) : t :=
  mk (session st) (next_expected st) (bootstrapped st) (pending st) (outbox st) (eos st)
    (max_pending st) (pending_overflow st) (start_sequence st) (u64_add (overflow_drops st) 1).

Definition deliver (seq : Z) (body : list Z) (st : t) : t :=
  if (MAX_BLOCK_LEN <? length body)%nat
  then push_back (Err (MoldError.BlockTooLarge (Z.of_nat (length body)) (Z.of_nat MAX_BLOCK_LEN))) st
  else
    match Message_decode body with
    | Ok message => set_next (u64_add seq 1) (push_back (Ok (MoldEvent.Message seq message)) st)
    | Err err => set_next (u64_add seq 1) (push_back (Err (MoldError.Protocol err)) st)
    end.

Definition stash_pending (seq : Z) (data : list Z) (st : t) : t :=
  match pending st !! seq with
  | Some _ => st
  | None =>
      if (max_pending st <=? size (pending st))%nat then
        match pending_overflow st with
        | DropOldest =>
            let st :=
              match btree_first (pending st) with
              | Some (old_seq, _) => add_drop (set_pending (delete old_seq (pending st)) st)
              | None => st
              end in
            set_pending (<[seq := data]> (pending st)) st
        | Error =>
            push_back (Err (MoldError.PendingBufferFull (Z.of_nat (max_pending st)))) (add_drop st)
        end
      else set_pending (<[seq := data]> (pending st)) st
  end.

(** The body of [while let Some((&seq, _)) = self.pending.iter().next()]. *)
Fixpoint flush_loop (fuel : nat) (st : t) : t :=
  match fuel with
  | O => st
  | S fuel =>
      match btree_first (pending st) with
      | None => st
      | Some (seq, body) =>
          if seq =? next_expected st
          then flush_loop fuel (deliver seq body (set_pending (delete seq (pending st)) st))
          else st
      end
  end.
Definition flush_pending (st : t) : t := flush_loop (size (pending st)) st.

(** The two loops over [pkt.blocks.into_iter().enumerate()], from index [i]. *)
Fixpoint stash_blocks (first_seq i : Z) (blocks : list MessageBlock.t) (st : t) : t :=
  match blocks with
  | [] => st
  | block :: blocks =>
      stash_blocks first_seq (i + 1) blocks
        (stash_pending (u64_add first_seq i) (MessageBlock.data block) st)
  end.
Fixpoint deliver_blocks (first_seq i : Z) (blocks : list MessageBlock.t) (st : t) : t :=
  match blocks with
  | [] => st
  | block :: blocks =>
      let seq := u64_add first_seq i in
      deliver_blocks first_seq (i + 1) blocks
        (if seq <? next_expected st then st else deliver seq (MessageBlock.data block) st)
  end.

(** [ingest] after the session check. *)
Definition ingest_session (pkt : MoldPacket.t) (st : t) : t :=
  let header := MoldPacket.header pkt in
  let first_seq := MoldPacketHeader.sequence header in
  let st :=
    if bootstrapped st then st
    else
      let st := if start_sequence st =? 0 then set_next first_seq st else st in
      set_bootstrapped st in
  if MoldPacketHeader.is_heartbeat header then push_back (Ok (MoldEvent.Heartbeat first_seq)) st
  else if MoldPacketHeader.is_end_of_session header then
    push_back (Ok (MoldEvent.EndOfSession first_seq)) (set_eos st)
  else
    let count := Z.of_nat (length (MoldPacket.blocks pkt)) in
    if u64_add first_seq count <=? next_expected st then st
    else if next_expected st <? first_seq then
      let st := push_back (Ok (MoldEvent.Gap (next_expected st) (first_seq - 1))) st in
      stash_blocks first_seq 0 (MoldPacket.blocks pkt) st
    else flush_pending (deliver_blocks first_seq 0 (MoldPacket.blocks pkt) st).

Definition ingest (pkt : MoldPacket.t) (st : t) : t :=
  let got := MoldPacketHeader.session (MoldPacket.header pkt) in
  match session st with
  | Some expected =>
      if decide (expected ≠ got)
      then push_back (Err (MoldError.SessionMismatch expected got)) st
      else ingest_session pkt st
  | None => ingest_session pkt (set_session got st)
  end.

Definition ingest_all (pkts : list MoldPacket.t) (st : t) : t :=
  foldl (λ st pkt, ingest pkt st) st pkts.

(** The datagram arm of [MoldStream::poll_next]: the event of an undecodable
    datagram is returned at once, with the outbox empty. *)
Definition RECV_BUFFER_LEN : nat := 2048.
Definition receive (datagram : list Z) (st : t) : t :=
  match MoldPacket.decode (take RECV_BUFFER_LEN datagram) with
  | Ok pkt => ingest pkt st
  | Err err => push_back (Err err) st
  end.
Definition receive_all (datagrams : list (list Z)) (st : t) : t :=
  foldl (λ st d, receive d st) st datagrams.

(** [MoldStream::ingest_retransmit], without the silence timer. *)
Definition ingest_frame (session : list Z) (f : CachedFrame.t) (st : t) : t :=
  match MessageBlock.new (CachedFrame.body f) with
  | Err err => push_back (Err err) st
  | Ok block =>
      match MoldPacket.new_data session (CachedFrame.sequence f) [block] with
      | Err err => push_back (Err err) st
      | Ok pkt => ingest pkt st
      end
  end.
Definition ingest_retransmit (frames : list CachedFrame.t) (st : t) : t :=
  let session := default (replicate 10 space) (session st) in
  foldl (λ st f, ingest_frame session f st) st frames.
End ReceiverState.

Import ReceiverState.

(** ** The loop of [flush_pending] *)

Lemma pending_deliver seq body st : pending (deliver seq body st) = pending st.
Proof. unfold deliver. repeat case_match; done. Qed.

(** Once per buffered block is enough: with that much fuel or more the loop has
    reached its exit. *)
Lemma flush_loop_fuel n st :
  (size (pending st) ≤ n)%nat → flush_loop n st = flush_pending st.
Proof.
  unfold flush_pending. remember (size (pending st)) as k eqn:Ek. revert n st Ek.
  induction k as [|k IH]; intros n st Ek Hn; simpl.
  - symmetry in Ek. apply map_size_empty_inv in Ek. destruct n; [done|]. simpl.
    destruct (btree_first (pending st)) as [[s b]|] eqn:E; [|done].
    apply btree_first_Some in E as [E _]. by rewrite Ek, lookup_empty in E.
  - destruct n as [|n]; [lia|]. simpl.
    destruct (btree_first (pending st)) as [[s b]|] eqn:E; [|done].
    destruct (s =? next_expected st); [|done].
    apply btree_first_Some in E as [E _].
    apply IH; [|lia]. rewrite pending_deliver. simpl. rewrite map_size_delete, E. simpl. lia.
Qed.

(** At the exit the smallest buffered sequence is not the expected one. *)
Lemma flush_pending_exit st :
  match btree_first (pending (flush_pending st)) with
  | None => True
  | Some (seq, _) => seq ≠ next_expected (flush_pending st)
  end.
Proof.
  unfold flush_pending. remember (size (pending st)) as k eqn:Ek. revert st Ek.
  induction k as [|k IH]; intros st Ek; simpl.
  - symmetry in Ek. apply map_size_empty_inv in Ek.
    destruct (btree_first (pending st)) as [[s b]|] eqn:E; [|done].
    apply btree_first_Some in E as [E _]. by rewrite Ek, lookup_empty in E.
  - destruct (btree_first (pending st)) as [[s b]|] eqn:E; [|by rewrite E].
    destruct (Z.eqb_spec s (next_expected st)) as [Es|Es]; [|by rewrite E].
    apply btree_first_Some in E as [E _]. apply IH. rewrite pending_deliver. simpl.
    rewrite map_size_delete, E. simpl. lia.
Qed.

(** ** What delivery and buffering leave alone *)

Definition frame (st : ReceiverState.t) :=
  (bootstrapped st, max_pending st, pending_overflow st, start_sequence st, session st).

Lemma frame_deliver seq d st : frame (deliver seq d st) = frame st.
Proof. unfold deliver. by repeat case_match. Qed.
Lemma frame_stash seq d st : frame (stash_pending seq d st) = frame st.
Proof. unfold stash_pending. by repeat case_match. Qed.
Lemma frame_flush_loop n st : frame (flush_loop n st) = frame st.
Proof.
  revert st. induction n as [|n IH]; intros st; [done|]. simpl.
  destruct (btree_first _) as [[s d]|]; [|done]. case_match; [|done].
  by rewrite IH, frame_deliver.
Qed.
Lemma frame_deliver_blocks f i bs st : frame (deliver_blocks f i bs st) = frame st.
Proof.
  revert i st. induction bs as [|b bs IH]; intros i st; [done|]. simpl.
  rewrite IH. case_match; [done|]. apply frame_deliver.
Qed.
Lemma frame_stash_blocks f i bs st : frame (stash_blocks f i bs st) = frame st.
Proof.
  revert i st. induction bs as [|b bs IH]; intros i st; [done|]. simpl.
  by rewrite IH, frame_stash.
Qed.

Create Rewrite HintDb mold.
#[export] Hint Rewrite frame_deliver frame_stash frame_flush_loop frame_deliver_blocks
  frame_stash_blocks : mold.

(** The first packet sets the cursor; afterwards a packet only moves it. *)
Definition boot (pkt : MoldPacket.t) (st : ReceiverState.t) : ReceiverState.t :=
  if bootstrapped st then st
  else set_bootstrapped
         (if start_sequence st =? 0
          then set_next (MoldPacketHeader.sequence (MoldPacket.header pkt)) st else st).

Lemma ingest_session_boot pkt st : ingest_session pkt st = ingest_session pkt (boot pkt st).
Proof.
  unfold ingest_session, boot. destruct (bootstrapped st) eqn:E; [by rewrite E|].
  by destruct (start_sequence st =? 0).
Qed.

Lemma frame_ingest_session pkt st :
  frame (ingest_session pkt st) = frame (boot pkt st).
Proof.
  rewrite ingest_session_boot. assert (bootstrapped (boot pkt st) = true) as Hb.
  { unfold boot. by destruct (bootstrapped st) eqn:E. }
  unfold ingest_session. rewrite Hb. unfold flush_pending.
  repeat case_match; autorewrite with mold; done.
Qed.

(** ** The emitted stream *)

Section stream.
(** The publisher's block at each sequence number. *)
Context (body : Z → list Z).
Hypothesis body_len : ∀ s, (length (body s) ≤ MAX_BLOCK_LEN)%nat.

(** What the receiver must emit for sequence number [s]. *)
Definition emission (s : Z) : event :=
  match Message_decode (body s) with
  | Ok m => Ok (MoldEvent.Message s m)
  | Err e => Err (MoldError.Protocol e)
  end.

(** A packet that carries the publisher's stream. *)
Definition carries (pkt : MoldPacket.t) : Prop :=
  let h := MoldPacket.header pkt in
  0 ≤ MoldPacketHeader.sequence h
  ∧ MoldPacketHeader.sequence h + Z.of_nat (length (MoldPacket.blocks pkt)) ≤ u64_max
  ∧ ∀ i b, MoldPacket.blocks pkt !! i = Some b →
      MessageBlock.data b = body (MoldPacketHeader.sequence h + Z.of_nat i).

Definition is_emission (e : event) : bool :=
  match e with
  | Ok (MoldEvent.Message _ _) | Err (MoldError.Protocol _) => true
  | _ => false
  end.
Definition emissions (st : ReceiverState.t) : list event := filter is_emission (outbox st).

(** The part of the stream from [start] has been emitted up to the expected
    sequence, and buffered blocks are the publisher's. *)
Record emitted (start : Z) (st : ReceiverState.t) : Prop := {
  em_range : 0 ≤ start ≤ next_expected st;
  em_bound : next_expected st ≤ u64_max;
  em_out : emissions st = map emission (seqZ start (next_expected st - start));
  em_pending s d : pending st !! s = Some d → d = body s ∧ 0 ≤ s < u64_max;
}.

Lemma emission_is s : is_emission (emission s) = true.
Proof. unfold emission. by destruct (Message_decode (body s)). Qed.

Lemma deliver_body s st :
  0 ≤ s < u64_max →
  deliver s (body s) st = set_next (s + 1) (push_back (emission s) st).
Proof.
  intros Hs. unfold deliver, emission.
  rewrite (proj2 (Nat.ltb_ge _ _)) by apply body_len. rewrite u64_add_small by lia.
  by destruct (Message_decode (body s)).
Qed.

Lemma emissions_push_other e st : is_emission e = false → emissions (push_back e st) = emissions st.
Proof.
  intros E. unfold emissions. simpl. rewrite filter_app. cbn [filter list_filter].
  rewrite decide_False by (rewrite E; tauto). apply app_nil_r.
Qed.

Lemma emissions_push s st : emissions (push_back (emission s) st) = emissions st ++ [emission s].
Proof.
  unfold emissions. simpl. rewrite filter_app. cbn [filter list_filter].
  rewrite decide_True; [done|]. rewrite emission_is. done.
Qed.

(** Delivering the expected block extends the emitted stream by one. *)
Lemma emitted_deliver start st :
  emitted start st → next_expected st < u64_max →
  emitted start (deliver (next_expected st) (body (next_expected st)) st).
Proof.
  intros [Hr Hb Ho Hp] Hlt. rewrite deliver_body by lia. split; simpl; [lia|lia| |done].
  change (emissions (push_back (emission (next_expected st)) st)
    = map emission (seqZ start (next_expected st + 1 - start))).
  rewrite emissions_push, Ho.
  replace (next_expected st + 1 - start) with ((next_expected st - start) + 1) by lia.
  rewrite seqZ_app, map_app by lia. f_equal.
  rewrite (seqZ_cons _ 1), (seqZ_nil _ (Z.pred 1)) by lia. simpl. do 2 f_equal. lia.
Qed.

Lemma emitted_pending start p st :
  emitted start st → (∀ s d, p !! s = Some d → d = body s ∧ 0 ≤ s < u64_max) →
  emitted start (set_pending p st).
Proof. intros [Hr Hb Ho Hp] Hp'. by split. Qed.

Lemma emitted_flush_loop n start st : emitted start st → emitted start (flush_loop n st).
Proof.
  revert st. induction n as [|n IH]; intros st He; [done|]. simpl.
  destruct (btree_first (pending st)) as [[s d]|] eqn:E; [|done].
  destruct (Z.eqb_spec s (next_expected st)) as [->|]; [|done].
  apply btree_first_Some in E as [E _]. destruct (em_pending _ _ He _ _ E) as [-> Hs].
  apply IH.
  assert (emitted start (set_pending (delete (next_expected st) (pending st)) st)) as He'.
  { apply emitted_pending; [done|]. intros s d Hd. apply lookup_delete_Some in Hd as [_ Hd].
    by apply (em_pending _ _ He). }
  apply (emitted_deliver _ _ He'). simpl. lia.
Qed.

Lemma emitted_deliver_blocks start first i bs st :
  emitted start st → 0 ≤ first → 0 ≤ i → first + i ≤ next_expected st →
  first + i + Z.of_nat (length bs) ≤ u64_max →
  (∀ j b, bs !! j = Some b → MessageBlock.data b = body (first + i + Z.of_nat j)) →
  emitted start (deliver_blocks first i bs st).
Proof.
  revert i st. induction bs as [|b bs IH]; intros i st He Hf Hi Hn Hu Hb; [done|].
  simpl in Hu |- *. rewrite u64_add_small by lia.
  assert (∀ j b', bs !! j = Some b' →
    MessageBlock.data b' = body (first + (i + 1) + Z.of_nat j)) as Hb'.
  { intros j b' Hj. rewrite (Hb (S j) b') by done. f_equal. lia. }
  destruct (Z.ltb_spec (first + i) (next_expected st)).
  - apply IH; try done; lia.
  - assert (first + i = next_expected st) as Es by lia. rewrite Es.
    rewrite (Hb 0%nat b) by done. rewrite Z.add_0_r, Es.
    apply IH; try done; try lia; [apply emitted_deliver; [done|lia]|].
    rewrite deliver_body by lia. simpl. lia.
Qed.

Lemma emitted_push start e st :
  is_emission e = false → emitted start st → emitted start (push_back e st).
Proof.
  intros E [Hr Hb Ho Hp]. split; [done|done| |done]. by rewrite emissions_push_other.
Qed.

Lemma emitted_stash start s st :
  0 ≤ s < u64_max → emitted start st → emitted start (stash_pending s (body s) st).
Proof.
  intros Hs He. unfold stash_pending.
  assert (∀ p : gmap Z (list Z), (∀ s d, p !! s = Some d → d = body s ∧ 0 ≤ s < u64_max) →
    ∀ s' d', <[s := body s]> p !! s' = Some d' → d' = body s' ∧ 0 ≤ s' < u64_max) as Hins.
  { intros p Hp s' d' Hd. apply lookup_insert_Some in Hd as [[-> <-]|[_ Hd]]; [done|eauto]. }
  destruct (pending st !! s); [done|]. case_match.
  - destruct (pending_overflow st); 
      [|apply (emitted_push start _ (add_drop st)); [done|destruct He; by split]].
    destruct (btree_first (pending st)) as [[old d]|]; [|by apply emitted_pending, Hins, He].
    destruct He as [Hr Hb Ho Hp].
    assert (∀ s' d', delete old (pending st) !! s' = Some d' → d' = body s' ∧ 0 ≤ s' < u64_max)
      as Hdel by (intros s' d' Hd; apply lookup_delete_Some in Hd as [_ Hd]; eauto).
    apply emitted_pending; [by split|by apply Hins].
  - apply emitted_pending; [done|]. apply Hins, He.
Qed.

Lemma emitted_stash_blocks start first i bs st :
  emitted start st → 0 ≤ first → 0 ≤ i → first + i + Z.of_nat (length bs) ≤ u64_max →
  (∀ j b, bs !! j = Some b → MessageBlock.data b = body (first + i + Z.of_nat j)) →
  emitted start (stash_blocks first i bs st).
Proof.
  revert i st. induction bs as [|b bs IH]; intros i st He Hf Hi Hu Hb; [done|].
  simpl in Hu |- *. rewrite u64_add_small by lia.
  apply IH; [|lia|lia|lia|].
  - rewrite (Hb 0%nat b) by done. rewrite Z.add_0_r. apply emitted_stash; [lia|done].
  - intros j b' Hj. rewrite (Hb (S j) b') by done. f_equal. lia.
Qed.

(** One packet, once the cursor is set. *)
Lemma emitted_ingest_session start pkt st :
  carries pkt → bootstrapped st = true → emitted start st →
  emitted start (ingest_session pkt st).
Proof.
  intros (Hf & Hu & Hb) Hboot He. unfold ingest_session. rewrite Hboot.
  case_match; [by apply emitted_push|].
  case_match; [apply emitted_push; [done|destruct He; by split]|].
  case_match; [done|]. destruct (Z.ltb_spec (next_expected st)
    (MoldPacketHeader.sequence (MoldPacket.header pkt))).
  - apply emitted_stash_blocks; [by apply emitted_push|lia|lia|lia|].
    intros j b Hj. rewrite Z.add_0_r. by apply Hb.
  - apply emitted_flush_loop, emitted_deliver_blocks; [done|lia|lia|lia|lia|].
    intros j b Hj. rewrite Z.add_0_r. by apply Hb.
Qed.

(** The state along a run: before the first packet nothing is emitted or
    buffered; from then on the stream is emitted from some start. *)
Record running (start0 : Z) (st : ReceiverState.t) : Prop := {
  run_start : start_sequence st = start0;
  run_fresh : bootstrapped st = false →
    next_expected st = start0 ∧ emitted start0 st ∧ pending st = ∅;
  run_booted : bootstrapped st = true →
    ∃ start, (start0 ≠ 0 → start = start0) ∧ emitted start st;
}.

Lemma running_ingest_session start0 pkt st :
  carries pkt → running start0 st → running start0 (ingest_session pkt st).
Proof.
  intros Hc [Hs Hfr Hbo]. pose proof (frame_ingest_session pkt st) as Hframe.
  assert (bootstrapped (boot pkt st) = true ∧ start_sequence (boot pkt st) = start_sequence st
    ∧ ∃ start, (start0 ≠ 0 → start = start0) ∧ emitted start (boot pkt st)) as (Hb & Hst & start & Hz & He).
  { unfold boot. destruct (bootstrapped st) eqn:E; [by eauto|].
    destruct (Hfr eq_refl) as (Hn & He & Hp).
    destruct (Z.eqb_spec (start_sequence st) 0) as [E0|E0]; (split_and!; [done|done|]).
    - destruct Hc as (Hf & Hu & _). exists (MoldPacketHeader.sequence (MoldPacket.header pkt)).
      split; [congruence|]. destruct He as [Hr Hbd Ho Hpe]. split; simpl; [lia|lia| |done].
      rewrite Hn in Ho. rewrite Z.sub_diag, seqZ_nil in Ho |- * by done. exact Ho.
    - exists start0. split; [done|]. destruct He. by split. }
  unfold frame in Hframe. rewrite Hb in Hframe. injection Hframe as Hb' _ _ Hst' _. split.
  - congruence.
  - congruence.
  - intros _. exists start. split; [done|]. rewrite ingest_session_boot.
    by apply emitted_ingest_session.
Qed.

Lemma running_push start0 e st :
  is_emission e = false → running start0 st → running start0 (push_back e st).
Proof.
  intros He [Hs Hfr Hbo]. split; [done| |].
  - intros E. destruct (Hfr E) as (? & ? & ?). split_and!; [done|by apply emitted_push|done].
  - intros E. destruct (Hbo E) as (start & ? & ?). exists start. split; [done|].
    by apply emitted_push.
Qed.

Lemma running_ingest start0 pkt st :
  carries pkt → running start0 st → running start0 (ingest pkt st).
Proof.
  intros Hc Hr. unfold ingest. destruct (session st) as [e|].
  - case_decide; [by apply running_push|by apply running_ingest_session].
  - apply running_ingest_session; [done|]. destruct Hr as [Hs Hfr Hbo]. split; [done| |].
    + intros E. destruct (Hfr E) as (? & He & ?). split_and!; [done|destruct He; by split|done].
    + intros E. destruct (Hbo E) as (start & ? & He). exists start. split; [done|].
      destruct He; by split.
Qed.

Lemma running_ingest_all start0 pkts st :
  Forall carries pkts → running start0 st → running start0 (ingest_all pkts st).
Proof.
  intros Hp. revert st. induction Hp as [|pkt pkts Hc Hp IH]; intros st Hr; [done|].
  apply IH. by apply running_ingest.
Qed.

Lemma running_new cfg :
  0 ≤ MoldConfig.start_sequence cfg ≤ u64_max →
  running (MoldConfig.start_sequence cfg) (ReceiverState.new cfg).
Proof.
  intros Hs. split; [done| |done]. intros _. split_and!; [done| |done].
  split; simpl; [lia|lia| |done]. by rewrite Z.sub_diag, seqZ_nil.
Qed.
End stream.

(** ** Progress *)

Section progress.
Context (body : Z → list Z).
Hypothesis body_len : ∀ s, (length (body s) ≤ MAX_BLOCK_LEN)%nat.

(** The blocks received are those before the cursor and those buffered beyond it. *)
Record progress (start : Z) (rcv : gset Z) (k : nat) (st : ReceiverState.t) : Prop := {
  pr_emitted : emitted body start st;
  pr_beyond s : is_Some (pending st !! s) → next_expected st < s;
  pr_rcv s : start ≤ s → s ∈ rcv ↔ s < next_expected st ∨ is_Some (pending st !! s);
  pr_size : (size (pending st) ≤ k)%nat;
}.

Lemma flush_progress n start st :
  (size (pending st) ≤ n)%nat → emitted body start st →
  (∀ s, is_Some (pending st !! s) → next_expected st ≤ s) →
  let st' := flush_loop n st in
  (∀ s, is_Some (pending st' !! s) → next_expected st' < s)
  ∧ (∀ s, s < next_expected st' ∨ is_Some (pending st' !! s)
          ↔ s < next_expected st ∨ is_Some (pending st !! s))
  ∧ (size (pending st') ≤ size (pending st))%nat.
Proof.
  revert st. induction n as [|n IH]; intros st Hn He Hge; simpl.
  { assert (pending st = ∅) as E by (apply map_size_empty_inv; lia).
    split_and!; [|done|done]. intros s [d Hd]. by rewrite E, lookup_empty in Hd. }
  destruct (btree_first (pending st)) as [[s d]|] eqn:E.
  2:{ apply btree_first_None in E. split_and!; [|done|done].
      intros s [d Hd]. by rewrite E, lookup_empty in Hd. }
  apply btree_first_Some in E as [Hs Hmin]. destruct (Z.eqb_spec s (next_expected st)) as [->|Hne].
  2:{ split_and!; [|done|done]. intros s' [d' Hd']. specialize (Hmin _ _ Hd'). simpl in Hmin.
      assert (next_expected st ≤ s) by eauto. unfold id in Hmin. lia. }
  destruct (em_pending _ _ _ He _ _ Hs) as [-> Hb].
  set (p := delete (next_expected st) (pending st)).
  assert (emitted body start (set_pending p st)) as He'.
  { apply emitted_pending; [done|]. intros s' d' Hd. apply lookup_delete_Some in Hd as [_ Hd].
    by apply (em_pending _ _ _ He). }
  pose proof (emitted_deliver body body_len _ _ He' ltac:(simpl; lia)) as He1. simpl in He1.
  assert (size p < size (pending st))%nat as Hsz.
  { unfold p. rewrite map_size_delete, Hs. assert (size (pending st) ≠ 0)%nat; [|simpl; lia].
    intros E0. apply map_size_empty_inv in E0. by rewrite E0, lookup_empty in Hs. }
  specialize (IH (deliver (next_expected st) (body (next_expected st)) (set_pending p st))).
  rewrite pending_deliver in IH. rewrite (deliver_body body body_len) in IH, He1 |- * by lia.
  simpl in IH. destruct IH as (H1 & H2 & H3); [lia|done| |].
  - intros s' [d' Hd']. apply lookup_delete_Some in Hd' as [Hd1 Hd2].
    assert (next_expected st ≤ s') by eauto. lia.
  - split_and!; [done| |lia]. intros s'. rewrite H2. unfold p.
    destruct (decide (s' = next_expected st)) as [->|Hx].
    + rewrite lookup_delete_eq, Hs. split; intros _; [right; eauto|left; lia].
    + rewrite lookup_delete_ne by done. split; intros [?|?]; (by right) || (left; lia).
Qed.

(** One single-block data packet, with room in the buffer. *)
Lemma progress_ingest start rcv k pkt b st :
  progress start rcv k st → bootstrapped st = true → (k < max_pending st)%nat →
  carries body pkt → MoldPacket.blocks pkt = [b] →
  MoldPacketHeader.message_count (MoldPacket.header pkt) = 1 →
  progress start ({[MoldPacketHeader.sequence (MoldPacket.header pkt)]} ∪ rcv) (S k)
    (ingest_session pkt st).
Proof.
  intros [He Hbe Hr Hk] Hboot Hroom Hc Hbl Hcnt.
  pose proof (emitted_ingest_session body body_len start pkt st Hc Hboot He) as He'.
  destruct Hc as (Hf & Hu & Hb). pose proof (Hb 0%nat b) as Hd.
  rewrite Hbl in Hu, Hd. specialize (Hd eq_refl). rewrite Z.add_0_r in Hd. simpl in Hu.
  revert He'. unfold ingest_session. rewrite Hboot, Hbl.
  unfold MoldPacketHeader.is_heartbeat, MoldPacketHeader.is_end_of_session. rewrite Hcnt.
  set (q := MoldPacketHeader.sequence (MoldPacket.header pkt)) in *. simpl.
  rewrite !u64_add_small by lia. rewrite Z.add_0_r. change (Z.of_nat 1) with 1.
  destruct (Z.leb_spec (q + 1) (next_expected st)) as [Hlate|Hnew].
  { intros _. split; [done|done| |lia]. intros s Hs. rewrite elem_of_union, elem_of_singleton, Hr by done.
    split; [|by right]. intros [->|?]; [left; lia|done]. }
  destruct (Z.ltb_spec (next_expected st) q) as [Hgap|Hnow]; intros He'.
  - unfold stash_pending in *. simpl in *.
    destruct (pending st !! q) as [d|] eqn:Eq.
    { split; simpl; [done|done| |lia]. intros s Hs.
      rewrite elem_of_union, elem_of_singleton, Hr by done.
      split; [|by right]. intros [->|?]; [right; eauto|done]. }
    rewrite (proj2 (Nat.leb_gt _ _)) in * by lia. split; simpl; [done| | |].
    + intros s [d Hd']. apply lookup_insert_Some in Hd' as [[<- _]|[_ Hd']]; [done|eauto].
    + intros s Hs. rewrite elem_of_union, elem_of_singleton, Hr by done.
      destruct (decide (s = q)) as [->|Hx].
      * rewrite lookup_insert_eq. split; [right; eauto|by left].
      * rewrite lookup_insert_ne by done. split; [intros [?|?]; done|by right].
    + rewrite map_size_insert_None by done. lia.
  - assert (q = next_expected st) as Eq by lia.
    rewrite (proj2 (Z.ltb_ge _ _)) in * by lia.
    rewrite Hd, Eq in *. rewrite (deliver_body body body_len) in * by lia.
    set (st1 := set_next (next_expected st + 1) (push_back (emission body (next_expected st)) st)) in *.
    assert (emitted body start st1) as He1.
    { unfold st1. rewrite <-(deliver_body body body_len) by lia. apply emitted_deliver; [done|done|lia]. }
    destruct (flush_progress (size (pending st1)) start st1) as (H1 & H2 & H3); [done|done| |].
    { intros s Hs. apply Hbe in Hs. simpl. lia. }
    fold (flush_pending st1) in H1, H2, H3. split; [done|done| |simpl in H3; lia].
    intros s Hs. rewrite elem_of_union, elem_of_singleton, H2, Hr by done. simpl.
    split; [intros [->|[?|?]]; (by right) || (left; lia)|].
    intros [?|?]; [|by right; right]. destruct (decide (s = next_expected st)); [by left|right; left; lia].
Qed.
End progress.

(** ** A stale buffered block *)

(** A buffered block that the cursor has passed. *)
Definition stale (st : ReceiverState.t) : Prop :=
  ∃ s, is_Some (pending st !! s) ∧ s < next_expected st.

Lemma stale_flush n st : stale st → flush_loop n st = st.
Proof.
  intros (s & [d Hd] & Hs). destruct n as [|n]; [done|]. simpl.
  destruct (btree_first (pending st)) as [[s' d']|] eqn:E; [|done].
  apply btree_first_Some in E as [_ Hmin]. specialize (Hmin _ _ Hd). simpl in Hmin.
  unfold id in Hmin. by destruct (Z.eqb_spec s' (next_expected st)); [lia|].
Qed.

Definition in_bounds (pkt : MoldPacket.t) : Prop :=
  0 ≤ MoldPacketHeader.sequence (MoldPacket.header pkt)
  ∧ MoldPacketHeader.sequence (MoldPacket.header pkt)
    + Z.of_nat (length (MoldPacket.blocks pkt)) ≤ u64_max.

(** Nothing is forgotten, and the cursor does not move back. *)
Definition keeps (st st' : ReceiverState.t) : Prop :=
  pending st ⊆ pending st' ∧ next_expected st ≤ next_expected st'
  ∧ pending_overflow st' = pending_overflow st ∧ bootstrapped st' = bootstrapped st.

#[global] Instance keeps_preorder : PreOrder keeps.
Proof.
  split; [by intros st|]. intros x y z (? & ? & ? & ?) (? & ? & ? & ?).
  split_and!; [by etrans|lia|congruence|congruence].
Qed.

Lemma keeps_stale st st' : keeps st st' → stale st → stale st'.
Proof.
  intros (Hp & Hn & _ & _) (s & [d Hd] & Hs). exists s. split; [|lia].
  exists d. by eapply lookup_weaken.
Qed.

Lemma keeps_stash s d st : pending_overflow st = Error → keeps st (stash_pending s d st).
Proof.
  intros Hpol. unfold stash_pending. destruct (pending st !! s) eqn:E; [done|].
  case_match; [rewrite Hpol; done|]. split_and!; simpl; [by apply insert_subseteq|done..].
Qed.

Lemma keeps_stash_blocks f i bs st :
  pending_overflow st = Error → keeps st (stash_blocks f i bs st).
Proof.
  revert i st. induction bs as [|b bs IH]; intros i st Hpol; [done|]. simpl.
  pose proof (keeps_stash (u64_add f i) (MessageBlock.data b) st Hpol) as Hk.
  etrans; [exact Hk|]. apply IH. destruct Hk as (_ & _ & -> & _). done.
Qed.

Lemma keeps_deliver_blocks f i bs st :
  0 ≤ f → 0 ≤ i → f + i + Z.of_nat (length bs) ≤ u64_max → keeps st (deliver_blocks f i bs st).
Proof.
  revert i st. induction bs as [|b bs IH]; intros i st Hf Hi Hu; [done|]. simpl in Hu |- *.
  rewrite u64_add_small by lia. etrans; [|apply IH; lia].
  destruct (Z.ltb_spec (f + i) (next_expected st)); [done|].
  unfold deliver. rewrite u64_add_small by lia. repeat case_match; split_and!; simpl; done || lia.
Qed.

(** While a stale block sits in the buffer, no packet takes anything out of it. *)
Lemma keeps_ingest pkt st :
  in_bounds pkt → bootstrapped st = true → pending_overflow st = Error → stale st →
  keeps st (ingest pkt st).
Proof.
  intros [Hf Hu] Hb Hpol Hst.
  enough (∀ st, bootstrapped st = true → pending_overflow st = Error → stale st →
    keeps st (ingest_session pkt st)) as H.
  { unfold ingest. destruct (session st); [case_decide; [done|by apply H]|].
    change (keeps st) with (keeps (set_session
      (MoldPacketHeader.session (MoldPacket.header pkt)) st)). by apply H. }
  clear st Hb Hpol Hst. intros st Hb Hpol Hst. unfold ingest_session. rewrite Hb.
  case_match; [done|]. case_match; [done|]. case_match; [done|]. case_match.
  - etrans; [|apply keeps_stash_blocks; done]. done.
  - unfold flush_pending. pose proof (keeps_deliver_blocks
      (MoldPacketHeader.sequence (MoldPacket.header pkt)) 0 (MoldPacket.blocks pkt) st) as Hk.
    rewrite stale_flush; [apply Hk; lia|]. eapply keeps_stale; [apply Hk; lia|done].
Qed.

Lemma keeps_ingest_all pkts st :
  Forall in_bounds pkts → bootstrapped st = true → pending_overflow st = Error → stale st →
  keeps st (ingest_all pkts st).
Proof.
  intros Hp. revert st. induction Hp as [|pkt pkts Hb Hp IH]; intros st Hboot Hpol Hst; [done|].
  pose proof (keeps_ingest pkt st Hb Hboot Hpol Hst) as Hk. etrans; [exact Hk|].
  pose proof (keeps_stale _ _ Hk Hst). destruct Hk as (_ & _ & ? & ?). apply IH; congruence.
Qed.

(** ** Properties *)

(** C3: in-order, exactly-once delivery. Whatever packets of a publisher's stream
    arrive, in whatever order, lost, repeated, overlapping or of another
    session, the messages and decoding errors that the receiver emits are the
    publisher's blocks in sequence from the start up to the cursor, each once;
    and the start is the configured one if there is one. *)
Theorem in_order_exactly_once body cfg pkts :
  (∀ s, (length (body s) ≤ MAX_BLOCK_LEN)%nat) → Forall (carries body) pkts →
  is_u64 (MoldConfig.start_sequence cfg) →
  let st := ingest_all pkts (ReceiverState.new cfg) in
  ∃ start, start ≤ next_expected st
    ∧ (MoldConfig.start_sequence cfg ≠ 0 → start = MoldConfig.start_sequence cfg)
    ∧ emissions st = map (emission body) (seqZ start (next_expected st - start)).
Proof.
  intros Hlen Hp Hs st.
  assert (running body (MoldConfig.start_sequence cfg) st) as [Hs0 Hfr Hbo].
  { apply running_ingest_all; [done|done|]. apply running_new. unfold u64_max. destruct Hs. lia. }
  destruct (bootstrapped st).
  - destruct (Hbo eq_refl) as (start & ? & He). exists start.
    split_and!; [destruct He; lia|done|by apply em_out].
  - destruct (Hfr eq_refl) as (? & He & _). exists (MoldConfig.start_sequence cfg).
    split_and!; [destruct He; lia|done|by apply em_out].
Qed.

(** A stream of system events whose timestamp is the sequence number. *)
Definition event_body (s : Z) : list Z :=
  [b@"S"; 0; 1; 0; 2; 0; 0; 0; 0; 0; s mod 256; b@"O"].
Definition event_packet (s : Z) (n : nat) : MoldPacket.t :=
  MoldPacket.mk (MoldPacketHeader.mk (replicate 10 space) s (Z.of_nat n))
    (map (λ i, MessageBlock.mk (event_body i)) (seqZ s (Z.of_nat n))).
Definition event_config : MoldConfig.t := 
  MoldConfig.with_pending_overflow Error (MoldConfig.with_start_sequence 1 MoldConfig.default).

Lemma event_body_len s : (length (event_body s) ≤ MAX_BLOCK_LEN)%nat.
Proof. apply Nat.leb_le. reflexivity. Qed.

Lemma event_packet_carries s n :
  0 ≤ s → s + Z.of_nat n ≤ u64_max → carries event_body (event_packet s n).
Proof.
  intros Hs Hn. unfold carries, event_packet. simpl.
  rewrite length_map, length_seqZ, Nat2Z.id. split_and!; [done|done|].
  intros i b Hi. rewrite list_lookup_fmap in Hi.
  apply fmap_Some in Hi as (j & Hj & ->). by apply lookup_seqZ in Hj as [-> _].
Qed.

Lemma in_order_exactly_once_witness :
  let st := ingest_all [event_packet 3 2; event_packet 1 1; event_packet 1 3; event_packet 2 1]
              (ReceiverState.new event_config) in
  ∃ start, start ≤ next_expected st ∧ (1 ≠ 0 → start = 1)
    ∧ emissions st = map (emission event_body) (seqZ start (next_expected st - start)).
Proof.
  apply (in_order_exactly_once event_body event_config).
  - exact event_body_len.
  - repeat constructor; apply event_packet_carries; unfold u64_max; lia.
  - split; vm_compute; congruence.
Defined.

(** A data packet of one block. *)
Definition single (body : Z → list Z) (sess : list Z) (pkt : MoldPacket.t) : Prop :=
  carries body pkt ∧ length (MoldPacket.blocks pkt) = 1%nat
  ∧ MoldPacketHeader.message_count (MoldPacket.header pkt) = 1
  ∧ MoldPacketHeader.session (MoldPacket.header pkt) = sess.

Definition pkt_seq (pkt : MoldPacket.t) : Z := MoldPacketHeader.sequence (MoldPacket.header pkt).

Lemma progress_ingest_all body start rcv k pkts sess st :
  (∀ s, (length (body s) ≤ MAX_BLOCK_LEN)%nat) →
  progress body start rcv k st → bootstrapped st = true → session st = Some sess →
  (k + length pkts ≤ max_pending st)%nat → Forall (single body sess) pkts →
  progress body start (list_to_set (map pkt_seq pkts) ∪ rcv) (k + length pkts)
    (ingest_all pkts st).
Proof.
  intros Hlen Hpr Hb Hs Hroom Hp. revert rcv k st Hpr Hb Hs Hroom.
  induction Hp as [|pkt pkts (Hc & Hl & Hcnt & Hse) Hp IH]; intros rcv k st Hpr Hb Hs Hroom.
  { simpl. by rewrite union_empty_l_L, Nat.add_0_r. }
  destruct (MoldPacket.blocks pkt) as [|b [|]] eqn:Ebl; try done. simpl in Hroom.
  pose proof (progress_ingest body Hlen start rcv k pkt b st Hpr Hb ltac:(lia) Hc Ebl Hcnt) as Hpr'.
  assert (ingest pkt st = ingest_session pkt st) as Ei.
  { unfold ingest. rewrite Hs, decide_False by (intros Hn; by apply Hn). done. }
  pose proof (frame_ingest_session pkt st) as Hfr. unfold boot in Hfr. rewrite Hb in Hfr.
  injection Hfr as Hb' Hm' _ _ Hs'.
  unfold ingest_all. cbn [foldl]. rewrite Ei. fold (ingest_all pkts (ingest_session pkt st)).
  specialize (IH _ _ _ Hpr' ltac:(congruence) ltac:(congruence) ltac:(rewrite Hm'; lia)).
  replace (k + length (pkt :: pkts))%nat with (S k + length pkts)%nat by (simpl; lia).
  cbn [map list_to_set]. by rewrite (union_comm_L {[pkt_seq pkt]}), <-union_assoc_L.
Qed.

Lemma progress_start body start st :
  0 ≤ start ≤ u64_max → next_expected st = start → emissions st = [] → pending st = ∅ →
  progress body start ∅ 0 st.
Proof.
  intros Hs Hn Ho Hp. assert (∀ s d, pending st !! s ≠ Some d) as Hnone
    by (intros s d; by rewrite Hp, lookup_empty).
  split; [split| | |].
  - lia.
  - lia.
  - by rewrite Ho, Hn, Z.sub_diag, seqZ_nil.
  - intros s d Hd. by destruct (Hnone s d).
  - intros s [d Hd]. by destruct (Hnone s d).
  - intros s Hss. split; [by intros ?%elem_of_empty|].
    intros [?|[d Hd]]; [lia|by destruct (Hnone s d)].
  - by rewrite Hp, map_size_empty.
Qed.

(** C19: nothing that can be delivered is held back, when every packet carries
    one block and the buffer is not exhausted. After any such packets, in any
    order, the cursor stands at the first sequence number from the start that
    has not been received, so every block before it has been emitted. *)
Theorem single_block_progress body sess cfg pkt pkts :
  (∀ s, (length (body s) ≤ MAX_BLOCK_LEN)%nat) →
  Forall (single body sess) (pkt :: pkts) →
  (MoldConfig.session cfg = None ∨ MoldConfig.session cfg = Some sess) →
  is_u64 (MoldConfig.start_sequence cfg) →
  (length (pkt :: pkts) ≤ MoldConfig.max_pending_messages cfg)%nat →
  let start := if MoldConfig.start_sequence cfg =? 0 then pkt_seq pkt
               else MoldConfig.start_sequence cfg in
  let st := ingest_all (pkt :: pkts) (ReceiverState.new cfg) in
  (∀ s, start ≤ s < next_expected st → s ∈ map pkt_seq (pkt :: pkts))
  ∧ ¬ (next_expected st ∈ map pkt_seq (pkt :: pkts))
  ∧ emissions st = map (emission body) (seqZ start (next_expected st - start)).
Proof.
  intros Hlen Hp Hses Hu Hroom start st.
  set (st0 := boot pkt (set_session sess (ReceiverState.new cfg))).
  assert (progress body start ∅ 0 st0) as Hpr.
  { pose proof (proj1 (Forall_cons_1 _ _ _ Hp)) as ((Hf & Hub & _) & _). fold (pkt_seq pkt) in Hf, Hub.
    destruct Hu as [? ?]. unfold st0, boot, start. simpl.
    destruct (MoldConfig.start_sequence cfg =? 0); apply progress_start; try done;
      unfold u64_max in *; lia. }
  assert (st = ingest_all (pkt :: pkts) st0) as Est.
  { unfold st, st0, ingest_all. cbn [foldl]. f_equal.
    pose proof (proj1 (Forall_cons_1 _ _ _ Hp)) as (_ & _ & _ & Hse).
    assert (session (boot pkt (set_session sess (ReceiverState.new cfg))) = Some sess) as Hs0.
    { unfold boot. simpl. by case_match. }
    unfold ingest at 2. rewrite Hs0, decide_False by (intros Hn; by apply Hn).
    rewrite <-ingest_session_boot. unfold ingest. simpl.
    destruct Hses as [Hn|Hn]; rewrite Hn; [by rewrite Hse|].
    rewrite decide_False by (intros Hx; by apply Hx). unfold set_session, ReceiverState.new. simpl.
    by rewrite Hn. }
  assert (bootstrapped st0 = true ∧ session st0 = Some sess
    ∧ max_pending st0 = MoldConfig.max_pending_messages cfg) as (Hb0 & Hs0 & Hm0).
  { unfold st0, boot. simpl. by case_match. }
  rewrite Est. pose proof (progress_ingest_all body start ∅ 0 (pkt :: pkts) sess st0 Hlen Hpr Hb0 Hs0
    ltac:(rewrite Hm0; done) Hp) as [He Hbe Hr _].
  split_and!.
  - intros s Hs. apply (elem_of_list_to_set (C := gset Z)).
    rewrite <-(union_empty_r_L (list_to_set _)). apply Hr; [lia|]. left. lia.
  - intros Hin. apply (elem_of_list_to_set (C := gset Z)) in Hin.
    assert (start ≤ next_expected (ingest_all (pkt :: pkts) st0)) as Hle by (destruct He; lia).
    rewrite <-(union_empty_r_L (list_to_set _)) in Hin.
    apply (Hr _ Hle) in Hin as [?|Hin]; [lia|]. apply Hbe in Hin. lia.
  - by apply em_out.
Qed.

Lemma event_packet_single s :
  0 ≤ s < u64_max → single event_body (replicate 10 space) (event_packet s 1).
Proof.
  intros Hs. split_and!; [apply event_packet_carries; lia|..]; try done.
Qed.

Lemma single_block_progress_witness :
  let pkts := [event_packet 2 1; event_packet 4 1; event_packet 1 1] in
  let st := ingest_all pkts (ReceiverState.new event_config) in
  (∀ s, 1 ≤ s < next_expected st → s ∈ map pkt_seq pkts)
  ∧ ¬ (next_expected st ∈ map pkt_seq pkts)
  ∧ emissions st = map (emission event_body) (seqZ 1 (next_expected st - 1)).
Proof.
  apply (single_block_progress event_body (replicate 10 space) event_config).
  - exact event_body_len.
  - repeat constructor; apply event_packet_single; unfold u64_max; lia.
  - left. reflexivity.
  - split; vm_compute; congruence.
  - apply Nat.leb_le. vm_compute. reflexivity.
Defined.

(** Block 3 is buffered, then delivered from a packet that overlaps it, and
    stays in the buffer below the cursor; block 6 is buffered behind it, and
    block 5 arrives. *)
Definition wedge_packets : list MoldPacket.t :=
  [event_packet 1 1; event_packet 3 1; event_packet 2 3; event_packet 6 1; event_packet 5 1].

Lemma wedge_facts :
  let st := ingest_all wedge_packets (ReceiverState.new event_config) in
  next_expected st = 6 ∧ pending st !! 6 = Some (event_body 6) ∧ is_Some (pending st !! 3)
  ∧ bootstrapped st = true ∧ pending_overflow st = Error.
Proof. vm_compute. split_and!; try reflexivity. eexists. reflexivity. Qed.

(** A retransmission that overlaps buffered blocks disables the buffer.
    After packets 1, 3, 2-4, 6, 5 the receiver expects block 6 and holds it,
    but does not deliver it, and no further packets, whatever they are, get any
    block out of the buffer (under the [Error] overflow policy): [flush_pending]
    stops at the stale entry 3. *)
Theorem overlap_wedges_receiver more :
  Forall in_bounds more →
  let st := ingest_all wedge_packets (ReceiverState.new event_config) in
  next_expected st = 6 ∧ pending st !! 6 = Some (event_body 6)
  ∧ pending (ingest_all more st) !! 6 = Some (event_body 6)
  ∧ pending st ⊆ pending (ingest_all more st).
Proof.
  intros Hm st. destruct wedge_facts as (Hn & H6 & H3 & Hb & Hp). fold st in Hn, H6, H3, Hb, Hp.
  assert (stale st) as Hst by (exists 3; split; [exact H3|lia]).
  destruct (keeps_ingest_all more st Hm Hb Hp Hst) as (Hsub & _).
  split_and!; [done|done|by eapply lookup_weaken|done].
Qed.

Lemma overlap_wedges_receiver_witness :
  let st := ingest_all wedge_packets (ReceiverState.new event_config) in
  let more := [event_packet 6 2; event_packet 8 1] in
  next_expected st = 6 ∧ pending st !! 6 = Some (event_body 6)
  ∧ pending (ingest_all more st) !! 6 = Some (event_body 6)
  ∧ pending st ⊆ pending (ingest_all more st).
Proof.
  apply (overlap_wedges_receiver [event_packet 6 2; event_packet 8 1]).
  repeat constructor; vm_compute; congruence.
Defined.
