(* ===== verification/MoldStore.v ===== *)
(** The retransmission cache and its request protocol
    ([crates/itch-mold/src/request_server.rs]).

    A [VecDeque] is a list whose head is the front.  [binary_search] is the
    standard library's halving search on a slice; where the ring has wrapped,
    [VecDeque::binary_search_by_key] first chooses one of its two slices, which
    on ordered keys ends at the same place.  A TCP connection is the bytes that
    arrive on it: [serve_request] is the body of [serve_conn]'s loop, from one
    request frame to the response it writes, and [request_response] is what
    [RequestClient::request] does with the bytes that come back.  Accepting
    connections and I/O errors other than the end of the stream are not
    modelled. *)

From S2P Require Import Prelude Primitives Enums Messages Codec MessageCodec MoldCodec MoldReceiver.

Definition STATUS_OK : Z := 0x00000000.
Definition STATUS_HOLE : Z := 0xFFFFFFFE.
Definition STATUS_END_OF_SESSION : Z := 0xFFFFFFFF.
Definition REQUEST_FRAME_LEN : nat := 12.
Definition RESPONSE_HEADER_LEN : nat := 8.
Definition MAX_RESPONSE_FRAMES : Z := 65536.

(** [u64::saturating_add] on sequence numbers. *)
Abbreviation seq_add := u64_saturating_add.

(** [slice::binary_search_by_key], for the keys [ks]. *)
Fixpoint bs_loop (fuel : nat) (key : Z) (ks : list Z) (base size : nat) : nat :=
  match fuel with
  | O => base
  | S fuel =>
      if (1 <? size)%nat then
        let half := (size / 2)%nat in
        let mid := (base + half)%nat in
        bs_loop fuel key ks (if key <? nth mid ks 0 then base else mid) (size - half)
      else base
  end.
Definition binary_search (key : Z) (ks : list Z) : result nat nat :=
  match ks with
  | [] => Err O
  | _ =>
      let base := bs_loop (length ks) key ks 0 (length ks) in
      let x := nth base ks 0 in
      if x =? key then Ok base else Err (if x <? key then S base else base)
  end.

Module RingBufferSeqStore.
Record t := mk { inner : list CachedFrame.t; capacity : nat; eos : bool }.

Definition with_capacity (capacity : nat) : t := mk [] (Nat.max capacity 1) false.

Definition push (frame : CachedFrame.t) (st : t) : t :=
  let inner := if (length (inner st) =? capacity st)%nat then tail (inner st) else inner st in
  mk (inner ++ [frame]) (capacity st) (eos st).

Definition mark_end_of_session (st : t) : t := mk (inner st) (capacity st) true.

Definition len (st : t) : nat := length (inner st).
Definition first_sequence (st : t) : option Z := CachedFrame.sequence <$> head (inner st).
Definition last_sequence (st : t) : option Z := CachedFrame.sequence <$> last (inner st).

(** The loop over [self.inner.iter().skip(idx)]. *)
Fixpoint lookup_loop (frames : list CachedFrame.t) (cap : nat) (next_expected : Z)
    (out : list CachedFrame.t) : list CachedFrame.t :=
  match frames with
  | [] => out
  | f :: frames =>
      if (length out =? cap)%nat then out
      else if negb (CachedFrame.sequence f =? next_expected) then out
      else lookup_loop frames cap (seq_add next_expected 1) (out ++ [f])
  end.

Definition lookup (start_seq count : Z) (st : t) : list CachedFrame.t :=
  let cap := Z.to_nat (Z.min count MAX_RESPONSE_FRAMES) in
  match binary_search start_seq (map CachedFrame.sequence (inner st)) with
  | Err _ => []
  | Ok idx => lookup_loop (drop idx (inner st)) cap start_seq []
  end.

Definition status_for (start_seq count frames_returned : Z) (st : t) : Z :=
  if frames_returned =? Z.min count MAX_RESPONSE_FRAMES then STATUS_OK
  else
    let asked_end := seq_add start_seq (Z.min count MAX_RESPONSE_FRAMES) in
    match last_sequence st with
    | Some l =>
        if (l <? start_seq) && eos st then STATUS_END_OF_SESSION
        else if (u64_add l 1 <? asked_end) && eos st then STATUS_END_OF_SESSION
        else STATUS_HOLE
    | None => if eos st then STATUS_END_OF_SESSION else STATUS_HOLE
    end.
End RingBufferSeqStore.

(** ** The request protocol *)

(** The loop of [write_response] over the frames. *)
Fixpoint put_frames (frames : list CachedFrame.t) (out : list Z) : result (list Z) MoldError.t :=
  match frames with
  | [] => Ok out
  | f :: frames =>
      let body := CachedFrame.body f in
      if (MAX_BLOCK_LEN <? length body)%nat
      then Err (MoldError.BlockTooLarge (Z.of_nat (length body)) (Z.of_nat MAX_BLOCK_LEN))
      else put_frames frames (out ++ to_be_bytes 2 (Z.of_nat (length body)) ++ body)
  end.
Definition write_response (status : Z) (frames : list CachedFrame.t) : result (list Z) MoldError.t :=
  put_frames frames (to_be_bytes 4 status ++ to_be_bytes 4 (Z.of_nat (length frames))).

(** One request frame and the response to it. *)
Definition serve_request (buf : list Z) (cache : RingBufferSeqStore.t)
    : result (list Z) MoldError.t :=
  let sequence := from_be_bytes (sub 0 8 buf) in
  let count := from_be_bytes (sub 8 4 buf) in
  if count =? 0 then write_response STATUS_OK []
  else
    let frames := RingBufferSeqStore.lookup sequence count cache in
    let status :=
      RingBufferSeqStore.status_for sequence count (Z.of_nat (length frames)) cache in
    write_response status frames.

Module RequestResponse.
Record t := mk { status : Z; frames : list CachedFrame.t }.
End RequestResponse.

Definition request_frame (sequence count : Z) : list Z :=
  to_be_bytes 8 sequence ++ to_be_bytes 4 count.

(** [stream.read_exact(&mut buf)]: the bytes and the rest of the stream. *)
Definition stream_read (n : nat) (stream : list Z) : result (list Z * list Z) MoldError.t :=
  if (length stream <? n)%nat then Err (MoldError.Io "UnexpectedEof")
  else Ok (take n stream, drop n stream).

(** [for _ in 0..frame_count]. *)
Fixpoint read_frames (frame_count : nat) (next_seq : Z) (stream : list Z)
    : result (list CachedFrame.t * list Z) MoldError.t :=
  match frame_count with
  | O => Ok ([], stream)
  | S frame_count =>
      let? (len_buf, stream) := stream_read 2 stream in
      let len := Z.to_nat (from_be_bytes len_buf) in
      if (len =? 0)%nat then Err MoldError.EmptyBlock
      else if (MAX_BLOCK_LEN <? len)%nat
      then Err (MoldError.BlockTooLarge (Z.of_nat len) (Z.of_nat MAX_BLOCK_LEN))
      else
        let? (body, stream) := stream_read len stream in
        let? (frames, stream) := read_frames frame_count (seq_add next_seq 1) stream in
        Ok (CachedFrame.mk next_seq body :: frames, stream)
  end.

(** What [request] makes of the bytes that the server sends back; it returns the
    response and leaves the rest of the stream. *)
Definition request_response (sequence : Z) (stream : list Z)
    : result (RequestResponse.t * list Z) MoldError.t :=
  let? (hdr, stream) := stream_read RESPONSE_HEADER_LEN stream in
  let status := from_be_bytes (sub 0 4 hdr) in
  let frame_count := from_be_bytes (sub 4 4 hdr) in
  if MAX_RESPONSE_FRAMES <? frame_count
  then Err (MoldError.BlockTooLarge frame_count MAX_RESPONSE_FRAMES)
  else
    let? (frames, stream) := read_frames (Z.to_nat frame_count) sequence stream in
    Ok (RequestResponse.mk status frames, stream).

(** ** The search *)

Import RingBufferSeqStore.

(** The frames are in order of their sequence numbers. *)
Abbreviation ascending := (StronglySorted Z.lt).

Lemma ascending_nth ks i j :
  ascending ks → (i < j < length ks)%nat → nth i ks 0 < nth j ks 0.
Proof.
  intros Hs. revert i j. induction Hs as [|k ks Hs IH Hk]; intros i j Hij; [simpl in Hij; lia|].
  simpl in Hij. destruct j as [|j]; [lia|]. destruct i as [|i]; simpl.
  - rewrite Forall_forall in Hk. apply Hk, list_elem_of_In, nth_In. lia.
  - apply IH. lia.
Qed.

Lemma bs_loop_spec fuel key ks base size :
  ascending ks → (0 < size ≤ S fuel)%nat → (base + size ≤ length ks)%nat →
  (∀ i, (i < length ks)%nat → nth i ks 0 = key → (base ≤ i < base + size)%nat) →
  ∀ i, (i < length ks)%nat → nth i ks 0 = key → bs_loop fuel key ks base size = i.
Proof.
  intros Hs. revert base size. induction fuel as [|fuel IH]; intros base size Hsz Hb Hin i Hi Hk.
  { simpl. specialize (Hin i Hi Hk). lia. }
  cbn [bs_loop]. destruct (Nat.ltb_spec 1 size); [|specialize (Hin i Hi Hk); lia]. cbv zeta.
  assert (0 < size / 2 < size)%nat as Hh.
  { split; [apply Nat.div_str_pos; lia|apply Nat.div_lt; lia]. }
  apply IH; [lia| | |done|done].
  - destruct (key <? nth (base + size / 2) ks 0); lia.
  - intros j Hj Hkj. pose proof (Hin j Hj Hkj).
    destruct (Z.ltb_spec key (nth (base + size / 2) ks 0)) as [Hlt|Hge].
    + assert (¬ (base + size / 2 ≤ j)%nat) as Hn.
      { intros Hle. destruct (Nat.eq_dec j (base + size / 2)) as [->|]; [lia|].
        pose proof (ascending_nth ks (base + size / 2) j Hs ltac:(lia)). lia. }
      pose proof (Nat.div_mod_eq size 2). pose proof (Nat.mod_upper_bound size 2). lia.
    + assert (¬ (j < base + size / 2)%nat) as Hn.
      { intros Hlt. pose proof (ascending_nth ks j (base + size / 2) Hs ltac:(lia)). lia. }
      lia.
Qed.

Lemma bs_loop_bound fuel key ks base size :
  (0 < size)%nat → (base + size ≤ length ks)%nat →
  (bs_loop fuel key ks base size < length ks)%nat.
Proof.
  revert base size. induction fuel as [|fuel IH]; intros base size Hs Hb; [simpl; lia|].
  cbn [bs_loop]. destruct (Nat.ltb_spec 1 size); [|lia]. cbv zeta.
  assert (0 < size / 2 < size)%nat as Hh.
  { split; [apply Nat.div_str_pos; lia|apply Nat.div_lt; lia]. }
  apply IH; [lia|]. destruct (key <? nth (base + size / 2) ks 0); lia.
Qed.

(** On ascending keys the search finds the key's place, if it is there. *)
Lemma binary_search_spec key ks :
  ascending ks →
  match binary_search key ks with
  | Ok i => (i < length ks)%nat ∧ nth i ks 0 = key
  | Err _ => key ∉ ks
  end.
Proof.
  intros Hs. unfold binary_search. destruct ks as [|k ks'] eqn:Ek; [by intros ?%elem_of_nil|].
  rewrite <-Ek in *. assert (0 < length ks)%nat as Hl by (rewrite Ek; simpl; lia). clear Ek.
  set (base := bs_loop (length ks) key ks 0 (length ks)).
  assert (∀ i, (i < length ks)%nat → nth i ks 0 = key → base = i) as Hb.
  { intros i Hi Hk. apply bs_loop_spec; [done|lia|lia| |done|done]. intros. lia. }
  destruct (Z.eqb_spec (nth base ks 0) key) as [He|Hne].
  - split; [|done]. destruct (Nat.lt_ge_cases base (length ks)) as [|Hge]; [done|].
    exfalso. assert (base < length ks)%nat; [|lia]. apply bs_loop_bound; lia.
  - intros Hin%list_elem_of_In. apply (In_nth _ _ 0) in Hin as (i & Hi & Hk).
    by rewrite (Hb i Hi Hk) in Hne.
Qed.

(** ** What a lookup finds *)

Record cache_ok (st : RingBufferSeqStore.t) : Prop := {
  co_ascending : ascending (map CachedFrame.sequence (inner st));
  co_frames : Forall (λ f, 0 ≤ CachedFrame.sequence f < u64_max
                ∧ (0 < length (CachedFrame.body f) ≤ MAX_BLOCK_LEN)%nat) (inner st);
}.

(** The longest prefix of consecutive frames from [next]. *)
Fixpoint run_from (next : Z) (frames : list CachedFrame.t) : list CachedFrame.t :=
  match frames with
  | [] => []
  | f :: frames =>
      if CachedFrame.sequence f =? next then f :: run_from (next + 1) frames else []
  end.

Lemma lookup_loop_run frames cap next out :
  (length out ≤ cap)%nat → Forall (λ f, CachedFrame.sequence f < u64_max) frames →
  lookup_loop frames cap next out = out ++ take (cap - length out) (run_from next frames).
Proof.
  revert next out. induction frames as [|f frames IH]; intros next out Hc Hf; simpl.
  { by rewrite take_nil, app_nil_r. }
  inversion Hf as [|? ? Hf0 Hf']; subst. destruct (Nat.eqb_spec (length out) cap) as [He|Hne].
  { by rewrite He, Nat.sub_diag, take_0, app_nil_r. }
  destruct (Z.eqb_spec (CachedFrame.sequence f) next) as [Hs|Hs]; simpl.
  2:{ by rewrite take_nil, app_nil_r. }
  rewrite u64_saturating_add_small by lia. rewrite IH by (rewrite ?length_app; simpl; lia || done).
  rewrite length_app. simpl. replace (cap - length out)%nat with (S (cap - (length out + 1))) by lia.
  by rewrite <-app_assoc.
Qed.

Lemma run_from_lookup frames next i f :
  ascending (map CachedFrame.sequence frames) →
  Forall (λ f, next ≤ CachedFrame.sequence f) frames →
  run_from next frames !! i = Some f ↔
  (∀ j, (j ≤ i)%nat → ∃ g, g ∈ frames ∧ CachedFrame.sequence g = next + Z.of_nat j)
  ∧ f ∈ frames ∧ CachedFrame.sequence f = next + Z.of_nat i.
Proof.
  revert next i. induction frames as [|f0 frames IH]; intros next i Ha Hge.
  { simpl. split; [done|]. intros (_ & ?%elem_of_nil & _). done. }
  simpl in Ha. apply StronglySorted_inv in Ha as [Ha Hlt]. inversion Hge as [|? ? Hge0 Hge']; subst.
  rewrite Forall_map, Forall_forall in Hlt. simpl.
  assert (∀ g, g ∈ f0 :: frames → CachedFrame.sequence g ≤ CachedFrame.sequence f0 → g = f0) as Hmin.
  { intros g [->|Hg]%elem_of_cons Hle; [done|]. specialize (Hlt _ Hg). simpl in Hlt. lia. }
  destruct (Z.eqb_spec (CachedFrame.sequence f0) next) as [Hs|Hs].
  2:{ split; [done|]. intros (Hj & _). destruct (Hj 0%nat ltac:(lia)) as (g & Hg & Hgs).
      rewrite (Hmin g Hg) in Hgs by lia. lia. }
  destruct i as [|i].
  { split.
    - intros [= <-]. split; [|split; [by apply list_elem_of_here|lia]].
      intros j Hj. exists f0. split; [by apply list_elem_of_here|lia].
    - intros (_ & Hf & Hfs). by rewrite (Hmin f Hf) by lia. }
  change ((f0 :: run_from (next + 1) frames) !! S i) with (run_from (next + 1) frames !! i).
  rewrite IH; [|done|].
  2:{ apply Forall_forall. intros g Hg. specialize (Hlt _ Hg). simpl in Hlt. lia. }
  assert (∀ g k, CachedFrame.sequence g = next + Z.of_nat (S k) →
    g ∈ f0 :: frames ↔ g ∈ frames) as Hin.
  { intros g k Hg. rewrite elem_of_cons. split; [intros [->|?]; [lia|done]|by right]. }
  split.
  - intros (Hj & Hf & Hfs). split; [|split; [by right|lia]]. intros [|j] Hle.
    + exists f0. split; [by apply list_elem_of_here|lia].
    + destruct (Hj j ltac:(lia)) as (g & Hg & Hgs). exists g. split; [by right|lia].
  - intros (Hj & Hf & Hfs). split; [|split; [by apply (Hin f i Hfs)|lia]]. intros j Hle.
    destruct (Hj (S j) ltac:(lia)) as (g & Hg & Hgs). exists g.
    split; [by apply (Hin g j Hgs)|lia].
Qed.

(** The frames that a search lands on are those from [start] on. *)
Lemma drop_ascending frames idx start :
  ascending (map CachedFrame.sequence frames) → (idx < length frames)%nat →
  nth idx (map CachedFrame.sequence frames) 0 = start →
  ascending (map CachedFrame.sequence (drop idx frames))
  ∧ Forall (λ f, start ≤ CachedFrame.sequence f) (drop idx frames)
  ∧ ∀ g, start ≤ CachedFrame.sequence g → g ∈ frames → g ∈ drop idx frames.
Proof.
  revert idx. induction frames as [|f frames IH]; intros idx Ha Hl Hn; [simpl in Hl; lia|].
  simpl in Ha. pose proof Ha as Ha0. apply StronglySorted_inv in Ha as [Ha Hlt].
  rewrite Forall_map, Forall_forall in Hlt. destruct idx as [|idx]; simpl in Hn.
  - subst start. rewrite drop_0. split; [done|]. split; [|done]. constructor; [done|].
    apply Forall_forall. intros g Hg. specialize (Hlt _ Hg). simpl in Hlt. lia.
  - simpl in Hl. destruct (IH idx Ha ltac:(lia) Hn) as (H1 & H2 & H3).
    split; [done|]. split; [done|]. intros g Hg [->|Hin]%elem_of_cons; [|by apply H3].
    assert (CachedFrame.sequence f < start) as Hf; [|lia]. rewrite <-Hn.
    destruct (nth_lookup_or_length (map CachedFrame.sequence frames) idx 0) as [Hx|Hx];
      [|rewrite length_map in Hx; lia].
    rewrite list_lookup_fmap in Hx. apply fmap_Some in Hx as (h & Hh & ->).
    apply list_elem_of_lookup_2 in Hh. by apply Hlt.
Qed.

Lemma lookup_spec start count st i f :
  cache_ok st →
  lookup start count st !! i = Some f ↔
  Z.of_nat i < Z.min count MAX_RESPONSE_FRAMES
  ∧ (∀ j, (j ≤ i)%nat → ∃ g, g ∈ inner st ∧ CachedFrame.sequence g = start + Z.of_nat j)
  ∧ f ∈ inner st ∧ CachedFrame.sequence f = start + Z.of_nat i.
Proof.
  intros [Ha Hf]. unfold lookup.
  pose proof (binary_search_spec start (map CachedFrame.sequence (inner st)) Ha) as Hb.
  destruct (binary_search start _) as [idx|].
  2:{ split; [done|]. intros (_ & Hj & _). destruct (Hj 0%nat ltac:(lia)) as (g & Hg & Hgs).
      destruct Hb. apply list_elem_of_fmap. exists g. split; [lia|done]. }
  destruct Hb as [Hl Hn]. rewrite length_map in Hl.
  destruct (drop_ascending (inner st) idx start Ha Hl Hn) as (Ha' & Hge & Hin).
  rewrite lookup_loop_run; [|simpl; lia|].
  2:{ apply Forall_drop. eapply Forall_impl; [exact Hf|]. intros ? [? _]. lia. }
  simpl app. rewrite Nat.sub_0_r, lookup_take_Some, run_from_lookup by done.
  assert (∀ g, g ∈ drop idx (inner st) → g ∈ inner st) as Hsub.
  { intros g Hg. rewrite <-(take_drop idx (inner st)). apply elem_of_app. by right. }
  split.
  - intros ((Hj & Hfi & Hfs) & Hi). split_and!; [lia| |by apply Hsub|done].
    intros j Hle. destruct (Hj j Hle) as (g & Hg & Hgs). eauto.
  - intros (Hi & Hj & Hfi & Hfs). split; [|lia]. split_and!; [|apply Hin; [lia|done]|done].
    intros j Hle. destruct (Hj j Hle) as (g & Hg & Hgs). exists g. split; [|done].
    apply Hin; [lia|done].
Qed.

(** ** The protocol *)

Definition frame_bytes (f : CachedFrame.t) : list Z :=
  to_be_bytes 2 (Z.of_nat (length (CachedFrame.body f))) ++ CachedFrame.body f.

Lemma put_frames_ok frames out :
  Forall (λ f, (length (CachedFrame.body f) ≤ MAX_BLOCK_LEN)%nat) frames →
  put_frames frames out = Ok (out ++ concat (map frame_bytes frames)).
Proof.
  intros Hf. revert out. induction Hf as [|f frames Hl Hf IH]; intros out.
  { simpl. by rewrite app_nil_r. }
  cbn [put_frames]. rewrite (proj2 (Nat.ltb_ge _ _)), IH by done.
  cbn [map concat]. unfold frame_bytes at 2. by rewrite <-!app_assoc.
Qed.

Lemma stream_read_app n bs rest :
  length bs = n → stream_read n (bs ++ rest) = Ok (bs, rest).
Proof.
  intros <-. unfold stream_read. rewrite (proj2 (Nat.ltb_ge _ _)) by (rewrite length_app; lia).
  by rewrite take_app_length, drop_app_length.
Qed.

(** Consecutive frames are read back with their sequence numbers. *)
Lemma read_frames_ok frames next rest :
  (∀ i f, frames !! i = Some f → CachedFrame.sequence f = next + Z.of_nat i
     ∧ CachedFrame.sequence f < u64_max ∧ (0 < length (CachedFrame.body f) ≤ MAX_BLOCK_LEN)%nat) →
  read_frames (length frames) next (concat (map frame_bytes frames) ++ rest) = Ok (frames, rest).
Proof.
  revert next. induction frames as [|f frames IH]; intros next Hf; [done|].
  destruct (Hf 0%nat f eq_refl) as (Hs & Hu & Hl). cbn [length read_frames map concat].
  unfold frame_bytes at 1. rewrite <-!app_assoc.
  rewrite stream_read_app by apply length_to_be_bytes.
  rewrite (from_be_to_be 2 16), Nat2Z.id; [|done|].
  2:{ unfold MAX_BLOCK_LEN in Hl. split; lia. }
  rewrite (proj2 (Nat.eqb_neq _ _)), (proj2 (Nat.ltb_ge _ _)), stream_read_app by (done || lia).
  rewrite u64_saturating_add_small by lia. rewrite IH.
  - destruct f as [s b]. simpl in *. do 3 f_equal. f_equal. lia.
  - intros i g Hg. destruct (Hf (S i) g Hg) as (? & ? & ?). split_and!; [lia|done|lia..].
Qed.

Lemma lookup_frames_ok start count st i f :
  cache_ok st → lookup start count st !! i = Some f →
  CachedFrame.sequence f = start + Z.of_nat i
  ∧ CachedFrame.sequence f < u64_max ∧ (0 < length (CachedFrame.body f) ≤ MAX_BLOCK_LEN)%nat.
Proof.
  intros Hok Hi. pose proof (co_frames _ Hok) as Hf. apply lookup_spec in Hi; [|done].
  destruct Hi as (_ & _ & Hin & Hs). rewrite Forall_forall in Hf.
  destruct (Hf f Hin) as [? ?]. split_and!; [done|lia|lia..].
Qed.

Lemma length_lookup start count st :
  cache_ok st → 0 ≤ count → Z.of_nat (length (lookup start count st)) ≤ Z.min count MAX_RESPONSE_FRAMES.
Proof.
  intros Hok Hc. destruct (lookup start count st) as [|f0 out] eqn:E; [unfold MAX_RESPONSE_FRAMES; simpl; lia|].
  destruct (lookup_lt_is_Some_2 (lookup start count st) (length out)) as [f Hf];
    [rewrite E; simpl; lia|].
  apply lookup_spec in Hf as [Hlt _]; [|done]. simpl. lia.
Qed.

Lemma status_for_u32 start count n st : is_u32 (status_for start count n st).
Proof. unfold status_for. repeat case_match; split; vm_compute; congruence. Qed.

Lemma StronglySorted_drop {A} (R : relation A) n l :
  StronglySorted R l → StronglySorted R (drop n l).
Proof.
  intros Hs. revert n. induction Hs as [|x l Hs IH Hx]; intros [|n]; try constructor; try done.
  apply IH.
Qed.

Lemma be_pair n m wa wb a b :
  wa = 8 * Z.of_nat n → wb = 8 * Z.of_nat m → in_width wa a → in_width wb b →
  from_be_bytes (sub 0 n (to_be_bytes n a ++ to_be_bytes m b)) = a
  ∧ from_be_bytes (sub n m (to_be_bytes n a ++ to_be_bytes m b)) = b.
Proof.
  intros Ha Hb Hwa Hwb. split.
  - rewrite sub_app_here by apply length_to_be_bytes. by apply (from_be_to_be n wa).
  - rewrite sub_app_skip by (by rewrite length_to_be_bytes).
    rewrite length_to_be_bytes, Nat.sub_diag. unfold sub.
    rewrite drop_0, take_ge by (by rewrite length_to_be_bytes). by apply (from_be_to_be m wb).
Qed.

(** A request for nothing is answered like any other. *)
Lemma serve_request_frame sequence count st :
  cache_ok st → is_u64 sequence → is_u32 count →
  serve_request (request_frame sequence count) st
  = write_response (status_for sequence count (Z.of_nat (length (lookup sequence count st))) st)
      (lookup sequence count st).
Proof.
  intros Hok Hs Hc. unfold serve_request, request_frame.
  destruct (be_pair 8 4 64 32 sequence count) as [-> ->]; [done..|].
  destruct (Z.eqb_spec count 0) as [->|]; [|done].
  assert (lookup sequence 0 st = []) as ->; [|done].
  apply nil_length_inv. pose proof (length_lookup sequence 0 st Hok ltac:(lia)). lia.
Qed.

(** A push keeps the order, if the publisher counts up. *)
Lemma cache_ok_push f st :
  cache_ok st → (∀ g, g ∈ inner st → CachedFrame.sequence g < CachedFrame.sequence f) →
  0 ≤ CachedFrame.sequence f < u64_max →
  (0 < length (CachedFrame.body f) ≤ MAX_BLOCK_LEN)%nat → cache_ok (push f st).
Proof.
  intros [Ha Hf] Hl Hs Hb.
  assert (∀ fs, (∃ k, fs = drop k (inner st)) → cache_ok (mk (fs ++ [f]) (capacity st) (eos st))) as H.
  { intros fs [k ->]. split; simpl.
    - rewrite map_app, <-skipn_map. apply StronglySorted_snoc; [by apply StronglySorted_drop|].
      rewrite skipn_map. apply Forall_map, Forall_forall. intros g Hg. apply Hl.
      rewrite <-(take_drop k (inner st)). apply elem_of_app. by right.
    - apply Forall_app. split; [by apply Forall_drop|]. by constructor. }
  unfold push. apply H. destruct (_ =? _)%nat; [by exists 1%nat|by exists 0%nat].
Qed.

Definition push_all (frames : list CachedFrame.t) (st : RingBufferSeqStore.t)
    : RingBufferSeqStore.t := foldl (λ st f, push f st) st frames.

(** The cache holds the latest frames pushed, as many as it has room for. *)
Lemma inner_push_all frames st :
  (0 < capacity st)%nat → (length (inner st) ≤ capacity st)%nat →
  inner (push_all frames st)
  = drop (length (inner st) + length frames - capacity st) (inner st ++ frames).
Proof.
  unfold push_all. revert st. induction frames as [|f frames IH]; intros st Hc Hl; simpl.
  { rewrite app_nil_r. replace (length (inner st) + 0 - capacity st)%nat with 0%nat by lia. done. }
  unfold push at 2. destruct (Nat.eqb_spec (length (inner st)) (capacity st)) as [He|Hne].
  - destruct (inner st) as [|g fs] eqn:E; [simpl in He; lia|]. simpl in He.
    rewrite IH by (simpl; rewrite ?length_app; simpl; lia). simpl. rewrite length_app. simpl.
    rewrite <-app_assoc. simpl.
    replace (length fs + 1 + length frames - capacity st)%nat with (length frames) by lia.
    by replace (S (length fs + S (length frames)) - capacity st)%nat with (S (length frames)) by lia.
  - rewrite IH by (simpl; rewrite ?length_app; simpl; lia). simpl. rewrite length_app. simpl.
    rewrite <-app_assoc. simpl. f_equal. lia.
Qed.

(** What the two ends of a connection make of a request. *)
Lemma retransmission_served sequence count st :
  cache_ok st → is_u64 sequence → is_u32 count →
  let frames := lookup sequence count st in
  let status := status_for sequence count (Z.of_nat (length frames)) st in
  ∃ bytes, serve_request (request_frame sequence count) st = Ok bytes
    ∧ ∀ rest, request_response sequence (bytes ++ rest)
        = Ok (RequestResponse.mk status frames, rest).
Proof.
  intros Hok Hs Hc frames status.
  assert (Forall (λ f, (length (CachedFrame.body f) ≤ MAX_BLOCK_LEN)%nat) frames) as Hbody.
  { apply Forall_lookup. intros i f Hi. by apply (lookup_frames_ok _ _ _ _ _ Hok) in Hi as (_ & _ & ? & ?). }
  pose proof (length_lookup sequence count st Hok ltac:(apply Hc)) as Hn. fold frames in Hn.
  eexists. rewrite serve_request_frame by done. fold frames status. unfold write_response.
  rewrite put_frames_ok by done. split; [done|]. intros rest.
  unfold request_response. rewrite <-(app_assoc (_ ++ _)).
  rewrite stream_read_app by (by rewrite length_app, !length_to_be_bytes).
  destruct (be_pair 4 4 32 32 status (Z.of_nat (length frames))) as [-> ->]; [done|done|..].
  { apply status_for_u32. }
  { unfold MAX_RESPONSE_FRAMES in Hn. split; lia. }
  rewrite (proj2 (Z.ltb_ge _ _)), Nat2Z.id by lia. rewrite read_frames_ok; [done|].
  intros i f Hi. by apply (lookup_frames_ok _ _ _ _ _ Hok) in Hi.
Qed.

(** ** Properties *)

(** The cache answers with the longest run it has. On a cache whose frames
    are in order, the [i]-th frame of a lookup from [start] is the cached frame
    of sequence number [start + i], and it is returned exactly when all frames
    from [start] to there are cached and fewer than the requested count (capped
    at [MAX_RESPONSE_FRAMES]) come before it. The binary search misses
    nothing. *)
Theorem lookup_maximal_run start count st i f :
  cache_ok st →
  lookup start count st !! i = Some f ↔
  Z.of_nat i < Z.min count MAX_RESPONSE_FRAMES
  ∧ (∀ j, (j ≤ i)%nat → ∃ g, g ∈ inner st ∧ CachedFrame.sequence g = start + Z.of_nat j)
  ∧ f ∈ inner st ∧ CachedFrame.sequence f = start + Z.of_nat i.
Proof. apply lookup_spec. Qed.

Definition example_cache : RingBufferSeqStore.t :=
  push_all (map (λ s, CachedFrame.mk s [s]) [3; 4; 5; 7; 8]) (with_capacity 4).

Lemma example_cache_ok : cache_ok example_cache.
Proof.
  split; [repeat constructor|].
  repeat constructor; simpl; try (unfold u64_max; lia); apply Nat.leb_le; reflexivity.
Qed.

Lemma lookup_maximal_run_witness :
  lookup 4 3 example_cache !! 1%nat = Some (CachedFrame.mk 5 [5])
  ∧ lookup 4 3 example_cache !! 2%nat = None.
Proof.
  split.
  - apply (lookup_maximal_run 4 3 example_cache 1 (CachedFrame.mk 5 [5])); [exact example_cache_ok|].
    split; [reflexivity|]. split; [|split; [do 1 right; left|reflexivity]].
    intros [|[|j]] Hj; [exists (CachedFrame.mk 4 [4])|exists (CachedFrame.mk 5 [5])|lia];
      (split; [|reflexivity]); [left|right; left].
  - vm_compute. reflexivity.
Defined.

(** A retransmission arrives as it was cached. The server answers any
    request from an ordered cache without error, and the client, reading the
    answer from the stream, gets the server's status and exactly the frames of
    the lookup with their sequence numbers, and leaves what follows on the
    stream untouched. *)
Theorem retransmission_exact sequence count st :
  cache_ok st → is_u64 sequence → is_u32 count →
  let frames := lookup sequence count st in
  let status := status_for sequence count (Z.of_nat (length frames)) st in
  ∃ bytes, serve_request (request_frame sequence count) st = Ok bytes
    ∧ ∀ rest, request_response sequence (bytes ++ rest)
        = Ok (RequestResponse.mk status frames, rest).
Proof. apply retransmission_served. Qed.

Lemma retransmission_exact_witness :
  ∃ bytes, serve_request (request_frame 4 9) example_cache = Ok bytes
    ∧ ∀ rest, request_response 4 (bytes ++ rest)
        = Ok (RequestResponse.mk STATUS_HOLE [CachedFrame.mk 4 [4]; CachedFrame.mk 5 [5]], rest).
Proof.
  apply (retransmission_exact 4 9 example_cache).
  - exact example_cache_ok.
  - vm_compute. split; congruence.
  - vm_compute. split; congruence.
Defined.

(** The cache keeps the latest frames. After any frames have been pushed it
    holds the last ones, as many as its capacity (at least one), in order. *)
Theorem cache_keeps_latest cap frames :
  inner (push_all frames (with_capacity cap)) = drop (length frames - Nat.max cap 1) frames.
Proof. rewrite inner_push_all by (simpl; lia). done. Qed.
