(* ===== verification/RequestServer.v ===== *)
(** The request server under load ([crates/itch-mold/src/request_server.rs]).

    One accept loop, one task per connection, and the publisher, which pushes
    frames into the same cache.  [step] is one move of one task between two
    accesses to shared state; the cache is behind a mutex, so that a lookup and
    its status are one move.  [received] are the bytes of a connection that have
    not been read, [written] those that were sent on it.  What a move cannot decide
    is part of the action: what the peer sends, and after how many bytes a write
    fails.  Addresses, [set_nodelay], [shutdown] and logging are left out.

    The theorem is about every interleaving: a client that sends requests one
    after the other reads one response per request, in order, and a frame in a
    response is the published frame with that number. *)

From S2P Require Import Prelude Primitives Enums Messages Codec MessageCodec MoldCodec MoldReceiver MoldStore.

Module MoldRequestServer.

(** The task of a connection: [serve_conn] under [handle_conn]. *)
Module Conn.
Record t := mk { received : list Z; eof : bool; written : list Z; ended : bool }.
Definition accepted : t := mk [] false [] false.
Definition end_ (c : t) : t := mk (received c) (eof c) (written c) true.
Definition arrive (bs : list Z) (c : t) : t := mk (received c ++ bs) (eof c) (written c) (ended c).
Definition hang_up (c : t) : t := mk (received c) true (written c) (ended c).

(** A turn of the loop: [fails] is the number of bytes after which the write
    fails.  [None] while the request is not complete. *)
Definition turn (cache : RingBufferSeqStore.t) (fails : option nat) (c : t) : option t :=
  if (length (received c) <? REQUEST_FRAME_LEN)%nat then
    if eof c then Some (end_ c) else None
  else
    let buf := take REQUEST_FRAME_LEN (received c) in
    let rest := drop REQUEST_FRAME_LEN (received c) in
    match serve_request buf cache with
    | Err _ => Some (mk rest (eof c) (written c) true)
    | Ok out =>
        match fails with
        | None => Some (mk rest (eof c) (written c ++ out) false)
        | Some n => Some (mk rest (eof c) (written c ++ take n out) true)
        end
    end.
End Conn.

Record t := mk { cache : RingBufferSeqStore.t; conns : list Conn.t; accepting : bool }.

Definition new (capacity : nat) : t := mk (RingBufferSeqStore.with_capacity capacity) [] true.
Definition set_cache (c : RingBufferSeqStore.t) (w : t) : t := mk c (conns w) (accepting w).
Definition cache_frame (frame : CachedFrame.t) (w : t) : t :=
  set_cache (RingBufferSeqStore.push frame (cache w)) w.
Definition mark_end_of_session (w : t) : t :=
  set_cache (RingBufferSeqStore.mark_end_of_session (cache w)) w.
Definition set_conn (i : nat) (c : Conn.t) (w : t) : t := mk (cache w) (<[i := c]> (conns w)) (accepting w).

Inductive action :=
| CacheFrame (frame : CachedFrame.t)
| MarkEndOfSession
| Accept
| AcceptFails
| Arrive (i : nat) (bs : list Z)
| HangUp (i : nat)
| Turn (i : nat) (fails : option nat).

Definition step (a : action) (w : t) : option t :=
  match a with
  | CacheFrame frame => Some (cache_frame frame w)
  | MarkEndOfSession => Some (mark_end_of_session w)
  | Accept =>
      if accepting w then Some (mk (cache w) (conns w ++ [Conn.accepted]) true) else None
  | AcceptFails =>
      if accepting w then Some (mk (cache w) (map Conn.end_ (conns w)) false) else None
  | Arrive i bs => c ← conns w !! i; Some (set_conn i (Conn.arrive bs c) w)
  | HangUp i => c ← conns w !! i; Some (set_conn i (Conn.hang_up c) w)
  | Turn i fails =>
      c ← conns w !! i;
      if Conn.ended c then None else c ← Conn.turn (cache w) fails c; Some (set_conn i c w)
  end.
End MoldRequestServer.

(** ** The client's side *)

(** A request: a number and a count. *)
Abbreviation req := (Z * Z)%type.
Definition req_bytes (r : req) : list Z := request_frame r.1 r.2.
Definition req_ok (r : req) : Prop := is_u64 r.1 ∧ is_u32 r.2.

(** The client reads a response per request, one after the other. *)
Fixpoint read_responses (reqs : list req) (stream : list Z)
    : result (list RequestResponse.t * list Z) MoldError.t :=
  match reqs with
  | [] => Ok ([], stream)
  | r :: reqs =>
      let? (resp, stream) := request_response r.1 stream in
      let? (resps, stream) := read_responses reqs stream in
      Ok (resp :: resps, stream)
  end.

(** What a response may say when [pub] has been published: consecutive published
    frames from the number asked for, at most as many as were asked for, and "ok"
    exactly when there are as many. *)
Record answers (pub : list CachedFrame.t) (r : req) (a : RequestResponse.t) : Prop := {
  an_frames i f : RequestResponse.frames a !! i = Some f →
    f ∈ pub ∧ CachedFrame.sequence f = r.1 + Z.of_nat i;
  an_count : Z.of_nat (length (RequestResponse.frames a)) ≤ Z.min r.2 MAX_RESPONSE_FRAMES;
  an_ok : RequestResponse.status a = STATUS_OK ↔
    Z.of_nat (length (RequestResponse.frames a)) = Z.min r.2 MAX_RESPONSE_FRAMES;
}.

(** ** Runs *)

Section runs.
Import RingBufferSeqStore MoldRequestServer.
Implicit Types (w : t) (c : Conn.t).

Definition frame_of (a : action) : list CachedFrame.t :=
  match a with CacheFrame f => [f] | _ => [] end.
Definition sent_to (i : nat) (a : action) : list Z :=
  match a with Arrive j bs => if (i =? j)%nat then bs else [] | _ => [] end.

(** What arrives are bytes. *)
Definition bytes_ok (a : action) : Prop := match a with Arrive _ bs => Forall is_u8 bs | _ => True end.

(** [reach cap pub recv w]: a run from a new server to [w], in which the frames
    [pub] were pushed and the bytes [recv i] came in on connection [i]. *)
Inductive reach (cap : nat) : list CachedFrame.t → (nat → list Z) → t → Prop :=
| reach_new : reach cap [] (λ _, []) (new cap)
| reach_step pub recv w a w' : reach cap pub recv w → bytes_ok a → step a w = Some w' →
    reach cap (pub ++ frame_of a) (λ i, recv i ++ sent_to i a) w'.

Definition frames_good (pub : list CachedFrame.t) : Prop :=
  ascending (map CachedFrame.sequence pub)
  ∧ Forall (λ f, 0 ≤ CachedFrame.sequence f < u64_max
      ∧ (0 < length (CachedFrame.body f) ≤ MAX_BLOCK_LEN)%nat) pub.

Lemma frames_good_app pub pub' : frames_good (pub ++ pub') → frames_good pub.
Proof.
  intros [Ha Hf]. apply Forall_app in Hf as [Hf _]. split; [|done].
  rewrite map_app in Ha. by apply StronglySorted_app_1_l in Ha.
Qed.

(** What the cache holds of what was published. *)
Record cache_of (cap : nat) (pub : list CachedFrame.t) (st : RingBufferSeqStore.t) : Prop := {
  cf_ok : cache_ok st;
  cf_cap : RingBufferSeqStore.capacity st = Nat.max cap 1;
  cf_inner : RingBufferSeqStore.inner st = drop (length pub - Nat.max cap 1) pub;
}.

(** A connection: [done] are the requests that were answered; only a connection
    that has ended may have written a part of a response. *)
Record conn_ok (pub : list CachedFrame.t) (recv : list Z) c : Prop := {
  cn_done : ∃ done resps lost tail,
    recv = concat (map req_bytes done) ++ lost ++ Conn.received c
    ∧ Forall2 (answers pub) done resps
    ∧ (∀ rest, read_responses done (Conn.written c ++ rest) = Ok (resps, tail ++ rest))
    ∧ (Conn.ended c = false → lost = [] ∧ tail = []);
}.

Lemma cache_of_new cap : cache_of cap [] (RingBufferSeqStore.with_capacity cap).
Proof. repeat split; simpl; try constructor. Qed.

Lemma cache_of_push cap pub st f :
  cache_of cap pub st → frames_good (pub ++ [f]) → cache_of cap (pub ++ [f]) (push f st).
Proof.
  intros [Hok Hcap Hin] [Ha Hf]. apply Forall_app in Hf as [_ [[Hs Hb] _]%Forall_cons].
  split; [| |].
  - apply cache_ok_push; try done. intros g Hg. rewrite map_app in Ha.
    eapply StronglySorted_app_1_elem_of; [exact Ha| |apply list_elem_of_here].
    apply list_elem_of_fmap. exists g. split; [done|]. rewrite Hin in Hg. by apply subseteq_drop in Hg.
  - unfold push. by destruct (_ =? _)%nat.
  - pose proof (inner_push_all [f] st) as H. rewrite Hcap, Hin, length_drop in H. cbn [push_all foldl] in H.
    unfold push_all in H. cbn [foldl] in H. rewrite H by lia. cbn [length].
    rewrite <-drop_app_le, drop_drop, length_app by lia. cbn [length]. f_equal. lia.
Qed.

Lemma answers_more pub pub' r a : answers pub r a → answers (pub ++ pub') r a.
Proof.
  intros [Hf Hc Ho]. split; [|done|done]. intros i f Hi. destruct (Hf i f Hi).
  split; [|done]. apply elem_of_app. by left.
Qed.

Lemma conn_ok_more pub pub' recv c : conn_ok pub recv c → conn_ok (pub ++ pub') recv c.
Proof.
  intros [(done & resps & lost & tail & Hr & Ha & Hw & He)]. split. exists done, resps, lost, tail.
  split_and!; try done. eapply Forall2_impl; [done|]. intros. by apply answers_more.
Qed.

Lemma status_ok_iff start count n st :
  status_for start count n st = STATUS_OK ↔ n = Z.min count MAX_RESPONSE_FRAMES.
Proof.
  unfold status_for. destruct (Z.eqb_spec n (Z.min count MAX_RESPONSE_FRAMES)); [done|].
  repeat case_match; done.
Qed.

(** What the cache answers to a request. *)
Lemma cache_answers cap pub st r :
  cache_of cap pub st → req_ok r →
  ∃ bytes a, serve_request (req_bytes r) st = Ok bytes ∧ answers pub r a
    ∧ ∀ rest, request_response r.1 (bytes ++ rest) = Ok (a, rest).
Proof.
  intros [Hok _ Hin] [Hs Hc]. destruct (retransmission_served r.1 r.2 st Hok Hs Hc) as (bytes & Hb & Hr).
  eexists bytes, _. split; [done|]. split; [|exact Hr]. split; simpl.
  - intros i f Hi. apply lookup_spec in Hi as (_ & _ & Hf & Hq); [|done]. split; [|done].
    rewrite Hin in Hf. by apply subseteq_drop in Hf.
  - apply length_lookup; [done|]. apply Hc.
  - apply status_ok_iff.
Qed.

Lemma read_responses_snoc done r resps a s s' s'' :
  read_responses done s = Ok (resps, s') → request_response r.1 s' = Ok (a, s'') →
  read_responses (done ++ [r]) s = Ok (resps ++ [a], s'').
Proof.
  revert resps s. induction done as [|r0 done IH]; intros resps s Hd Hr; simpl in Hd |- *.
  { simplify_eq. by rewrite Hr. }
  destruct (request_response r0.1 s) as [[a0 s0]|e]; [|done]. simpl in *.
  destruct (read_responses done s0) as [[resps0 s1]|e] eqn:E; [|done]. simpl in Hd. simplify_eq.
  by erewrite IH by eauto.
Qed.

(** Twelve bytes are a request. *)
Lemma req_of_bytes buf :
  length buf = REQUEST_FRAME_LEN → Forall is_u8 buf →
  ∃ r, buf = req_bytes r ∧ req_ok r.
Proof.
  intros Hl Hu. unfold REQUEST_FRAME_LEN in Hl.
  assert (∀ a n, Forall is_u8 (sub a n buf)) as Hsub by (intros; by apply Forall_sub).
  exists (from_be_bytes (sub 0 8 buf), from_be_bytes (sub 8 4 buf)). split.
  - unfold req_bytes, request_frame. cbn [fst snd].
    rewrite (to_be_from_be 8), (to_be_from_be 4) by (done || by apply length_sub; lia).
    rewrite sub_0. unfold sub. rewrite (take_ge (drop 8 buf)) by (rewrite length_drop; lia).
    by rewrite take_drop.
  - pose proof (from_be_bytes_bound _ (Hsub 0%nat 8%nat)) as B1.
    pose proof (from_be_bytes_bound _ (Hsub 8%nat 4%nat)) as B2.
    rewrite length_sub in B1, B2 by lia. done.
Qed.

Lemma turn_ok cap pub st recv c fails c' :
  cache_of cap pub st → Forall is_u8 recv → Conn.ended c = false → conn_ok pub recv c →
  Conn.turn st fails c = Some c' → conn_ok pub recv c'.
Proof.
  intros Hst Hu Hopen [(done & resps & lost & tail & Hr & Ha & Hw & He)] Ht.
  destruct (He Hopen) as [-> ->]. unfold Conn.turn in Ht.
  destruct (Nat.ltb_spec (length (Conn.received c)) REQUEST_FRAME_LEN) as [Hl|Hl].
  { destruct (Conn.eof c); simplify_eq. split. by exists done, resps, [], []. }
  rewrite Hr in Hu. apply Forall_app in Hu as [_ Hu]. cbn [app] in Hu.
  destruct (req_of_bytes (take REQUEST_FRAME_LEN (Conn.received c))) as (r & Hbuf & Hreq);
    [rewrite length_take; lia|by apply Forall_take|].
  destruct (cache_answers cap pub st r Hst Hreq) as (bytes & a & Hs & Hans & Hread).
  rewrite Hbuf, Hs in Ht. set (rest := drop REQUEST_FRAME_LEN (Conn.received c)) in *.
  assert (recv = concat (map req_bytes done) ++ req_bytes r ++ rest) as Hrecv.
  { rewrite Hr, <-Hbuf. unfold rest. by rewrite take_drop. }
  destruct fails as [n|]; injection Ht as <-; split.
  - exists done, resps, (req_bytes r), (take n bytes). split_and!; try done.
    intros more. cbn [Conn.written]. rewrite <-app_assoc. by rewrite Hw.
  - exists (done ++ [r]), (resps ++ [a]), [], []. split_and!; try done.
    + cbn [Conn.received app]. rewrite map_app, concat_app. cbn [map concat].
      by rewrite app_nil_r, <-app_assoc.
    + by apply Forall2_app; [|constructor].
    + intros more. cbn [Conn.written]. rewrite <-app_assoc.
      eapply read_responses_snoc; [apply Hw|]. apply Hread.
Qed.

Record server_ok (cap : nat) (pub : list CachedFrame.t) (recv : nat → list Z) w : Prop := {
  so_cache : cache_of cap pub (cache w);
  so_conns i c : conns w !! i = Some c → conn_ok pub (recv i) c;
  so_none i : conns w !! i = None → recv i = [];
}.

(** Bytes that come in on other connections do not matter. *)
Lemma server_ok_set cap pub recv w i c c' (bs : list Z) :
  server_ok cap pub recv w → conns w !! i = Some c → conn_ok pub (recv i ++ bs) c' →
  server_ok cap pub (λ j, recv j ++ (if (j =? i)%nat then bs else [])) (set_conn i c' w).
Proof.
  intros [Hc Hall Hnone] Hi Hc'. split; [done| |].
  - intros j d Hj. cbn [set_conn conns] in Hj. apply list_lookup_insert_Some in Hj as [(<- & <- & _)|[Hne Hj]].
    + by rewrite Nat.eqb_refl.
    + rewrite (proj2 (Nat.eqb_neq j i)) by done. rewrite app_nil_r. by apply Hall.
  - intros j Hj. cbn [set_conn conns] in Hj. destruct (Nat.eqb_spec j i) as [->|Hne].
    + apply lookup_lt_Some in Hi. rewrite lookup_ge_None, length_insert in Hj. lia.
    + rewrite list_lookup_insert_ne in Hj by done. by rewrite Hnone.
Qed.

Lemma server_ok_ext cap pub recv recv' w :
  (∀ i, recv i = recv' i) → server_ok cap pub recv w → server_ok cap pub recv' w.
Proof.
  intros He [Hc Hall Hnone]. split; [done|intros i c|intros i]; rewrite <-He; auto.
Qed.

Lemma conn_ok_end pub recv c : conn_ok pub recv c → conn_ok pub recv (Conn.end_ c).
Proof.
  intros [(done & resps & lost & tail & Hr & Ha & Hw & He)]. split. by exists done, resps, lost, tail.
Qed.

Lemma conn_ok_new pub : conn_ok pub [] Conn.accepted.
Proof. split. by exists [], [], [], []. Qed.

Lemma conn_ok_hang_up pub recv c : conn_ok pub recv c → conn_ok pub recv (Conn.hang_up c).
Proof.
  intros [(done & resps & lost & tail & Hr & Ha & Hw & He)]. split. by exists done, resps, lost, tail.
Qed.

Lemma conn_ok_arrive pub recv bs c : conn_ok pub recv c → conn_ok pub (recv ++ bs) (Conn.arrive bs c).
Proof.
  intros [(done & resps & lost & tail & Hr & Ha & Hw & He)]. split. exists done, resps, lost, tail.
  split_and!; try done. cbn [Conn.arrive Conn.received]. by rewrite Hr, <-!app_assoc.
Qed.

Lemma server_ok_step cap pub recv w a w' :
  server_ok cap pub recv w → frames_good (pub ++ frame_of a) → (∀ i, Forall is_u8 (recv i)) →
  step a w = Some w' → server_ok cap (pub ++ frame_of a) (λ i, recv i ++ sent_to i a) w'.
Proof.
  intros Hw Hg Hu Hs. pose proof Hw as [Hc Hall Hnone].
  destruct a as [f| | | |i bs|i|i fails]; cbn [frame_of sent_to step] in *; rewrite ?app_nil_r.
  1-4: apply server_ok_ext with recv; [intros; by rewrite app_nil_r|].
  - simplify_eq. split; [by apply cache_of_push| |done]. intros i c Hi. by apply conn_ok_more, Hall.
  - simplify_eq. split; [|done|done]. destruct Hc as [[? ?] ? ?]. by split.
  - destruct (accepting w); simplify_eq. split; [done| |].
    + intros i c [Hi|[Hlen Hi]]%lookup_app_Some; [by apply Hall|].
      apply list_lookup_singleton_Some in Hi as [_ <-]. rewrite Hnone by (by apply lookup_ge_None).
      apply conn_ok_new.
    + intros i Hi%lookup_ge_None. cbn [conns] in Hi. rewrite length_app in Hi.
      apply Hnone, lookup_ge_None. lia.
  - destruct (accepting w); simplify_eq. split; [done| |].
    + intros i c Hi. cbn [conns] in Hi. apply list_lookup_fmap_Some in Hi as (c0 & -> & Hi).
      by apply conn_ok_end, Hall.
    + intros i Hi. cbn [conns] in Hi. rewrite list_lookup_fmap, fmap_None in Hi. by apply Hnone.
  - destruct (conns w !! i) as [c|] eqn:Hi; [|done]. simpl in Hs. simplify_eq.
    eapply server_ok_set; [done|done|]. by apply conn_ok_arrive, Hall.
  - destruct (conns w !! i) as [c|] eqn:Hi; [|done]. simpl in Hs. simplify_eq.
    apply server_ok_ext with (λ j, recv j ++ if (j =? i)%nat then [] else []); [by intros j; case_match|].
    eapply server_ok_set; [done|done|]. rewrite app_nil_r. by apply conn_ok_hang_up, Hall.
  - destruct (conns w !! i) as [c|] eqn:Hi; [|done]. simpl in Hs.
    destruct (Conn.ended c) eqn:He; [done|]. destruct (Conn.turn _ _ _) as [c'|] eqn:Ht; [|done].
    simpl in Hs. simplify_eq.
    apply server_ok_ext with (λ j, recv j ++ if (j =? i)%nat then [] else []); [by intros j; case_match|].
    eapply server_ok_set; [done|done|]. rewrite app_nil_r. eapply turn_ok; eauto.
Qed.

Lemma reach_bytes cap pub recv w : reach cap pub recv w → ∀ i, Forall is_u8 (recv i).
Proof.
  induction 1 as [|pub recv w a w' Hr IH Hb Hs]; intros i; [done|]. apply Forall_app. split; [done|].
  destruct a; simpl; try done. by case_match.
Qed.

Lemma reach_ok cap pub recv w :
  reach cap pub recv w → frames_good pub → server_ok cap pub recv w.
Proof.
  induction 1 as [|pub recv w a w' Hr IH Hb Hs]; intros Hg.
  - split; [apply cache_of_new|by intros i c|done].
  - eapply server_ok_step; [|done| |done].
    + apply IH. by eapply frames_good_app.
    + by apply (reach_bytes cap pub recv w).
Qed.
End runs.

(** ** Properties *)

(** C21: the request server under load.  Whatever the publisher, the clients and
    the server's tasks do in whatever order, a client that has sent bytes on its
    connection reads back one well-formed response for each request in them that
    was served, in the order of the requests; the frames of a response are
    published frames with the consecutive numbers asked for, at most as many as
    were asked for, and its status is "ok" exactly when they are all there.
    Nothing else is on the stream while the connection is open, and a complete
    request that waits there can be served at once. *)
Theorem request_server_answers cap pub recv w i c :
  reach cap pub recv w → frames_good pub → MoldRequestServer.conns w !! i = Some c →
  (∃ done resps lost tail,
     recv i = concat (map req_bytes done) ++ lost ++ MoldRequestServer.Conn.received c
     ∧ read_responses done (MoldRequestServer.Conn.written c) = Ok (resps, tail)
     ∧ Forall2 (answers pub) done resps
     ∧ (MoldRequestServer.Conn.ended c = false → lost = [] ∧ tail = []))
  ∧ (MoldRequestServer.Conn.ended c = false →
     (REQUEST_FRAME_LEN ≤ length (MoldRequestServer.Conn.received c))%nat →
     ∃ w', MoldRequestServer.step (MoldRequestServer.Turn i None) w = Some w'
       ∧ MoldRequestServer.Conn.ended <$> (MoldRequestServer.conns w' !! i) = Some false).
Proof.
  intros Hr Hg Hi. destruct (reach_ok cap pub recv w Hr Hg) as [Hc Hall _].
  pose proof (reach_bytes cap pub recv w Hr) as Hu.
  destruct (Hall i c Hi) as [(done & resps & lost & tail & Hrecv & Ha & Hw & He)]. split.
  { exists done, resps, lost, tail. split_and!; try done. specialize (Hw []). by rewrite !app_nil_r in Hw. }
  intros Hopen Hl. specialize (Hu i). rewrite Hrecv in Hu. apply Forall_app in Hu as [_ Hu].
  apply Forall_app in Hu as [_ Hu].
  destruct (req_of_bytes (take REQUEST_FRAME_LEN (MoldRequestServer.Conn.received c)))
    as (r & Hbuf & Hreq); [rewrite length_take; lia|by apply Forall_take|].
  destruct (cache_answers cap pub _ r Hc Hreq) as (bytes & a & Hs & _).
  cbn [MoldRequestServer.step]. rewrite Hi. simpl. rewrite Hopen.
  unfold MoldRequestServer.Conn.turn. rewrite (proj2 (Nat.ltb_ge _ _)) by done.
  rewrite Hbuf, Hs. simpl. eexists. split; [done|]. simpl.
  rewrite list_lookup_insert_eq by (by eapply lookup_lt_Some). done.
Qed.

(** A run, action by action. *)
Fixpoint follow (acts : list MoldRequestServer.action) (pub : list CachedFrame.t) (recv : nat → list Z)
    (w : MoldRequestServer.t) : option (list CachedFrame.t * (nat → list Z) * MoldRequestServer.t) :=
  match acts with
  | [] => Some (pub, recv, w)
  | a :: acts =>
      w' ← MoldRequestServer.step a w; follow acts (pub ++ frame_of a) (λ i, recv i ++ sent_to i a) w'
  end.

Lemma follow_reach cap acts pub recv w pub' recv' w' :
  reach cap pub recv w → Forall bytes_ok acts → follow acts pub recv w = Some (pub', recv', w') →
  reach cap pub' recv' w'.
Proof.
  intros Hr Hb. revert pub recv w Hr.
  induction Hb as [|a acts Ha Hb IH]; intros pub recv w Hr Hf; simpl in Hf.
  - by simplify_eq.
  - destruct (MoldRequestServer.step a w) as [w1|] eqn:Hs; [|done]. simpl in Hf.
    eapply IH; [|exact Hf]. by eapply reach_step.
Qed.

(** A frame is published while a request for three is on its way. *)
Definition busy_actions : list MoldRequestServer.action :=
  [MoldRequestServer.CacheFrame (CachedFrame.mk 1 [65]); MoldRequestServer.Accept;
   MoldRequestServer.Arrive 0 (take 5 (request_frame 1 3));
   MoldRequestServer.CacheFrame (CachedFrame.mk 2 [66; 67]);
   MoldRequestServer.Arrive 0 (drop 5 (request_frame 1 3) ++ request_frame 2 1);
   MoldRequestServer.Turn 0 None; MoldRequestServer.CacheFrame (CachedFrame.mk 3 [68]);
   MoldRequestServer.Turn 0 None].

(** The first answer has the two frames that were there. *)
Definition busy_conn : MoldRequestServer.Conn.t :=
  MoldRequestServer.Conn.mk [] false
    (to_be_bytes 4 STATUS_HOLE ++ to_be_bytes 4 2 ++ [0; 1; 65; 0; 2; 66; 67]
     ++ to_be_bytes 4 STATUS_OK ++ to_be_bytes 4 1 ++ [0; 2; 66; 67]) false.

Lemma busy_actions_bytes : Forall bytes_ok busy_actions.
Proof. repeat (constructor; [try exact I; vm_compute; repeat constructor; discriminate|]). constructor. Qed.

Lemma request_server_answers_witness :
  ∃ w done resps, MoldRequestServer.conns w !! 0%nat = Some busy_conn
    ∧ request_frame 1 3 ++ request_frame 2 1 = concat (map req_bytes done)
    ∧ read_responses done (MoldRequestServer.Conn.written busy_conn) = Ok (resps, [])
    ∧ Forall2 (answers [CachedFrame.mk 1 [65]; CachedFrame.mk 2 [66; 67]; CachedFrame.mk 3 [68]]) done resps.
Proof.
  assert ((λ x, (x.1.1, x.1.2 0%nat, MoldRequestServer.conns x.2 !! 0%nat))
    <$> follow busy_actions [] (λ _, []) (MoldRequestServer.new 8)
    = Some ([CachedFrame.mk 1 [65]; CachedFrame.mk 2 [66; 67]; CachedFrame.mk 3 [68]],
            request_frame 1 3 ++ request_frame 2 1, Some busy_conn)) as Hd by (vm_compute; reflexivity).
  destruct (follow busy_actions [] (λ _, []) (MoldRequestServer.new 8)) as [[[pub recv] w]|] eqn:Hf;
    [|discriminate]. injection Hd as -> Hrecv Hconn.
  destruct (request_server_answers 8 _ recv w 0 busy_conn
    (follow_reach 8 _ _ _ _ _ _ _ (reach_new 8) busy_actions_bytes Hf))
    as [(done & resps & lost & tail & Hr & Hread & Hans & Hopen) _].
  - split; [repeat constructor|]. repeat constructor; simpl; try (unfold u64_max; lia);
      apply Nat.leb_le; reflexivity.
  - exact Hconn.
  - destruct (Hopen eq_refl) as [-> ->]. exists w, done, resps. rewrite Hrecv in Hr. simpl in Hr.
    rewrite app_nil_r in Hr. auto.
Defined.
