(* ===== verification/MoldPublisher.v ===== *)
(** The MoldUDP64 publisher ([crates/itch-mold/src/publisher.rs]) and the path
    from it to the receiver.

    [serve]'s task is a state machine: its locals ([pending_blocks] and so on)
    are part of the state, and each turn of its [select!] consumes one input,
    the next item of the source or the heartbeat timer.  The UDP socket is the
    list of datagrams sent, with the outcomes of the coming [send] calls ([None]
    for success).  The cache shared with the request server is a field, since
    the lock is held over a whole flush.  Time is not modelled: a [Tick] may
    come at any turn. *)

From S2P Require Import Prelude Primitives Enums Messages Codec CodecMessages MessageCodec.
From S2P Require Import SeqStore MoldCodec MoldReceiver MoldStore.

(** Durations are in milliseconds, as in [MoldReceiver.v]. *)
Definition DEFAULT_HEARTBEAT_INTERVAL : Z := 1000.
Definition DEFAULT_EOS_BURST : nat := 5.
Definition DEFAULT_EOS_INTERVAL : Z := 1000.
Definition DEFAULT_PACKING_MTU : nat := 1400.

Module PublisherConfig.
Record t := mk {
  destination : addr;
  bind : option addr;
  session : list Z;
  start_sequence : Z;
  mtu : nat;
  heartbeat_interval : Z;
  eos_burst : nat;
  eos_interval : Z;
}.
Definition new (destination : addr) (session : list Z) : t :=
  mk destination None session 1 DEFAULT_PACKING_MTU DEFAULT_HEARTBEAT_INTERVAL DEFAULT_EOS_BURST
    DEFAULT_EOS_INTERVAL.
Definition with_start_sequence (seq : Z) (c : t) : t :=
  mk (destination c) (bind c) (session c) seq (mtu c) (heartbeat_interval c) (eos_burst c)
    (eos_interval c).
Definition with_mtu (mtu : nat) (c : t) : t :=
  mk (destination c) (bind c) (session c) (start_sequence c) mtu (heartbeat_interval c) (eos_burst c)
    (eos_interval c).
Definition with_bind (addr : addr) (c : t) : t :=
  mk (destination c) (Some addr) (session c) (start_sequence c) (mtu c) (heartbeat_interval c)
    (eos_burst c) (eos_interval c).
Definition with_heartbeat_interval (interval : Z) (c : t) : t :=
  mk (destination c) (bind c) (session c) (start_sequence c) (mtu c) interval (eos_burst c)
    (eos_interval c).
End PublisherConfig.

Inductive input :=
| Next (item : option (result Message.t SourceError.t))
| Tick.

Module MoldPublisher.
Record t := mk {
  cfg : PublisherConfig.t;
  next_seq : Z;
  cache : option RingBufferSeqStore.t;
  sent : list (list Z);
  io : list (option string);
  pending_blocks : list MessageBlock.t;
  pending_first_seq : Z;
  pending_size : nat }.

(** A bound publisher, with the locals at the start of [serve]. *)
Definition new (cfg : PublisherConfig.t) (cache : option RingBufferSeqStore.t)
    (io : list (option string)) : t :=
  mk cfg (PublisherConfig.start_sequence cfg) cache [] io []
    (PublisherConfig.start_sequence cfg) HEADER_LEN.

Definition set_next_seq (n : Z) (p : t) : t :=
  mk (cfg p) n (cache p) (sent p) (io p) (pending_blocks p) (pending_first_seq p) (pending_size p).
Definition set_cache (c : option RingBufferSeqStore.t) (p : t) : t :=
  mk (cfg p) (next_seq p) c (sent p) (io p) (pending_blocks p) (pending_first_seq p) (pending_size p).
Definition set_pending (bs : list MessageBlock.t) (first : Z) (sz : nat) (p : t) : t :=
  mk (cfg p) (next_seq p) (cache p) (sent p) (io p) bs first sz.

(** [bound] and [connected] are the outcomes of binding the socket and of
    connecting it to the destination. *)
Definition bind (bound connected : option string) (cfg : PublisherConfig.t) (io : list (option string))
    : result t MoldError.t :=
  match bound, connected with
  | Some kind, _ | None, Some kind => Err (MoldError.Io kind)
  | None, None => Ok (new cfg None io)
  end.
Definition with_cache (cache : RingBufferSeqStore.t) (p : t) : t := set_cache (Some cache) p.
Definition next_sequence (p : t) : Z := next_seq p.

(** [self.socket.send(&buf).await?]. *)
Definition send (buf : list Z) : mut t unit MoldError.t := λ p,
  let out := mk (cfg p) (next_seq p) (cache p) (sent p ++ [buf]) (tail (io p)) (pending_blocks p)
               (pending_first_seq p) (pending_size p) in
  match io p with
  | Some kind :: io =>
      (mk (cfg p) (next_seq p) (cache p) (sent p) io (pending_blocks p) (pending_first_seq p)
         (pending_size p), Err (MoldError.Io kind))
  | _ => (out, Ok tt)
  end.

Definition send_packet (pkt : MoldPacket.t) : mut t unit MoldError.t := λ p,
  match MoldPacket.encode_to pkt [] with
  | (_, Err e) => (p, Err e)
  | (buf, Ok _) => send buf p
  end.

Definition send_heartbeat : mut t unit MoldError.t := λ p,
  send_packet (MoldPacket.heartbeat (PublisherConfig.session (cfg p)) (next_seq p)) p.
Definition send_end_of_session : mut t unit MoldError.t := λ p,
  send_packet (MoldPacket.end_of_session (PublisherConfig.session (cfg p)) (next_seq p)) p.

(** The loop that feeds the blocks of a packet to the cache. *)
Fixpoint push_blocks (blocks : list MessageBlock.t) (seq : Z) (c : RingBufferSeqStore.t)
    : RingBufferSeqStore.t :=
  match blocks with
  | [] => c
  | b :: blocks =>
      push_blocks blocks (u64_saturating_add seq 1)
        (RingBufferSeqStore.push (CachedFrame.mk seq (MessageBlock.data b)) c)
  end.

Definition flush_pending : mut t unit MoldError.t := λ p,
  match pending_blocks p with
  | [] => (p, Ok tt)
  | drained =>
      let first_seq := pending_first_seq p in
      let p := set_pending [] first_seq (pending_size p) p in
      match MoldPacket.new_data (PublisherConfig.session (cfg p)) first_seq drained with
      | Err e => (p, Err e)
      | Ok pkt =>
          let p := set_cache (push_blocks (MoldPacket.blocks pkt) first_seq <$> cache p) p in
          match send_packet pkt p with
          | (p, Err e) => (p, Err e)
          | (p, Ok _) => (set_pending (pending_blocks p) (next_seq p) HEADER_LEN p, Ok tt)
          end
      end
  end.

(** [for _ in 0..self.cfg.eos_burst], without the pauses. *)
Fixpoint eos_loop (n : nat) : mut t unit MoldError.t :=
  match n with
  | O => ok
  | S n => send_end_of_session ;;? eos_loop n
  end.
Definition eos_burst : mut t unit MoldError.t := λ p,
  match eos_loop (PublisherConfig.eos_burst (cfg p)) p with
  | (p, Err e) => (p, Err e)
  | (p, Ok _) => (set_cache (RingBufferSeqStore.mark_end_of_session <$> cache p) p, Ok tt)
  end.

(** The arm for [Some(Ok(msg))], after the flush. *)
Definition append_block (body : list Z) (p : t) : t :=
  let block_size := (2 + length body)%nat in
  let p := match pending_blocks p with
           | [] => set_pending [] (next_seq p) HEADER_LEN p
           | _ => p
           end in
  let p := set_pending (pending_blocks p ++ [MessageBlock.mk body]) (pending_first_seq p)
             (pending_size p + block_size) p in
  set_next_seq (u64_add (next_seq p) 1) p.

Definition on_message (msg : Message.t) : mut t unit MoldError.t := λ p,
  match Message_encode msg (replicate (Message.encoded_len msg) 0) with
  | (_, Err e) => (p, Err (MoldError.Protocol e))
  | (body, Ok _) =>
      if (MAX_BLOCK_LEN <? length body)%nat
      then (p, Err (MoldError.BlockTooLarge (Z.of_nat (length body)) (Z.of_nat MAX_BLOCK_LEN)))
      else
        let block_size := (2 + length body)%nat in
        let '(p, r) :=
          if negb (match pending_blocks p with [] => true | _ => false end)
             && (PublisherConfig.mtu (cfg p) <? pending_size p + block_size)%nat
          then flush_pending p else (p, Ok tt) in
        match r with
        | Err e => (p, Err e)
        | Ok _ => (append_block body p, Ok tt)
        end
  end.

Definition on_end : mut t unit MoldError.t := flush_pending ;;? eos_burst.

Definition on_tick : mut t unit MoldError.t := λ p,
  match pending_blocks p with
  | [] => send_heartbeat p
  | _ => flush_pending p
  end.

(** One turn of the loop: [None] to go on, or the task's result. *)
Definition serve_step (i : input) (p : t) : t * option (result unit MoldError.t) :=
  let turn (m : t * result unit MoldError.t) :=
    match m with (p, Err e) => (p, Some (Err e)) | (p, Ok _) => (p, None) end in
  match i with
  | Next (Some (Ok msg)) => turn (on_message msg p)
  | Next (Some (Err SourceError.Exhausted)) | Next None =>
      let '(p, r) := on_end p in (p, Some r)
  | Next (Some (Err _)) => (p, Some (Err MoldError.SourceExhausted))
  | Tick => turn (on_tick p)
  end.

Fixpoint serve (inputs : list input) (p : t) : t * option (result unit MoldError.t) :=
  match inputs with
  | [] => (p, None)
  | i :: inputs =>
      match serve_step i p with
      | (p, Some r) => (p, Some r)
      | (p, None) => serve inputs p
      end
  end.
End MoldPublisher.

Import MoldPublisher.

(** ** What has been published *)

Definition block_of (msg : Message.t) : MessageBlock.t := MessageBlock.mk (message_wire msg).

(** Packets that number their blocks without gaps from [next]. *)
Fixpoint contiguous (session : list Z) (next : Z) (pkts : list MoldPacket.t) : Prop :=
  match pkts with
  | [] => True
  | q :: pkts =>
      MoldPacketHeader.session (MoldPacket.header q) = session
      ∧ MoldPacketHeader.sequence (MoldPacket.header q) = next
      ∧ contiguous session (next + Z.of_nat (length (MoldPacket.blocks q))) pkts
  end.

Definition all_blocks (pkts : list MoldPacket.t) : list MessageBlock.t :=
  concat (map MoldPacket.blocks pkts).

(** The frames of a run of blocks. *)
Fixpoint frames_of (seq : Z) (blocks : list MessageBlock.t) : list CachedFrame.t :=
  match blocks with
  | [] => []
  | b :: blocks => CachedFrame.mk seq (MessageBlock.data b) :: frames_of (seq + 1) blocks
  end.

Lemma all_blocks_snoc pkts q : all_blocks (pkts ++ [q]) = all_blocks pkts ++ MoldPacket.blocks q.
Proof. unfold all_blocks. rewrite map_app, concat_app. simpl. by rewrite app_nil_r. Qed.

Lemma contiguous_snoc session next pkts q :
  contiguous session next (pkts ++ [q]) ↔
  contiguous session next pkts
  ∧ MoldPacketHeader.session (MoldPacket.header q) = session
  ∧ MoldPacketHeader.sequence (MoldPacket.header q)
    = next + Z.of_nat (length (all_blocks pkts)).
Proof.
  revert next. induction pkts as [|q0 pkts IH]; intros next; simpl.
  - rewrite Z.add_0_r. tauto.
  - rewrite IH. unfold all_blocks. cbn [map concat]. rewrite length_app.
    rewrite Nat2Z.inj_add, Z.add_assoc. tauto.
Qed.

Lemma all_blocks_app pkts qs : all_blocks (pkts ++ qs) = all_blocks pkts ++ all_blocks qs.
Proof. unfold all_blocks. by rewrite map_app, concat_app. Qed.

Lemma all_blocks_empty n q : MoldPacket.blocks q = [] → all_blocks (replicate n q) = [].
Proof. intros Hq. unfold all_blocks. induction n as [|n IH]; [done|]. simpl. by rewrite Hq, IH. Qed.

Lemma contiguous_app_l session next pkts qs :
  contiguous session next (pkts ++ qs) → contiguous session next pkts.
Proof.
  revert next. induction pkts as [|q pkts IH]; [done|]. intros next (? & ? & Hct).
  split_and!; [done|done|]. by apply IH.
Qed.

Lemma frames_of_app seq bs cs :
  frames_of seq (bs ++ cs) = frames_of seq bs ++ frames_of (seq + Z.of_nat (length bs)) cs.
Proof.
  revert seq. induction bs as [|b bs IH]; intros seq; simpl; [by rewrite Z.add_0_r|].
  rewrite IH. by replace (seq + 1 + Z.of_nat (length bs)) with (seq + Z.of_nat (S (length bs))) by lia.
Qed.

Lemma push_blocks_all bs seq c :
  seq + Z.of_nat (length bs) ≤ u64_max → push_blocks bs seq c = push_all (frames_of seq bs) c.
Proof.
  revert seq c. induction bs as [|b bs IH]; intros seq c Hu; [done|]. simpl in Hu |- *.
  rewrite u64_saturating_add_small, IH by lia. done.
Qed.

Lemma encoded_len_max msg : (Message.encoded_len msg ≤ 50)%nat.
Proof. destruct msg; apply Nat.leb_le; reflexivity. Qed.

Lemma block_of_wf msg : wf msg → wf (block_of msg).
Proof.
  intros Hwf. pose proof (encoded_len_bounds msg). split; [|by apply message_wire_u8].
  unfold block_of, MAX_BLOCK_LEN. cbn [MessageBlock.data]. rewrite length_message_wire by done. lia.
Qed.

Lemma wire_len_block_of msg :
  wf msg → MessageBlock.wire_len (block_of msg) = (2 + Message.encoded_len msg)%nat.
Proof. intros. unfold MessageBlock.wire_len, block_of. cbn [MessageBlock.data].
  by rewrite length_message_wire. Qed.

Lemma blocks_count msgs :
  Forall wf msgs →
  (13 * length msgs ≤ sum_list (map MessageBlock.wire_len (map block_of msgs)))%nat.
Proof.
  induction 1 as [|msg msgs Hwf Hm IH]; [done|]. cbn [map sum_list length].
  rewrite wire_len_block_of by done. change (id (2 + Message.encoded_len msg)%nat) with (2 + Message.encoded_len msg)%nat.
  pose proof (encoded_len_bounds msg). lia.
Qed.

Section publisher.
Context (cfg0 : PublisherConfig.t) (cache0 : option RingBufferSeqStore.t).
Abbreviation session0 := (PublisherConfig.session cfg0).
Abbreviation start := (PublisherConfig.start_sequence cfg0).
Abbreviation budget := (Nat.max (PublisherConfig.mtu cfg0) 72).
Hypothesis session_ok : length session0 = 10%nat ∧ Forall is_u8 session0.
Hypothesis start_ok : 0 ≤ start.
Hypothesis mtu_ok : Z.of_nat (PublisherConfig.mtu cfg0) ≤ 65535.

(** The messages taken from the source are in the packets sent and in the
    blocks pending, in order. *)
Record published (msgs : list Message.t) (pkts : list MoldPacket.t) (p : MoldPublisher.t) : Prop := {
  pb_cfg : cfg p = cfg0;
  pb_io : Forall (λ e, e = None) (io p);
  pb_msgs : Forall wf msgs;
  pb_bound : start + Z.of_nat (length msgs) ≤ u64_max;
  pb_seq : next_seq p = start + Z.of_nat (length msgs);
  pb_sent : sent p = map packet_wire pkts;
  pb_wf : Forall wf pkts;
  pb_contiguous : contiguous session0 start pkts;
  pb_blocks : all_blocks pkts ++ pending_blocks p = map block_of msgs;
  pb_small : Forall (λ q, (MoldPacket.wire_len q ≤ budget)%nat) pkts;
  pb_cache : cache p = push_all (frames_of start (all_blocks pkts)) <$> cache0;
  pb_first : pending_blocks p ≠ [] →
    pending_first_seq p = start + Z.of_nat (length (all_blocks pkts));
  pb_size : pending_blocks p ≠ [] →
    pending_size p = (HEADER_LEN + sum_list (map MessageBlock.wire_len (pending_blocks p)))%nat
    ∧ (pending_size p ≤ budget)%nat;
}.

Lemma send_ok buf p :
  Forall (λ e, e = None) (io p) →
  send buf p = (mk (cfg p) (next_seq p) (cache p) (sent p ++ [buf]) (tail (io p))
                  (pending_blocks p) (pending_first_seq p) (pending_size p), Ok tt)
  ∧ Forall (λ e : option string, e = None) (tail (io p)).
Proof.
  intros Hio. unfold send. destruct (io p) as [|e es]; [done|]. inversion Hio; subst. done.
Qed.

Lemma send_packet_ok pkt p :
  wf pkt → send_packet pkt p = send (packet_wire pkt) p.
Proof.
  intros Hwf. unfold send_packet, MoldPacket.encode_to.
  rewrite encode_wire by (done || by rewrite length_replicate). simpl.
  by rewrite drop_ge, app_nil_r by (by rewrite length_replicate).
Qed.

(** The blocks not sent yet are the last messages. *)
Lemma published_pending msgs pkts p :
  published msgs pkts p →
  ∃ last, Forall wf last ∧ pending_blocks p = map block_of last
    ∧ length msgs = (length (all_blocks pkts) + length last)%nat.
Proof.
  intros Hp. exists (drop (length (all_blocks pkts)) msgs).
  pose proof (pb_blocks _ _ _ Hp) as Hb. pose proof (f_equal length Hb) as Hl.
  rewrite length_app, length_map in Hl. split_and!.
  - apply Forall_drop. by destruct Hp.
  - rewrite <-skipn_map, <-Hb. by rewrite drop_app_length.
  - rewrite length_drop. lia.
Qed.

(** A packet without blocks goes out between the others. *)
Lemma published_send_empty msgs pkts p q :
  published msgs pkts p → pending_blocks p = [] → wf q → MoldPacket.blocks q = [] →
  MoldPacketHeader.session (MoldPacket.header q) = session0 →
  MoldPacketHeader.sequence (MoldPacket.header q) = next_seq p →
  ∃ p', send_packet q p = (p', Ok tt) ∧ published msgs (pkts ++ [q]) p' ∧ pending_blocks p' = []
    ∧ next_seq p' = next_seq p.
Proof.
  intros Hp Hnil Hq Hqb Hqs Hqn. pose proof (published_pending _ _ _ Hp) as (last & _ & Hl & Hn).
  rewrite send_packet_ok by done.
  destruct (send_ok (packet_wire q) p (pb_io _ _ _ Hp)) as [-> Hio]. eexists. split; [done|].
  assert (all_blocks (pkts ++ [q]) = all_blocks pkts) as Hab
    by (by rewrite all_blocks_snoc, Hqb, app_nil_r).
  destruct Hp as [Hc Hi Hm Hbd Hs Hse Hw Hct Hbl Hsm Hca Hf Hsz].
  rewrite Hnil in Hl. symmetry in Hl. apply map_eq_nil in Hl as ->. simpl in Hn.
  split; [|done]. split; simpl; rewrite ?Hab; try done.
  - by rewrite Hse, map_app.
  - apply Forall_app. by split; [|constructor].
  - apply contiguous_snoc. split_and!; [done|done|]. rewrite Hqn, Hs. lia.
  - apply Forall_app. split; [done|]. constructor; [|constructor].
    unfold MoldPacket.wire_len, HEADER_LEN. rewrite Hqb. simpl. lia.
Qed.

Lemma data_packet_ok last seq :
  last ≠ [] → Forall wf last →
  (HEADER_LEN + sum_list (map MessageBlock.wire_len (map block_of last)) ≤ budget)%nat →
  0 ≤ seq → seq + Z.of_nat (length last) ≤ u64_max →
  let q := MoldPacket.mk (MoldPacketHeader.mk session0 seq (Z.of_nat (length last))) (map block_of last) in
  MoldPacket.new_data session0 seq (map block_of last) = Ok q ∧ wf q
  ∧ (MoldPacket.wire_len q ≤ budget)%nat.
Proof.
  intros Hne Hwf Hsz Hs Hu q. pose proof (blocks_count last Hwf) as Hc. unfold HEADER_LEN in Hsz.
  assert (0 < Z.of_nat (length last) < 65535) as Hlt by (destruct last; [done|simpl length in *; lia]).
  unfold MoldPacket.new_data. rewrite length_map. split_and!; [| |done].
  - rewrite (proj2 (Z.leb_gt _ _)) by lia.
    by rewrite (proj2 (Z.eqb_neq _ _)) by (unfold MSG_COUNT_END_OF_SESSION; lia).
  - unfold q. split; [|split]; simpl.
    + split; [apply session_ok|]. split; [apply session_ok|]. unfold u64_max in Hu.
      split; split; simpl; lia.
    + apply Forall_map. eapply Forall_impl; [exact Hwf|]. apply block_of_wf.
    + left. rewrite length_map. unfold MSG_COUNT_END_OF_SESSION. lia.
Qed.

Lemma published_flush msgs pkts p :
  published msgs pkts p →
  ∃ pkts' p', flush_pending p = (p', Ok tt) ∧ published msgs pkts' p' ∧ pending_blocks p' = []
    ∧ next_seq p' = next_seq p.
Proof.
  intros Hp. pose proof (published_pending _ _ _ Hp) as (last & Hlw & Hl & Hn).
  unfold flush_pending. destruct (pending_blocks p) as [|b bs] eqn:Eb; [by exists pkts, p|].
  rewrite <-Eb in *. assert (pending_blocks p ≠ []) as Hne by (by rewrite Eb).
  assert (last ≠ []) as Hlne by (intros ->; by rewrite Hl in Hne).
  pose proof (pb_first _ _ _ Hp Hne) as Hfirst. destruct (pb_size _ _ _ Hp Hne) as [Hsz Hbud].
  pose proof (pb_bound _ _ _ Hp) as Hbd. rewrite Hl in Hsz. rewrite Hsz in Hbud.
  destruct (data_packet_ok last (pending_first_seq p) Hlne Hlw Hbud) as (Hnew & Hqw & Hqs); [lia|lia|].
  set (q := MoldPacket.mk _ _) in *. cbn [set_pending cfg]. rewrite (pb_cfg _ _ _ Hp), Hl, Hnew.
  rewrite send_packet_ok by done.
  match goal with |- context [send _ ?p1] => destruct (send_ok (packet_wire q) p1 (pb_io _ _ _ Hp)) as [-> Hio] end.
  exists (pkts ++ [q]). eexists. split; [done|]. split; [|done].
  assert (all_blocks (pkts ++ [q]) = map block_of msgs) as Hab
    by (rewrite all_blocks_snoc, <-(pb_blocks _ _ _ Hp), Hl; done).
  destruct Hp as [Hc Hi Hm _ Hs Hse Hw Hct Hbl Hsm Hca Hf _].
  split; simpl; try done.
  - by rewrite Hse, map_app.
  - apply Forall_app. by split; [|constructor].
  - apply contiguous_snoc. by rewrite <-Hfirst.
  - by rewrite app_nil_r.
  - apply Forall_app. by split; [|constructor].
  - rewrite Hca. destruct cache0 as [c|]; [|done]. simpl. f_equal.
    rewrite push_blocks_all by (rewrite length_map; lia).
    rewrite all_blocks_snoc, frames_of_app, Hfirst. unfold push_all. by rewrite foldl_app.
Qed.

(** A message is appended to the pending blocks. *)
Lemma published_append msgs pkts p msg :
  published msgs pkts p → wf msg → start + Z.of_nat (length msgs) < u64_max →
  (pending_blocks p ≠ [] → (pending_size p + (2 + Message.encoded_len msg) ≤ budget)%nat) →
  published (msgs ++ [msg]) pkts (append_block (message_wire msg) p).
Proof.
  intros Hp Hwf Hbd Hroom. pose proof (encoded_len_max msg) as Hmax.
  pose proof (length_message_wire msg Hwf) as Hlen.
  pose proof (published_pending _ _ _ Hp) as (last & _ & Hl & Hn).
  destruct Hp as [Hc Hi Hm _ Hs Hse Hw Hct Hbl Hsm Hca Hf Hsz].
  set (blk := MessageBlock.mk (message_wire msg)).
  assert (MessageBlock.wire_len blk = (2 + Message.encoded_len msg)%nat) as Hblk
    by (by apply wire_len_block_of).
  assert (∀ first sz, (first = start + Z.of_nat (length (all_blocks pkts))) →
    sz = (HEADER_LEN + sum_list (map MessageBlock.wire_len (pending_blocks p ++ [blk])))%nat →
    (sz ≤ budget)%nat →
    published (msgs ++ [msg]) pkts
      (set_next_seq (u64_add (next_seq p) 1) (set_pending (pending_blocks p ++ [blk]) first sz p))) as H.
  { intros first sz Hfirst Hsz' Hsz2.
    split; cbn [cfg next_seq cache sent io pending_blocks pending_first_seq pending_size set_next_seq
      set_pending]; rewrite ?length_app; cbn [length]; try done.
    - apply Forall_app. by split; [|constructor].
    - lia.
    - rewrite u64_add_small by lia. lia.
    - by rewrite map_app, <-Hbl, <-app_assoc. }
  unfold append_block. rewrite Hlen. destruct (pending_blocks p) as [|b bs] eqn:Eb.
  - symmetry in Hl. apply map_eq_nil in Hl as ->. cbn [length] in Hn. apply H.
    + cbn [pending_first_seq set_pending]. lia.
    + cbn [pending_size set_pending app map sum_list_with]. rewrite Hblk. unfold id. lia.
    + cbn [pending_size set_pending]. unfold HEADER_LEN. lia.
  - destruct (Hsz ltac:(done)) as [Hsz1 Hsz2]. rewrite Eb. apply H.
    + by apply Hf.
    + rewrite Hsz1, map_app, sum_list_with_app. cbn [map sum_list_with]. rewrite Hblk. unfold id. lia.
    + by apply Hroom.
Qed.

Lemma published_on_message msgs pkts p msg :
  published msgs pkts p → wf msg → start + Z.of_nat (length msgs) < u64_max →
  ∃ pkts' p', on_message msg p = (p', Ok tt) ∧ published (msgs ++ [msg]) pkts' p'.
Proof.
  intros Hp Hwf Hbd. unfold on_message. pose proof (encoded_len_max msg) as Hmax.
  rewrite Message_encode_wire by (done || by rewrite length_replicate).
  rewrite drop_ge, app_nil_r by (by rewrite length_replicate).
  rewrite length_message_wire by done.
  rewrite (proj2 (Nat.ltb_ge _ _)) by (unfold MAX_BLOCK_LEN; lia).
  rewrite (pb_cfg _ _ _ Hp).
  destruct (negb _ && _) eqn:E.
  - destruct (published_flush _ _ _ Hp) as (pkts' & p' & -> & Hp' & Hnil & _).
    exists pkts'. eexists. split; [done|]. apply published_append; [done|done|done|].
    by rewrite Hnil.
  - exists pkts. eexists. split; [done|]. apply published_append; [done|done|done|].
    intros Hne. destruct (pending_blocks p); [done|]. simpl in E.
    apply Nat.ltb_ge in E. lia.
Qed.

Lemma control_packets_wf msgs pkts p :
  published msgs pkts p →
  wf (MoldPacket.heartbeat session0 (next_seq p)) ∧ wf (MoldPacket.end_of_session session0 (next_seq p)).
Proof.
  intros Hp. pose proof (pb_seq _ _ _ Hp) as Hs. pose proof (pb_bound _ _ _ Hp) as Hb.
  assert (is_u64 (next_seq p)) as Hu by (unfold u64_max in Hb; split; lia).
  assert (∀ c, is_u16 c → wf (MoldPacketHeader.mk session0 (next_seq p) c)) as Hh.
  { intros c Hc. split; [apply session_ok|]. split; [apply session_ok|]. done. }
  split; (split; [apply Hh; vm_compute; split; congruence|split; [constructor|]]);
    [by left|by right].
Qed.

Lemma published_on_tick msgs pkts p :
  published msgs pkts p → ∃ pkts' p', on_tick p = (p', Ok tt) ∧ published msgs pkts' p'.
Proof.
  intros Hp. unfold on_tick. destruct (pending_blocks p) as [|b bs] eqn:E.
  - unfold send_heartbeat. rewrite (pb_cfg _ _ _ Hp). destruct (published_send_empty msgs pkts p
      (MoldPacket.heartbeat session0 (next_seq p))) as (p' & -> & Hp' & _); try done.
    + by apply (control_packets_wf msgs pkts).
    + by exists (pkts ++ [MoldPacket.heartbeat session0 (next_seq p)]), p'.
  - destruct (published_flush _ _ _ Hp) as (pkts' & p' & -> & Hp' & _). by exists pkts', p'.
Qed.

Lemma published_eos_loop n msgs pkts p :
  published msgs pkts p → pending_blocks p = [] →
  ∃ p', eos_loop n p = (p', Ok tt)
    ∧ published msgs (pkts ++ replicate n (MoldPacket.end_of_session session0 (next_seq p))) p'
    ∧ pending_blocks p' = [].
Proof.
  revert pkts p. induction n as [|n IH]; intros pkts p Hp Hnil.
  { exists p. simpl. by rewrite app_nil_r. }
  cbn [eos_loop]. unfold and_then, send_end_of_session. rewrite (pb_cfg _ _ _ Hp).
  destruct (published_send_empty msgs pkts p (MoldPacket.end_of_session session0 (next_seq p)))
    as (p1 & -> & Hp1 & Hnil1 & Hn1); try done.
  { by apply (control_packets_wf msgs pkts). }
  destruct (IH _ p1 Hp1 Hnil1) as (p2 & -> & Hp2 & Hnil2). exists p2.
  rewrite Hn1, <-app_assoc in Hp2. done.
Qed.
End publisher.

(** ** Runs of the publisher *)

(** Inputs while the source is not exhausted. *)
Definition live (i : input) : Prop :=
  match i with Next (Some (Ok msg)) => wf msg | Tick => True | _ => False end.
Definition taken (inputs : list input) : list Message.t :=
  omap (λ i, match i with Next (Some (Ok msg)) => Some msg | _ => None end) inputs.

(** A publisher's configuration and socket as the theorems need them. *)
Record publisher_ok (cfg : PublisherConfig.t) (io : list (option string)) (inputs : list input)
    : Prop := {
  po_session : length (PublisherConfig.session cfg) = 10%nat ∧ Forall is_u8 (PublisherConfig.session cfg);
  po_start : 0 ≤ PublisherConfig.start_sequence cfg;
  po_mtu : Z.of_nat (PublisherConfig.mtu cfg) ≤ 65535;
  po_io : Forall (λ e, e = None) io;
  po_live : Forall live inputs;
  po_bound : PublisherConfig.start_sequence cfg + Z.of_nat (length (taken inputs)) ≤ u64_max;
}.

Lemma taken_wf inputs : Forall live inputs → Forall wf (taken inputs).
Proof.
  induction 1 as [|i inputs Hi _ IH]; [constructor|].
  destruct i as [[[msg|e]|]|]; simpl in *; try done. by constructor.
Qed.

Lemma published_serve cfg0 cache0 inputs msgs pkts p :
  length (PublisherConfig.session cfg0) = 10%nat ∧ Forall is_u8 (PublisherConfig.session cfg0) →
  0 ≤ PublisherConfig.start_sequence cfg0 → Z.of_nat (PublisherConfig.mtu cfg0) ≤ 65535 →
  Forall live inputs → published cfg0 cache0 msgs pkts p →
  PublisherConfig.start_sequence cfg0 + Z.of_nat (length (msgs ++ taken inputs)) ≤ u64_max →
  ∃ pkts' p', serve inputs p = (p', None) ∧ published cfg0 cache0 (msgs ++ taken inputs) pkts' p'.
Proof.
  intros Hses Hst Hmtu Hl. revert msgs pkts p.
  induction Hl as [|i inputs Hi Hl IH]; intros msgs pkts p Hp Hb.
  { exists pkts, p. by rewrite app_nil_r. }
  destruct i as [[[msg|e]|]|]; try done; cbn [serve serve_step].
  - change (taken (Next (Some (Ok msg)) :: inputs)) with (msg :: taken inputs) in *.
    rewrite length_app in Hb. cbn [length] in Hb.
    destruct (published_on_message cfg0 cache0 Hses Hst Hmtu msgs pkts p msg Hp Hi)
      as (pkts1 & p1 & -> & Hp1); [lia|].
    destruct (IH _ _ _ Hp1) as (pkts2 & p2 & -> & Hp2); [rewrite !length_app; cbn [length]; lia|].
    rewrite <-app_assoc in Hp2. by exists pkts2, p2.
  - destruct (published_on_tick cfg0 cache0 Hses Hst Hmtu msgs pkts p Hp) as (pkts1 & p1 & -> & Hp1).
    by apply (IH _ _ _ Hp1).
Qed.

Lemma published_run cfg cache io inputs :
  publisher_ok cfg io inputs →
  ∃ pkts p, serve inputs (MoldPublisher.new cfg cache io) = (p, None)
    ∧ published cfg cache (taken inputs) pkts p.
Proof.
  intros [Hses Hst Hmtu Hio Hl Hb].
  apply (published_serve cfg cache inputs [] [] (MoldPublisher.new cfg cache io)); try done.
  split; simpl; try done; try lia. by destruct cache.
Qed.

Lemma serve_app inputs more p p' :
  serve inputs p = (p', None) → serve (inputs ++ more) p = serve more p'.
Proof.
  revert p. induction inputs as [|i inputs IH]; intros p; simpl; [by intros [= ->]|].
  destruct (serve_step i p) as [p1 [r|]]; [done|]. apply IH.
Qed.

(** The whole run, with the end of the source. *)
Lemma published_complete cfg cache io inputs :
  publisher_ok cfg io inputs →
  let n := Z.of_nat (length (taken inputs)) in
  ∃ pkts p,
    serve (inputs ++ [Next None]) (MoldPublisher.new cfg cache io) = (p, Some (Ok tt))
    ∧ all_blocks pkts = map block_of (taken inputs)
    ∧ MoldPublisher.cache p = (λ c, RingBufferSeqStore.mark_end_of_session
        (push_all (frames_of (PublisherConfig.start_sequence cfg) (map block_of (taken inputs))) c)) <$> cache
    ∧ ∃ p0, sent p = sent p0
        ∧ published cfg cache (taken inputs)
            (pkts ++ replicate (PublisherConfig.eos_burst cfg)
               (MoldPacket.end_of_session (PublisherConfig.session cfg)
                  (PublisherConfig.start_sequence cfg + n))) p0.
Proof.
  intros Hok n. destruct (published_run cfg cache io inputs Hok) as (pkts0 & p0 & Hs & Hp0).
  destruct Hok as [Hses Hst Hmtu _ _ _]. rewrite (serve_app _ _ _ _ Hs).
  destruct (published_flush cfg cache Hses Hst Hmtu _ _ _ Hp0) as (pkts1 & p1 & Hf & Hp1 & Hnil1 & Hn1).
  destruct (published_eos_loop cfg cache Hses Hst (PublisherConfig.eos_burst cfg) _ _ _ Hp1 Hnil1)
    as (p2 & He & Hp2 & Hnil2).
  exists pkts1. eexists. cbn [serve serve_step]. unfold on_end, and_then. rewrite Hf.
  unfold eos_burst. rewrite (pb_cfg _ _ _ _ _ Hp1), He. split; [done|].
  pose proof (pb_blocks _ _ _ _ _ Hp1) as Hb1. rewrite Hnil1, app_nil_r in Hb1.
  split; [done|]. split.
  - cbn [MoldPublisher.cache set_cache]. rewrite (pb_cache _ _ _ _ _ Hp2).
    pose proof (pb_blocks _ _ _ _ _ Hp2) as Hb2. rewrite Hnil2, app_nil_r in Hb2. rewrite Hb2.
    by destruct cache.
  - exists p2. split; [done|]. by rewrite (pb_seq _ _ _ _ _ Hp1) in Hp2.
Qed.

(** ** The network *)

Import ReceiverState.

(** The publisher's block at a sequence number. *)
Definition stream_body (start : Z) (msgs : list Message.t) (s : Z) : list Z :=
  match msgs !! Z.to_nat (s - start) with
  | Some msg => if start <=? s then message_wire msg else []
  | None => []
  end.

Lemma stream_body_at start msgs i msg :
  msgs !! i = Some msg → stream_body start msgs (start + Z.of_nat i) = message_wire msg.
Proof.
  intros Hi. unfold stream_body. rewrite Z.add_simpl_l, Nat2Z.id, Hi.
  by rewrite (proj2 (Z.leb_le _ _)) by lia.
Qed.

Lemma stream_body_len start msgs s :
  Forall wf msgs → (length (stream_body start msgs s) ≤ MAX_BLOCK_LEN)%nat.
Proof.
  intros Hm. unfold stream_body. destruct (msgs !! Z.to_nat (s - start)) as [msg|] eqn:E;
    [|simpl; unfold MAX_BLOCK_LEN; lia].
  destruct (start <=? s); [|simpl; unfold MAX_BLOCK_LEN; lia].
  rewrite Forall_lookup in Hm. pose proof (encoded_len_max msg).
  rewrite length_message_wire by eauto. unfold MAX_BLOCK_LEN. lia.
Qed.

(** A packet that lies within the sequence numbers from [lo] to [hi]. *)
Definition within (lo hi : Z) (q : MoldPacket.t) : Prop :=
  lo ≤ MoldPacketHeader.sequence (MoldPacket.header q)
  ∧ MoldPacketHeader.sequence (MoldPacket.header q)
    + Z.of_nat (length (MoldPacket.blocks q)) ≤ hi.

(** Packets that number their blocks without gaps carry the stream. *)
Lemma contiguous_carries body session next ms pkts :
  contiguous session next pkts → all_blocks pkts = map block_of ms →
  0 ≤ next → next + Z.of_nat (length ms) ≤ u64_max →
  (∀ i m, ms !! i = Some m → body (next + Z.of_nat i) = message_wire m) →
  Forall (λ q, carries body q ∧ within next (next + Z.of_nat (length ms)) q) pkts.
Proof.
  revert next ms. induction pkts as [|q pkts IH]; intros next ms Hc Hb Hn Hu Hbody; [constructor|].
  destruct Hc as (_ & Hq & Hc). unfold all_blocks in Hb. cbn [map concat] in Hb.
  fold (all_blocks pkts) in Hb.
  set (k := length (MoldPacket.blocks q)) in *.
  assert (k ≤ length ms)%nat as Hk.
  { apply (f_equal length) in Hb. rewrite length_app, length_map in Hb. unfold k. lia. }
  assert (MoldPacket.blocks q = map block_of (take k ms)) as Hbq.
  { apply (f_equal (take k)) in Hb. unfold k in Hb. rewrite take_app_length in Hb.
    by rewrite Hb, firstn_map. }
  assert (all_blocks pkts = map block_of (drop k ms)) as Hbr.
  { apply (f_equal (drop k)) in Hb. unfold k in Hb. rewrite drop_app_length in Hb.
    by rewrite Hb, skipn_map. }
  constructor.
  - split; [|split; [lia|fold k; lia]]. split_and!; [lia|fold k; lia|]. intros i b Hi.
    rewrite Hbq, list_lookup_fmap in Hi. apply fmap_Some in Hi as (m & Hm & ->).
    apply lookup_take_Some in Hm as [Hm _]. by rewrite Hq, (Hbody i m).
  - apply (IH (next + Z.of_nat k) (drop k ms)) in Hc; [|done|lia|rewrite length_drop; lia|].
    + rewrite length_drop in Hc. eapply Forall_impl; [exact Hc|].
      intros q' [? [? ?]]. split; [done|]. split; lia.
    + intros i m Hm. rewrite lookup_drop in Hm.
      replace (next + Z.of_nat k + Z.of_nat i) with (next + Z.of_nat (k + i)) by lia. by apply Hbody.
Qed.

(** Datagrams that reach the receiver are packets again. *)
Lemma receive_all_packets pkts ds st :
  Forall wf pkts → Forall (λ q, (MoldPacket.wire_len q ≤ RECV_BUFFER_LEN)%nat) pkts →
  Forall (λ d, d ∈ map packet_wire pkts) ds →
  ∃ qs, Forall (λ q, q ∈ pkts) qs ∧ map packet_wire qs = ds
    ∧ receive_all ds st = ingest_all qs st.
Proof.
  intros Hwf Hsm Hds. revert st. induction Hds as [|d ds Hd Hds IH]; intros st; [by exists []|].
  apply list_elem_of_fmap in Hd as (q & -> & Hq). rewrite Forall_forall in Hwf, Hsm.
  destruct (IH (ingest q st)) as (qs & Hqs & <- & E). exists (q :: qs).
  split; [by constructor|]. split; [done|]. unfold receive_all, ingest_all in *. cbn [foldl map].
  rewrite <-E. unfold receive at 2.
  by rewrite take_ge, decode_wire by (auto; by rewrite length_packet_wire by auto; apply Hsm).
Qed.

Lemma receive_all_sent pkts st :
  Forall wf pkts → Forall (λ q, (MoldPacket.wire_len q ≤ RECV_BUFFER_LEN)%nat) pkts →
  receive_all (map packet_wire pkts) st = ingest_all pkts st.
Proof.
  intros Hwf. revert st. induction Hwf as [|q pkts Hq Hwf IH]; intros st Hsm; [done|].
  inversion Hsm; subst. unfold receive_all, ingest_all in *. cbn [foldl map].
  unfold receive at 2. rewrite take_ge, decode_wire by (done || by rewrite length_packet_wire).
  by apply IH.
Qed.

(** ** The receiver does not get ahead of the publisher *)

Record bounded (e : Z) (st : ReceiverState.t) : Prop := {
  bd_next : next_expected st ≤ e;
  bd_pending s d : pending st !! s = Some d → 0 ≤ s < e;
}.

Lemma bounded_deliver e s d st : e ≤ u64_max → 0 ≤ s < e → bounded e st → bounded e (deliver s d st).
Proof.
  intros He Hs [Hn Hp]. unfold deliver. rewrite u64_add_small by lia.
  repeat case_match; split; simpl; try done; lia.
Qed.

Lemma bounded_flush_loop n e st : e ≤ u64_max → bounded e st → bounded e (flush_loop n st).
Proof.
  intros He. revert st. induction n as [|n IH]; intros st Hb; [done|]. simpl.
  destruct (btree_first (pending st)) as [[s d]|] eqn:E; [|done]. case_match; [|done].
  apply btree_first_Some in E as [E _]. destruct Hb as [Hn Hp]. pose proof (Hp _ _ E).
  apply IH, bounded_deliver; [done|done|]. split; [done|]. simpl. intros s' d' Hd.
  apply lookup_delete_Some in Hd as [_ Hd]. by eapply Hp.
Qed.

Lemma bounded_stash e s d st : 0 ≤ s < e → bounded e st → bounded e (stash_pending s d st).
Proof.
  intros Hs [Hn Hp].
  assert (∀ m : gmap Z (list Z), (∀ s d, m !! s = Some d → 0 ≤ s < e) →
    ∀ s' d', <[s := d]> m !! s' = Some d' → 0 ≤ s' < e) as Hins.
  { intros m Hm s' d' Hd. apply lookup_insert_Some in Hd as [[<- _]|[_ Hd]]; [done|by eapply Hm]. }
  unfold stash_pending. repeat case_match; split; simpl; try done; eauto.
  intros s' d' Hd. eapply Hins; [|exact Hd]. intros s1 d1 Hd1.
  apply lookup_delete_Some in Hd1 as [_ Hd1]. by eapply Hp.
Qed.

Lemma bounded_blocks e f i bs st :
  e ≤ u64_max → 0 ≤ f → 0 ≤ i → f + i + Z.of_nat (length bs) ≤ e → bounded e st →
  bounded e (stash_blocks f i bs st) ∧ bounded e (deliver_blocks f i bs st).
Proof.
  intros He Hf. revert i st. induction bs as [|b bs IH]; intros i st Hi Hl Hb; [done|].
  cbn [length] in Hl. simpl. rewrite u64_add_small by lia. split.
  - apply IH; [lia|lia|]. apply bounded_stash; [lia|done].
  - apply IH; [lia|lia|]. case_match; [done|]. apply bounded_deliver; [done|lia|done].
Qed.

Lemma bounded_ingest e q st :
  e ≤ u64_max → within 0 e q → bounded e st → bounded e (ingest q st).
Proof.
  intros He [Hq0 Hq1] Hb.
  assert (∀ st, bounded e st → bounded e (ingest_session q st)) as H.
  { clear st Hb. intros st Hb.
    assert (bounded e (boot q st)) as Hb'.
    { unfold boot. destruct (bootstrapped st), (start_sequence st =? 0), Hb as [Hn Hp];
        split; simpl; try done; lia. }
    rewrite ingest_session_boot. unfold ingest_session. revert Hb'. generalize (boot q st). clear st Hb.
    intros st [Hn Hp]. unfold flush_pending.
    repeat case_match; try (split; simpl; done || lia);
      try (apply bounded_flush_loop; [done|]); apply bounded_blocks; try lia;
      split; simpl; try done; try lia. }
  unfold ingest. destruct (session st); [case_decide; [|by apply H]|apply H]; destruct Hb; by split.
Qed.

Lemma bounded_ingest_all e qs st :
  e ≤ u64_max → Forall (within 0 e) qs → bounded e st → bounded e (ingest_all qs st).
Proof.
  intros He Hq. revert st. induction Hq as [|q qs Hq Hqs IH]; intros st Hb; [done|].
  apply IH. by apply bounded_ingest.
Qed.

(** The events for the first messages of a stream. *)
Definition deliveries (start : Z) (msgs : list Message.t) : list event :=
  imap (λ i msg, Ok (MoldEvent.Message (start + Z.of_nat i) msg)) msgs.

Lemma emission_deliveries start msgs k :
  Forall wf msgs → (k ≤ length msgs)%nat →
  map (emission (stream_body start msgs)) (seqZ start (Z.of_nat k)) = deliveries start (take k msgs).
Proof.
  intros Hm Hk. apply list_eq. intros i. unfold deliveries.
  rewrite list_lookup_imap, list_lookup_fmap.
  destruct (Nat.lt_ge_cases i k) as [Hi|Hi].
  - rewrite lookup_seqZ_lt by lia. rewrite lookup_take_lt by lia.
    destruct (lookup_lt_is_Some_2 msgs i) as [msg Hmsg]; [lia|]. rewrite Hmsg. simpl. f_equal.
    unfold emission. rewrite (stream_body_at start msgs i msg Hmsg).
    rewrite Forall_lookup in Hm. rewrite <-(app_nil_r (message_wire msg)).
    by rewrite Message_decode_wire by eauto.
  - rewrite lookup_seqZ_ge by lia. by rewrite lookup_take_ge by lia.
Qed.

(** What any network makes of packets that carry a stream. *)
Lemma packets_delivered start msgs pkts qs rcfg :
  0 < start → MoldConfig.start_sequence rcfg = start → Forall wf msgs →
  start + Z.of_nat (length msgs) ≤ u64_max →
  Forall (λ q, carries (stream_body start msgs) q
             ∧ within start (start + Z.of_nat (length msgs)) q) pkts →
  Forall (λ q, q ∈ pkts) qs →
  let st := ingest_all qs (ReceiverState.new rcfg) in
  ∃ k, (k ≤ length msgs)%nat ∧ next_expected st = start + Z.of_nat k
    ∧ emissions st = deliveries start (take k msgs).
Proof.
  intros Hs Hcfg Hm Hu Hp Hq st.
  assert (Forall (λ q, carries (stream_body start msgs) q
    ∧ within start (start + Z.of_nat (length msgs)) q) qs) as Hqs.
  { rewrite Forall_forall in Hp. eapply Forall_impl; [exact Hq|]. auto. }
  assert (running (stream_body start msgs) start st) as [Hst Hfr Hbo].
  { apply running_ingest_all; [intros; by apply stream_body_len| |].
    - eapply Forall_impl; [exact Hqs|]. by intros ? [? _].
    - rewrite <-Hcfg. apply running_new. lia. }
  assert (bounded (start + Z.of_nat (length msgs)) st) as [Hn _].
  { apply bounded_ingest_all; [lia| |split; simpl; [lia|done]].
    eapply Forall_impl; [exact Hqs|]. intros q [_ [? ?]]. split; lia. }
  assert (emitted (stream_body start msgs) start st) as He.
  { destruct (bootstrapped st); [|by apply Hfr].
    destruct (Hbo eq_refl) as (from & Hfrom & He). by rewrite Hfrom in He by lia. }
  destruct (em_range _ _ _ He) as [_ Hle].
  exists (Z.to_nat (next_expected st - start)). split_and!; [lia|lia|].
  rewrite (em_out _ _ _ He), <-emission_deliveries by (done || lia). f_equal. f_equal. lia.
Qed.

(** The packets of a publisher carry its messages. *)
Lemma published_carries cfg cache msgs pkts p :
  published cfg cache msgs pkts p → 0 ≤ PublisherConfig.start_sequence cfg →
  Forall (λ q, carries (stream_body (PublisherConfig.start_sequence cfg) msgs) q
    ∧ within (PublisherConfig.start_sequence cfg)
        (PublisherConfig.start_sequence cfg + Z.of_nat (length msgs)) q) pkts.
Proof.
  intros Hp Hs. set (start := PublisherConfig.start_sequence cfg) in *.
  destruct Hp as [_ _ Hm Hbd _ _ _ Hct Hbl _ _ _ _]. set (k := length (all_blocks pkts)).
  assert (all_blocks pkts = map block_of (take k msgs)) as Hb.
  { rewrite <-firstn_map, <-Hbl. unfold k. by rewrite take_app_length. }
  assert (length (take k msgs) ≤ length msgs)%nat as Hl by (rewrite length_take; lia).
  pose proof (contiguous_carries (stream_body start msgs) _ start (take k msgs) pkts Hct Hb Hs) as H.
  eapply Forall_impl; [apply H; [fold start in Hbd; lia|]|].
  - intros i m Hi. apply lookup_take_Some in Hi as [Hi _]. by apply stream_body_at.
  - intros q [Hc [? ?]]. split; [done|]. split; lia.
Qed.

(** ** Lossless delivery *)

Lemma deliver_blocks_next f i bs st :
  0 ≤ f → 0 ≤ i → f + i + Z.of_nat (length bs) ≤ u64_max → next_expected st = f + i →
  Forall (λ b, (length (MessageBlock.data b) ≤ MAX_BLOCK_LEN)%nat) bs →
  next_expected (deliver_blocks f i bs st) = f + i + Z.of_nat (length bs)
  ∧ pending (deliver_blocks f i bs st) = pending st.
Proof.
  intros Hf Hi Hu Hn Hb. revert i st Hi Hu Hn. induction Hb as [|b bs Hl Hb IH]; intros i st Hi Hu Hn.
  { simpl. split; [lia|done]. }
  cbn [length] in Hu |- *. simpl. rewrite u64_add_small by lia.
  rewrite (proj2 (Z.ltb_ge _ _)) by lia. edestruct (IH (i + 1)) as [-> ->]; [lia|lia| |].
  - unfold deliver. rewrite (proj2 (Nat.ltb_ge _ _)), u64_add_small by (done || lia).
    case_match; simpl; lia.
  - rewrite pending_deliver. split; [lia|done].
Qed.

(** The receiver is level with the publisher at [next]. *)
Record level (sess : list Z) (next : Z) (st : ReceiverState.t) : Prop := {
  lv_next : next_expected st = next;
  lv_pending : pending st = ∅;
  lv_session : session st = None ∨ session st = Some sess;
  lv_start : start_sequence st ≠ 0;
}.

Lemma level_ingest sess next q st :
  wf q → MoldPacketHeader.session (MoldPacket.header q) = sess →
  MoldPacketHeader.sequence (MoldPacket.header q) = next → 0 ≤ next →
  next + Z.of_nat (length (MoldPacket.blocks q)) ≤ u64_max → level sess next st →
  level sess (next + Z.of_nat (length (MoldPacket.blocks q))) (ingest q st).
Proof.
  intros (Hh & Hb & Hcount) Hs Hq Hn0 Hu Hlv.
  set (st1 := boot q (set_session sess st)).
  assert (ingest q st = ingest_session q st1) as ->.
  { unfold st1. rewrite <-ingest_session_boot. unfold ingest. destruct Hlv as [_ _ Hse _].
    destruct Hse as [E|E]; rewrite E; [by rewrite Hs|]. rewrite decide_False by congruence.
    destruct st. simpl in E. by subst. }
  assert (bootstrapped st1 = true ∧ next_expected st1 = next ∧ pending st1 = ∅
    ∧ session st1 = Some sess ∧ start_sequence st1 ≠ 0) as (Hb1 & Hn1 & Hp1 & Hs1 & Hst1).
  { destruct Hlv as [? ? _ ?]. unfold st1, boot. simpl. destruct (bootstrapped st) eqn:E; [done|].
    by rewrite (proj2 (Z.eqb_neq _ _)). }
  clearbody st1. clear Hlv.
  assert (∀ st2, next_expected st2 = next + Z.of_nat (length (MoldPacket.blocks q)) →
    pending st2 = ∅ → frame st2 = frame st1 →
    level sess (next + Z.of_nat (length (MoldPacket.blocks q))) st2) as Hdone.
  { intros st2 ? ? Hf. injection Hf as _ _ _ Hf1 Hf2. split; [done|done| |congruence].
    right. congruence. }
  unfold ingest_session. rewrite Hb1. unfold MoldPacketHeader.is_heartbeat,
    MoldPacketHeader.is_end_of_session.
  destruct Hcount as [[Hc Hne]|[Hc Hnil]].
  2:{ rewrite Hc. simpl. apply Hdone; simpl; [by rewrite Hnil, Z.add_0_r|done|done]. }
  rewrite (proj2 (Z.eqb_neq _ MSG_COUNT_END_OF_SESSION)) by done. rewrite Hc, Hq.
  destruct (Z.eqb_spec (Z.of_nat (length (MoldPacket.blocks q))) MSG_COUNT_HEARTBEAT) as [E|E].
  { unfold MSG_COUNT_HEARTBEAT in E. apply Hdone; simpl; [lia|done|done]. }
  unfold MSG_COUNT_HEARTBEAT in E. rewrite u64_add_small by lia.
  rewrite (proj2 (Z.leb_gt _ _)), (proj2 (Z.ltb_ge _ _)) by lia.
  destruct (deliver_blocks_next next 0 (MoldPacket.blocks q) st1) as [Hdn Hdp]; [done|lia|lia|lia| |].
  { eapply Forall_impl; [exact Hb|]. by intros b [[_ ?] _]. }
  unfold flush_pending. rewrite Hdp, Hp1, map_size_empty. simpl.
  apply Hdone; [rewrite Hdn; lia|by rewrite Hdp|apply frame_deliver_blocks].
Qed.

Lemma level_ingest_all sess next pkts st :
  Forall wf pkts → contiguous sess next pkts → 0 ≤ next →
  next + Z.of_nat (length (all_blocks pkts)) ≤ u64_max → level sess next st →
  level sess (next + Z.of_nat (length (all_blocks pkts))) (ingest_all pkts st).
Proof.
  intros Hwf. revert next st. induction Hwf as [|q pkts Hq Hwf IH]; intros next st Hc Hn Hu Hlv.
  { simpl. by rewrite Z.add_0_r. }
  destruct Hc as (Hs & Hqn & Hc). unfold all_blocks in *. cbn [map concat] in *.
  rewrite length_app in Hu |- *. fold (all_blocks pkts) in *.
  rewrite Nat2Z.inj_add, Z.add_assoc. apply IH; [done|lia|lia|].
  apply level_ingest; try done. lia.
Qed.

(** ** Properties *)

(** C10: the publisher sends everything, once and in order. When the source has
    delivered its messages and ended, every send succeeds and the heartbeat timer
    fires at any moments, the task ends without error; the datagrams carry exactly
    the messages, numbered without gaps from the start sequence, none larger than
    the larger of the MTU and 72 bytes (a packet of one longest message), then the
    end-of-session burst with the next sequence number; and the cache has been fed
    every message with its number and marked as ended. *)
Theorem publisher_sends_all cfg cache io inputs :
  publisher_ok cfg io inputs →
  let msgs := taken inputs in
  let start := PublisherConfig.start_sequence cfg in
  let session := PublisherConfig.session cfg in
  ∃ pkts p,
    serve (inputs ++ [Next None]) (MoldPublisher.new cfg cache io) = (p, Some (Ok tt))
    ∧ sent p = map packet_wire (pkts ++ replicate (PublisherConfig.eos_burst cfg)
        (MoldPacket.end_of_session session (start + Z.of_nat (length msgs))))
    ∧ all_blocks pkts = map block_of msgs
    ∧ contiguous session start pkts
    ∧ Forall (λ d, (length d ≤ Nat.max (PublisherConfig.mtu cfg) 72)%nat) (sent p)
    ∧ MoldPublisher.cache p = (λ c, RingBufferSeqStore.mark_end_of_session
        (push_all (frames_of start (map block_of msgs)) c)) <$> cache.
Proof.
  intros Hok msgs start session.
  destruct (published_complete cfg cache io inputs Hok) as (pkts & p & Hs & Hb & Hc & p0 & Hsent & Hp).
  exists pkts, p. pose proof (pb_sent _ _ _ _ _ Hp) as Hps. split_and!; try done.
  - by rewrite Hsent.
  - eapply contiguous_app_l, (pb_contiguous _ _ _ _ _ Hp).
  - rewrite Hsent, Hps. apply Forall_map. pose proof (pb_small _ _ _ _ _ Hp) as Hsm.
    pose proof (pb_wf _ _ _ _ _ Hp) as Hwf. rewrite Forall_forall in Hsm, Hwf |- *.
    intros q Hq. simpl. rewrite length_packet_wire by auto. by apply Hsm.
Qed.

Definition example_pub_config : PublisherConfig.t :=
  PublisherConfig.mk ([239; 0; 0; 1], 9000) None (replicate 10 space) 1 72 1000 2 1000.
Definition example_inputs : list input :=
  [Next (Some (Ok (Message.OrderDelete OrderDelete.default))); Tick;
   Next (Some (Ok (Message.Noii Noii.default)));
   Next (Some (Ok (Message.BrokenTrade BrokenTrade.default))); Tick; Tick].

Lemma example_publisher_ok : publisher_ok example_pub_config [] example_inputs.
Proof.
  split.
  - split; [done|]. repeat constructor; vm_compute; congruence.
  - done.
  - simpl. lia.
  - constructor.
  - repeat (apply Forall_cons; split); try exact I; try apply Forall_nil;
      vm_compute; repeat (split || constructor); discriminate.
  - vm_compute. discriminate.
Qed.

Lemma publisher_sends_all_witness :
  ∃ pkts p,
    serve (example_inputs ++ [Next None])
      (MoldPublisher.new example_pub_config (Some (RingBufferSeqStore.with_capacity 2)) [])
    = (p, Some (Ok tt))
    ∧ sent p = map packet_wire (pkts ++ replicate 2
        (MoldPacket.end_of_session (replicate 10 space) 4))
    ∧ all_blocks pkts = map block_of (taken example_inputs).
Proof.
  destruct (publisher_sends_all example_pub_config (Some (RingBufferSeqStore.with_capacity 2)) []
    example_inputs example_publisher_ok) as (pkts & p & Hs & Hsent & Hb & _).
  exists pkts, p. split; [exact Hs|]. split; [exact Hsent|exact Hb].
Defined.

(** Whatever datagrams of a publisher reach the receiver, its state machine
    emits the first published messages. *)
Lemma receive_delivery cfg cache io inputs fin rcfg ds :
  publisher_ok cfg io inputs → fin = [] ∨ fin = [Next None] →
  (PublisherConfig.mtu cfg ≤ RECV_BUFFER_LEN)%nat →
  0 < PublisherConfig.start_sequence cfg →
  MoldConfig.start_sequence rcfg = PublisherConfig.start_sequence cfg →
  let p := (serve (inputs ++ fin) (MoldPublisher.new cfg cache io)).1 in
  Forall (λ d, d ∈ sent p) ds →
  let st := receive_all ds (ReceiverState.new rcfg) in
  ∃ k, (k ≤ length (taken inputs))%nat
    ∧ next_expected st = PublisherConfig.start_sequence cfg + Z.of_nat k
    ∧ emissions st = deliveries (PublisherConfig.start_sequence cfg) (take k (taken inputs)).
Proof.
  intros Hok Hfin Hmtu Hs0 Hst p Hds st.
  assert (∃ pkts p0, sent p = sent p0 ∧ published cfg cache (taken inputs) pkts p0)
    as (pkts & p0 & Hsent & Hp).
  { unfold p. destruct Hfin as [-> | ->].
    - rewrite app_nil_r. destruct (published_run cfg cache io inputs Hok) as (pkts & p0 & -> & Hp).
      by exists pkts, p0.
    - destruct (published_complete cfg cache io inputs Hok) as (pkts & p1 & -> & _ & _ & p0 & Hsent & Hp).
      by eexists _, p0. }
  rewrite Hsent, (pb_sent _ _ _ _ _ Hp) in Hds.
  destruct (receive_all_packets pkts ds (ReceiverState.new rcfg)) as (qs & Hqs & _ & Hrcv);
    [apply Hp| |done|].
  { eapply Forall_impl; [apply (pb_small _ _ _ _ _ Hp)|]. intros q Hq. simpl in Hq |- *.
    unfold RECV_BUFFER_LEN in *. lia. }
  unfold st. rewrite Hrcv. apply (packets_delivered _ _ pkts); try done; try apply Hp.
  eapply published_carries; [exact Hp|lia].
Qed.

Lemma eos_ingest sess seq next st :
  level sess next st → eos (ingest (MoldPacket.end_of_session sess seq) st) = true.
Proof.
  intros [_ _ Hse _]. unfold ingest. destruct Hse as [E|E]; rewrite E; simpl.
  - done.
  - rewrite decide_False by (intros Hn; by apply Hn). done.
Qed.

(** Nothing is lost when the network loses nothing. If every datagram of a
    finished publisher arrives in order, the receiver emits every message, in
    order and each once, has nothing left in its buffer, and knows that the
    session has ended. *)
Theorem lossless_delivery cfg cache io inputs rcfg :
  publisher_ok cfg io inputs →
  (PublisherConfig.mtu cfg ≤ RECV_BUFFER_LEN)%nat →
  0 < PublisherConfig.start_sequence cfg →
  MoldConfig.start_sequence rcfg = PublisherConfig.start_sequence cfg →
  (MoldConfig.session rcfg = None ∨ MoldConfig.session rcfg = Some (PublisherConfig.session cfg)) →
  let p := (serve (inputs ++ [Next None]) (MoldPublisher.new cfg cache io)).1 in
  let st := receive_all (sent p) (ReceiverState.new rcfg) in
  emissions st = deliveries (PublisherConfig.start_sequence cfg) (taken inputs)
  ∧ pending st = ∅
  ∧ (PublisherConfig.eos_burst cfg ≠ 0%nat → eos st = true).
Proof.
  intros Hok Hmtu Hs0 Hst Hses p st.
  destruct (published_complete cfg cache io inputs Hok) as (pkts & p1 & Hsv & Hb & _ & p0 & Hsent & Hp).
  assert (p = p1) as -> by (unfold p; by rewrite Hsv).
  set (q := MoldPacket.end_of_session _ _) in *.
  set (all := pkts ++ replicate (PublisherConfig.eos_burst cfg) q) in *.
  assert (st = ingest_all all (ReceiverState.new rcfg)) as ->.
  { unfold st. rewrite Hsent, (pb_sent _ _ _ _ _ Hp). apply receive_all_sent; [apply Hp|].
    eapply Forall_impl; [apply (pb_small _ _ _ _ _ Hp)|]. intros q' Hq'. simpl in Hq' |- *.
    unfold RECV_BUFFER_LEN in *. lia. }
  assert (level (PublisherConfig.session cfg) (PublisherConfig.start_sequence cfg)
    (ReceiverState.new rcfg)) as Hlv by (split; simpl; [done|done|done|lia]).
  assert (∀ n, length (all_blocks (pkts ++ replicate n q)) = length (taken inputs)) as Hab.
  { intros n. rewrite all_blocks_app, all_blocks_empty, app_nil_r, Hb by done. apply length_map. }
  pose proof (pb_bound _ _ _ _ _ Hp) as Hbd. pose proof (pb_wf _ _ _ _ _ Hp) as Hwf.
  pose proof (pb_contiguous _ _ _ _ _ Hp) as Hct.
  pose proof (Hab (PublisherConfig.eos_burst cfg)) as Hall. fold all in Hall.
  pose proof (level_ingest_all _ _ all _ Hwf Hct ltac:(lia) ltac:(rewrite Hall; lia) Hlv) as [Hln Hlp _ _].
  destruct (packets_delivered (PublisherConfig.start_sequence cfg) (taken inputs) all all rcfg)
    as (k & Hk & Hkn & Hke); try done; [apply Hp|by apply (published_carries cfg cache _ _ p0); [|lia]
    |by apply Forall_forall|].
  split_and!; [|done|].
  - rewrite Hke, take_ge; [done|]. rewrite Hall in Hln. lia.
  - intros Hne. unfold all in *. destruct (PublisherConfig.eos_burst cfg) as [|n]; [done|].
    rewrite replicate_S_end, app_assoc in Hwf, Hct |- *. unfold ingest_all. rewrite foldl_app.
    cbn [foldl]. eapply eos_ingest, level_ingest_all; [by apply Forall_app in Hwf as [? _]| |..|exact Hlv].
    + by apply contiguous_app_l in Hct.
    + lia.
    + rewrite Hab. lia.
Qed.

Lemma lossless_delivery_witness :
  let p := (serve (example_inputs ++ [Next None])
              (MoldPublisher.new example_pub_config None [])).1 in
  let st := receive_all (sent p) (ReceiverState.new event_config) in
  emissions st = deliveries 1 (taken example_inputs) ∧ pending st = ∅ ∧ (2%nat ≠ 0%nat → eos st = true).
Proof.
  apply (lossless_delivery example_pub_config None [] example_inputs event_config).
  - exact example_publisher_ok.
  - apply Nat.leb_le. reflexivity.
  - reflexivity.
  - reflexivity.
  - left. reflexivity.
Defined.
