(* ===== verification/MoldStream.v ===== *)
(** The MoldUDP64 stream that a client polls
    ([crates/itch-mold/src/receiver.rs], [MoldStream]).

    [MoldStream] puts a socket, a silence timer and a [Stream] around the state
    machine of [MoldReceiver].  An [Instant] is a number; a poll is given the
    time at which it looks at the timer and the readings that the socket has
    ready, each with the time at which it is taken.  A [Sleep] is its deadline,
    ready when that has come.  A socket without readings is [Pending]; so is the
    missing socket of [test_only].

    The loop of [poll_next] has fuel; [None] as its outcome is a loop that is
    still running.  [poll_settles] says when it ends. *)

From S2P Require Import Prelude Primitives Enums Messages Codec CodecMessages MessageCodec.
From S2P Require Import MoldCodec MoldReceiver MoldStore MoldPublisher.

(** What [poll_recv_from] has for a poll. *)
Inductive reading :=
| Datagram (bytes : list Z) (taken_at : Z)
| RecvError (kind : string).

Inductive poll := Ready (item : option event) | Pending.

Module MoldStream.
Record t := mk {
  state : ReceiverState.t;
  cfg : MoldConfig.t;
  last_seen : Z;
  soft_warned : bool;
  silence_timer : Z;
  dead_link_pending : bool;
  finished : bool }.

Definition from_socket (cfg : MoldConfig.t) (now : Z) : t :=
  mk (ReceiverState.new cfg) cfg now false (now + MoldConfig.silence_warning cfg) false false.

(** [join]: binding the port and joining the group are the socket's business;
    each gives an error kind or nothing. *)
Definition join (cfg : MoldConfig.t) (now : Z) (bound joined : option string) : result t MoldError.t :=
  if is_v4 (MoldConfig.multicast_group cfg) then
    match bound, joined with
    | Some kind, _ | None, Some kind => Err (MoldError.Io kind)
    | None, None => Ok (from_socket cfg now)
    end
  else Err (MoldError.Io "Unsupported").
Definition test_only (cfg : MoldConfig.t) (now : Z) : t :=
  mk (ReceiverState.new cfg) cfg now false (now + MoldConfig.silence_warning cfg) false false.
Definition next_expected_sequence (s : t) : Z := ReceiverState.next_expected (state s).
Definition current_session (s : t) : option (list Z) := ReceiverState.session (state s).
Definition pending_count (s : t) : nat := size (ReceiverState.pending (state s)).
Definition pending_overflow_drops (s : t) : Z := ReceiverState.overflow_drops (state s).
Definition silent_warned (s : t) : bool := soft_warned s.

Definition on_state (f : ReceiverState.t → ReceiverState.t) (s : t) : t :=
  mk (f (state s)) (cfg s) (last_seen s) (soft_warned s) (silence_timer s) (dead_link_pending s)
    (finished s).
Definition reset (deadline : Z) (s : t) : t :=
  mk (state s) (cfg s) (last_seen s) (soft_warned s) deadline (dead_link_pending s) (finished s).

Definition touch_packet (now : Z) (s : t) : t :=
  mk (state s) (cfg s) now false (now + MoldConfig.silence_warning (cfg s)) false (finished s).

Definition test_ingest (pkt : MoldPacket.t) (now : Z) (s : t) : t :=
  touch_packet now (on_state (ReceiverState.ingest pkt) s).

Definition rearm_silence_timer (s : t) : t :=
  let target :=
    if negb (soft_warned s) then last_seen s + MoldConfig.silence_warning (cfg s)
    else last_seen s + MoldConfig.silence_dead_link (cfg s) in
  reset target s.

Definition check_silence (now : Z) (s : t) : t * option MoldError.t :=
  let elapsed := Z.max 0 (now - last_seen s) in
  let s :=
    if negb (soft_warned s) && (MoldConfig.silence_warning (cfg s) <=? elapsed)
    then mk (state s) (cfg s) (last_seen s) true (silence_timer s) (dead_link_pending s) (finished s)
    else s in
  if (MoldConfig.silence_dead_link (cfg s) <=? elapsed) && negb (dead_link_pending s)
  then (mk (state s) (cfg s) (last_seen s) (soft_warned s) (silence_timer s) true (finished s),
        Some (MoldError.PeerSilent elapsed))
  else (s, None).

Definition ingest_retransmit (frames : list CachedFrame.t) (now : Z) (s : t) : t :=
  touch_packet now (on_state (ReceiverState.ingest_retransmit frames) s).

(** [self.state.outbox.pop_front()], with the test for the end of session. *)
Definition is_end_of_session (e : event) : bool :=
  match e with Ok (MoldEvent.EndOfSession _) => true | _ => false end.
Definition set_outbox (out : list event) (st : ReceiverState.t) : ReceiverState.t :=
  ReceiverState.mk (ReceiverState.session st) (ReceiverState.next_expected st)
    (ReceiverState.bootstrapped st) (ReceiverState.pending st) out (ReceiverState.eos st)
    (ReceiverState.max_pending st) (ReceiverState.pending_overflow st)
    (ReceiverState.start_sequence st) (ReceiverState.overflow_drops st).
Definition pop_front (s : t) : option (event * t) :=
  match ReceiverState.outbox (state s) with
  | [] => None
  | e :: out =>
      Some (e, mk (set_outbox out (state s)) (cfg s) (last_seen s) (soft_warned s) (silence_timer s)
                 (dead_link_pending s) (finished s || is_end_of_session e))
  end.

Fixpoint poll_loop (fuel : nat) (now : Z) (socket : list reading) (s : t)
    : t * list reading * option poll :=
  match fuel with
  | O => (s, socket, None)
  | S fuel =>
      match socket with
      | Datagram bytes taken_at :: socket =>
          let s := touch_packet taken_at s in
          match MoldPacket.decode (take ReceiverState.RECV_BUFFER_LEN bytes) with
          | Err err => (s, socket, Some (Ready (Some (Err err))))
          | Ok pkt =>
              let s := on_state (ReceiverState.ingest pkt) s in
              match pop_front s with
              | Some (e, s) => (s, socket, Some (Ready (Some e)))
              | None => poll_loop fuel now socket s
              end
          end
      | RecvError kind :: socket => (s, socket, Some (Ready (Some (Err (MoldError.Io kind)))))
      | [] =>
          if silence_timer s <=? now then
            match check_silence now s with
            | (s, Some err) =>
                (reset (now + MoldConfig.silence_dead_link (cfg s)) s, [],
                 Some (Ready (Some (Err err))))
            | (s, None) => poll_loop fuel now [] (rearm_silence_timer s)
            end
          else (s, [], Some Pending)
      end
  end.

(** One turn per reading, one for each deadline of the timer and one to wait. *)
Definition poll_fuel (socket : list reading) : nat := length socket + 3.

Definition poll_next (now : Z) (socket : list reading) (s : t) : t * list reading * option poll :=
  if finished s then (s, socket, Some (Ready None))
  else
    match pop_front s with
    | Some (e, s) => (s, socket, Some (Ready (Some e)))
    | None => poll_loop (poll_fuel socket) now socket s
    end.
End MoldStream.

Import MoldStream.

(** ** When a poll ends *)

(** The peer was reported silent and still is when the timer fires again. *)
Definition spinning (now : Z) (s : MoldStream.t) : Prop :=
  silence_timer s ≤ now ∧ dead_link_pending s = true
  ∧ MoldConfig.silence_dead_link (cfg s) ≤ now - last_seen s
  ∧ (soft_warned s = true ∨ MoldConfig.silence_warning (cfg s) ≤ now - last_seen s).

(** A turn without readings when the timer has fired. *)
Lemma spinning_turn now s :
  last_seen s ≤ now → spinning now s →
  ∃ s', check_silence now s = (s', None) ∧ spinning now (rearm_silence_timer s')
    ∧ last_seen (rearm_silence_timer s') = last_seen s.
Proof.
  destruct s as [st c l w tm d f]. unfold spinning, check_silence, rearm_silence_timer. simpl.
  intros Hl (Ht & -> & Hd & Hw). rewrite (Z.max_r 0) by lia.
  destruct w; [|destruct Hw as [|Hw]; [done|]; rewrite (proj2 (Z.leb_le _ _) Hw)]; simpl;
    rewrite andb_false_r; eexists; (split; [reflexivity|]); simpl; split_and!; auto; lia.
Qed.

Lemma spinning_forever fuel now s :
  last_seen s ≤ now → spinning now s → (poll_loop fuel now [] s).2 = None.
Proof.
  revert s. induction fuel as [|fuel IH]; intros s Hl Hs; [done|]. cbn [poll_loop].
  rewrite (proj2 (Z.leb_le _ _)) by apply Hs.
  destruct (spinning_turn now s Hl Hs) as (s' & -> & Hs' & Hl'). apply IH; [lia|done].
Qed.

(** Otherwise the timer is waited for or the silence reported in three turns. *)
Lemma quiet_settles fuel now s :
  last_seen s ≤ now → ¬ spinning now s → is_Some (poll_loop (3 + fuel) now [] s).2.
Proof.
  destruct s as [st c l w tm d f]. unfold spinning. simpl. intros Hl Hn.
  destruct (Z.leb_spec tm now) as [Ht|]; [|done].
  unfold check_silence. simpl. rewrite (Z.max_r 0) by lia.
  destruct w, d; simpl; repeat (case_match; simplify_eq/=; try done); lia.
Qed.

Definition taken_by (now : Z) (r : reading) : Prop :=
  match r with Datagram _ taken_at => taken_at ≤ now | RecvError _ => True end.

Lemma touched_not_spinning now s : dead_link_pending s = false → ¬ spinning now s.
Proof. intros E (_ & Hd & _). congruence. Qed.

Lemma poll_loop_settles fuel now socket s :
  (poll_fuel socket ≤ fuel)%nat → last_seen s ≤ now → Forall (taken_by now) socket →
  socket ≠ [] ∨ ¬ spinning now s → is_Some (poll_loop fuel now socket s).2.
Proof.
  unfold poll_fuel. intros Hf Hl Hr. revert fuel s Hf Hl.
  induction Hr as [|r socket Hr Hrs IH]; intros fuel s Hf Hl Hs.
  { destruct Hs as [|Hs]; [done|]. destruct fuel as [|[|[|fuel]]]; simpl in Hf; try lia.
    by apply (quiet_settles fuel). }
  destruct fuel as [|fuel]; simpl in Hf; [lia|]. cbn [poll_loop].
  destruct r as [bytes at_|kind]; [|done].
  destruct (MoldPacket.decode _) as [pkt|]; [|done]. cbv zeta.
  destruct (pop_front _) as [[e s']|]; [done|]. apply IH; [lia|done|]. right.
  by apply touched_not_spinning.
Qed.

(** ** The stream and its state machine *)

(** A receiver that has already put [log] into its outbox. *)
Definition after (log : list event) (st : ReceiverState.t) : ReceiverState.t :=
  set_outbox (log ++ ReceiverState.outbox st) st.

Lemma after_push log e st : ReceiverState.push_back e (after log st) = after log (ReceiverState.push_back e st).
Proof. unfold ReceiverState.push_back, after, set_outbox. simpl. by rewrite app_assoc. Qed.

Lemma after_deliver log seq d st :
  ReceiverState.deliver seq d (after log st) = after log (ReceiverState.deliver seq d st).
Proof.
  unfold ReceiverState.deliver. repeat case_match; rewrite after_push; done.
Qed.

Lemma after_stash log seq d st :
  ReceiverState.stash_pending seq d (after log st) = after log (ReceiverState.stash_pending seq d st).
Proof.
  unfold ReceiverState.stash_pending. simpl. repeat case_match; try done.
  rewrite <-after_push. done.
Qed.

Lemma after_flush_loop log n st :
  ReceiverState.flush_loop n (after log st) = after log (ReceiverState.flush_loop n st).
Proof.
  revert st. induction n as [|n IH]; intros st; [done|]. simpl.
  destruct (btree_first _) as [[s d]|]; [|done]. case_match; [|done].
  rewrite <-IH, <-after_deliver. done.
Qed.

Lemma after_blocks log f i bs st :
  ReceiverState.stash_blocks f i bs (after log st) = after log (ReceiverState.stash_blocks f i bs st)
  ∧ ReceiverState.deliver_blocks f i bs (after log st)
    = after log (ReceiverState.deliver_blocks f i bs st).
Proof.
  revert i st. induction bs as [|b bs IH]; intros i st; [done|]. simpl.
  rewrite after_stash. split; [apply IH|]. case_match; [apply IH|]. rewrite after_deliver. apply IH.
Qed.

Lemma after_ingest log pkt st :
  ReceiverState.ingest pkt (after log st) = after log (ReceiverState.ingest pkt st).
Proof.
  assert (∀ st, ReceiverState.ingest_session pkt (after log st)
    = after log (ReceiverState.ingest_session pkt st)) as H.
  { clear st. intros st. rewrite ingest_session_boot, (ingest_session_boot pkt st).
    replace (boot pkt (after log st)) with (after log (boot pkt st)).
    2:{ unfold boot. simpl. by repeat case_match. }
    assert (ReceiverState.bootstrapped (boot pkt st) = true) as Hb.
    { unfold boot. by destruct (ReceiverState.bootstrapped st) eqn:E. }
    revert Hb. generalize (boot pkt st). clear st. intros st Hb. unfold ReceiverState.ingest_session.
    change (ReceiverState.bootstrapped (after log st)) with (ReceiverState.bootstrapped st).
    change (ReceiverState.next_expected (after log st)) with (ReceiverState.next_expected st).
    rewrite Hb. destruct (MoldPacketHeader.is_heartbeat _); [apply after_push|].
    destruct (MoldPacketHeader.is_end_of_session _); [apply (after_push _ _ (ReceiverState.set_eos st))|].
    destruct (_ <=? _); [done|]. destruct (_ <? _).
    - rewrite after_push. apply after_blocks.
    - unfold ReceiverState.flush_pending. rewrite (proj2 (after_blocks _ _ _ _ _)).
      apply after_flush_loop. }
  unfold ReceiverState.ingest. simpl. case_match; [case_decide; [apply after_push|apply H]|].
  rewrite <-H. done.
Qed.

Lemma after_nil st : after [] st = st.
Proof. by destruct st. Qed.
Lemma after_app log log' st : after log (after log' st) = after (log ++ log') st.
Proof. unfold after, set_outbox. simpl. by rewrite app_assoc. Qed.

Lemma after_receive_all log ds st :
  ReceiverState.receive_all ds (after log st) = after log (ReceiverState.receive_all ds st).
Proof.
  unfold ReceiverState.receive_all. revert st. induction ds as [|d ds IH]; intros st; [done|].
  cbn [foldl]. rewrite <-IH. f_equal. unfold ReceiverState.receive.
  destruct (MoldPacket.decode _); [apply after_ingest|apply after_push].
Qed.

(** Taking an event from the outbox moves it to the log. *)
Lemma pop_front_after s e s' : pop_front s = Some (e, s') → state s = after [e] (state s').
Proof.
  unfold pop_front. destruct s as [st c l w tm d f], st. simpl. destruct outbox; [done|].
  intros [= <- <-]. done.
Qed.

Lemma pop_front_None s : pop_front s = None ↔ ReceiverState.outbox (state s) = [].
Proof. unfold pop_front. by destruct (ReceiverState.outbox (state s)). Qed.

Definition datagrams (rs : list reading) : list (list Z) :=
  omap (λ r, match r with Datagram bytes _ => Some bytes | RecvError _ => None end) rs.

Definition yielded (out : option poll) : list event :=
  match out with Some (Ready (Some e)) => [e] | _ => [] end.

(** What a poll did to the receiver: it fed it the readings [rs], and the events
    of the log left its outbox. *)
Record polled (socket : list reading) (s : MoldStream.t) (socket' : list reading)
    (s' : MoldStream.t) (out : option poll) (rs : list reading) (log : list event) : Prop := {
  po_socket : socket = rs ++ socket';
  po_state : ReceiverState.receive_all (datagrams rs) (state s) = after log (state s');
  po_log : filter is_emission log = filter is_emission (yielded out);
  po_pending : out = Some Pending → socket' = [] ∧ ReceiverState.outbox (state s') = [];
}.

Lemma check_silence_state now s s' o :
  check_silence now s = (s', o) →
  state s' = state s ∧ ∀ err, o = Some err → is_emission (Err err) = false.
Proof. unfold check_silence. repeat case_match; intros [= <- <-]; split; by try intros ? [= <-]. Qed.

Lemma no_emission e : is_emission e = false → filter is_emission [e] = [].
Proof. intros E. cbn [filter list_filter]. by rewrite decide_False by (rewrite E; tauto). Qed.

Lemma poll_loop_polled fuel now socket s s' socket' out :
  ReceiverState.outbox (state s) = [] → poll_loop fuel now socket s = (s', socket', out) →
  ∃ rs log, polled socket s socket' s' out rs log.
Proof.
  revert socket s. induction fuel as [|fuel IH]; intros socket s Ho.
  { intros [= <- <- <-]. exists [], []. split; try done. by rewrite after_nil. }
  cbn [poll_loop]. destruct socket as [|[bytes at_|kind] socket].
  - destruct (silence_timer s <=? now).
    2:{ intros [= <- <- <-]. exists [], []. split; try done. by rewrite after_nil. }
    destruct (check_silence now s) as [s1 o] eqn:E. apply check_silence_state in E as [E He].
    destruct o as [err|]; cbv zeta.
    + intros [= <- <- <-]. exists [], []. split; try done; [simpl; by rewrite after_nil|].
      simpl yielded. by rewrite no_emission by auto.
    + intros Hp. destruct (IH [] (rearm_silence_timer s1)) as (rs & log & [H1 H2 H3 H4]);
        [simpl; by rewrite E|done|]. exists rs, log. split; try done. by rewrite <-H2, <-E.
  - cbv zeta. destruct (MoldPacket.decode _) as [pkt|err] eqn:Ed.
    2:{ intros [= <- <- <-]. exists [Datagram bytes at_], [Err err]. split; try done. simpl.
        unfold ReceiverState.receive. rewrite Ed. destruct (state s); simpl in *. by subst. }
    assert (∀ rs, ReceiverState.receive_all (datagrams (Datagram bytes at_ :: rs)) (state s)
      = ReceiverState.receive_all (datagrams rs) (ReceiverState.ingest pkt (state s))) as Hr.
    { intros rs. unfold datagrams. cbn. unfold ReceiverState.receive at 2. by rewrite Ed. }
    destruct (pop_front _) as [[e s1]|] eqn:Ep.
    + intros [= <- <- <-]. apply pop_front_after in Ep. exists [Datagram bytes at_], [e].
      split; try done. by rewrite Hr, <-Ep.
    + intros Hp. apply pop_front_None in Ep.
      destruct (IH _ _ Ep Hp) as (rs & log & [H1 H2 H3 H4]). exists (Datagram bytes at_ :: rs), log.
      split; try done; [by rewrite H1|]. by rewrite Hr, <-H2.
  - intros [= <- <- <-]. exists [RecvError kind], []. split; try done. simpl. by rewrite after_nil.
Qed.

Lemma poll_next_polled now socket s s' socket' out :
  poll_next now socket s = (s', socket', out) → ∃ rs log, polled socket s socket' s' out rs log.
Proof.
  unfold poll_next. destruct (finished s).
  { intros [= <- <- <-]. exists [], []. split; try done. by rewrite after_nil. }
  destruct (pop_front s) as [[e s1]|] eqn:E.
  - intros [= <- <- <-]. apply pop_front_after in E. exists [], [e]. by split.
  - apply poll_loop_polled. by apply pop_front_None.
Qed.

(** ** A client *)

(** Readings arrive at the socket, and the client polls. *)
Inductive action := Arrive (r : reading) | Poll (now : Z).

Record client := mk_client {
  stream : MoldStream.t;
  socket : list reading;
  items : list event }.

Definition step (c : client) (a : action) : client :=
  match a with
  | Arrive r => mk_client (stream c) (socket c ++ [r]) (items c)
  | Poll now =>
      let '(s, rs, out) := poll_next now (socket c) (stream c) in
      mk_client s rs (items c ++ yielded out)
  end.
Definition client_run (cfg : MoldConfig.t) (start : Z) (acts : list action) : client :=
  foldl step (mk_client (from_socket cfg start) [] []) acts.

Definition arrivals (acts : list action) : list reading :=
  omap (λ a, match a with Arrive r => Some r | Poll _ => None end) acts.

(** The client has the events that its readings caused, less those waiting. *)
Record follows (cfg : MoldConfig.t) (arrived : list reading) (c : client)
    (rs : list reading) (log : list event) : Prop := {
  fo_arrived : arrived = rs ++ socket c;
  fo_state : ReceiverState.receive_all (datagrams rs) (ReceiverState.new cfg)
    = after log (state (stream c));
  fo_items : filter is_emission log = filter is_emission (items c);
}.

Lemma datagrams_app rs rs' : datagrams (rs ++ rs') = datagrams rs ++ datagrams rs'.
Proof. apply omap_app. Qed.
Lemma receive_all_app ds ds' st :
  ReceiverState.receive_all (ds ++ ds') st
  = ReceiverState.receive_all ds' (ReceiverState.receive_all ds st).
Proof. apply foldl_app. Qed.

Lemma follows_step cfg arrived c a rs log :
  follows cfg arrived c rs log →
  ∃ rs' log', follows cfg (arrived ++ arrivals [a]) (step c a) rs' log'.
Proof.
  intros [Ha Hs Hi]. destruct a as [r|now]; simpl.
  { exists rs, log. split; try done. by rewrite Ha, <-app_assoc. }
  destruct (poll_next now (socket c) (stream c)) as [[s' socket'] out] eqn:E.
  destruct (poll_next_polled _ _ _ _ _ _ E) as (rs1 & log1 & [H1 H2 H3 _]).
  exists (rs ++ rs1), (log ++ log1). split; simpl.
  - by rewrite app_nil_r, Ha, H1, app_assoc.
  - by rewrite datagrams_app, receive_all_app, Hs, after_receive_all, H2, after_app.
  - by rewrite !filter_app, Hi, H3.
Qed.

Lemma client_follows cfg start acts :
  ∃ rs log, follows cfg (arrivals acts) (client_run cfg start acts) rs log.
Proof.
  unfold client_run. induction acts as [|a acts IH] using rev_ind.
  { exists [], []. by split. }
  destruct IH as (rs & log & IH). rewrite foldl_app. unfold arrivals. rewrite omap_app.
  by eapply follows_step.
Qed.

Lemma emissions_after log st : emissions (after log st) = filter is_emission log ++ emissions st.
Proof. unfold emissions, after. simpl. by rewrite filter_app. Qed.

(** ** Properties *)

(** A client of the stream gets what the receiver emits. Whatever readings
    arrive, and whenever the client polls, the messages (and undecodable blocks)
    that it was given are the first of those that the receiver's state machine
    emits for the datagrams that have arrived; and when a poll tells the client
    to wait, it has been given all of them. *)
Theorem stream_delivers cfg start acts :
  let c := client_run cfg start acts in
  let all := emissions (ReceiverState.receive_all (datagrams (arrivals acts)) (ReceiverState.new cfg)) in
  filter is_emission (items c) `prefix_of` all
  ∧ ∀ now, (poll_next now (socket c) (stream c)).2 = Some Pending →
      filter is_emission (items c) = all.
Proof.
  intros c all. destruct (client_follows cfg start acts) as (rs & log & [Ha Hs Hi]). fold c in Ha, Hs, Hi.
  assert (∀ st, ReceiverState.receive_all (datagrams (socket c)) (state (stream c)) = st →
    all = filter is_emission (items c) ++ emissions st) as Hall.
  { intros st <-. unfold all.
    by rewrite Ha, datagrams_app, receive_all_app, Hs, after_receive_all, emissions_after, Hi. }
  split; [by eexists; apply Hall|]. intros now Hp.
  destruct (poll_next now (socket c) (stream c)) as [[s' socket'] out] eqn:E. simpl in Hp. subst out.
  destruct (poll_next_polled _ _ _ _ _ _ E) as (rs1 & log1 & [H1 H2 H3 H4]).
  destruct (H4 eq_refl) as [-> Ho]. rewrite app_nil_r in H1. subst rs1.
  rewrite (Hall _ H2), emissions_after, H3. unfold emissions. by rewrite Ho, !app_nil_r.
Qed.

Lemma deliveries_prefix start msgs l :
  l `prefix_of` deliveries start msgs →
  l = deliveries start (take (length l) msgs) ∧ (length l ≤ length msgs)%nat.
Proof.
  intros Hl. assert (length (deliveries start msgs) = length msgs) as Hlen by apply length_imap.
  pose proof (prefix_length _ _ Hl) as Hle. rewrite Hlen in Hle. split; [|done].
  apply list_eq. intros i. unfold deliveries in *. rewrite list_lookup_imap.
  destruct (Nat.lt_ge_cases i (length l)) as [Hi|Hi].
  - rewrite lookup_take_lt by done. destruct (lookup_lt_is_Some_2 l i Hi) as [e He].
    rewrite He. pose proof (prefix_lookup_Some _ _ _ _ He Hl) as H. by rewrite list_lookup_imap in H.
  - by rewrite lookup_take_ge, lookup_ge_None_2 by done.
Qed.

(** What a client has been given at any time. *)
Lemma client_delivery cfg cache io inputs fin rcfg start acts :
  publisher_ok cfg io inputs → fin = [] ∨ fin = [Next None] →
  (PublisherConfig.mtu cfg ≤ ReceiverState.RECV_BUFFER_LEN)%nat →
  0 < PublisherConfig.start_sequence cfg →
  MoldConfig.start_sequence rcfg = PublisherConfig.start_sequence cfg →
  let p := (MoldPublisher.serve (inputs ++ fin) (MoldPublisher.new cfg cache io)).1 in
  Forall (λ d, d ∈ MoldPublisher.sent p) (datagrams (arrivals acts)) →
  ∃ k, (k ≤ length (taken inputs))%nat
    ∧ filter is_emission (items (client_run rcfg start acts))
      = deliveries (PublisherConfig.start_sequence cfg) (take k (taken inputs)).
Proof.
  intros Hok Hfin Hmtu Hs0 Hst p Hds.
  destruct (receive_delivery cfg cache io inputs fin rcfg _ Hok Hfin Hmtu Hs0 Hst Hds)
    as (k & Hk & _ & He).
  destruct (client_follows rcfg start acts) as (rs & log & [Ha Hs Hi]).
  set (c := client_run rcfg start acts) in *.
  assert (filter is_emission (items c) `prefix_of` deliveries (PublisherConfig.start_sequence cfg)
    (take k (taken inputs))) as Hp.
  { rewrite <-He, Ha, datagrams_app, receive_all_app, Hs, after_receive_all, emissions_after, Hi.
    by eexists. }
  apply deliveries_prefix in Hp as [Hp Hl]. rewrite length_take in Hl.
  exists (length (filter is_emission (items c))). split; [lia|]. rewrite Hp at 1.
  by rewrite take_take, Nat.min_l by lia.
Qed.

(** C7: from the publisher to the client. The sends of the publisher succeed, its
    MTU is at most the 2048 bytes of the receive buffer, and the receiver is
    configured with the positive number at which the publisher starts. Over a
    network that drops, repeats and reorders the datagrams of the publisher, and
    whenever the client polls, the messages that the client is given are the first
    published ones, decoded as they were, in order and each once. *)
Theorem network_delivery cfg cache io inputs fin rcfg start acts :
  publisher_ok cfg io inputs → fin = [] ∨ fin = [Next None] →
  (PublisherConfig.mtu cfg ≤ ReceiverState.RECV_BUFFER_LEN)%nat →
  0 < PublisherConfig.start_sequence cfg →
  MoldConfig.start_sequence rcfg = PublisherConfig.start_sequence cfg →
  let p := (MoldPublisher.serve (inputs ++ fin) (MoldPublisher.new cfg cache io)).1 in
  Forall (λ d, d ∈ MoldPublisher.sent p) (datagrams (arrivals acts)) →
  ∃ k, (k ≤ length (taken inputs))%nat
    ∧ filter is_emission (items (client_run rcfg start acts))
      = deliveries (PublisherConfig.start_sequence cfg) (take k (taken inputs)).
Proof.
  intros Hok Hfin Hmtu Hs0 Hst p Hds. by apply (client_delivery cfg cache io inputs fin).
Qed.

Lemma network_delivery_witness :
  let p := (MoldPublisher.serve (example_inputs ++ [Next None])
              (MoldPublisher.new example_pub_config None [])).1 in
  let d i := Arrive (Datagram (default [] (MoldPublisher.sent p !! i)) 0) in
  let c := client_run event_config 0
    [d 2; Poll 1; d 0; d 2; Poll 2; Poll 3; d 1; d 1; Poll 4; Poll 5]%nat in
  ∃ k, (k ≤ 3)%nat ∧ filter is_emission (items c) = deliveries 1 (take k (taken example_inputs)).
Proof.
  intros p d c.
  apply (network_delivery example_pub_config None [] example_inputs [Next None] event_config).
  - exact example_publisher_ok.
  - right. reflexivity.
  - apply Nat.leb_le. reflexivity.
  - reflexivity.
  - reflexivity.
  - fold p. unfold d, arrivals, datagrams. cbn [omap list_omap option_bind].
    repeat (apply Forall_cons; split); [..|by apply Forall_nil];
      [ eapply (list_elem_of_lookup_2 _ 2%nat) | eapply (list_elem_of_lookup_2 _ 0%nat)
      | eapply (list_elem_of_lookup_2 _ 2%nat) | eapply (list_elem_of_lookup_2 _ 1%nat)
      | eapply (list_elem_of_lookup_2 _ 1%nat) ]; vm_compute; reflexivity.
Defined.

(** C39: a poll ends. Unless the peer was already reported silent and the timer
    has fired once more without a reading, every poll returns an item, the end
    of the stream or [Pending], within one turn per reading and three more. *)
Theorem poll_settles now socket s :
  last_seen s ≤ now → Forall (taken_by now) socket → socket ≠ [] ∨ ¬ spinning now s →
  is_Some (poll_next now socket s).2.
Proof.
  intros Hl Hr Hs. unfold poll_next. destruct (finished s); [done|].
  destruct (pop_front s) as [[e s']|]; [done|]. by apply poll_loop_settles.
Qed.

Lemma poll_settles_witness :
  is_Some (poll_next 15000 [] (from_socket event_config 0)).2.
Proof.
  apply (poll_settles 15000 [] (from_socket event_config 0)).
  - simpl. lia.
  - constructor.
  - right. by apply touched_not_spinning.
Defined.

(** C40: a second silence turns the poll into a busy loop. A stream that receives
    nothing reports [PeerSilent] once the dead-link threshold has passed, as
    intended; when the threshold passes again, the next poll finds the timer
    expired, reports nothing, and re-arms the timer to a deadline in the past:
    the loop has no turn on which it returns. *)
Theorem silence_spins cfg t0 t1 t2 :
  0 ≤ MoldConfig.silence_warning cfg ≤ MoldConfig.silence_dead_link cfg →
  t0 + MoldConfig.silence_dead_link cfg ≤ t1 → t1 + MoldConfig.silence_dead_link cfg ≤ t2 →
  ∃ s, poll_next t1 [] (from_socket cfg t0)
         = (s, [], Some (Ready (Some (Err (MoldError.PeerSilent (t1 - t0))))))
    ∧ finished s = false ∧ pop_front s = None ∧ ∀ fuel, (poll_loop fuel t2 [] s).2 = None.
Proof.
  intros Hc H1 H2. unfold poll_next. simpl. rewrite (proj2 (Z.leb_le _ _)) by lia.
  unfold check_silence. simpl. rewrite (Z.max_r 0) by lia.
  rewrite (proj2 (Z.leb_le (MoldConfig.silence_warning cfg) _)) by lia. simpl.
  rewrite (proj2 (Z.leb_le (MoldConfig.silence_dead_link cfg) _)) by lia. simpl.
  eexists. split_and!; [done|done|done|]. intros fuel. apply spinning_forever; simpl; [lia|].
  unfold spinning. simpl. split_and!; auto; lia.
Qed.

Lemma silence_spins_witness :
  ∃ s, poll_next 15000 [] (from_socket event_config 0)
         = (s, [], Some (Ready (Some (Err (MoldError.PeerSilent 15000)))))
    ∧ finished s = false ∧ pop_front s = None ∧ ∀ fuel, (poll_loop fuel 30000 [] s).2 = None.
Proof.
  apply (silence_spins event_config 0 15000 30000);
    change (MoldConfig.silence_dead_link event_config) with 15000;
    change (MoldConfig.silence_warning event_config) with 1000; lia.
Defined.
