(* ===== verification/FeedToBooks.v ===== *)
(** From the feed to the books: the books that a subscriber builds
    ([crates/itch-book/src/manager.rs]) from what it receives over multicast
    ([crates/itch-mold]), against the orders of the published feed. *)

From S2P Require Import Prelude Primitives Enums Messages Codec CodecMessages MessageCodec.
From S2P Require Import BookSpec L2Book L3Book BookManager.
From S2P Require Import MoldCodec MoldReceiver MoldStore MoldPublisher MoldStream.

(** The messages among the events of a stream. *)
Definition messages_of (es : list event) : list Message.t :=
  omap (λ e, match e with Ok (MoldEvent.Message _ m) => Some m | _ => None end) es.

(** The manager's L2 book of a symbol is the one of the feed: it indexes the
    orders that rest after it, and each level is their exact sum. *)
Definition shows (loc : StockLocate.t) (feed : list Message.t) (m : BookManager.t) : Prop :=
  let os := (order_run loc (msgs_at loc feed) ∅).1 in
  match BookManager.l2 m !! loc with
  | Some b => L2Book.orders b = os ∧ ∀ side p, L2Book.side_levels side b !! p = level_of os side p
  | None => msgs_at loc feed = []
  end.

(** ** The messages of a stream *)

Lemma messages_of_emissions es : messages_of (filter is_emission es) = messages_of es.
Proof.
  induction es as [|e es IH]; [done|]. rewrite filter_cons.
  case_decide as He; unfold messages_of in *; cbn [omap list_omap]; rewrite IH; [done|].
  by destruct e as [[]|[]]; try (by destruct He).
Qed.

Lemma messages_of_deliveries start ms : messages_of (deliveries start ms) = ms.
Proof.
  unfold messages_of, deliveries. revert start. induction ms as [|m ms IH]; intros start; [done|].
  rewrite imap_cons. cbn [omap list_omap]. f_equal. rewrite <-(IH (start + 1)) at 2. f_equal.
  apply imap_ext. intros i x _. simpl. do 2 f_equal. lia.
Qed.

(** ** Prefixes of a feed *)

Lemma feed_ok_prefix loc ms ms' os : feed_ok loc os (ms ++ ms') → feed_ok loc os ms.
Proof.
  revert os. induction ms as [|m ms IH]; intros os; [done|]. simpl.
  intros (? & ? & ?). split_and!; [done|done|by apply IH].
Qed.

Lemma msgs_at_take loc k ms : ∃ rest, msgs_at loc ms = msgs_at loc (take k ms) ++ rest.
Proof.
  exists (msgs_at loc (drop k ms)). unfold msgs_at. by rewrite <-filter_app, take_drop.
Qed.

(** A manager that was fed a part of a good feed shows it. *)
Lemma manager_shows loc ms : feed_ok loc ∅ (msgs_at loc ms) → shows loc ms (manager_run ms BookManager.new).1.
Proof.
  intros Hok. unfold shows. rewrite manager_run_l2.
  change (BookManager.l2_entry loc BookManager.new) with (L2Book.new loc).
  destruct (L2_run_inv loc _ Hok) as ([_ Hlv] & _ & Hrun). rewrite Hrun.
  by destruct (msgs_at loc ms).
Qed.

Lemma shows_prefix loc k ms :
  feed_ok loc ∅ (msgs_at loc ms) →
  shows loc (take k ms) (manager_run (take k ms) BookManager.new).1.
Proof.
  intros Hok. apply manager_shows. destruct (msgs_at_take loc k ms) as [rest Hr]. rewrite Hr in Hok.
  by eapply feed_ok_prefix.
Qed.

(** ** A publisher that has sent all it took *)

Lemma flushed_delivery cfg cache io inputs rcfg :
  publisher_ok cfg io inputs →
  (PublisherConfig.mtu cfg ≤ ReceiverState.RECV_BUFFER_LEN)%nat →
  0 < PublisherConfig.start_sequence cfg →
  MoldConfig.start_sequence rcfg = PublisherConfig.start_sequence cfg →
  MoldConfig.session rcfg = None ∨ MoldConfig.session rcfg = Some (PublisherConfig.session cfg) →
  let p := (MoldPublisher.serve inputs (MoldPublisher.new cfg cache io)).1 in
  MoldPublisher.pending_blocks p = [] →
  emissions (ReceiverState.receive_all (MoldPublisher.sent p) (ReceiverState.new rcfg))
  = deliveries (PublisherConfig.start_sequence cfg) (taken inputs).
Proof.
  intros Hok Hmtu Hs0 Hst Hses p Hnil.
  destruct (published_run cfg cache io inputs Hok) as (pkts & p0 & Hsv & Hp).
  assert (p = p0) as -> by (unfold p; by rewrite Hsv). rewrite (pb_sent _ _ _ _ _ Hp).
  rewrite receive_all_sent; [|apply Hp|].
  2:{ eapply Forall_impl; [apply (pb_small _ _ _ _ _ Hp)|]. intros q Hq. simpl in Hq |- *.
      unfold ReceiverState.RECV_BUFFER_LEN in *. lia. }
  pose proof (pb_blocks _ _ _ _ _ Hp) as Hb. rewrite Hnil, app_nil_r in Hb.
  apply (f_equal length) in Hb. rewrite length_map in Hb.
  assert (level (PublisherConfig.session cfg) (PublisherConfig.start_sequence cfg)
    (ReceiverState.new rcfg)) as Hlv by (split; simpl; [done|done|done|lia]).
  pose proof (pb_bound _ _ _ _ _ Hp) as Hbd.
  pose proof (level_ingest_all _ _ pkts _ (pb_wf _ _ _ _ _ Hp) (pb_contiguous _ _ _ _ _ Hp)
    ltac:(lia) ltac:(rewrite Hb; lia) Hlv) as [Hln _ _ _].
  destruct (packets_delivered (PublisherConfig.start_sequence cfg) (taken inputs) pkts pkts rcfg)
    as (k & Hk & Hkn & Hke); try done; [apply Hp|by apply (published_carries cfg cache _ _ p0); [|lia]
    |by apply Forall_forall|].
  rewrite Hke, take_ge; [done|]. rewrite Hb in Hln. lia.
Qed.

(** ** Properties *)

(** C8: the books of a multicast subscriber. The sends of the publisher succeed,
    its MTU is at most the 2048 bytes of the receive buffer, and the subscriber is
    configured with the positive number at which the publisher starts and with its
    session or none. The datagrams are dropped, repeated and reordered, and the
    subscriber polls whenever it likes. Of every symbol whose messages do not
    reuse live references, add positive [u32] share counts and keep fewer than
    2^32 orders resting, the L2 book that the subscriber has built is at every
    time exactly the book of a prefix of the published feed: the orders that rest
    after it, and on each level their sum. When the publisher has sent all it
    took, every datagram has arrived in order and the stream waits, it is the book
    of the whole feed so far. *)
Theorem books_follow_multicast cfg cache io inputs fin rcfg start acts loc :
  publisher_ok cfg io inputs → fin = [] ∨ fin = [Next None] →
  (PublisherConfig.mtu cfg ≤ ReceiverState.RECV_BUFFER_LEN)%nat →
  0 < PublisherConfig.start_sequence cfg →
  MoldConfig.start_sequence rcfg = PublisherConfig.start_sequence cfg →
  MoldConfig.session rcfg = None ∨ MoldConfig.session rcfg = Some (PublisherConfig.session cfg) →
  feed_ok loc ∅ (msgs_at loc (taken inputs)) →
  let p := (MoldPublisher.serve (inputs ++ fin) (MoldPublisher.new cfg cache io)).1 in
  let c := client_run rcfg start acts in
  let m := (manager_run (messages_of (items c)) BookManager.new).1 in
  Forall (λ d, d ∈ MoldPublisher.sent p) (datagrams (arrivals acts)) →
  (∃ k, (k ≤ length (taken inputs))%nat ∧ shows loc (take k (taken inputs)) m)
  ∧ (fin = [] → MoldPublisher.pending_blocks p = [] →
     datagrams (arrivals acts) = MoldPublisher.sent p →
     ∀ now, (MoldStream.poll_next now (socket c) (stream c)).2 = Some Pending →
     shows loc (taken inputs) m).
Proof.
  intros Hok Hfin Hmtu Hs0 Hst Hses Hfeed p c m Hds. unfold m, c. rewrite <-messages_of_emissions. split.
  - destruct (client_delivery cfg cache io inputs fin rcfg start acts Hok) as (k & Hk & ->);
      [done|done|done|done|done|].
    exists k. split; [done|]. rewrite messages_of_deliveries. by apply shows_prefix.
  - intros -> Hnil Hall now Hp. destruct (stream_delivers rcfg start acts) as [_ Hitems].
    rewrite (Hitems now Hp), Hall. unfold p in *. rewrite app_nil_r in *.
    rewrite (flushed_delivery cfg cache io inputs rcfg) by done.
    rewrite messages_of_deliveries. by apply manager_shows.
Qed.

(** Two orders of a symbol and a trade of another, sent and read in order. *)
Definition book_inputs : list input :=
  [Next (Some (Ok (example_add 1 Side.Buy 100 5000))); Next (Some (Ok (Message.Noii Noii.default)));
   Tick; Next (Some (Ok (example_add 2 Side.Buy 50 5000))); Tick].

Lemma book_publisher_ok : publisher_ok example_pub_config [] book_inputs.
Proof.
  split.
  - split; [done|]. repeat constructor; vm_compute; congruence.
  - done.
  - simpl. lia.
  - constructor.
  - repeat (apply Forall_cons; split); try exact I; try apply Forall_nil;
      vm_compute; repeat (split || constructor); discriminate.
  - vm_compute. discriminate.
Qed.

Lemma books_follow_multicast_witness :
  let p := (MoldPublisher.serve book_inputs (MoldPublisher.new example_pub_config None [])).1 in
  let acts := map (λ d, Arrive (Datagram d 0)) (MoldPublisher.sent p) ++ replicate 8 (Poll 1) in
  let m := (manager_run (messages_of (items (client_run event_config 0 acts))) BookManager.new).1 in
  shows (StockLocate.from_u16 7) (taken book_inputs) m
  ∧ L2Book.side_levels Side.Buy (BookManager.l2_entry (StockLocate.from_u16 7) m) !! Price4.from_u32 5000
    = Some 150.
Proof.
  intros p acts m. split; [|vm_compute; reflexivity].
  refine (proj2 (books_follow_multicast example_pub_config None [] book_inputs [] event_config 0 acts
    (StockLocate.from_u16 7) book_publisher_ok _ _ _ _ _ _ _) _ _ _ 1 _).
  - left. reflexivity.
  - apply Nat.leb_le. reflexivity.
  - reflexivity.
  - reflexivity.
  - left. reflexivity.
  - apply (bool_decide_unpack _). vm_compute. exact I.
  - apply (bool_decide_unpack _). vm_compute. exact I.
  - reflexivity.
  - vm_compute. reflexivity.
  - vm_compute. reflexivity.
  - vm_compute. reflexivity.
Defined.
