(* ===== verification/GapRecovery.v ===== *)
(** Gap recovery ([crates/itch-mold/src/gap_recovery.rs]).

    A recovery task tries the request servers in order, several times each, until
    one has an answer or the budget is spent.  The clock and the network are the
    environment [env]: for the [k]-th attempt of a task, the times at which it
    looks at the clock and what comes of connecting and requesting ([None] when
    the budget of the request runs out first).  The pauses between attempts are
    recorded in order; their only effect is on the clock.

    The client around it is polled with the outcome of polling the task. *)

From S2P Require Import Prelude Primitives Enums Messages Codec CodecMessages MessageCodec.
From S2P Require Import MoldCodec MoldReceiver MoldStore MoldPublisher MoldStream.

Module GapRecoveryConfig.
Record t := mk {
  request_servers : list addr;
  request_timeout : Z;
  gap_timeout : Z;
  backoff_min : Z;
  backoff_max : Z;
  max_retries_per_server : nat }.

(** Durations are in milliseconds. *)
Definition DEFAULT_REQUEST_TIMEOUT : Z := 5000.
Definition DEFAULT_GAP_TIMEOUT : Z := 60000.
Definition DEFAULT_BACKOFF_MIN : Z := 50.
Definition DEFAULT_BACKOFF_MAX : Z := 2000.
Definition DEFAULT_MAX_RETRIES_PER_SERVER : nat := 3.
Definition Default : t :=
  mk [] DEFAULT_REQUEST_TIMEOUT DEFAULT_GAP_TIMEOUT DEFAULT_BACKOFF_MIN DEFAULT_BACKOFF_MAX
    DEFAULT_MAX_RETRIES_PER_SERVER.
Definition new (servers : list addr) : t :=
  mk servers (request_timeout Default) (gap_timeout Default) (backoff_min Default) (backoff_max Default)
    (max_retries_per_server Default).
Definition with_request_timeout (timeout : Z) (c : t) : t :=
  mk (request_servers c) timeout (gap_timeout c) (backoff_min c) (backoff_max c) (max_retries_per_server c).
Definition with_gap_timeout (timeout : Z) (c : t) : t :=
  mk (request_servers c) (request_timeout c) timeout (backoff_min c) (backoff_max c)
    (max_retries_per_server c).
End GapRecoveryConfig.
Import GapRecoveryConfig.

Module RecoveryFrames.
Record t := mk { frames : list CachedFrame.t; eos : bool }.
End RecoveryFrames.

(** What the [k]-th attempt of a task meets. *)
Module Attempt.
Record t := mk {
  checked_at : Z;
  budgeted_at : Z;
  answer : addr → Z → Z → Z → option (result RequestResponse.t MoldError.t) }.
End Attempt.

Definition try_one_server (a : Attempt.t) (server : addr) (from count budget : Z)
    : result RequestResponse.t MoldError.t :=
  match Attempt.answer a server from count budget with
  | Some res => res
  | None => Err (MoldError.RequestTimeout server from)
  end.

(** The match on [resp.status]: the frames to return, or [None] to retry. *)
Definition accept (resp : RequestResponse.t) : option RecoveryFrames.t :=
  let status := RequestResponse.status resp in
  let frames := RequestResponse.frames resp in
  if ((status =? STATUS_OK) || (status =? STATUS_HOLE))
     && negb (match frames with [] => true | _ => false end)
  then Some (RecoveryFrames.mk frames false)
  else if status =? STATUS_END_OF_SESSION then Some (RecoveryFrames.mk frames true)
  else None.

(** A loop of the task returns from it, or goes on with the next attempt's
    number and the last error. *)
Inductive flow :=
| Return (r : result RecoveryFrames.t MoldError.t)
| Continue (k : nat) (last_err : option MoldError.t).

Section recover_gap.
Context (env : nat → Attempt.t) (cfg : GapRecoveryConfig.t) (from count deadline : Z).

(** [for attempt in 0..max_retries_per_server.max(1)], from attempt [k] of the task. *)
Fixpoint attempts_loop (server : addr) (retries k : nat) (backoff : Z)
    (last_err : option MoldError.t) (slept : list Z) : flow * list Z :=
  match retries with
  | O => (Continue k last_err, slept)
  | S retries =>
      let retry err :=
        attempts_loop server retries (S k) (Z.min (backoff * 2) (backoff_max cfg)) (Some err)
          (slept ++ [backoff]) in
      if deadline <=? Attempt.checked_at (env k)
      then (Return (Err (MoldError.RequestTimeout server from)), slept)
      else
        let attempt_budget := Z.max 0 (deadline - Attempt.budgeted_at (env k)) in
        let per_request_budget := Z.min attempt_budget (request_timeout cfg) in
        match try_one_server (env k) server from count per_request_budget with
        | Ok resp =>
            match accept resp with
            | Some rf => (Return (Ok rf), slept)
            | None => retry (MoldError.RequestTimeout server from)
            end
        | Err err => retry err
        end
  end.

Fixpoint servers_loop (servers : list addr) (k : nat) (last_err : option MoldError.t)
    (slept : list Z) : flow * list Z :=
  match servers with
  | [] => (Continue k last_err, slept)
  | server :: servers =>
      match attempts_loop server (Nat.max (max_retries_per_server cfg) 1) k (backoff_min cfg)
              last_err slept with
      | (Return r, slept) => (Return r, slept)
      | (Continue k last_err, slept) => servers_loop servers k last_err slept
      end
  end.
End recover_gap.

(** The result of the task started at [start], and its pauses. *)
Definition recover_gap (env : nat → Attempt.t) (cfg : GapRecoveryConfig.t) (start from to : Z)
    : result RecoveryFrames.t MoldError.t * list Z :=
  match request_servers cfg with
  | [] => (Err (MoldError.RequestTimeout ([0; 0; 0; 0], 0) from), [])
  | server0 :: _ =>
      let count := Z.min (u64_add (to - from) 1) u32_max in
      let deadline := start + gap_timeout cfg in
      match servers_loop env cfg from count deadline (request_servers cfg) 0 None [] with
      | (Return r, slept) => (r, slept)
      | (Continue _ last_err, slept) =>
          (Err (default (MoldError.RequestTimeout server0 from) last_err), slept)
      end
  end.

(** What polling the task's [JoinHandle] gives. *)
Inductive task_poll :=
| Finished (outcome : result RecoveryFrames.t MoldError.t)
| Panicked
| Running.

Module GapRecoveryClient.
Record t := mk {
  stream : MoldStream.t;
  config : GapRecoveryConfig.t;
  active : option (Z * Z) }.

Definition new (stream : MoldStream.t) (config : GapRecoveryConfig.t) : t := mk stream config None.

Definition spawn_recovery (from to : Z) (c : t) : t := mk (stream c) (config c) (Some (from, to)).

(** Step 1: a completed task is drained into the stream, or its error returned. *)
Definition drain_task (now : Z) (task : task_poll) (c : t) : t * option MoldError.t :=
  match active c, task with
  | Some _, Finished (Ok rf) =>
      (mk (MoldStream.ingest_retransmit (RecoveryFrames.frames rf) now (stream c)) (config c) None, None)
  | Some _, Finished (Err err) => (mk (stream c) (config c) None, Some err)
  | Some _, Panicked => (mk (stream c) (config c) None, None)
  | Some _, Running | None, _ => (c, None)
  end.

(** Step 2, after polling the stream: a gap starts a recovery if none is active. *)
Definition on_outcome (out : option poll) (c : t) : t :=
  match out with
  | Some (Ready (Some (Ok (MoldEvent.Gap from to)))) =>
      match request_servers (config c), active c with
      | _ :: _, None => spawn_recovery from to c
      | _, _ => c
      end
  | _ => c
  end.

Definition poll_next (now : Z) (task : task_poll) (socket : list reading) (c : t)
    : t * list reading * option poll :=
  match drain_task now task c with
  | (c, Some err) => (c, socket, Some (Ready (Some (Err err))))
  | (c, None) =>
      let '(s, socket, out) := MoldStream.poll_next now socket (stream c) in
      (on_outcome out (mk s (config c) (active c)), socket, out)
  end.
End GapRecoveryClient.

(** ** The order of the attempts *)

(** The servers in the order in which a task tries them. *)
Definition schedule (cfg : GapRecoveryConfig.t) : list addr :=
  concat (map (replicate (Nat.max (max_retries_per_server cfg) 1)) (request_servers cfg)).

Section search.
Context (env : nat → Attempt.t) (cfg : GapRecoveryConfig.t) (from count deadline : Z).

Definition asked (k : nat) (server : addr) : result RequestResponse.t MoldError.t :=
  try_one_server (env k) server from count
    (Z.min (Z.max 0 (deadline - Attempt.budgeted_at (env k))) (request_timeout cfg)).

(** The task as one search along the schedule, from attempt [k]. *)
Fixpoint search (tries : list addr) (k : nat) (last_err : option MoldError.t) : flow :=
  match tries with
  | [] => Continue k last_err
  | server :: tries =>
      if deadline <=? Attempt.checked_at (env k)
      then Return (Err (MoldError.RequestTimeout server from))
      else
        match asked k server with
        | Ok resp =>
            match accept resp with
            | Some rf => Return (Ok rf)
            | None => search tries (S k) (Some (MoldError.RequestTimeout server from))
            end
        | Err err => search tries (S k) (Some err)
        end
  end.

Lemma search_app tries tries' k last_err :
  search (tries ++ tries') k last_err
  = match search tries k last_err with
    | Return r => Return r
    | Continue k last_err => search tries' k last_err
    end.
Proof.
  revert k last_err. induction tries as [|server tries IH]; intros k last_err; [done|]. simpl.
  destruct (_ <=? _); [done|]. destruct (asked k server) as [resp|]; [|apply IH].
  by destruct (accept resp).
Qed.

Lemma attempts_search server n k backoff last_err slept :
  (attempts_loop env cfg from count deadline server n k backoff last_err slept).1
  = search (replicate n server) k last_err.
Proof.
  revert k backoff last_err slept. induction n as [|n IH]; intros k backoff last_err slept; [done|].
  simpl. destruct (_ <=? _); [done|]. unfold asked.
  destruct (try_one_server _ _ _ _ _) as [resp|]; [|apply IH]. by destruct (accept resp).
Qed.

Lemma servers_search servers k last_err slept :
  (servers_loop env cfg from count deadline servers k last_err slept).1
  = search (concat (map (replicate (Nat.max (max_retries_per_server cfg) 1)) servers)) k last_err.
Proof.
  revert k last_err slept. induction servers as [|server servers IH]; intros k last_err slept; [done|].
  cbn [servers_loop map concat]. rewrite search_app, <-(attempts_search _ _ _ (backoff_min cfg) _ slept).
  destruct (attempts_loop _ _ _ _ _ _ _ _ _ _) as [[r|k' e] slept']; [done|]. apply IH.
Qed.

(** An attempt that is reached in time and accepted ends the search. *)
Lemma search_accept tries k server rf last_err j :
  tries !! k = Some server →
  (∀ i, (i ≤ k)%nat → Attempt.checked_at (env (j + i)) < deadline) →
  (∀ i s, (i < k)%nat → tries !! i = Some s →
     ∀ resp, asked (j + i) s = Ok resp → accept resp = None) →
  (∃ resp, asked (j + k) server = Ok resp ∧ accept resp = Some rf) →
  search tries j last_err = Return (Ok rf).
Proof.
  revert k j last_err. induction tries as [|s tries IH]; intros k j last_err Hk Hin Hrej Hacc; [done|].
  assert (Attempt.checked_at (env j) < deadline) as Hj.
  { specialize (Hin 0%nat ltac:(lia)). by rewrite Nat.add_0_r in Hin. }
  simpl. rewrite (proj2 (Z.leb_gt _ _)) by lia. destruct k as [|k].
  - injection Hk as ->. destruct Hacc as (resp & Ha & Hr). rewrite Nat.add_0_r in Ha.
    by rewrite Ha, Hr.
  - assert (∀ e, search tries (S j) e = Return (Ok rf)) as Hs.
    { intros e. apply (IH k); [done| | |].
      - intros i Hi. specialize (Hin (S i) ltac:(lia)). by rewrite Nat.add_succ_r in Hin.
      - intros i s' Hi Hs'. specialize (Hrej (S i) s' ltac:(lia) Hs').
        by rewrite Nat.add_succ_r in Hrej.
      - destruct Hacc as (resp & Ha & Hr). rewrite Nat.add_succ_r in Ha. eauto. }
    pose proof (Hrej 0%nat s ltac:(lia) eq_refl) as Hr. rewrite Nat.add_0_r in Hr.
    destruct (asked j s) as [resp|]; [|apply Hs]. by rewrite (Hr resp eq_refl).
Qed.
End search.

Lemma recover_gap_search env cfg start from to :
  request_servers cfg ≠ [] →
  (recover_gap env cfg start from to).1
  = match search env cfg from (Z.min (u64_add (to - from) 1) u32_max) (start + gap_timeout cfg)
            (schedule cfg) 0 None with
    | Return r => r
    | Continue _ last_err =>
        Err (default (MoldError.RequestTimeout (default ([], 0) (head (request_servers cfg))) from) last_err)
    end.
Proof.
  intros Hne. unfold recover_gap, schedule. rewrite <-(servers_search _ _ _ _ _ _ _ _ []).
  destruct (request_servers cfg) as [|server servers]; [done|].
  by destruct (servers_loop _ _ _ _ _ _ _ _ _) as [[r|k e] slept].
Qed.

(** ** A recovered gap *)

Import ReceiverState.

Section gap.
Context (body : Z → list Z).
Hypothesis body_len : ∀ s, (length (body s) ≤ MAX_BLOCK_LEN)%nat.

(** A receiver that waits for [next_expected], with its session known. *)
Record waiting (start : Z) (sess : list Z) (st : ReceiverState.t) : Prop := {
  wa_emitted : emitted body start st;
  wa_booted : bootstrapped st = true;
  wa_session : session st = Some sess;
}.

(** A cached frame of the stream. *)
Definition of_stream (f : CachedFrame.t) : Prop :=
  CachedFrame.body f = body (CachedFrame.sequence f)
  ∧ 0 ≤ CachedFrame.sequence f < u64_max ∧ CachedFrame.body f ≠ [].

Lemma flush_loop_advances n start st :
  emitted body start st → next_expected st ≤ next_expected (flush_loop n st).
Proof.
  revert st. induction n as [|n IH]; intros st He; [done|]. simpl.
  destruct (btree_first (pending st)) as [[s d]|] eqn:E; [|done].
  destruct (Z.eqb_spec s (next_expected st)) as [->|]; [|done].
  apply btree_first_Some in E as [E _]. destruct (em_pending _ _ _ He _ _ E) as [-> Hs].
  set (st1 := set_pending (delete (next_expected st) (pending st)) st).
  assert (emitted body start st1) as He1.
  { apply emitted_pending; [done|]. intros s d Hd. apply lookup_delete_Some in Hd as [_ Hd].
    by apply (em_pending _ _ _ He). }
  etrans; [|apply IH, (emitted_deliver _ body_len _ st1 He1); simpl; lia].
  rewrite deliver_body by (done || simpl; lia). simpl. lia.
Qed.

Definition frame_packet (sess : list Z) (f : CachedFrame.t) : MoldPacket.t :=
  MoldPacket.mk (MoldPacketHeader.mk sess (CachedFrame.sequence f) 1)
    [MessageBlock.mk (CachedFrame.body f)].

Lemma ingest_frame_packet sess f st :
  of_stream f → ingest_frame sess f st = ingest (frame_packet sess f) st ∧ carries body (frame_packet sess f).
Proof.
  destruct f as [s d]. intros (Hf & Hq & Hne). simpl in *. split.
  - unfold ingest_frame, MessageBlock.new. simpl. destruct d as [|x d]; [done|].
    rewrite (proj2 (Nat.ltb_ge _ _)) by (rewrite Hf; apply body_len). done.
  - split_and!; simpl; [lia|lia|]. intros [|i] b Hb; [|done]. injection Hb as <-.
    simpl. by rewrite Z.add_0_r.
Qed.

(** A frame at or below the cursor is behind it afterwards. *)
Lemma waiting_ingest_frame start sess f st :
  waiting start sess st → of_stream f → CachedFrame.sequence f ≤ next_expected st →
  waiting start sess (ingest_frame sess f st)
  ∧ CachedFrame.sequence f < next_expected (ingest_frame sess f st)
  ∧ next_expected st ≤ next_expected (ingest_frame sess f st).
Proof.
  intros [He Hb Hs] Hf Hle. destruct (ingest_frame_packet sess f st Hf) as [-> Hc].
  assert (ingest (frame_packet sess f) st = ingest_session (frame_packet sess f) st) as ->.
  { unfold ingest. rewrite Hs. by rewrite decide_False by (intros Hn; by apply Hn). }
  destruct Hf as (Hd & Hq & Hne). split.
  { pose proof (frame_ingest_session (frame_packet sess f) st) as Hfr.
    unfold boot in Hfr. rewrite Hb in Hfr. injection Hfr as Hb' _ _ _ Hs'.
    split; [by apply emitted_ingest_session|congruence|congruence]. }
  unfold ingest_session. rewrite Hb. simpl. rewrite u64_add_small by lia.
  change (Z.of_nat 1) with 1. destruct (Z.leb_spec (CachedFrame.sequence f + 1) (next_expected st)); [lia|].
  assert (CachedFrame.sequence f = next_expected st) as E by lia.
  rewrite (proj2 (Z.ltb_ge _ _)) by lia. simpl.
  rewrite (u64_add_small _ 0), (proj2 (Z.ltb_ge _ _)) by lia. rewrite Z.add_0_r, Hd, E.
  assert (next_expected st + 1 ≤ next_expected (flush_pending
    (deliver (next_expected st) (body (next_expected st)) st))); [|lia].
  etrans; [|eapply flush_loop_advances, emitted_deliver; [done|done|lia]].
  rewrite deliver_body by (done || lia). simpl. lia.
Qed.

(** Consecutive frames from the cursor on push it past the last. *)
Lemma waiting_retransmit start sess from frames st :
  waiting start sess st → Forall of_stream frames → from ≤ next_expected st →
  (∀ i f, frames !! i = Some f → CachedFrame.sequence f = from + Z.of_nat i) →
  let st' := ingest_retransmit frames st in
  waiting start sess st' ∧ from + Z.of_nat (length frames) ≤ next_expected st'.
Proof.
  intros Hw Hf Hn Hq st'. assert (st' = foldl (λ st f, ingest_frame sess f st) st frames) as ->.
  { unfold st', ingest_retransmit. by rewrite (wa_session _ _ _ Hw). }
  revert from st Hw Hn Hq. induction Hf as [|f frames Hf Hfs IH]; intros from st Hw Hn Hq.
  { simpl. split; [done|lia]. }
  pose proof (Hq 0%nat f eq_refl) as Hq0.
  destruct (waiting_ingest_frame start sess f st Hw Hf) as (Hw' & H1 & H2); [lia|].
  cbn [foldl length]. destruct (IH (from + 1) _ Hw') as (Hw2 & H3); [lia| |split; [done|lia]].
  intros i g Hg. rewrite (Hq (S i) g Hg). lia.
Qed.
End gap.

(** A server that answers from a cache, over a connection that works. *)
Definition served_by (cache : RingBufferSeqStore.t) (from count : Z)
    : option (result RequestResponse.t MoldError.t) :=
  Some (let? bytes := serve_request (request_frame from count) cache in
        let? (resp, _) := request_response from bytes in Ok resp).

(** The cache has the whole gap. *)
Record covers (body : Z → list Z) (cache : RingBufferSeqStore.t) (from to : Z) : Prop := {
  cv_ok : cache_ok cache;
  cv_stream : Forall (of_stream body) (RingBufferSeqStore.inner cache);
  cv_range : 0 ≤ from ≤ to ∧ to < u64_max ∧ to - from < MAX_RESPONSE_FRAMES;
  cv_all s : from ≤ s ≤ to →
    ∃ f, f ∈ RingBufferSeqStore.inner cache ∧ CachedFrame.sequence f = s;
}.

(** The server's answer to a request for the gap. *)
Lemma covers_answer body cache from to :
  covers body cache from to →
  ∃ frames, served_by cache from (to - from + 1) = Some (Ok (RequestResponse.mk STATUS_OK frames))
    ∧ Z.of_nat (length frames) = to - from + 1 ∧ Forall (of_stream body) frames
    ∧ ∀ i f, frames !! i = Some f → CachedFrame.sequence f = from + Z.of_nat i.
Proof.
  intros [Hok Hst Hr Hall]. set (count := to - from + 1).
  assert (is_u64 from ∧ is_u32 count ∧ 0 ≤ count) as (Hu & Hc & Hc0).
  { unfold count, is_u64, is_u32, in_width, MAX_RESPONSE_FRAMES, u64_max in *. lia. }
  set (frames := RingBufferSeqStore.lookup from count cache).
  assert (Z.of_nat (length frames) = count) as Hlen.
  { pose proof (length_lookup from count cache Hok Hc0) as Hle. fold frames in Hle.
    unfold MAX_RESPONSE_FRAMES in *.
    destruct (Z.lt_total (Z.of_nat (length frames)) count) as [Hlt|[|]]; [|done|lia]. exfalso.
    destruct (Hall (from + Z.of_nat (length frames)) ltac:(lia)) as (f & Hf & Hfs).
    assert (frames !! length frames = Some f) as Hx; [|apply lookup_lt_Some in Hx; lia].
    apply lookup_spec; [done|]. split_and!; [unfold MAX_RESPONSE_FRAMES; lia| |done|done].
    intros j Hj. apply Hall. lia. }
  exists frames. destruct (retransmission_served from count cache Hok Hu Hc) as (bytes & Hb & Hresp).
  fold frames in Hresp. unfold served_by. rewrite Hb, <-(app_nil_r bytes), Hresp.
  unfold RingBufferSeqStore.status_for. rewrite Hlen, Z.min_l, Z.eqb_refl
    by (unfold MAX_RESPONSE_FRAMES in *; lia). split_and!; [done|done| |].
  - apply Forall_lookup. intros i f Hi. apply lookup_spec in Hi as (_ & _ & Hf & _); [|done].
    rewrite Forall_forall in Hst. by apply Hst.
  - intros i f Hi. by apply lookup_spec in Hi as (_ & _ & _ & Hs).
Qed.

(** ** The client in order *)

(** A datagram that is no packet is not reported as a bad message. *)
Lemma decode_no_emission bytes err : MoldPacket.decode bytes = Err err → is_emission (Err err) = false.
Proof.
  assert (∀ n cursor e, MoldPacket.decode_blocks n cursor = Err e → is_emission (Err e) = false) as H.
  { induction n as [|n IH]; intros cursor e; [done|]. cbn [MoldPacket.decode_blocks]. cbv zeta.
    destruct (_ <? _)%nat; [by intros [= <-]|]. destruct (_ =? _)%nat; [by intros [= <-]|].
    do 2 (destruct (_ <? _)%nat; [by intros [= <-]|]).
    destruct (MoldPacket.decode_blocks n _) as [[bs rest]|e'] eqn:E; [done|].
    intros [= <-]. by eapply IH. }
  unfold MoldPacket.decode, MoldPacketHeader.from_bytes.
  destruct (_ <? _)%nat; [by intros [= <-]|]. case_match; [by case_match; intros [= <-]|].
  destruct (MoldPacket.decode_blocks _ _) as [[bs rest]|e] eqn:E; [by case_match; intros [= <-]|].
  intros [= <-]. by eapply H.
Qed.

Lemma session_ingest pkt st e : session st = Some e → session (ingest pkt st) = Some e.
Proof.
  intros He. unfold ingest. rewrite He. case_decide; [done|].
  pose proof (frame_ingest_session pkt st) as Hf. unfold frame in Hf. injection Hf as _ _ _ _ Hs.
  rewrite Hs. unfold boot. by repeat case_match.
Qed.

Section client.
Context (body : Z → list Z).
(** The session that the client is configured for, if it is. *)
Context (known : option (list Z)).
Hypothesis body_len : ∀ s, (length (body s) ≤ MAX_BLOCK_LEN)%nat.

Definition foreign (pkt : MoldPacket.t) : Prop :=
  ∃ e, known = Some e ∧ e ≠ MoldPacketHeader.session (MoldPacket.header pkt).

(** A reading from the publisher's stream, a packet of another session than the
    configured one, or a datagram that is no packet. *)
Definition reading_ok (r : reading) : Prop :=
  match r with
  | Datagram bytes _ =>
      ∀ pkt, MoldPacket.decode (take RECV_BUFFER_LEN bytes) = Ok pkt → foreign pkt ∨ carries body pkt
  | RecvError _ => True
  end.

(** The receiver is on the stream, and stays in the configured session. *)
Definition on_stream (start0 : Z) (st : ReceiverState.t) : Prop :=
  running body start0 st ∧ ∀ e, known = Some e → session st = Some e.

Lemma on_stream_ingest start0 pkt st :
  foreign pkt ∨ carries body pkt → on_stream start0 st → on_stream start0 (ingest pkt st).
Proof.
  intros Hp [Hr Hs]. split; [|intros e He; by apply session_ingest, Hs].
  destruct Hp as [(e & He & Hne)|Hc]; [|by apply running_ingest].
  unfold ingest. rewrite (Hs _ He), decide_True by done. by apply running_push.
Qed.

(** The outcome of a recovery: frames of the stream, or an error that is not
    about a message. *)
Definition task_ok (task : task_poll) : Prop :=
  match task with
  | Finished (Ok rf) => Forall (of_stream body) (RecoveryFrames.frames rf)
  | Finished (Err err) => is_emission (Err err) = false
  | Panicked | Running => True
  end.

Lemma running_receive_all start0 rs st :
  Forall reading_ok rs → on_stream start0 st → on_stream start0 (receive_all (datagrams rs) st).
Proof.
  intros Hr. revert st. induction Hr as [|[bytes at_|kind] rs Hr Hrs IH]; intros st Hst;
    [done| |by apply IH].
  cbn. apply IH. unfold receive. destruct (MoldPacket.decode _) as [pkt|err] eqn:E.
  - apply on_stream_ingest; [by apply Hr|done].
  - split; [|apply Hst]. apply running_push; [by apply decode_no_emission in E|apply Hst].
Qed.

Lemma running_retransmit start0 frames st :
  Forall (of_stream body) frames → on_stream start0 st →
  on_stream start0 (ingest_retransmit frames st).
Proof.
  unfold ingest_retransmit. generalize (default (replicate 10 space) (session st)). intros sess Hf.
  revert st. induction Hf as [|f frames Hf Hfs IH]; intros st Hst; [done|]. cbn [foldl]. apply IH.
  destruct (ingest_frame_packet body body_len sess f st Hf) as [-> Hc]. apply on_stream_ingest; [by right|done].
Qed.

(** A run of the client: arrivals at the socket and polls, each with what the
    task is at. *)
Inductive gap_action := Arrives (r : reading) | Polls (now : Z) (task : task_poll).

Record gap_client := mk_gap_client {
  client : GapRecoveryClient.t;
  gap_socket : list reading;
  gap_items : list event }.

Definition gap_step (c : gap_client) (a : gap_action) : gap_client :=
  match a with
  | Arrives r => mk_gap_client (client c) (gap_socket c ++ [r]) (gap_items c)
  | Polls now task =>
      let '(cl, rs, out) := GapRecoveryClient.poll_next now task (gap_socket c) (client c) in
      mk_gap_client cl rs (gap_items c ++ yielded out)
  end.

Definition action_ok (a : gap_action) : Prop :=
  match a with Arrives r => reading_ok r | Polls _ task => task_ok task end.

(** The state machine behind the client, with what the client already took. *)
Record tracks (start0 : Z) (c : gap_client) (log : list event) : Prop := {
  tr_running : on_stream start0
    (after log (MoldStream.state (GapRecoveryClient.stream (client c))));
  tr_log : filter is_emission log = filter is_emission (gap_items c);
  tr_socket : Forall reading_ok (gap_socket c);
}.

Lemma tracks_poll start0 now socket s log :
  on_stream start0 (after log (MoldStream.state s)) → Forall reading_ok socket →
  let '(s', socket', out) := MoldStream.poll_next now socket s in
  Forall reading_ok socket' ∧ ∃ log', filter is_emission log' = filter is_emission (yielded out)
    ∧ on_stream start0 (after (log ++ log') (MoldStream.state s')).
Proof.
  intros Hr Hs. destruct (MoldStream.poll_next now socket s) as [[s' socket'] out] eqn:E.
  destruct (poll_next_polled _ _ _ _ _ _ E) as (rs & log' & [H1 H2 H3 _]). subst socket.
  apply Forall_app in Hs as [Hrs Hs']. split; [done|]. exists log'. split; [done|].
  rewrite <-after_app, <-H2, <-after_receive_all. by apply running_receive_all.
Qed.

Lemma after_retransmit log frames st :
  ingest_retransmit frames (after log st) = after log (ingest_retransmit frames st).
Proof.
  unfold ingest_retransmit. change (session (after log st)) with (session st).
  generalize (default (replicate 10 space) (session st)). intros sess. revert st.
  induction frames as [|f frames IH]; intros st; [done|]. cbn [foldl]. rewrite <-IH. f_equal.
  unfold ingest_frame. destruct (MessageBlock.new _); [|apply after_push].
  destruct (MoldPacket.new_data _ _ _); [apply after_ingest|apply after_push].
Qed.

Lemma stream_on_outcome out c :
  GapRecoveryClient.stream (GapRecoveryClient.on_outcome out c) = GapRecoveryClient.stream c.
Proof.
  destruct out as [[[[[]|]|]|]|]; try done. simpl. by destruct (request_servers _), (GapRecoveryClient.active c).
Qed.

Lemma tracks_step start0 c a log :
  action_ok a → tracks start0 c log → ∃ log', tracks start0 (gap_step c a) log'.
Proof.
  intros Ha [Hr Hl Hs]. destruct a as [r|now task]; simpl in *.
  { exists log. split; try done. simpl. apply Forall_app. split; [done|]. by constructor. }
  unfold GapRecoveryClient.poll_next.
  destruct (GapRecoveryClient.drain_task now task (client c)) as [c1 oerr] eqn:Ed.
  assert (on_stream start0 (after log (MoldStream.state (GapRecoveryClient.stream c1)))
    ∧ ∀ err, oerr = Some err → is_emission (Err err) = false) as [Hr1 He].
  { unfold GapRecoveryClient.drain_task in Ed.
    destruct (GapRecoveryClient.active (client c)), task as [[rf|err]| |];
      injection Ed as <- <-; split; try done; try by intros ? [= <-].
    simpl. rewrite <-after_retransmit. by apply running_retransmit. }
  destruct oerr as [err|].
  { exists log. split; simpl; try done. by rewrite filter_app, no_emission, app_nil_r by auto. }
  pose proof (tracks_poll start0 now (gap_socket c) (GapRecoveryClient.stream c1) log Hr1 Hs) as Hp.
  destruct (MoldStream.poll_next now (gap_socket c) _) as [[s' socket'] out].
  destruct Hp as (Hs' & log' & Hl' & Hr'). exists (log ++ log').
  assert (filter is_emission (log ++ log') = filter is_emission (gap_items c ++ yielded out)) as Hf
    by (by rewrite !filter_app, Hl, Hl').
  split; [|done|done]. simpl. by rewrite stream_on_outcome.
Qed.
End client.

Definition gap_run (rcfg : MoldConfig.t) (gcfg : GapRecoveryConfig.t) (start : Z)
    (acts : list gap_action) : gap_client :=
  foldl gap_step
    (mk_gap_client (GapRecoveryClient.new (MoldStream.from_socket rcfg start) gcfg) [] []) acts.

Lemma gap_run_tracks body rcfg gcfg start acts :
  (∀ s, (length (body s) ≤ MAX_BLOCK_LEN)%nat) → is_u64 (MoldConfig.start_sequence rcfg) →
  Forall (action_ok body (MoldConfig.session rcfg)) acts →
  ∃ log, tracks body (MoldConfig.session rcfg) (MoldConfig.start_sequence rcfg) (gap_run rcfg gcfg start acts) log.
Proof.
  intros Hlen Hs. unfold gap_run. induction acts as [|a acts IH] using rev_ind; intros Ha.
  { exists []. split; [|done|constructor]. split; [|done]. simpl. apply running_new. unfold u64_max. destruct Hs. lia. }
  apply Forall_app in Ha as [Ha Ha']. inversion Ha'; subst. destruct (IH Ha) as [log Ht].
  rewrite foldl_app. by eapply tracks_step.
Qed.

Lemma prefix_map_seqZ {A} (f : Z → A) start n l :
  l `prefix_of` map f (seqZ start n) → l = map f (seqZ start (Z.of_nat (length l))).
Proof.
  intros Hl. apply list_eq. intros i. rewrite list_lookup_fmap.
  destruct (l !! i) as [x|] eqn:E.
  - pose proof (lookup_lt_Some _ _ _ E) as Hi. pose proof (prefix_lookup_Some _ _ _ _ E Hl) as Hx.
    rewrite list_lookup_fmap in Hx. apply fmap_Some in Hx as (j & Hj & ->).
    apply lookup_seqZ in Hj as [-> _]. by rewrite lookup_seqZ_lt by lia.
  - apply lookup_ge_None in E. by rewrite lookup_seqZ_ge by lia.
Qed.

(** ** Properties *)

(** C11: a recoverable gap is recovered. If one of the attempts of a recovery is
    made in time and reaches a server whose cache has the whole gap, of at most
    65,536 frames, while the attempts before it failed or found nothing, then the
    task returns frames that, fed to the receiver waiting at the gap, move its
    cursor past the gap; and the receiver has emitted the stream in order, without
    a hole. *)
Theorem gap_recovered body cfg env cache start from to k server first sess st :
  (∀ s, (length (body s) ≤ MAX_BLOCK_LEN)%nat) → covers body cache from to →
  schedule cfg !! k = Some server →
  (∀ j, (j ≤ k)%nat → Attempt.checked_at (env j) < start + gap_timeout cfg) →
  (∀ j s count budget resp, (j < k)%nat → schedule cfg !! j = Some s →
     Attempt.answer (env j) s from count budget = Some (Ok resp) → accept resp = None) →
  (∀ count budget, Attempt.answer (env k) server from count budget = served_by cache from count) →
  waiting body first sess st → next_expected st = from →
  ∃ frames, (recover_gap env cfg start from to).1 = Ok (RecoveryFrames.mk frames false)
    ∧ let st' := ingest_retransmit frames st in
      to < next_expected st'
      ∧ emissions st' = map (emission body) (seqZ first (next_expected st' - first)).
Proof.
  intros Hlen Hcv Hk Htime Hrej Hans Hw Hn.
  destruct (covers_answer body cache from to Hcv) as (frames & Hserved & Hl & Hf & Hq).
  pose proof (cv_range _ _ _ _ Hcv) as Hr. unfold MAX_RESPONSE_FRAMES in Hr. exists frames.
  assert (Z.min (u64_add (to - from) 1) u32_max = to - from + 1) as Hcount.
  { rewrite u64_add_small by lia. unfold u32_max. lia. }
  split.
  - rewrite recover_gap_search, Hcount.
    2:{ intros E. unfold schedule in Hk. by rewrite E in Hk. }
    erewrite search_accept; [done|exact Hk|exact Htime|..].
    + intros i s Hi Hs resp. unfold asked, try_one_server. simpl.
      destruct (Attempt.answer _ _ _ _ _) as [r|] eqn:E; [|done]. intros ->. by eapply Hrej.
    + eexists. unfold asked, try_one_server. simpl. rewrite Hans, Hserved. split; [done|].
      destruct frames; [simpl in Hl; lia|done].
  - destruct (waiting_retransmit body Hlen first sess from frames st Hw Hf) as [Hw' Hle]; [lia|done|].
    cbv zeta. split; [lia|]. apply Hw'.
Qed.

Definition gap_cache : RingBufferSeqStore.t :=
  push_all (map (λ s, CachedFrame.mk s (event_body s)) [1; 2; 3; 4]) (RingBufferSeqStore.with_capacity 8).
Definition gap_config : GapRecoveryConfig.t :=
  GapRecoveryConfig.mk [([127; 0; 0; 1], 1); ([127; 0; 0; 1], 2)] 5000 60000 50 2000 1.
(** The first server does not answer, the second has the frames. *)
Definition gap_env (k : nat) : Attempt.t :=
  Attempt.mk (Z.of_nat k * 5000) (Z.of_nat k * 5000)
    (λ server from count _, if server.2 =? 2 then served_by gap_cache from count else None).
Definition gap_state : ReceiverState.t :=
  ingest (event_packet 4 1) (ReceiverState.new event_config).

Lemma gap_cache_covers : covers event_body gap_cache 1 3.
Proof.
  split.
  - split; [repeat constructor|].
    repeat constructor; simpl; try (unfold u64_max; lia); apply Nat.leb_le; reflexivity.
  - repeat (apply Forall_cons; split); [..|by apply Forall_nil]; split_and!; vm_compute; congruence.
  - unfold u64_max, MAX_RESPONSE_FRAMES. lia.
  - intros s Hs. exists (CachedFrame.mk s (event_body s)). split; [|done].
    assert (s = 1 ∨ s = 2 ∨ s = 3) as [->|[->| ->]] by lia;
      [eapply (list_elem_of_lookup_2 _ 0%nat)|eapply (list_elem_of_lookup_2 _ 1%nat)
      |eapply (list_elem_of_lookup_2 _ 2%nat)]; vm_compute; reflexivity.
Qed.

Lemma gap_state_waiting : waiting event_body 1 (replicate 10 space) gap_state.
Proof.
  assert (running event_body 1 gap_state) as [_ _ Hb].
  { apply running_ingest; [exact event_body_len| |].
    - apply event_packet_carries; unfold u64_max; lia.
    - apply (running_new event_body event_config). unfold u64_max. simpl. lia. }
  split; [|done|done]. destruct (Hb eq_refl) as (s & Hs & He). by rewrite Hs in He by lia.
Qed.

Lemma gap_recovered_witness :
  ∃ frames, (recover_gap gap_env gap_config 0 1 3).1 = Ok (RecoveryFrames.mk frames false)
    ∧ let st' := ingest_retransmit frames gap_state in
      3 < next_expected st'
      ∧ emissions st' = map (emission event_body) (seqZ 1 (next_expected st' - 1)).
Proof.
  apply (gap_recovered event_body gap_config gap_env gap_cache 0 1 3 1 ([127; 0; 0; 1], 2) 1
           (replicate 10 space) gap_state).
  - exact event_body_len.
  - exact gap_cache_covers.
  - reflexivity.
  - simpl. lia.
  - intros [|j] s count budget resp Hj; [|lia]. intros [= <-]. discriminate.
  - reflexivity.
  - exact gap_state_waiting.
  - reflexivity.
Defined.

(** C12: recovery keeps the order. Suppose that every datagram that arrives is a
    packet of the publisher's stream, a packet of a session other than the one
    that the client is configured for (if it is), or no packet at all, and that
    every frame which a recovery task brings is a frame of the stream, in any
    order and number, or the task fails or panics. Then, whenever the client
    polls, the messages that it is given are consecutive messages of the stream
    from where it started, in order and each once. *)
Theorem recovery_in_order body rcfg gcfg start acts :
  (∀ s, (length (body s) ≤ MAX_BLOCK_LEN)%nat) → is_u64 (MoldConfig.start_sequence rcfg) →
  Forall (action_ok body (MoldConfig.session rcfg)) acts →
  ∃ first n, (MoldConfig.start_sequence rcfg ≠ 0 → first = MoldConfig.start_sequence rcfg)
    ∧ filter is_emission (gap_items (gap_run rcfg gcfg start acts))
      = map (emission body) (seqZ first n).
Proof.
  intros Hlen Hs Ha. destruct (gap_run_tracks body rcfg gcfg start acts Hlen Hs Ha) as [log [[Hr _] Hl _]].
  set (c := gap_run rcfg gcfg start acts) in *.
  assert (∃ first, (MoldConfig.start_sequence rcfg ≠ 0 → first = MoldConfig.start_sequence rcfg)
    ∧ emitted body first (after log (MoldStream.state (GapRecoveryClient.stream (client c)))))
    as (first & Hfirst & He).
  { destruct Hr as [_ Hfr Hbo]. destruct (bootstrapped _); [by apply Hbo|].
    destruct (Hfr eq_refl) as (_ & He & _). by eexists. }
  exists first, (Z.of_nat (length (filter is_emission (gap_items c)))). split; [done|].
  eapply prefix_map_seqZ. rewrite <-(em_out _ _ _ He), emissions_after, Hl. by eexists.
Qed.

(** Messages 4 and 1 arrive, and a packet of another session with another message
    1; a recovery is started and brings 1, 2 and 3. *)
Definition foreign_packet : MoldPacket.t :=
  MoldPacket.mk (MoldPacketHeader.mk (replicate 10 65) 1 1) [MessageBlock.mk (event_body 77)].
Definition session_config : MoldConfig.t := MoldConfig.with_session (replicate 10 space) event_config.
Definition gap_acts : list gap_action :=
  [Arrives (Datagram (packet_wire (event_packet 4 1)) 1); Polls 1 Running;
   Arrives (Datagram (packet_wire foreign_packet) 1);
   Arrives (Datagram [0; 1; 2] 2); Arrives (Datagram (packet_wire (event_packet 1 1)) 2);
   Polls 3 (Finished (Ok (RecoveryFrames.mk
     (map (λ s, CachedFrame.mk s (event_body s)) [1; 2; 3]) false)));
   Polls 4 Running; Polls 5 Running; Polls 6 Running].

Lemma gap_acts_ok : Forall (action_ok event_body (MoldConfig.session session_config)) gap_acts.
Proof.
  assert (∀ s at_, 0 ≤ s < u64_max →
    MoldPacket.decode (take RECV_BUFFER_LEN (packet_wire (event_packet s 1))) = Ok (event_packet s 1) →
    reading_ok event_body (MoldConfig.session session_config) (Datagram (packet_wire (event_packet s 1)) at_)) as H.
  { intros s at_ Hs Hd pkt Hp. rewrite Hd in Hp. injection Hp as <-. right.
    apply event_packet_carries; simpl; lia. }
  unfold gap_acts. repeat first [apply Forall_cons; split | apply Forall_nil_2]; try exact I.
  - apply H; [unfold u64_max; lia|vm_compute; reflexivity].
  - intros pkt Hp. left. exists (replicate 10 space). split; [reflexivity|].
    vm_compute in Hp. injection Hp as <-. discriminate.
  - intros pkt Hp. vm_compute in Hp. discriminate.
  - apply H; [unfold u64_max; lia|vm_compute; reflexivity].
  - split_and!; vm_compute; congruence.
  - split_and!; vm_compute; congruence.
  - split_and!; vm_compute; congruence.
Qed.

Lemma recovery_in_order_witness :
  ∃ first n, (1 ≠ 0 → first = 1)
    ∧ filter is_emission (gap_items (gap_run session_config gap_config 0 gap_acts))
      = map (emission event_body) (seqZ first n).
Proof.
  apply (recovery_in_order event_body session_config gap_config 0 gap_acts).
  - exact event_body_len.
  - split; vm_compute; congruence.
  - exact gap_acts_ok.
Defined.
