(* ===== verification/Framing.v ===== *)
(** What a length-prefixed stream codec promises.

    [ItchCodec] ([crates/itch-tcp/src/lib.rs]) and [SoupCodec]
    ([crates/itch-soup/src/lib.rs]) are [tokio_util] decoders: a call sees the
    bytes that have arrived so far, takes off at most one frame, and answers
    with an item, an error, or [Ok None] for "more bytes needed".  The state is
    the codec's one field, the number of bytes of a rejected frame still to be
    discarded, with the read buffer.

    The class [Framing] is the contract: one result per frame, whatever the
    frame holds, independently of where the network cut the stream.  The
    reader loop [read_chunks] calls the decoder as its caller must, after every
    arrival until it asks for more bytes.  The theorems about the loop are
    proved once, against the contract; [prefixed] is the shape that both
    decoders have, and [prefixed_framing] proves the contract for it. *)

From S2P Require Import Prelude.

(** The codec's counter and the buffer [src: &mut BytesMut]. *)
Module Reader.
Record t := mk { pending_skip : nat; src : list Z }.
Definition new : t := mk 0 [].
#[global] Instance t_eq_dec : EqDecision t. Proof. solve_decision. Defined.
(** More bytes arrive. *)
Definition extend (bs : list Z) (r : t) : t := mk (pending_skip r) (src r ++ bs).
End Reader.

Abbreviation decoder I E := (Reader.t → Reader.t * result (option I) E).

(** The bytes of a rejected frame that have arrived are discarded. *)
Definition drop_pending (r : Reader.t) : Reader.t :=
  let n := Nat.min (Reader.pending_skip r) (length (Reader.src r)) in
  Reader.mk (Reader.pending_skip r - n) (drop n (Reader.src r)).

(** A frame on the wire. *)
Definition frame_wire (f : list Z) : list Z := to_be_bytes 2 (Z.of_nat (length f)) ++ f.
Definition frames_wire (fs : list (list Z)) : list Z := concat (map frame_wire fs).
Definition frame_ok (f : list Z) : Prop := Z.of_nat (length f) < 2 ^ 16.

Definition lift_some {I E} (r : result I E) : result (option I) E :=
  match r with Ok i => Ok (Some i) | Err e => Err e end.

Class Framing {I E : Type} (decode : decoder I E) (frame_result : list Z → result I E) := {
  framing_new : decode Reader.new = (Reader.new, Ok None);
  framing_drop r : decode (drop_pending r) = decode r;
  framing_more r r' : decode r = (r', Ok None) → r' = drop_pending r;
  framing_item r r' x bs : decode r = (r', x) → x ≠ Ok None →
    ∃ r'', decode (Reader.extend bs r) = (r'', x)
      ∧ drop_pending r'' = drop_pending (Reader.extend bs r');
  framing_consumes r r' x : decode r = (r', x) → x ≠ Ok None →
    (length (Reader.src r') < length (Reader.src r))%nat;
  framing_frame f rest : frame_ok f →
    decode (Reader.mk 0 (frame_wire f ++ rest)) = (Reader.mk 0 rest, lift_some (frame_result f));
}.

(** ** The reader loop *)

Section loop.
Context {I E : Type} (decode : decoder I E).

(** Calls [decode] until it needs more bytes. *)
Fixpoint drain (fuel : nat) (r : Reader.t) : Reader.t * list (result I E) :=
  match fuel with
  | O => (r, [])
  | S fuel =>
      match decode r with
      | (r, Ok None) => (r, [])
      | (r, Ok (Some i)) => let '(r, xs) := drain fuel r in (r, Ok i :: xs)
      | (r, Err e) => let '(r, xs) := drain fuel r in (r, Err e :: xs)
      end
  end.
(** Every item or error takes a byte off the buffer. *)
Definition drain_all (r : Reader.t) : Reader.t * list (result I E) :=
  drain (S (length (Reader.src r))) r.

Fixpoint read_chunks (chunks : list (list Z)) (r : Reader.t) : Reader.t * list (result I E) :=
  match chunks with
  | [] => (r, [])
  | c :: chunks =>
      let '(r, xs) := drain_all (Reader.extend c r) in
      let '(r, ys) := read_chunks chunks r in
      (r, xs ++ ys)
  end.

Context {frame_result} `{!Framing decode frame_result}.

Lemma drain_step r r' x n :
  decode r = (r', lift_some x) →
  drain (S n) r = ((drain n r').1, x :: (drain n r').2).
Proof. intros Hd. simpl. rewrite Hd. destruct x; simpl; by destruct (drain n r'). Qed.

Lemma lift_some_inv (x : result (option I) E) : x ≠ Ok None → ∃ y, x = lift_some y.
Proof. destruct x as [[i|]|e]; [by exists (Ok i)|done|by exists (Err e)]. Qed.

Lemma decode_case r :
  decode r = (drop_pending r, Ok None)
  ∨ ∃ r' y, decode r = (r', lift_some y) ∧ lift_some y ≠ Ok None
      ∧ (length (Reader.src r') < length (Reader.src r))%nat.
Proof.
  destruct (decode r) as [r' x] eqn:Hd. assert (x = Ok None ∨ x ≠ Ok None) as [->|Hx].
  { destruct x as [[i|]|e]; [by right|by left|by right]. }
  - left. by rewrite (framing_more _ _ Hd).
  - right. destruct (lift_some_inv x Hx) as [y ->]. exists r', y.
    split_and!; [done|done|]. by eapply framing_consumes.
Qed.

(** More fuel than bytes changes nothing. *)
Lemma drain_fuel n r : (length (Reader.src r) < n)%nat → drain n r = drain_all r.
Proof.
  unfold drain_all. remember (length (Reader.src r)) as k eqn:Hk.
  revert n r Hk. induction k as [k IH] using lt_wf_ind. intros n r -> Hn.
  destruct n as [|n]; [lia|]. destruct (decode_case r) as [Hd|(r' & y & Hd & _ & Hl)].
  { simpl. by rewrite Hd. }
  rewrite !(drain_step r r' y) by done.
  rewrite (IH _ Hl n r' eq_refl) by lia. rewrite (IH _ Hl (length (Reader.src r)) r' eq_refl) by lia.
  done.
Qed.

(** The loop ends where the decoder asks for more bytes. *)
Lemma drain_all_more r : decode r = (drop_pending r, Ok None) → drain_all r = (drop_pending r, []).
Proof. intros Hd. unfold drain_all. simpl. by rewrite Hd. Qed.

Lemma drain_all_item r r' y :
  decode r = (r', lift_some y) →
  drain_all r = ((drain_all r').1, y :: (drain_all r').2).
Proof.
  intros Hd. unfold drain_all at 1. rewrite (drain_step r r' y) by done.
  assert (lift_some y ≠ Ok None) as Hy by (by destruct y).
  pose proof (framing_consumes _ _ _ Hd Hy). by rewrite !drain_fuel by lia.
Qed.

(** Two readers that differ only in bytes to be discarded behave alike. *)
Lemma drain_all_pending r1 r2 : drop_pending r1 = drop_pending r2 → drain_all r1 = drain_all r2.
Proof.
  intros Hr. assert (decode r1 = decode r2) as Hd.
  { by rewrite <-(framing_drop r1), Hr, framing_drop. }
  destruct (decode_case r1) as [H1|(r' & y & H1 & Hn & _)].
  - rewrite (drain_all_more r1 H1). rewrite H1, Hr in Hd. by rewrite (drain_all_more r2), Hr.
  - rewrite (drain_all_item r1 _ _ H1). rewrite H1 in Hd. by rewrite (drain_all_item r2 r' y).
Qed.
End loop.

Lemma drop_pending_extend r bs :
  drop_pending (Reader.extend bs (drop_pending r)) = drop_pending (Reader.extend bs r).
Proof.
  destruct r as [k b]. unfold drop_pending, Reader.extend. simpl.
  rewrite !length_app, length_drop.
  destruct (Nat.le_gt_cases k (length b)).
  - rewrite !Nat.min_l by lia. replace (k - k)%nat with 0%nat by lia. simpl.
    by rewrite drop_0, drop_app_le by lia.
  - rewrite (Nat.min_r k (length b)) by lia. rewrite drop_all, (drop_app_ge b) by lia.
    f_equal; [lia|]. simpl. f_equal. lia.
Qed.

Section chunks.
Context {I E : Type} {decode : decoder I E} {frame_result} `{!Framing decode frame_result}.

(** Cutting the stream in two changes nothing. *)
Lemma drain_all_extend bs r :
  drain_all decode (Reader.extend bs r)
  = let '(r1, xs) := drain_all decode r in
    let '(r2, ys) := drain_all decode (Reader.extend bs r1) in (r2, xs ++ ys).
Proof.
  remember (length (Reader.src r)) as k eqn:Hk. revert r Hk.
  induction k as [k IH] using lt_wf_ind. intros r ->.
  destruct (decode_case decode r) as [Hd|(r' & y & Hd & Hy & Hl)].
  - rewrite (drain_all_more decode r Hd).
    rewrite (drain_all_pending decode (Reader.extend bs (drop_pending r)) (Reader.extend bs r))
      by apply drop_pending_extend.
    by destruct (drain_all decode (Reader.extend bs r)).
  - destruct (framing_item _ _ _ bs Hd Hy) as (r'' & Hd' & Hp).
    rewrite (drain_all_item decode _ _ _ Hd), (drain_all_item decode _ _ _ Hd').
    rewrite (drain_all_pending decode _ _ Hp), (IH _ Hl r' eq_refl).
    destruct (drain_all decode r') as [r1 xs]. simpl.
    by destruct (drain_all decode (Reader.extend bs r1)).
Qed.

Lemma read_chunks_drain chunks r :
  read_chunks decode chunks (drain_all decode r).1
  = ((drain_all decode (Reader.extend (concat chunks) r)).1,
     drop (length (drain_all decode r).2) (drain_all decode (Reader.extend (concat chunks) r)).2).
Proof.
  revert r. induction chunks as [|c chunks IH]; intros r.
  - simpl. unfold Reader.extend. rewrite app_nil_r.
    destruct r as [k b]. simpl. by rewrite drop_all.
  - cbn [read_chunks concat].
    assert (Reader.extend (c ++ concat chunks) r
      = Reader.extend (concat chunks) (Reader.extend c r)) as ->.
    { unfold Reader.extend. simpl. by rewrite app_assoc. }
    pose proof (drain_all_extend c r) as H1.
    specialize (IH (Reader.extend c r)). revert IH.
    pose proof (drain_all_extend (concat chunks) (Reader.extend c r)) as H2. revert H1 H2.
    destruct (drain_all decode r) as [r0 xs0]. cbn [fst snd].
    destruct (drain_all decode (Reader.extend c r0)) as [r1 xs1]. intros ->. simpl.
    destruct (drain_all decode (Reader.extend (concat chunks) r1)) as [r2 xs2]. intros ->. simpl.
    intros ->. rewrite drop_app_length. by rewrite <-(app_assoc xs0), drop_app_length.
Qed.

Lemma drain_all_new : drain_all decode Reader.new = (Reader.new, []).
Proof. unfold drain_all. simpl. by rewrite framing_new. Qed.

(** However the network cuts the stream, the loop has seen the whole. *)
Lemma read_chunks_concat chunks :
  read_chunks decode chunks Reader.new = drain_all decode (Reader.mk 0 (concat chunks)).
Proof.
  pose proof (read_chunks_drain chunks Reader.new) as H. rewrite drain_all_new in H.
  simpl in H. rewrite H. unfold Reader.extend. simpl. rewrite drop_0.
  by destruct (drain_all decode _).
Qed.

Lemma drain_all_frames fs rest :
  Forall frame_ok fs →
  drain_all decode (Reader.mk 0 (frames_wire fs ++ rest))
  = let '(r, xs) := drain_all decode (Reader.mk 0 rest) in (r, map frame_result fs ++ xs).
Proof.
  unfold frames_wire. induction 1 as [|f fs Hf Hfs IH]; cbn [map concat app].
  - by destruct (drain_all decode _).
  - rewrite <-app_assoc.
    rewrite (drain_all_item decode _ _ _ (framing_frame f _ Hf)), IH.
    destruct (drain_all decode (Reader.mk 0 rest)). done.
Qed.

(** One result per frame, whatever the frames hold and however they arrive. *)
Lemma read_chunks_frames fs chunks :
  Forall frame_ok fs → concat chunks = frames_wire fs →
  read_chunks decode chunks Reader.new = (Reader.new, map frame_result fs).
Proof.
  intros Hfs Hc. rewrite read_chunks_concat, Hc, <-(app_nil_r (frames_wire fs)).
  rewrite drain_all_frames by done. change (Reader.mk 0 []) with Reader.new.
  by rewrite drain_all_new, app_nil_r.
Qed.
End chunks.

Lemma concat_take_drop {A} n (l : list A) : concat [take n l; drop n l] = l.
Proof. simpl. by rewrite app_nil_r, take_drop. Qed.

(** ** The shape of both decoders *)

(** The frame's announced length. *)
Definition announced (src : list Z) : nat := Z.to_nat (from_be_bytes (take 2 src)).

Section prefixed.
Context {I E : Type} (reject : nat → option E) (parse : list Z → result I E).

Definition prefixed : decoder I E := λ r,
  let r := drop_pending r in
  if (0 <? Reader.pending_skip r)%nat then (r, Ok None)
  else if (length (Reader.src r) <? 2)%nat then (r, Ok None)
  else
    let len := announced (Reader.src r) in
    let total := (2 + len)%nat in
    match reject len with
    | Some e =>
        (if (total <=? length (Reader.src r))%nat
         then Reader.mk (Reader.pending_skip r) (drop total (Reader.src r))
         else Reader.mk (total - length (Reader.src r)) [], Err e)
    | None =>
        if (length (Reader.src r) <? total)%nat then (r, Ok None)
        else (Reader.mk (Reader.pending_skip r) (drop total (Reader.src r)),
              lift_some (parse (sub 2 len (Reader.src r))))
    end.

Definition prefixed_result (f : list Z) : result I E :=
  match reject (length f) with Some e => Err e | None => parse f end.
End prefixed.

Lemma drop_pending_idem r : drop_pending (drop_pending r) = drop_pending r.
Proof.
  pose proof (drop_pending_extend r []) as H. unfold Reader.extend in H.
  rewrite !app_nil_r in H. by destruct r.
Qed.

(** The guarded discarding of the source is the unguarded one. *)
Lemma drop_pending_guarded r :
  (if (0 <? Reader.pending_skip r)%nat then
     let to_drop := Nat.min (Reader.pending_skip r) (length (Reader.src r)) in
     Reader.mk (Reader.pending_skip r - to_drop) (drop to_drop (Reader.src r))
   else r) = drop_pending r.
Proof. destruct r as [[|k] b]; done. Qed.

Lemma drop_pending_none b : drop_pending (Reader.mk 0 b) = Reader.mk 0 b.
Proof. done. Qed.

(** Nothing to discard is left, or nothing has arrived after it. *)
Lemma drop_pending_cases r :
  (∃ k, drop_pending r = Reader.mk (S k) [] ∧ (length (Reader.src r) < Reader.pending_skip r)%nat)
  ∨ drop_pending r = Reader.mk 0 (drop (Reader.pending_skip r) (Reader.src r))
    ∧ (Reader.pending_skip r ≤ length (Reader.src r))%nat.
Proof.
  destruct r as [k b]. unfold drop_pending. simpl.
  destruct (Nat.le_gt_cases k (length b)).
  - right. rewrite Nat.min_l by lia. split; [|done]. f_equal. lia.
  - left. exists (k - length b - 1)%nat. rewrite Nat.min_r, drop_all by lia.
    split; [f_equal; lia|lia].
Qed.

Lemma announced_app b bs : (2 ≤ length b)%nat → announced (b ++ bs) = announced b.
Proof. intros. unfold announced. by rewrite take_app_le by lia. Qed.

Lemma announced_frame f rest :
  frame_ok f → announced (frame_wire f ++ rest) = length f.
Proof.
  intros Hf. unfold announced, frame_wire. rewrite <-app_assoc.
  rewrite take_app_length' by (by rewrite length_to_be_bytes).
  rewrite (from_be_to_be 2 16); [lia|done|]. split; [lia|exact Hf].
Qed.

Section prefixed_laws.
Context {I E : Type} (reject : nat → option E) (parse : list Z → result I E).
Abbreviation dec := (prefixed reject parse).

Lemma prefixed_drop r : dec (drop_pending r) = dec r.
Proof. unfold prefixed. by rewrite drop_pending_idem. Qed.

(** With nothing left to discard. *)
Lemma prefixed_clean b :
  dec (Reader.mk 0 b) =
  if (length b <? 2)%nat then (Reader.mk 0 b, Ok None)
  else
    let total := (2 + announced b)%nat in
    match reject (announced b) with
    | Some e =>
        (if (total <=? length b)%nat then Reader.mk 0 (drop total b)
         else Reader.mk (total - length b) [], Err e)
    | None =>
        if (length b <? total)%nat then (Reader.mk 0 b, Ok None)
        else (Reader.mk 0 (drop total b), lift_some (parse (sub 2 (announced b) b)))
    end.
Proof. done. Qed.

(** An item comes out of a reader with nothing left to discard. *)
Lemma prefixed_item_inv r r' x :
  dec r = (r', x) → x ≠ Ok None →
  drop_pending r = Reader.mk 0 (drop (Reader.pending_skip r) (Reader.src r))
  ∧ (Reader.pending_skip r ≤ length (Reader.src r))%nat
  ∧ dec (Reader.mk 0 (drop (Reader.pending_skip r) (Reader.src r))) = (r', x).
Proof.
  intros Hd Hx. destruct (drop_pending_cases r) as [(k & Hr & _)|[Hr Hl]].
  - rewrite <-prefixed_drop, Hr in Hd. unfold prefixed in Hd. simpl in Hd. congruence.
  - split_and!; [done|done|]. by rewrite <-Hr, prefixed_drop.
Qed.

Lemma prefixed_item_clean b r' x bs :
  dec (Reader.mk 0 b) = (r', x) → x ≠ Ok None →
  (length (Reader.src r') < length b)%nat
  ∧ ∃ r'', dec (Reader.mk 0 (b ++ bs)) = (r'', x)
      ∧ drop_pending r'' = drop_pending (Reader.extend bs r').
Proof.
  rewrite !prefixed_clean. cbv zeta. rewrite length_app.
  destruct (Nat.ltb_spec (length b) 2); [congruence|].
  rewrite announced_app by lia. destruct (Nat.ltb_spec (length b + length bs) 2); [lia|].
  remember (2 + announced b)%nat as total eqn:Ht.
  destruct (reject (announced b)) as [e|].
  - destruct (Nat.leb_spec total (length b)); intros [= <- <-] _; simpl;
      rewrite ?length_drop; (split; [lia|]).
    + rewrite (proj2 (Nat.leb_le _ _)) by lia. eexists. split; [done|].
      unfold Reader.extend. simpl. by rewrite drop_app_le.
    + eexists. split; [done|]. unfold Reader.extend, drop_pending. simpl.
      destruct (Nat.leb_spec total (length b + length bs)); simpl.
      * rewrite Nat.min_l by lia. rewrite drop_0, drop_app_ge by lia. f_equal. lia.
      * rewrite !Nat.min_r, drop_all, drop_nil by lia. f_equal. lia.
  - destruct (Nat.ltb_spec (length b) total); [congruence|].
    intros [= <- <-] _. simpl. rewrite length_drop. split; [lia|].
    rewrite (proj2 (Nat.ltb_ge _ _)) by lia. eexists. split; [f_equal; f_equal|].
    + unfold sub. rewrite drop_app_le by lia. by rewrite take_app_le by (rewrite length_drop; lia).
    + unfold Reader.extend. simpl. by rewrite drop_app_le.
Qed.

#[global] Instance prefixed_framing : Framing dec (prefixed_result reject parse).
Proof.
  split.
  - done.
  - apply prefixed_drop.
  - intros r r' Hd. rewrite <-prefixed_drop in Hd.
    destruct (drop_pending_cases r) as [(k & Hr & _)|[Hr _]]; rewrite Hr in Hd |- *.
    + unfold prefixed in Hd. simpl in Hd. by injection Hd.
    + rewrite prefixed_clean in Hd. cbv zeta in Hd.
      repeat (case_match; try congruence). by destruct (parse _).
  - intros r r' x bs Hd Hx. destruct (prefixed_item_inv _ _ _ Hd Hx) as (Hr & Hl & Hc).
    destruct (prefixed_item_clean _ _ _ bs Hc Hx) as (_ & r'' & Hc' & Hp).
    exists r''. split; [|done]. rewrite <-prefixed_drop, <-drop_pending_extend, prefixed_drop, Hr.
    exact Hc'.
  - intros r r' x Hd Hx. destruct (prefixed_item_inv _ _ _ Hd Hx) as (Hr & Hl & Hc).
    destruct (prefixed_item_clean _ _ _ [] Hc Hx) as (Hlt & _). rewrite length_drop in Hlt. lia.
  - intros f rest Hf. rewrite prefixed_clean. cbv zeta. rewrite announced_frame by done.
    assert (length (frame_wire f ++ rest) = (2 + length f + length rest)%nat) as ->.
    { unfold frame_wire. by rewrite !length_app, length_to_be_bytes. }
    rewrite (proj2 (Nat.ltb_ge _ _)), (proj2 (Nat.leb_le _ _)), (proj2 (Nat.ltb_ge _ _)) by lia.
    assert (drop (2 + length f) (frame_wire f ++ rest) = rest) as ->.
    { apply drop_app_length'. unfold frame_wire. by rewrite length_app, length_to_be_bytes. }
    unfold prefixed_result. destruct (reject (length f)); [done|]. do 2 f_equal.
    unfold frame_wire. rewrite <-app_assoc, sub_app_skip, length_to_be_bytes by
      (by rewrite length_to_be_bytes). by rewrite Nat.sub_diag, sub_app_here.
Qed.
End prefixed_laws.
