(* ===== verification/TcpCodec.v ===== *)
(** The length-prefixed TCP framing of ITCH messages
    ([crates/itch-tcp/src/lib.rs]).

    [ItchCodec.decode] and [ItchCodec.encode] are the [Decoder] and [Encoder]
    implementations, with [BytesMut::advance], [clear] and [split_to] as list
    operations ([reserve] has no effect on the bytes).  [ItchCodec_framing]
    discharges the contract of [Framing.v].  The sockets of [connect], [bind]
    and [accept] are not modelled. *)

From S2P Require Import Prelude Primitives Enums Messages Codec MessageCodec Framing.

(** [std::io::Error] is represented by its kind. *)
Module TransportError.
Inductive t :=
| Io (kind : string)
| Protocol (e : ProtocolError)
| FrameTooLarge (got max : Z).
#[global] Instance t_eq_dec : EqDecision t. Proof. solve_decision. Defined.
End TransportError.

Module ItchCodec.
Definition MAX_MESSAGE_LEN : nat := 1024.

Definition decode : decoder Message.t TransportError.t := λ r,
  let r :=
    if (0 <? Reader.pending_skip r)%nat then
      let to_drop := Nat.min (Reader.pending_skip r) (length (Reader.src r)) in
      Reader.mk (Reader.pending_skip r - to_drop) (drop to_drop (Reader.src r))
    else r in
  if (0 <? Reader.pending_skip r)%nat then (r, Ok None)
  else if (length (Reader.src r) <? 2)%nat then (r, Ok None)
  else
    let src := Reader.src r in
    let len := Z.to_nat (from_be_bytes (take 2 src)) in
    if (MAX_MESSAGE_LEN <? len)%nat then
      let total := (2 + len)%nat in
      let r :=
        if (total <=? length src)%nat then Reader.mk (Reader.pending_skip r) (drop total src)
        else Reader.mk (total - length src) [] in
      (r, Err (TransportError.FrameTooLarge (Z.of_nat len) (Z.of_nat MAX_MESSAGE_LEN)))
    else if (length src <? 2 + len)%nat then (r, Ok None)
    else
      let src := drop 2 src in
      let frame := take len src in
      let r := Reader.mk (Reader.pending_skip r) (drop len src) in
      match Message_decode frame with
      | Ok msg => (r, Ok (Some msg))
      | Err err => (r, Err (TransportError.Protocol err))
      end.

(** [dst.resize(start + total, 0)], then [encode] in place: the encoder sees
    the zeroed tail. *)
Definition encode (msg : Message.t) : mut (list Z) unit TransportError.t := λ dst,
  let total := Message.encoded_len msg in
  if (MAX_MESSAGE_LEN <? total)%nat
  then (dst, Err (TransportError.FrameTooLarge (Z.of_nat total) (Z.of_nat MAX_MESSAGE_LEN)))
  else
    let dst := dst ++ to_be_bytes 2 (Z.of_nat total) in
    let '(tail, r) := Message_encode msg (replicate total 0) in
    (dst ++ tail,
     match r with Ok _ => Ok tt | Err e => Err (TransportError.Protocol e) end).
End ItchCodec.

(** ** The contract *)

(** What a frame means. *)
Definition itch_reject (len : nat) : option TransportError.t :=
  if (ItchCodec.MAX_MESSAGE_LEN <? len)%nat
  then Some (TransportError.FrameTooLarge (Z.of_nat len) (Z.of_nat ItchCodec.MAX_MESSAGE_LEN))
  else None.
Definition itch_parse (f : list Z) : result Message.t TransportError.t :=
  match Message_decode f with
  | Ok msg => Ok msg
  | Err e => Err (TransportError.Protocol e)
  end.
Definition itch_frame (f : list Z) : result Message.t TransportError.t :=
  prefixed_result itch_reject itch_parse f.

Lemma ItchCodec_prefixed r : ItchCodec.decode r = prefixed itch_reject itch_parse r.
Proof.
  unfold ItchCodec.decode, prefixed. rewrite drop_pending_guarded. cbv zeta.
  destruct (drop_pending r) as [k b]. cbn [Reader.pending_skip Reader.src].
  destruct (0 <? k)%nat; [done|]. destruct (length b <? 2)%nat; [done|].
  fold (announced b). unfold itch_reject.
  destruct (ItchCodec.MAX_MESSAGE_LEN <? announced b)%nat; [done|].
  destruct (length b <? 2 + announced b)%nat; [done|].
  rewrite drop_drop. unfold itch_parse. fold (sub 2 (announced b) b).
  by destruct (Message_decode (sub 2 (announced b) b)).
Qed.

#[global] Instance ItchCodec_framing : Framing ItchCodec.decode itch_frame.
Proof.
  destruct (prefixed_framing itch_reject itch_parse) as [H1 H2 H3 H4 H5 H6].
  split; intros; rewrite !ItchCodec_prefixed in *; eauto.
Qed.

(** Encoding appends one frame that holds the message. *)
Lemma ItchCodec_encode_frame msg dst :
  wf msg → ItchCodec.encode msg dst = (dst ++ frame_wire (message_wire msg), Ok tt).
Proof.
  intros Hwf. unfold ItchCodec.encode.
  rewrite (proj2 (Nat.ltb_ge _ _))
    by (unfold ItchCodec.MAX_MESSAGE_LEN; pose proof (encoded_len_bounds msg); lia).
  rewrite Message_encode_wire by (done || by rewrite length_replicate). simpl.
  rewrite drop_ge by (by rewrite length_replicate).
  unfold frame_wire. by rewrite length_message_wire, app_nil_r, <-app_assoc.
Qed.

Lemma message_frame_ok msg : wf msg → frame_ok (message_wire msg).
Proof.
  intros Hwf. unfold frame_ok. rewrite length_message_wire by done.
  pose proof (encoded_len_bounds msg). lia.
Qed.

Lemma itch_frame_message msg : wf msg → itch_frame (message_wire msg) = Ok msg.
Proof.
  intros Hwf. unfold itch_frame, prefixed_result, itch_reject, itch_parse.
  rewrite (proj2 (Nat.ltb_ge _ _)).
  - rewrite <-(app_nil_r (message_wire msg)). by rewrite Message_decode_wire.
  - rewrite length_message_wire by done. pose proof (encoded_len_bounds msg).
    unfold ItchCodec.MAX_MESSAGE_LEN. lia.
Qed.

(** The sender's buffer after a sequence of messages. *)
Fixpoint itch_send (msgs : list Message.t) : mut (list Z) unit TransportError.t :=
  match msgs with
  | [] => ok
  | msg :: msgs => ItchCodec.encode msg ;;? itch_send msgs
  end.

Lemma itch_send_frames msgs dst :
  Forall wf msgs → itch_send msgs dst = (dst ++ frames_wire (map message_wire msgs), Ok tt).
Proof.
  intros Hm. revert dst. induction Hm as [|msg msgs Hwf Hm IH]; intros dst.
  - unfold itch_send, ok, frames_wire. simpl. by rewrite app_nil_r.
  - cbn [itch_send]. unfold and_then. rewrite ItchCodec_encode_frame, IH by done.
    unfold frames_wire. cbn [map concat]. by rewrite <-app_assoc.
Qed.

Lemma itch_read_messages msgs chunks :
  Forall wf msgs → concat chunks = frames_wire (map message_wire msgs) →
  read_chunks ItchCodec.decode chunks Reader.new = (Reader.new, map Ok msgs).
Proof.
  intros Hm Hc.
  rewrite (read_chunks_frames (map message_wire msgs)); [|by apply Forall_map; eapply Forall_impl,
    message_frame_ok|done]. f_equal. rewrite map_map. clear Hc. induction Hm; simpl; [done|].
  by rewrite itch_frame_message, IHHm.
Qed.

(** ** Properties *)

(** Messages written on a TCP connection are the messages read from it. The
    encoder never fails on well-formed messages, and however the network cuts
    its bytes into chunks, the reader yields exactly the messages, in order,
    with nothing left over. *)
Theorem tcp_stream_roundtrip msgs chunks :
  Forall wf msgs →
  ∃ bytes, itch_send msgs [] = (bytes, Ok tt)
    ∧ (concat chunks = bytes →
       read_chunks ItchCodec.decode chunks Reader.new = (Reader.new, map Ok msgs)).
Proof.
  intros Hm. exists (frames_wire (map message_wire msgs)).
  split; [by rewrite itch_send_frames|]. intros Hc. by apply itch_read_messages.
Qed.

Lemma tcp_stream_roundtrip_witness :
  let msgs := [Message.OrderDelete OrderDelete.default; Message.Noii Noii.default] in
  ∃ bytes, itch_send msgs [] = (bytes, Ok tt)
    ∧ read_chunks ItchCodec.decode [take 1 bytes; drop 1 bytes] Reader.new
      = (Reader.new, map Ok msgs).
Proof.
  intros msgs. assert (Forall wf msgs) as Hm.
  { constructor; [|constructor; [|constructor]]; vm_compute;
      repeat (split || constructor); discriminate. }
  pose (bytes := (itch_send msgs []).1).
  destruct (tcp_stream_roundtrip msgs [take 1 bytes; drop 1 bytes] Hm) as (bytes' & Hs & Hr).
  assert (bytes' = bytes) as -> by (unfold bytes; by rewrite Hs).
  exists bytes. split; [exact Hs|]. apply Hr, concat_take_drop.
Defined.

(** A bad frame does not poison a TCP stream. Whatever the frames of a
    stream hold (oversized, empty, undecodable, up to the 65535 bytes that a
    prefix can announce) and however they are cut into chunks, the reader
    yields exactly one result per frame: the message it holds, or one error. *)
Theorem tcp_stream_resync frames chunks :
  Forall frame_ok frames → concat chunks = frames_wire frames →
  read_chunks ItchCodec.decode chunks Reader.new
  = (Reader.new,
     map (λ f, if (ItchCodec.MAX_MESSAGE_LEN <? length f)%nat
               then Err (TransportError.FrameTooLarge (Z.of_nat (length f))
                           (Z.of_nat ItchCodec.MAX_MESSAGE_LEN))
               else match Message_decode f with
                    | Ok msg => Ok msg
                    | Err e => Err (TransportError.Protocol e)
                    end) frames).
Proof.
  intros Hf Hc. rewrite (read_chunks_frames frames) by done. f_equal.
  apply map_ext. intros f. unfold itch_frame, prefixed_result, itch_reject.
  by destruct (ItchCodec.MAX_MESSAGE_LEN <? length f)%nat.
Qed.

Lemma tcp_stream_resync_witness :
  read_chunks ItchCodec.decode [[8]; [0] ++ replicate 1000 7; replicate 1048 7 ++ [0]; [0]] Reader.new
  = (Reader.new, [Err (TransportError.FrameTooLarge 2048 1024);
                  Err (TransportError.Protocol (Truncated 1 0))]).
Proof.
  rewrite (tcp_stream_resync [replicate 2048 7; []]).
  - reflexivity.
  - repeat constructor; vm_compute; reflexivity.
  - vm_compute. reflexivity.
Defined.
