(* ===== verification/SoupCodec.v ===== *)
(** The SoupBinTCP 3.00 packet codec ([crates/itch-soup/src/lib.rs]).

    [SoupCodec.decode] and [SoupCodec.encode] are the [Decoder] and [Encoder]
    implementations over the reader state of [Framing.v], whose contract
    [SoupCodec_framing] discharges.  A [String] is its UTF-8 bytes.  The ASCII
    helpers ([pad_left], [trim_spaces], [encode_ascii_u64], ...) are modelled
    with their buffers; [pad_right] and [pad_left] return what they leave in
    the destination slice. *)

From S2P Require Import Prelude Primitives Text Enums Messages Codec MessageCodec Framing.

Module LoginRejectReason.
Inductive t := NotAuthorized | SessionUnavailable.
#[global] Instance t_eq_dec : EqDecision t. Proof. solve_decision. Defined.
End LoginRejectReason.

(** [std::io::Error] is represented by its kind, a [Duration] by its
    nanoseconds. *)
Module SoupError.
Inductive t :=
| Io (kind : string)
| Protocol (e : ProtocolError)
| FrameTooLarge (got max : Z)
| UnknownPacketType (tag : Z)
| BadPayloadLength (tag expected got : Z)
| LoginRejected (reason : LoginRejectReason.t)
| SessionEnded
| PeerSilent (d : Z)
| SessionMismatch (requested got : list Z)
| PrematureClose
| UnexpectedHandshakePacket (tag : Z)
| LoginTimeout (d : Z)
| SoupFraming (reason : string).
#[global] Instance t_eq_dec : EqDecision t. Proof. solve_decision. Defined.
End SoupError.

Definition LoginRejectReason_to_byte (r : LoginRejectReason.t) : Z :=
  match r with
  | LoginRejectReason.NotAuthorized => b@"A"
  | LoginRejectReason.SessionUnavailable => b@"S"
  end.
Definition LoginRejectReason_from_byte (b : Z) : result LoginRejectReason.t SoupError.t :=
  if b =? b@"A" then Ok LoginRejectReason.NotAuthorized
  else if b =? b@"S" then Ok LoginRejectReason.SessionUnavailable
  else Err (SoupError.Protocol (InvalidEnumCode "LoginRejectReason" b)).

Definition MAX_MESSAGE_LEN : nat := 1024.
Definition LOGIN_REQUEST_PAYLOAD_LEN : nat := 6 + 10 + 10 + 20.
Definition LOGIN_ACCEPTED_PAYLOAD_LEN : nat := 10 + 20.
Definition LOGIN_REJECTED_PAYLOAD_LEN : nat := 1.

Module LoginRequest.
Record t := mk {
  username : list Z; password : list Z; requested_session : list Z; requested_sequence : Z }.
#[global] Instance t_eq_dec : EqDecision t. Proof. solve_decision. Defined.
End LoginRequest.

Module LoginAccepted.
Record t := mk { session : list Z; sequence : Z }.
#[global] Instance t_eq_dec : EqDecision t. Proof. solve_decision. Defined.
End LoginAccepted.

Module SoupPacket.
Inductive t :=
| Debug (p : list Z)
| LoginRequest (r : LoginRequest.t)
| LoginAccepted (a : LoginAccepted.t)
| LoginRejected (r : LoginRejectReason.t)
| SequencedData (p : list Z)
| UnsequencedData (p : list Z)
| ServerHeartbeat
| ClientHeartbeat
| EndOfSession
| LogoutRequest.
#[global] Instance t_eq_dec : EqDecision t. Proof. solve_decision. Defined.

Definition tag (p : t) : Z :=
  match p with
  | Debug _ => b@"+"
  | LoginRequest _ => b@"L"
  | LoginAccepted _ => b@"A"
  | LoginRejected _ => b@"J"
  | SequencedData _ => b@"S"
  | UnsequencedData _ => b@"U"
  | ServerHeartbeat => b@"H"
  | ClientHeartbeat => b@"R"
  | EndOfSession => b@"Z"
  | LogoutRequest => b@"O"
  end.

Definition payload_len (p : t) : nat :=
  match p with
  | Debug p | SequencedData p | UnsequencedData p => length p
  | LoginRequest _ => LOGIN_REQUEST_PAYLOAD_LEN
  | LoginAccepted _ => LOGIN_ACCEPTED_PAYLOAD_LEN
  | LoginRejected _ => LOGIN_REJECTED_PAYLOAD_LEN
  | ServerHeartbeat | ClientHeartbeat | EndOfSession | LogoutRequest => 0
  end.

Definition encoded_len (p : t) : nat := (2 + 1 + payload_len p)%nat.
End SoupPacket.

(** ** ASCII fields *)

Definition pad_right (src : list Z) (width : nat) : list Z :=
  let n := Nat.min (length src) width in
  take n src ++ replicate (width - n) space.

Definition pad_left (src : list Z) (width : nat) : list Z :=
  if (width <=? length src)%nat then drop (length src - width) src
  else replicate (width - length src) space ++ src.

(** [slice.iter().position(p)]. *)
Fixpoint position {A} (p : A → bool) (l : list A) : option nat :=
  match l with
  | [] => None
  | x :: l => if p x then Some O else S <$> position p l
  end.

Definition not_space (b : Z) : bool := negb (b =? space).

Definition trim_spaces (src : list Z) : list Z :=
  let start := default (length src) (position not_space src) in
  let stop := match rposition not_space src with Some i => S i | None => start end in
  sub start (stop - start) src.

(** [String::from_utf8_lossy]: every maximal prefix of a sequence that breaks
    off becomes one U+FFFD. *)
Definition replacement : list Z := [0xEF; 0xBF; 0xBD].
Fixpoint from_utf8_lossy (bs : list Z) : list Z :=
  match bs with
  | [] => []
  | b0 :: t0 =>
      if b0 <=? 0x7F then b0 :: from_utf8_lossy t0
      else if in_range 0xC2 0xDF b0 then
        match t0 with
        | b1 :: t1 =>
            if utf8_cont b1 then b0 :: b1 :: from_utf8_lossy t1
            else replacement ++ from_utf8_lossy t0
        | [] => replacement
        end
      else if in_range 0xE0 0xEF b0 then
        match t0 with
        | b1 :: t1 =>
            if utf8_second b0 b1 then
              match t1 with
              | b2 :: t2 =>
                  if utf8_cont b2 then b0 :: b1 :: b2 :: from_utf8_lossy t2
                  else replacement ++ from_utf8_lossy t1
              | [] => replacement
              end
            else replacement ++ from_utf8_lossy t0
        | [] => replacement
        end
      else if in_range 0xF0 0xF4 b0 then
        match t0 with
        | b1 :: t1 =>
            if utf8_second b0 b1 then
              match t1 with
              | b2 :: t2 =>
                  if utf8_cont b2 then
                    match t2 with
                    | b3 :: t3 =>
                        if utf8_cont b3 then b0 :: b1 :: b2 :: b3 :: from_utf8_lossy t3
                        else replacement ++ from_utf8_lossy t2
                    | [] => replacement
                    end
                  else replacement ++ from_utf8_lossy t1
              | [] => replacement
              end
            else replacement ++ from_utf8_lossy t0
        | [] => replacement
        end
      else replacement ++ from_utf8_lossy t0
  end.

Definition read_anum (src : list Z) : list Z := from_utf8_lossy (trim_spaces src).

(** [while n > 0 { i -= 1; buf[i] = b'0' + (n % 10); n /= 10 }]; a [u64] has at
    most twenty digits. *)
Fixpoint digits_loop (fuel : nat) (n : Z) (i : nat) (buf : list Z) : nat * list Z :=
  match fuel with
  | O => (i, buf)
  | S fuel =>
      if 0 <? n
      then let i := (i - 1)%nat in
           digits_loop fuel (n / 10) i (<[i := b@"0" + n mod 10]> buf)
      else (i, buf)
  end.

Definition encode_ascii_u64 (value : Z) : list Z :=
  let buf := replicate 20 0 in
  let '(i, buf) :=
    if value =? 0 then (19%nat, <[19%nat := b@"0"]> buf) else digits_loop 20 value 20 buf in
  let digits := drop i buf in
  replicate (20 - length digits) space ++ digits.


(** The loop over the trimmed digits, with the value so far. *)
Fixpoint digits_value (bs : list Z) (value : Z) : result Z SoupError.t :=
  match bs with
  | [] => Ok value
  | b :: bs =>
      if negb (is_ascii_digit b)
      then Err (SoupError.Protocol (InvalidEnumCode "SoupAsciiNumber" b))
      else
        match u64_checked_mul value 10 ≫= λ v, u64_checked_add v (b - b@"0") with
        | Some value => digits_value bs value
        | None => Err (SoupError.Protocol (InvalidEnumCode "SoupAsciiNumber" b))
        end
  end.

Definition decode_ascii_u64 (src : list Z) : result Z SoupError.t :=
  let trimmed := trim_spaces src in
  match trimmed with [] => Ok 0 | _ => digits_value trimmed 0 end.

(** ** The codec *)

Definition ensure_len (tag : Z) (payload : list Z) (expected : nat) : result unit SoupError.t :=
  if (length payload =? expected)%nat then Ok tt
  else Err (SoupError.BadPayloadLength tag (Z.of_nat expected) (Z.of_nat (length payload))).

Definition decode_packet (tag : Z) (payload : list Z) : result SoupPacket.t SoupError.t :=
  if tag =? b@"+" then Ok (SoupPacket.Debug payload)
  else if tag =? b@"L" then
    let? _ := ensure_len tag payload LOGIN_REQUEST_PAYLOAD_LEN in
    let username := read_anum (sub 0 6 payload) in
    let password := read_anum (sub 6 10 payload) in
    let requested_session := read_anum (sub 16 10 payload) in
    let? requested_sequence := decode_ascii_u64 (sub 26 20 payload) in
    Ok (SoupPacket.LoginRequest
          (LoginRequest.mk username password requested_session requested_sequence))
  else if tag =? b@"A" then
    let? _ := ensure_len tag payload LOGIN_ACCEPTED_PAYLOAD_LEN in
    let session := read_anum (sub 0 10 payload) in
    let? sequence := decode_ascii_u64 (sub 10 20 payload) in
    Ok (SoupPacket.LoginAccepted (LoginAccepted.mk session sequence))
  else if tag =? b@"J" then
    let? _ := ensure_len tag payload LOGIN_REJECTED_PAYLOAD_LEN in
    let? reason := LoginRejectReason_from_byte (default 0 (head payload)) in
    Ok (SoupPacket.LoginRejected reason)
  else if tag =? b@"S" then Ok (SoupPacket.SequencedData payload)
  else if tag =? b@"U" then Ok (SoupPacket.UnsequencedData payload)
  else if tag =? b@"H" then let? _ := ensure_len tag payload 0 in Ok SoupPacket.ServerHeartbeat
  else if tag =? b@"R" then let? _ := ensure_len tag payload 0 in Ok SoupPacket.ClientHeartbeat
  else if tag =? b@"Z" then let? _ := ensure_len tag payload 0 in Ok SoupPacket.EndOfSession
  else if tag =? b@"O" then let? _ := ensure_len tag payload 0 in Ok SoupPacket.LogoutRequest
  else Err (SoupError.UnknownPacketType tag).

Definition write_payload (p : SoupPacket.t) (dst : list Z) : list Z :=
  match p with
  | SoupPacket.Debug p | SoupPacket.SequencedData p | SoupPacket.UnsequencedData p => dst ++ p
  | SoupPacket.LoginRequest req =>
      dst ++ pad_right (LoginRequest.username req) 6
          ++ pad_right (LoginRequest.password req) 10
          ++ pad_left (LoginRequest.requested_session req) 10
          ++ encode_ascii_u64 (LoginRequest.requested_sequence req)
  | SoupPacket.LoginAccepted acc =>
      dst ++ pad_left (LoginAccepted.session acc) 10
          ++ encode_ascii_u64 (LoginAccepted.sequence acc)
  | SoupPacket.LoginRejected reason => dst ++ [LoginRejectReason_to_byte reason]
  | SoupPacket.ServerHeartbeat | SoupPacket.ClientHeartbeat
  | SoupPacket.EndOfSession | SoupPacket.LogoutRequest => dst
  end.

Module SoupCodec.
Definition decode : decoder SoupPacket.t SoupError.t := λ r,
  let r :=
    if (0 <? Reader.pending_skip r)%nat then
      let to_drop := Nat.min (Reader.pending_skip r) (length (Reader.src r)) in
      Reader.mk (Reader.pending_skip r - to_drop) (drop to_drop (Reader.src r))
    else r in
  if (0 <? Reader.pending_skip r)%nat then (r, Ok None)
  else if (length (Reader.src r) <? 2)%nat then (r, Ok None)
  else
    let src := Reader.src r in
    let length_ := Z.to_nat (from_be_bytes (take 2 src)) in
    if (length_ =? 0)%nat then
      (Reader.mk (Reader.pending_skip r) (drop 2 src),
       Err (SoupError.FrameTooLarge 2 (Z.of_nat MAX_MESSAGE_LEN)))
    else
      let total := (2 + length_)%nat in
      if (MAX_MESSAGE_LEN <? total)%nat then
        let r :=
          if (total <=? length src)%nat then Reader.mk (Reader.pending_skip r) (drop total src)
          else Reader.mk (total - length src) [] in
        (r, Err (SoupError.FrameTooLarge (Z.of_nat total) (Z.of_nat MAX_MESSAGE_LEN)))
      else if (length src <? total)%nat then (r, Ok None)
      else
        let src := drop 2 src in
        let frame := take length_ src in
        let r := Reader.mk (Reader.pending_skip r) (drop length_ src) in
        let tag := default 0 (head frame) in
        let payload := drop 1 frame in
        match decode_packet tag payload with
        | Ok pkt => (r, Ok (Some pkt))
        | Err err => (r, Err err)
        end.

Definition encode (packet : SoupPacket.t) : mut (list Z) unit SoupError.t := λ dst,
  let total := SoupPacket.encoded_len packet in
  if (MAX_MESSAGE_LEN <? total)%nat
  then (dst, Err (SoupError.FrameTooLarge (Z.of_nat total) (Z.of_nat MAX_MESSAGE_LEN)))
  else
    let dst := dst ++ to_be_bytes 2 (1 + Z.of_nat (SoupPacket.payload_len packet)) in
    let dst := dst ++ [SoupPacket.tag packet] in
    (write_payload packet dst, Ok tt).
End SoupCodec.

(** ** Trimming and padding *)

Lemma rposition_bound {A} (p : A → bool) l i : rposition p l = Some i → (i < length l)%nat.
Proof.
  revert i. induction l as [|x l IH]; intros i; [done|]. simpl.
  destruct (rposition p l) as [j|]; [intros [= <-]; specialize (IH _ eq_refl); lia|].
  destruct (p x); [intros [= <-]; lia|done].
Qed.

Lemma rposition_none {A} (p : A → bool) l : Forall (λ x, p x = false) l → rposition p l = None.
Proof. induction 1 as [|x l Hx Hl IH]; [done|]. simpl. by rewrite IH, Hx. Qed.

Lemma position_replicate {A} (p : A → bool) n x l :
  p x = false → position p (replicate n x ++ l) = Nat.add n <$> position p l.
Proof.
  intros Hx. induction n as [|n IH]; simpl; [by destruct (position p l)|].
  rewrite Hx, IH. by destruct (position p l).
Qed.

(** Text that neither starts nor ends with a space. *)
Definition trimmed (s : list Z) : Prop := head s ≠ Some space ∧ last s ≠ Some space.
#[global] Instance trimmed_dec s : Decision (trimmed s).
Proof. unfold trimmed. apply _. Defined.

Lemma not_space_true x : x ≠ space → not_space x = true.
Proof. intros. by apply negb_true_iff, Z.eqb_neq. Qed.

Lemma trim_spaces_blank n : trim_spaces (replicate n space) = [].
Proof.
  unfold trim_spaces. rewrite rposition_none by (by apply Forall_replicate).
  rewrite Nat.sub_diag. unfold sub. by rewrite take_0.
Qed.

(** Whatever spaces are added around the text, trimming takes them off. *)
Lemma trim_spaces_padded a b s :
  trimmed s → trim_spaces (replicate a space ++ s ++ replicate b space) = s.
Proof.
  intros [Hh Hl]. destruct s as [|x s].
  { simpl. rewrite <-replicate_add. apply trim_spaces_blank. }
  set (l := replicate a space ++ (x :: s) ++ replicate b space).
  assert (position not_space l = Some a) as Hp.
  { unfold l. rewrite position_replicate by done. simpl.
    rewrite not_space_true by (intros ->; by apply Hh). simpl. by rewrite Nat.add_0_r. }
  assert (rposition not_space l = Some (a + length s)%nat) as Hr.
  { assert (upto_last not_space l = replicate a space ++ x :: s) as Hu.
    { unfold l. rewrite app_assoc, upto_last_app_fail by (by apply Forall_replicate).
      apply upto_last_id. intros y. rewrite last_app_cons. intros Hy.
      apply not_space_true. congruence. }
    unfold upto_last in Hu. destruct (rposition not_space l) as [i|] eqn:E.
    - pose proof (rposition_bound _ _ _ E). apply (f_equal length) in Hu.
      rewrite length_take, length_app, length_replicate in Hu. cbn [length] in Hu. f_equal. lia.
    - by destruct a. }
  unfold trim_spaces. rewrite Hp, Hr. unfold from_option, id.
  replace (S (a + length s) - a)%nat with (length (x :: s)) by (cbn [length]; lia).
  unfold sub, l. rewrite drop_app_length' by (by rewrite length_replicate).
  by rewrite take_app_length.
Qed.

Lemma pad_right_short s w :
  (length s ≤ w)%nat → pad_right s w = replicate 0 space ++ s ++ replicate (w - length s) space.
Proof. intros Hw. unfold pad_right. rewrite Nat.min_l by done. by rewrite firstn_all. Qed.

Lemma pad_left_short s w :
  (length s ≤ w)%nat → pad_left s w = replicate (w - length s) space ++ s ++ replicate 0 space.
Proof.
  intros Hw. unfold pad_left. cbn [replicate]. rewrite app_nil_r.
  destruct (Nat.leb_spec w (length s)); [|done].
  replace w with (length s) by lia. by rewrite Nat.sub_diag.
Qed.

Lemma length_pad_right s w : length (pad_right s w) = w.
Proof. unfold pad_right. rewrite length_app, length_take, length_replicate. lia. Qed.
Lemma length_pad_left s w : length (pad_left s w) = w.
Proof.
  unfold pad_left. destruct (Nat.leb_spec w (length s)).
  - rewrite length_drop. lia.
  - rewrite length_app, length_replicate. lia.
Qed.

(** Valid text is not changed by the lossy conversion. *)
Lemma from_utf8_lossy_valid s : utf8_valid s = true → from_utf8_lossy s = s.
Proof.
  remember (length s) as n eqn:Hn. revert s Hn. induction n as [n IH] using lt_wf_ind.
  intros s ->. assert (∀ t, (length t < length s)%nat → utf8_valid t = true →
    from_utf8_lossy t = t) as IH' by (intros t Ht Hv; by apply (IH _ Ht)). clear IH.
  destruct s as [|b0 t0]; [done|]. simpl.
  destruct (b0 <=? 0x7F); [intros; by rewrite IH' by (simpl; lia || done)|].
  destruct t0 as [|b1 t1]; [done|].
  destruct (in_range 0xC2 0xDF b0).
  { destruct (utf8_cont b1); [|done]. simpl. intros. rewrite IH'; [done|simpl; lia|done]. }
  destruct t1 as [|b2 t2]; [done|].
  destruct (in_range 0xE0 0xEF b0).
  { destruct (utf8_second b0 b1); [|done]. destruct (utf8_cont b2); [|done]. simpl.
    intros. rewrite IH'; [done|simpl; lia|done]. }
  destruct t2 as [|b3 t3]; [done|].
  destruct (in_range 0xF0 0xF4 b0); [|done].
  destruct (utf8_second b0 b1); [|done]. destruct (utf8_cont b2); [|done].
  destruct (utf8_cont b3); [|done]. simpl. intros. rewrite IH'; [done|simpl; lia|done].
Qed.

(** ** Decimal numbers *)

(** The checked loop computes the value, or refuses one that a [u64] cannot
    hold; a bad digit is refused wherever it stands. *)
Lemma digits_value_spec bs v w :
  0 ≤ v →
  digits_value bs v = Ok w ↔
  all_digits bs ∧ w = v * 10 ^ Z.of_nat (length bs) + dec_value bs
  ∧ (bs = [] ∨ w ≤ u64_max).
Proof.
  revert v. induction bs as [|b bs IH]; intros v Hv.
  { simpl. split.
    - intros [= <-]. split_and!; [constructor|unfold dec_value; simpl; lia|by left].
    - intros (_ & -> & _). unfold dec_value. simpl. f_equal. lia. }
  cbn [digits_value]. destruct (is_ascii_digit b) eqn:Eb; simpl negb; cbv iota.
  2:{ split; [done|]. intros (Hd & _). inversion Hd. congruence. }
  pose proof (proj1 (is_ascii_digit_range b) Eb) as Hb.
  assert (v * 10 ^ Z.of_nat (length (b :: bs)) + dec_value (b :: bs)
    = (v * 10 + (b - 48)) * 10 ^ Z.of_nat (length bs) + dec_value bs) as Hval.
  { rewrite dec_value_cons. cbn [length]. rewrite Nat2Z.inj_succ, Z.pow_succ_r by lia. ring. }
  assert (u64_checked_mul v 10 ≫= (λ v, u64_checked_add v (b - 48))
    = if v * 10 + (b - 48) <=? u64_max then Some (v * 10 + (b - 48)) else None) as ->.
  { unfold u64_checked_mul, u64_checked_add. destruct (Z.leb_spec (v * 10) u64_max); [done|].
    simpl. destruct (Z.leb_spec (v * 10 + (b - 48)) u64_max); [lia|done]. }
  assert (0 < 10 ^ Z.of_nat (length bs)) as Hp by (apply Z.pow_pos_nonneg; lia).
  rewrite Hval. destruct (Z.leb_spec (v * 10 + (b - 48)) u64_max) as [Hle|Hgt].
  - rewrite IH by lia. unfold all_digits. rewrite Forall_cons, Eb. split.
    + intros (Hd & -> & Hmax). split; [done|]. split; [done|]. right.
      destruct Hmax as [->|?]; [|done]. unfold dec_value. simpl. lia.
    + intros ([_ Hd] & -> & [?|?]); [done|]. split; [done|]. split; [done|by right].
  - split; [done|]. intros (Hd & -> & [?|Hmax]); [done|]. exfalso.
    apply Forall_cons in Hd as [_ Hd]. pose proof (dec_value_nonneg bs Hd). nia.
Qed.

(** The loop writes the decimal digits of [n] in front of what the buffer holds
    from [i] on. *)
Lemma digits_loop_spec fuel n i buf i' buf' :
  0 ≤ n < 10 ^ Z.of_nat fuel → (fuel ≤ i ≤ length buf)%nat →
  digits_loop fuel n i buf = (i', buf') →
  ∃ ds, drop i' buf' = ds ++ drop i buf ∧ all_digits ds ∧ dec_value ds = n
    ∧ (length ds ≤ fuel)%nat ∧ (0 < n → ds ≠ []).
Proof.
  revert n i buf. induction fuel as [|fuel IH]; intros n i buf Hn Hi; simpl.
  { intros [= <- <-]. exists []. simpl in Hn.
    split_and!; [done|constructor|unfold dec_value; simpl; lia|simpl; lia|lia]. }
  destruct (Z.ltb_spec 0 n).
  2:{ intros [= <- <-]. exists [].
      split_and!; [done|constructor|unfold dec_value; simpl; lia|simpl; lia|lia]. }
  intros Hl. rewrite Nat2Z.inj_succ, Z.pow_succ_r in Hn by lia.
  assert (0 ≤ n / 10 < 10 ^ Z.of_nat fuel) as Hq.
  { split; [apply Z.div_pos; lia|]. apply Z.div_lt_upper_bound; lia. }
  apply (IH _ _ _ Hq) in Hl as (ds & Hd & Had & Hv & Hlen & _); [|rewrite length_insert; lia].
  exists (ds ++ [b@"0" + n mod 10]). split_and!.
  - rewrite Hd, <-app_assoc. f_equal. destruct i as [|i]; [lia|]. simpl. rewrite Nat.sub_0_r.
    rewrite (drop_S _ (b@"0" + n mod 10)) by (apply list_lookup_insert_eq; lia).
    simpl. by rewrite drop_insert_lt by lia.
  - apply Forall_app. split; [done|]. constructor; [apply digit_of|constructor].
  - rewrite dec_value_snoc, Hv. pose proof (Z.div_mod n 10). lia.
  - rewrite length_app. simpl. lia.
  - intros _ Hnil. by destruct ds.
Qed.

Lemma encode_ascii_u64_shape v :
  is_u64 v → ∃ ds, ds ≠ [] ∧ all_digits ds ∧ dec_value ds = v ∧ (length ds ≤ 20)%nat
    ∧ encode_ascii_u64 v = replicate (20 - length ds) space ++ ds.
Proof.
  intros [Hv0 Hv]. unfold encode_ascii_u64. destruct (Z.eqb_spec v 0) as [->|Hnz].
  { exists [b@"0"]. split_and!; try done; [by repeat constructor|simpl; lia]. }
  destruct (digits_loop 20 v 20 (replicate 20 0)) as [i buf] eqn:E.
  assert (0 ≤ v < 10 ^ Z.of_nat 20) as Hv' by (split; [done|]; eapply Z.lt_trans; [exact Hv|done]).
  apply (digits_loop_spec 20 v _ _ _ _ Hv') in E as (ds & Hd & Had & Hval & Hlen & Hne);
    [|rewrite length_replicate; lia].
  rewrite (drop_ge (replicate 20 0)), app_nil_r in Hd by (simpl; lia).
  exists ds. rewrite Hd. split_and!; try done. apply Hne. lia.
Qed.

Lemma all_digits_trimmed ds : all_digits ds → trimmed ds.
Proof.
  intros Hd. split; intros H.
  - destruct ds as [|b ds]; [done|]. injection H as ->. inversion Hd. done.
  - apply last_Some in H as [l ->]. apply Forall_app in Hd as [_ Hd]. inversion Hd. done.
Qed.

Lemma decode_ascii_u64_spec src v :
  decode_ascii_u64 src = Ok v ↔
  all_digits (trim_spaces src) ∧ dec_value (trim_spaces src) = v ∧ v ≤ u64_max.
Proof.
  unfold decode_ascii_u64. destruct (trim_spaces src) as [|b bs] eqn:E.
  - split.
    + intros [= <-]. split_and!; [constructor|done|unfold u64_max; lia].
    + intros (_ & <- & _). done.
  - rewrite digits_value_spec by done. rewrite Z.mul_0_l, Z.add_0_l. split.
    + intros (? & -> & [?|?]); done.
    + intros (? & <- & ?). split_and!; [done|done|by right].
Qed.

Lemma ascii_u64_encode_decode v :
  is_u64 v → length (encode_ascii_u64 v) = 20%nat ∧ decode_ascii_u64 (encode_ascii_u64 v) = Ok v.
Proof.
  intros Hv. destruct (encode_ascii_u64_shape v Hv) as (ds & Hne & Had & Hval & Hlen & ->).
  split; [rewrite length_app, length_replicate; lia|].
  apply decode_ascii_u64_spec.
  assert (trim_spaces (replicate (20 - length ds) space ++ ds) = ds) as ->.
  { pose proof (trim_spaces_padded (20 - length ds) 0 ds (all_digits_trimmed ds Had)) as H.
    simpl in H. by rewrite app_nil_r in H. }
  split_and!; [done|done|]. destruct Hv. unfold u64_max. lia.
Qed.

(** ** The contract *)

Definition soup_reject (len : nat) : option SoupError.t :=
  if (len =? 0)%nat then Some (SoupError.FrameTooLarge 2 (Z.of_nat MAX_MESSAGE_LEN))
  else if (MAX_MESSAGE_LEN <? 2 + len)%nat
  then Some (SoupError.FrameTooLarge (Z.of_nat (2 + len)) (Z.of_nat MAX_MESSAGE_LEN))
  else None.
Definition soup_parse (f : list Z) : result SoupPacket.t SoupError.t :=
  decode_packet (default 0 (head f)) (drop 1 f).
Definition soup_frame (f : list Z) : result SoupPacket.t SoupError.t :=
  prefixed_result soup_reject soup_parse f.

Lemma SoupCodec_prefixed r : SoupCodec.decode r = prefixed soup_reject soup_parse r.
Proof.
  unfold SoupCodec.decode, prefixed. rewrite drop_pending_guarded. cbv zeta.
  destruct (drop_pending r) as [k b]. cbn [Reader.pending_skip Reader.src].
  destruct (0 <? k)%nat; [done|]. destruct (Nat.ltb_spec (length b) 2); [done|].
  fold (announced b). unfold soup_reject.
  destruct (Nat.eqb_spec (announced b) 0) as [->|].
  { by rewrite (proj2 (Nat.leb_le _ _)) by (simpl; lia). }
  destruct (MAX_MESSAGE_LEN <? 2 + announced b)%nat; [done|].
  destruct (length b <? 2 + announced b)%nat; [done|].
  rewrite drop_drop. unfold soup_parse. fold (sub 2 (announced b) b).
  by destruct (decode_packet _ _).
Qed.

#[global] Instance SoupCodec_framing : Framing SoupCodec.decode soup_frame.
Proof.
  destruct (prefixed_framing soup_reject soup_parse) as [H1 H2 H3 H4 H5 H6].
  split; intros; rewrite !SoupCodec_prefixed in *; eauto.
Qed.

(** ** Packets that fit their fields *)

Definition text_ok (w : nat) (s : list Z) : Prop :=
  (length s ≤ w)%nat ∧ utf8_valid s = true ∧ trimmed s.

#[global] Instance LoginRequest_wf : WellFormed LoginRequest.t := λ r,
  text_ok 6 (LoginRequest.username r) ∧ text_ok 10 (LoginRequest.password r)
  ∧ text_ok 10 (LoginRequest.requested_session r) ∧ is_u64 (LoginRequest.requested_sequence r).
#[global] Instance LoginAccepted_wf : WellFormed LoginAccepted.t := λ a,
  text_ok 10 (LoginAccepted.session a) ∧ is_u64 (LoginAccepted.sequence a).
#[global] Instance SoupPacket_wf : WellFormed SoupPacket.t := λ p,
  match p with
  | SoupPacket.Debug p | SoupPacket.SequencedData p | SoupPacket.UnsequencedData p =>
      (3 + length p ≤ MAX_MESSAGE_LEN)%nat
  | SoupPacket.LoginRequest r => wf r
  | SoupPacket.LoginAccepted a => wf a
  | _ => True
  end.

Lemma read_anum_pad_right w s : text_ok w s → read_anum (pad_right s w) = s.
Proof.
  intros (Hl & Hv & Ht). unfold read_anum.
  rewrite pad_right_short, trim_spaces_padded by done. by apply from_utf8_lossy_valid.
Qed.
Lemma read_anum_pad_left w s : text_ok w s → read_anum (pad_left s w) = s.
Proof.
  intros (Hl & Hv & Ht). unfold read_anum.
  rewrite pad_left_short, trim_spaces_padded by done. by apply from_utf8_lossy_valid.
Qed.

Lemma length_write_payload p : wf p → length (write_payload p []) = SoupPacket.payload_len p.
Proof.
  destruct p; simpl; try done; intros Hwf.
  - rewrite !length_app, !length_pad_right, length_pad_left.
    destruct Hwf as (_ & _ & _ & Hs). by rewrite (proj1 (ascii_u64_encode_decode _ Hs)).
  - rewrite length_app, length_pad_left.
    destruct Hwf as (_ & Hs). by rewrite (proj1 (ascii_u64_encode_decode _ Hs)).
Qed.

Lemma write_payload_app p dst : write_payload p dst = dst ++ write_payload p [].
Proof. destruct p; simpl; try done; by rewrite app_nil_r. Qed.

(** Four adjacent fields are read back at their offsets. *)
Lemma sub_fields {A} (f1 f2 f3 f4 : list A) n1 n2 n3 n4 :
  length f1 = n1 → length f2 = n2 → length f3 = n3 → length f4 = n4 →
  sub 0 n1 (f1 ++ f2 ++ f3 ++ f4) = f1 ∧ sub n1 n2 (f1 ++ f2 ++ f3 ++ f4) = f2
  ∧ sub (n1 + n2) n3 (f1 ++ f2 ++ f3 ++ f4) = f3
  ∧ sub (n1 + n2 + n3) n4 (f1 ++ f2 ++ f3 ++ f4) = f4.
Proof.
  intros <- <- <- <-. split_and!.
  - by apply sub_app_here.
  - rewrite sub_app_skip by lia. rewrite Nat.sub_diag. by apply sub_app_here.
  - rewrite !sub_app_skip by lia.
    replace (length f1 + length f2 - length f1 - length f2)%nat with 0%nat by lia.
    by apply sub_app_here.
  - rewrite !sub_app_skip by lia.
    replace (length f1 + length f2 + length f3 - length f1 - length f2 - length f3)%nat
      with 0%nat by lia.
    unfold sub. by rewrite drop_0, firstn_all.
Qed.

Lemma decode_packet_payload p :
  wf p → decode_packet (SoupPacket.tag p) (write_payload p []) = Ok p.
Proof.
  intros Hwf. pose proof (length_write_payload p Hwf) as Hlen.
  destruct p as [p|r|a|r|p|p| | | |]; try done.
  - destruct r as [u pw rs sq]. destruct Hwf as (Hu & Hp & Hr & Hs).
    cbn [LoginRequest.username LoginRequest.password LoginRequest.requested_session
         LoginRequest.requested_sequence] in *.
    destruct (ascii_u64_encode_decode sq Hs) as [Hsl Hsd].
    remember (write_payload _ []) as payload eqn:Ep.
    unfold decode_packet, ensure_len. rewrite Hlen. cbn -[sub]. rewrite Ep. cbn [write_payload app
      LoginRequest.username LoginRequest.password LoginRequest.requested_session
      LoginRequest.requested_sequence].
    destruct (sub_fields (pad_right u 6) (pad_right pw 10) (pad_left rs 10) (encode_ascii_u64 sq)
      6 10 10 20) as (-> & E2 & E3 & E4);
      [apply length_pad_right|apply length_pad_right|apply length_pad_left|done|].
    cbn [Nat.add] in E3, E4. rewrite E2, E3, E4, Hsd.
    by rewrite !read_anum_pad_right, read_anum_pad_left.
  - destruct a as [s sq]. destruct Hwf as (Hr & Hs).
    cbn [LoginAccepted.session LoginAccepted.sequence] in *.
    destruct (ascii_u64_encode_decode sq Hs) as [Hsl Hsd].
    remember (write_payload _ []) as payload eqn:Ep.
    unfold decode_packet, ensure_len. rewrite Hlen. cbn -[sub]. rewrite Ep. cbn [write_payload app
      LoginAccepted.session LoginAccepted.sequence].
    destruct (sub_fields (pad_left s 10) (encode_ascii_u64 sq) [] [] 10 20 0 0)
      as (E1 & E2 & _); [apply length_pad_left|done..|].
    rewrite !app_nil_r in E1, E2. rewrite E1, E2, Hsd. by rewrite read_anum_pad_left.
  - by destruct r.
Qed.

Lemma payload_len_bound p : wf p → (3 + SoupPacket.payload_len p ≤ MAX_MESSAGE_LEN)%nat.
Proof.
  unfold MAX_MESSAGE_LEN. destruct p; cbn [SoupPacket.payload_len]; unfold wf, SoupPacket_wf,
    MAX_MESSAGE_LEN, LOGIN_REQUEST_PAYLOAD_LEN, LOGIN_ACCEPTED_PAYLOAD_LEN,
    LOGIN_REJECTED_PAYLOAD_LEN; lia.
Qed.

(** The frame of a packet. *)
Definition packet_frame (p : SoupPacket.t) : list Z := SoupPacket.tag p :: write_payload p [].

Lemma length_packet_frame p : wf p → length (packet_frame p) = S (SoupPacket.payload_len p).
Proof. intros Hwf. unfold packet_frame. cbn [length]. by rewrite length_write_payload. Qed.

Lemma SoupCodec_encode_frame p dst :
  wf p → SoupCodec.encode p dst = (dst ++ frame_wire (packet_frame p), Ok tt).
Proof.
  intros Hwf. pose proof (payload_len_bound p Hwf). unfold SoupCodec.encode, SoupPacket.encoded_len.
  rewrite (proj2 (Nat.ltb_ge _ _)) by lia. rewrite write_payload_app. f_equal.
  unfold frame_wire. rewrite length_packet_frame by done.
  rewrite <-!app_assoc. do 2 f_equal. f_equal. lia.
Qed.

Lemma soup_frame_packet p : wf p → soup_frame (packet_frame p) = Ok p.
Proof.
  intros Hwf. pose proof (payload_len_bound p Hwf).
  unfold soup_frame, prefixed_result, soup_reject, soup_parse. rewrite length_packet_frame by done.
  rewrite (proj2 (Nat.eqb_neq _ _)), (proj2 (Nat.ltb_ge _ _)) by lia.
  unfold packet_frame. cbn [head from_option drop]. by apply decode_packet_payload.
Qed.

Lemma packet_frame_ok p : wf p → frame_ok (packet_frame p).
Proof.
  intros Hwf. pose proof (payload_len_bound p Hwf) as Hb. unfold frame_ok.
  rewrite length_packet_frame by done. unfold MAX_MESSAGE_LEN in Hb. lia.
Qed.

(** The sender's buffer after a sequence of packets. *)
Fixpoint soup_send (ps : list SoupPacket.t) : mut (list Z) unit SoupError.t :=
  match ps with
  | [] => ok
  | p :: ps => SoupCodec.encode p ;;? soup_send ps
  end.

Lemma soup_send_frames ps dst :
  Forall wf ps → soup_send ps dst = (dst ++ frames_wire (map packet_frame ps), Ok tt).
Proof.
  intros Hm. revert dst. induction Hm as [|p ps Hwf Hm IH]; intros dst.
  - unfold soup_send, ok, frames_wire. simpl. by rewrite app_nil_r.
  - cbn [soup_send]. unfold and_then. rewrite SoupCodec_encode_frame, IH by done.
    unfold frames_wire. cbn [map concat]. by rewrite <-app_assoc.
Qed.

Lemma soup_read_packets ps chunks :
  Forall wf ps → concat chunks = frames_wire (map packet_frame ps) →
  read_chunks SoupCodec.decode chunks Reader.new = (Reader.new, map Ok ps).
Proof.
  intros Hp Hc.
  rewrite (read_chunks_frames (map packet_frame ps)); [|by apply Forall_map; eapply Forall_impl,
    packet_frame_ok|done]. f_equal. rewrite map_map. clear Hc. induction Hp; simpl; [done|].
  by rewrite soup_frame_packet, IHHp.
Qed.

(** ** Properties *)

(** C30: packets written on a SoupBinTCP connection are the packets read from it.
    For packets whose texts fit their fields (and do not start or end with a
    space) and whose payloads have at most 1021 bytes the encoder never fails, and
    however the network cuts its bytes into chunks, the reader yields exactly the
    packets, in order, with nothing left over. *)
Theorem soup_stream_roundtrip ps chunks :
  Forall wf ps →
  ∃ bytes, soup_send ps [] = (bytes, Ok tt)
    ∧ (concat chunks = bytes →
       read_chunks SoupCodec.decode chunks Reader.new = (Reader.new, map Ok ps)).
Proof.
  intros Hp. exists (frames_wire (map packet_frame ps)).
  split; [by rewrite soup_send_frames|]. intros Hc. by apply soup_read_packets.
Qed.

Lemma soup_stream_roundtrip_witness :
  let ps := [SoupPacket.LoginRequest (LoginRequest.mk [b@"j"] [b@"p"; b@"w"] [] 18446744073709551615);
             SoupPacket.SequencedData [1; 2; 3]; SoupPacket.EndOfSession] in
  ∃ bytes, soup_send ps [] = (bytes, Ok tt)
    ∧ read_chunks SoupCodec.decode [take 7 bytes; drop 7 bytes] Reader.new
      = (Reader.new, map Ok ps).
Proof.
  intros ps. assert (Forall wf ps) as Hp.
  { constructor; [|constructor; [|constructor; [|constructor]]]; vm_compute;
      repeat (split || constructor); discriminate. }
  pose (bytes := (soup_send ps []).1).
  destruct (soup_stream_roundtrip ps [take 7 bytes; drop 7 bytes] Hp) as (bytes' & Hs & Hr).
  assert (bytes' = bytes) as -> by (unfold bytes; by rewrite Hs).
  exists bytes. split; [exact Hs|]. apply Hr, concat_take_drop.
Defined.

(** A bad packet does not poison a SoupBinTCP stream. Whatever the frames of
    a stream hold (empty, oversized, an unknown tag, a payload of the wrong
    length, up to the 65535 bytes that a prefix can announce) and however they
    are cut into chunks, the reader yields exactly one result per frame: the
    packet it holds, or one error. *)
Theorem soup_stream_resync frames chunks :
  Forall frame_ok frames → concat chunks = frames_wire frames →
  read_chunks SoupCodec.decode chunks Reader.new
  = (Reader.new,
     map (λ f, match f with
               | [] => Err (SoupError.FrameTooLarge 2 (Z.of_nat MAX_MESSAGE_LEN))
               | tag :: payload =>
                   if (MAX_MESSAGE_LEN <? 2 + length f)%nat
                   then Err (SoupError.FrameTooLarge (Z.of_nat (2 + length f))
                               (Z.of_nat MAX_MESSAGE_LEN))
                   else decode_packet tag payload
               end) frames).
Proof.
  intros Hf Hc. rewrite (read_chunks_frames frames) by done. f_equal.
  apply map_ext. intros [|tag payload]; [done|].
  unfold soup_frame, prefixed_result, soup_reject, soup_parse. cbn [length Nat.eqb].
  by destruct (MAX_MESSAGE_LEN <? 2 + S (length payload))%nat.
Qed.

Lemma soup_stream_resync_witness :
  read_chunks SoupCodec.decode
    [[0]; [1; b@"?"; 8]; [0] ++ replicate 1000 7; replicate 1048 7 ++ [0]; [0; 0; 1; b@"Z"]] Reader.new
  = (Reader.new, [Err (SoupError.UnknownPacketType (b@"?"));
                  Err (SoupError.FrameTooLarge 2050 1024); Err (SoupError.FrameTooLarge 2 1024);
                  Ok SoupPacket.EndOfSession]).
Proof.
  rewrite (soup_stream_resync [[b@"?"]; replicate 2048 7; []; [b@"Z"]]).
  - reflexivity.
  - repeat constructor; vm_compute; reflexivity.
  - vm_compute. reflexivity.
Defined.

(** Sequence numbers survive their twenty-byte decimal field, and decoding a
    field is exact: it succeeds precisely on digits between spaces whose value
    a [u64] can hold, and gives that value. *)
Theorem ascii_u64_correct v src w :
  is_u64 v →
  length (encode_ascii_u64 v) = 20%nat
  ∧ decode_ascii_u64 (encode_ascii_u64 v) = Ok v
  ∧ (decode_ascii_u64 src = Ok w ↔
     all_digits (trim_spaces src) ∧ dec_value (trim_spaces src) = w ∧ w ≤ u64_max).
Proof.
  intros Hv. split; [by apply ascii_u64_encode_decode|].
  split; [by apply ascii_u64_encode_decode|apply decode_ascii_u64_spec].
Qed.

Lemma ascii_u64_correct_witness :
  decode_ascii_u64 (encode_ascii_u64 18446744073709551615) = Ok 18446744073709551615
  ∧ decode_ascii_u64 [space; b@"4"; b@"2"; space] = Ok 42.
Proof.
  destruct (ascii_u64_correct 18446744073709551615 [space; b@"4"; b@"2"; space] 42) as (_ & H1 & H2).
  - vm_compute. split; congruence.
  - split; [exact H1|]. apply H2. split; [repeat constructor|]. vm_compute. split; congruence.
Defined.
