(* ===== verification/Replay.v ===== *)
(** The capture-file iterator ([crates/itch-replay/src/lib.rs]).

    A [Read]er is the sequence of results that its [read] calls produce: a run
    of bytes, of which a call takes what its buffer has room for, or an I/O
    error; when the sequence is over, [read] returns 0.  [read_exact] is the
    source's loop over short reads, at most one per byte.  The iterator's
    scratch buffer is overwritten before it is returned, so only the bytes
    returned are modelled.  The messages of the two [Truncated] texts are kept
    as their arguments. *)

From S2P Require Import Prelude Primitives Enums Messages Codec CodecMessages MessageCodec Framing.

Definition message_total_len (tag : Z) : option nat :=
  let body :=
    if tag =? b@"S" then Some SystemEvent.BODY_LEN
    else if tag =? b@"R" then Some StockDirectory.BODY_LEN
    else if tag =? b@"H" then Some StockTradingAction.BODY_LEN
    else if tag =? b@"Y" then Some RegShoRestriction.BODY_LEN
    else if tag =? b@"L" then Some MarketParticipantPosition.BODY_LEN
    else if tag =? b@"V" then Some MwcbDeclineLevel.BODY_LEN
    else if tag =? b@"W" then Some MwcbStatus.BODY_LEN
    else if tag =? b@"K" then Some IpoQuotingPeriodUpdate.BODY_LEN
    else if tag =? b@"A" then Some AddOrder.BODY_LEN
    else if tag =? b@"F" then Some AddOrderWithMpid.BODY_LEN
    else if tag =? b@"E" then Some OrderExecuted.BODY_LEN
    else if tag =? b@"C" then Some OrderExecutedWithPrice.BODY_LEN
    else if tag =? b@"X" then Some OrderCancel.BODY_LEN
    else if tag =? b@"D" then Some OrderDelete.BODY_LEN
    else if tag =? b@"U" then Some OrderReplace.BODY_LEN
    else if tag =? b@"P" then Some TradeNonCross.BODY_LEN
    else if tag =? b@"Q" then Some CrossTrade.BODY_LEN
    else if tag =? b@"B" then Some BrokenTrade.BODY_LEN
    else if tag =? b@"I" then Some Noii.BODY_LEN
    else if tag =? b@"N" then Some RetailPriceImprovement.BODY_LEN
    else None in
  match body with Some n => Some (1 + n)%nat | None => None end.

Inductive CaptureFormat := Glimpse | RawBodies.

Inductive TruncatedMsg :=
| ExpectedBytes (missing : Z)
| ExpectedAfterPrefix (len : Z)
| ExpectedBody (remaining tag : Z).

Module ReplayError.
Inductive t :=
| Io (msg : string)
| Protocol (e : ProtocolError)
| Truncated (offset : Z) (msg : TruncatedMsg)
| FrameTooLarge (offset got max : Z).
End ReplayError.

(** What the reader's [read] calls produce. *)
Abbreviation reader := (list (result (list Z) string)).

Definition read (k : nat) (r : reader) : reader * result (list Z) string :=
  match r with
  | [] => ([], Ok [])
  | Err e :: r => (r, Err e)
  | Ok c :: r =>
      if (length c <=? k)%nat then (r, Ok c) else (Ok (drop k c) :: r, Ok (take k c))
  end.

(** [while read_total < n], with the bytes read so far; it ends early at the end
    of the file. *)
Fixpoint fill (fuel n : nat) (got : list Z) (r : reader) : reader * result (list Z) string :=
  match fuel with
  | O => (r, Ok got)
  | S fuel =>
      if (length got <? n)%nat then
        match read (n - length got) r with
        | (r, Err e) => (r, Err e)
        | (r, Ok []) => (r, Ok got)
        | (r, Ok bs) => fill fuel n (got ++ bs) r
        end
      else (r, Ok got)
  end.

Module MessageIterator.
Record t := mk { rd : reader; format : CaptureFormat; offset : Z }.
Definition new (r : reader) (format : CaptureFormat) : t := mk r format 0.
Definition MAX_MESSAGE_LEN : nat := 1024.

Definition read_exact (n : nat) (it : t) : t * result (option (list Z)) ReplayError.t :=
  match fill n n [] (rd it) with
  | (r, Err e) => (mk r (format it) (offset it), Err (ReplayError.Io e))
  | (r, Ok got) =>
      if (length got <? n)%nat then
        match got with
        | [] => (mk r (format it) (offset it), Ok None)
        | _ =>
            let off := u64_add (offset it) (Z.of_nat (length got)) in
            (mk r (format it) off,
             Err (ReplayError.Truncated off (ExpectedBytes (Z.of_nat (n - length got)))))
        end
      else (mk r (format it) (u64_add (offset it) (Z.of_nat n)), Ok (Some got))
  end.

Abbreviation item := (option (result Message.t ReplayError.t)).

Definition next_glimpse (it : t) : t * item :=
  match read_exact 2 it with
  | (it, Err e) => (it, Some (Err e))
  | (it, Ok None) => (it, None)
  | (it, Ok (Some len_bytes)) =>
      let len := Z.to_nat (from_be_bytes len_bytes) in
      if (len =? 0)%nat then (it, None)
      else if (MAX_MESSAGE_LEN <? len)%nat then
        (it, Some (Err (ReplayError.FrameTooLarge (offset it) (Z.of_nat len)
                          (Z.of_nat MAX_MESSAGE_LEN))))
      else
        match read_exact len it with
        | (it, Err e) => (it, Some (Err e))
        | (it, Ok None) =>
            (it, Some (Err (ReplayError.Truncated (offset it)
                              (ExpectedAfterPrefix (Z.of_nat len)))))
        | (it, Ok (Some frame)) =>
            match Message_decode frame with
            | Ok msg => (it, Some (Ok msg))
            | Err e => (it, Some (Err (ReplayError.Protocol e)))
            end
        end
  end.

Definition next_raw_bodies (it : t) : t * item :=
  match read_exact 1 it with
  | (it, Err e) => (it, Some (Err e))
  | (it, Ok None) => (it, None)
  | (it, Ok (Some tag_slice)) =>
      let tag := default 0 (head tag_slice) in
      match message_total_len tag with
      | None => (it, Some (Err (ReplayError.Protocol (UnknownMessageType tag))))
      | Some total =>
          if (MAX_MESSAGE_LEN <? total)%nat then
            (it, Some (Err (ReplayError.FrameTooLarge (offset it) (Z.of_nat total)
                              (Z.of_nat MAX_MESSAGE_LEN))))
          else
            let remaining := (total - 1)%nat in
            match read_exact remaining it with
            | (it, Err e) => (it, Some (Err e))
            | (it, Ok None) =>
                (it, Some (Err (ReplayError.Truncated (offset it)
                                  (ExpectedBody (Z.of_nat remaining) tag))))
            | (it, Ok (Some body)) =>
                match Message_decode (tag :: body) with
                | Ok msg => (it, Some (Ok msg))
                | Err e => (it, Some (Err (ReplayError.Protocol e)))
                end
            end
      end
  end.

Definition next (it : t) : t * item :=
  match format it with
  | Glimpse => next_glimpse it
  | RawBodies => next_raw_bodies it
  end.
End MessageIterator.

(** [iter.collect()]: the items up to the first [None]. *)
Fixpoint collect (fuel : nat) (it : MessageIterator.t)
    : MessageIterator.t * list (result Message.t ReplayError.t) :=
  match fuel with
  | O => (it, [])
  | S fuel =>
      match MessageIterator.next it with
      | (it, None) => (it, [])
      | (it, Some x) => let '(it, xs) := collect fuel it in (it, x :: xs)
      end
  end.

(** ** Reading *)

(** The reader supplies the file in non-empty runs, without I/O errors. *)
Definition supplies (r : reader) (file : list Z) : Prop :=
  ∃ chunks, r = map Ok chunks ∧ Forall (λ c, c ≠ []) chunks ∧ concat chunks = file.

Lemma supplies_nil r : supplies r [] → r = [].
Proof.
  intros (chunks & -> & Hne & Hc). destruct chunks as [|c chunks]; [done|].
  inversion Hne. simpl in Hc. by apply app_eq_nil in Hc as [-> _].
Qed.

Lemma read_supplies k r file :
  (0 < k)%nat → file ≠ [] → supplies r file →
  ∃ r' bs, read k r = (r', Ok bs) ∧ bs ≠ [] ∧ (length bs ≤ k)%nat
    ∧ bs ++ drop (length bs) file = file ∧ supplies r' (drop (length bs) file).
Proof.
  intros Hk Hf (chunks & -> & Hne & <-). destruct chunks as [|c chunks]; [done|].
  inversion Hne as [|? ? Hc Hcs]; subst. simpl.
  destruct (Nat.leb_spec (length c) k).
  - exists (map Ok chunks), c. rewrite drop_app_length. split_and!; try done. by exists chunks.
  - exists (Ok (drop k c) :: map Ok chunks), (take k c). rewrite length_take, Nat.min_l by lia.
    split_and!; [done| |done| |].
    + intros Hn. apply (f_equal length) in Hn. rewrite length_take in Hn. simpl in Hn. lia.
    + by rewrite drop_app_le, app_assoc, take_drop by lia.
    + exists (drop k c :: chunks). split_and!; [done| |by rewrite drop_app_le by lia].
      constructor; [|done]. intros Hn. apply (f_equal length) in Hn.
      rewrite length_drop in Hn. simpl in Hn. lia.
Qed.

(** With one iteration per byte the loop reads [n] bytes, or all that are left. *)
Lemma fill_supplies fuel n got r file :
  (n - length got ≤ fuel)%nat → (length got ≤ n)%nat → supplies r file →
  ∃ r', fill fuel n got r = (r', Ok (got ++ take (n - length got) file))
    ∧ supplies r' (drop (n - length got) file).
Proof.
  revert got r file. induction fuel as [|fuel IH]; intros got r file Hf Hg Hs.
  { assert (n - length got = 0)%nat as -> by lia. exists r. by rewrite take_0, app_nil_r, drop_0. }
  simpl. destruct (Nat.ltb_spec (length got) n).
  2:{ assert (n - length got = 0)%nat as -> by lia. exists r.
      by rewrite take_0, app_nil_r, drop_0. }
  destruct file as [|b file'] eqn:Ef.
  { pose proof (supplies_nil r Hs) as ->. exists []. simpl.
    by rewrite take_nil, app_nil_r, drop_nil. }
  destruct (read_supplies (n - length got) r (b :: file')) as (r1 & bs & -> & Hb & Hl & Hc & Hs1);
    [lia|done|done|]. rewrite <-Ef in *. clear Ef.
  assert (0 < length bs)%nat as Hpos by (destruct bs; [done|simpl; lia]).
  destruct (IH (got ++ bs) r1 (drop (length bs) file)) as (r2 & Hfill & Hs2);
    [rewrite length_app; lia|rewrite length_app; lia|done|].
  exists r2. rewrite length_app, Nat.sub_add_distr in Hfill, Hs2.
  rewrite <-Hc at 1. split.
  - destruct bs as [|x bs]; [done|]. rewrite Hfill, <-app_assoc. do 2 f_equal.
    rewrite take_app_ge by lia. done.
  - rewrite drop_drop in Hs2. by replace (length bs + (n - length got - length bs))%nat
      with (n - length got)%nat in Hs2 by lia.
Qed.

Lemma read_exact_supplies n it file :
  (0 < n)%nat → supplies (MessageIterator.rd it) file →
  0 ≤ MessageIterator.offset it →
  MessageIterator.offset it + Z.of_nat (length file) ≤ u64_max →
  ∃ r', supplies r' (drop n file) ∧
  MessageIterator.read_exact n it =
    let off := MessageIterator.offset it + Z.of_nat (Nat.min n (length file)) in
    (MessageIterator.mk r' (MessageIterator.format it) off,
     if (n <=? length file)%nat then Ok (Some (take n file))
     else match file with
          | [] => Ok None
          | _ => Err (ReplayError.Truncated off (ExpectedBytes (Z.of_nat (n - length file))))
          end).
Proof.
  intros Hn Hs Ho Hu. unfold MessageIterator.read_exact.
  destruct (fill_supplies n n [] (MessageIterator.rd it) file) as (r' & -> & Hs');
    [simpl; lia|simpl; lia|done|]. simpl length. rewrite Nat.sub_0_r in Hs' |- *. simpl app.
  exists r'. split; [done|]. rewrite length_take. cbv zeta.
  destruct (Nat.leb_spec n (length file)).
  - rewrite Nat.min_l by lia. rewrite Nat.ltb_irrefl. by rewrite u64_add_small by lia.
  - rewrite Nat.min_r, (proj2 (Nat.ltb_lt _ _)), take_ge by lia.
    destruct file as [|b file]; [simpl; by rewrite Z.add_0_r|].
    by rewrite u64_add_small by lia.
Qed.

(** ** Records of a capture file *)

Definition record_wire (format : CaptureFormat) (msg : Message.t) : list Z :=
  match format with
  | Glimpse => frame_wire (message_wire msg)
  | RawBodies => message_wire msg
  end.
Definition capture (format : CaptureFormat) (msgs : list Message.t) : list Z :=
  concat (map (record_wire format) msgs).

(** The tag table agrees with the message's own length. *)
Lemma message_total_len_tag msg : message_total_len (Message.tag msg) = Some (Message.encoded_len msg).
Proof. by destruct msg. Qed.

Lemma Message_decode_whole msg : wf msg → Message_decode (message_wire msg) = Ok msg.
Proof. intros Hwf. rewrite <-(app_nil_r (message_wire msg)). by apply Message_decode_wire. Qed.

Lemma message_frame_len msg :
  wf msg → from_be_bytes (to_be_bytes 2 (Z.of_nat (length (message_wire msg))))
           = Z.of_nat (length (message_wire msg)).
Proof.
  intros Hwf. apply (from_be_to_be 2 16); [done|]. rewrite length_message_wire by done.
  pose proof (encoded_len_bounds msg). split; lia.
Qed.

(** The iterator has [file] before it. *)
Record ahead (file : list Z) (it : MessageIterator.t) : Prop := {
  ah_supplies : supplies (MessageIterator.rd it) file;
  ah_offset : 0 ≤ MessageIterator.offset it;
  ah_bound : MessageIterator.offset it + Z.of_nat (length file) ≤ u64_max;
}.

(** [it'] stands [n] bytes further. *)
Definition moved (n : nat) (it it' : MessageIterator.t) : Prop :=
  MessageIterator.format it' = MessageIterator.format it
  ∧ MessageIterator.offset it' = MessageIterator.offset it + Z.of_nat n.

Lemma read_exact_ahead n it file :
  (0 < n)%nat → ahead file it →
  ∃ it', moved (Nat.min n (length file)) it it' ∧ ahead (drop n file) it' ∧
  MessageIterator.read_exact n it =
    (it', if (n <=? length file)%nat then Ok (Some (take n file))
          else match file with
               | [] => Ok None
               | _ => Err (ReplayError.Truncated (MessageIterator.offset it')
                             (ExpectedBytes (Z.of_nat (n - length file))))
               end).
Proof.
  intros Hn [Hs Ho Hu]. destruct (read_exact_supplies n it file) as (r' & Hs' & ->); [done..|].
  exists (MessageIterator.mk r' (MessageIterator.format it)
    (MessageIterator.offset it + Z.of_nat (Nat.min n (length file)))).
  split; [|split; [|reflexivity]]; split; simpl; try done; try lia.
  rewrite length_drop. lia.
Qed.

Lemma moved_trans a b it1 it2 it3 : moved a it1 it2 → moved b it2 it3 → moved (a + b) it1 it3.
Proof. intros [? ?] [? ?]. split; [congruence|lia]. Qed.

(** A whole record is read in one step. *)
Lemma next_glimpse_record it msg rest :
  wf msg → ahead (frame_wire (message_wire msg) ++ rest) it →
  ∃ it', MessageIterator.next_glimpse it = (it', Some (Ok msg)) ∧ ahead rest it'
    ∧ moved (length (frame_wire (message_wire msg))) it it'.
Proof.
  intros Hwf Ha. pose proof (length_message_wire msg Hwf) as Hlen.
  pose proof (encoded_len_bounds msg) as Hb. unfold frame_wire in *. rewrite <-app_assoc in Ha.
  assert (length (to_be_bytes 2 (Z.of_nat (length (message_wire msg)))) = 2%nat) as H2
    by apply length_to_be_bytes.
  destruct (read_exact_ahead 2 it _ ltac:(lia) Ha) as (it1 & Hm1 & Ha1 & E1).
  rewrite length_app in Hm1, E1.
  rewrite Nat.min_l in Hm1 by lia. rewrite drop_app_length' in Ha1 by lia.
  rewrite (proj2 (Nat.leb_le _ _)), take_app_length' in E1 by lia.
  destruct (read_exact_ahead (length (message_wire msg)) it1 _ ltac:(lia) Ha1)
    as (it2 & Hm2 & Ha2 & E2). rewrite length_app in Hm2, E2.
  rewrite Nat.min_l in Hm2 by lia. rewrite drop_app_length in Ha2.
  rewrite (proj2 (Nat.leb_le _ _)), take_app_length in E2 by lia.
  exists it2. unfold MessageIterator.next_glimpse. rewrite E1. cbv zeta.
  rewrite message_frame_len, Nat2Z.id by done.
  rewrite (proj2 (Nat.eqb_neq _ _)), (proj2 (Nat.ltb_ge _ _))
    by (unfold MessageIterator.MAX_MESSAGE_LEN; lia).
  rewrite E2, Message_decode_whole, length_app, H2 by done.
  split_and!; [done|done|]. by eapply moved_trans.
Qed.

Lemma next_raw_record it msg rest :
  wf msg → ahead (message_wire msg ++ rest) it →
  ∃ it', MessageIterator.next_raw_bodies it = (it', Some (Ok msg)) ∧ ahead rest it'
    ∧ moved (length (message_wire msg)) it it'.
Proof.
  intros Hwf Ha. pose proof (length_message_wire msg Hwf) as Hlen.
  pose proof (encoded_len_bounds msg) as Hb. pose proof (Message_decode_whole msg Hwf) as Hd.
  unfold message_wire in *. cbn [app length] in *.
  destruct (read_exact_ahead 1 it _ ltac:(lia) Ha) as (it1 & Hm1 & Ha1 & E1).
  cbn [length Nat.leb take drop] in E1, Ha1. rewrite take_0 in E1. rewrite drop_0 in Ha1.
  destruct (read_exact_ahead (length (body_wire msg)) it1 _ ltac:(lia) Ha1)
    as (it2 & Hm2 & Ha2 & E2). rewrite length_app in Hm2, E2.
  rewrite Nat.min_l in Hm2 by lia. rewrite drop_app_length in Ha2.
  rewrite (proj2 (Nat.leb_le _ _)), take_app_length in E2 by lia.
  exists it2. unfold MessageIterator.next_raw_bodies. rewrite E1. cbn [head from_option].
  unfold id. rewrite message_total_len_tag.
  rewrite (proj2 (Nat.ltb_ge _ _)) by (unfold MessageIterator.MAX_MESSAGE_LEN; lia).
  replace (Message.encoded_len msg - 1)%nat with (length (body_wire msg)) by lia.
  rewrite E2, Hd. split_and!; [done|done|].
  exact (moved_trans 1 (length (body_wire msg)) _ _ _ Hm1 Hm2).
Qed.

Lemma next_record it msg rest :
  wf msg → ahead (record_wire (MessageIterator.format it) msg ++ rest) it →
  ∃ it', MessageIterator.next it = (it', Some (Ok msg)) ∧ ahead rest it'
    ∧ moved (length (record_wire (MessageIterator.format it) msg)) it it'.
Proof.
  intros Hwf Ha. unfold MessageIterator.next. destruct (MessageIterator.format it).
  - by apply next_glimpse_record.
  - by apply next_raw_record.
Qed.

(** At the end of the file there is no item. *)
Lemma next_end it : ahead [] it → ∃ it', MessageIterator.next it = (it', None) ∧ moved 0 it it'.
Proof.
  intros Ha. unfold MessageIterator.next, MessageIterator.next_glimpse,
    MessageIterator.next_raw_bodies.
  destruct (MessageIterator.format it).
  - destruct (read_exact_ahead 2 it [] ltac:(lia) Ha) as (it1 & Hm & _ & ->). by exists it1.
  - destruct (read_exact_ahead 1 it [] ltac:(lia) Ha) as (it1 & Hm & _ & ->). by exists it1.
Qed.

(** The file ends inside a read: the error stands at the end of the file. *)
Lemma read_exact_cut n it file :
  (length file < n)%nat → ahead file it →
  ∃ it', moved (length file) it it' ∧ ahead [] it' ∧
  MessageIterator.read_exact n it =
    (it', match file with
          | [] => Ok None
          | _ => Err (ReplayError.Truncated (MessageIterator.offset it')
                        (ExpectedBytes (Z.of_nat (n - length file))))
          end).
Proof.
  intros Hn Ha. destruct (read_exact_ahead n it file ltac:(lia) Ha) as (it' & Hm & Ha' & E).
  rewrite Nat.min_r in Hm by lia. rewrite drop_ge in Ha' by lia.
  rewrite (proj2 (Nat.leb_gt _ _)) in E by lia. by exists it'.
Qed.

Lemma next_glimpse_cut it msg cut k :
  wf msg → frame_wire (message_wire msg) = cut ++ k → cut ≠ [] → k ≠ [] → ahead cut it →
  ∃ it' why, MessageIterator.next_glimpse it
      = (it', Some (Err (ReplayError.Truncated (MessageIterator.offset it') why)))
    ∧ ahead [] it' ∧ moved (length cut) it it'.
Proof.
  intros Hwf Hw Hc Hk Ha. unfold MessageIterator.next_glimpse.
  destruct (Nat.lt_ge_cases (length cut) 2) as [Hl|Hl].
  { destruct (read_exact_cut 2 it cut Hl Ha) as (it1 & Hm1 & Ha1 & ->).
    destruct cut as [|b cut]; [done|]. by exists it1, (ExpectedBytes (Z.of_nat (2 - length (b :: cut)))). }
  assert (length (frame_wire (message_wire msg)) = (2 + length (message_wire msg))%nat) as Hfl.
  { unfold frame_wire. by rewrite length_app, length_to_be_bytes. }
  pose proof (encoded_len_bounds msg) as Hb. pose proof (length_message_wire msg Hwf) as Hlen.
  assert (0 < length k)%nat by (destruct k; [done|simpl; lia]).
  rewrite Hw, length_app in Hfl. apply (f_equal (take 2)) in Hw.
  unfold frame_wire in Hw. rewrite take_app_length', take_app_le in Hw
    by (rewrite ?length_to_be_bytes; lia).
  destruct (read_exact_ahead 2 it cut ltac:(lia) Ha) as (it1 & Hm1 & Ha1 & ->).
  rewrite (proj2 (Nat.leb_le _ _)), <-Hw, message_frame_len, Nat2Z.id by (done || lia). cbv zeta.
  rewrite (proj2 (Nat.eqb_neq _ _)), (proj2 (Nat.ltb_ge _ _))
    by (unfold MessageIterator.MAX_MESSAGE_LEN; lia). rewrite Nat.min_l in Hm1 by lia.
  destruct (read_exact_cut (length (message_wire msg)) it1 (drop 2 cut)) as (it2 & Hm2 & Ha2 & ->);
    [rewrite length_drop; lia|done|].
  rewrite length_drop in Hm2. pose proof (moved_trans _ _ _ _ _ Hm1 Hm2) as Hm.
  replace (2 + (length cut - 2))%nat with (length cut) in Hm by lia.
  destruct (drop 2 cut); by eexists it2, _.
Qed.

Lemma next_raw_cut it msg cut k :
  wf msg → message_wire msg = cut ++ k → cut ≠ [] → k ≠ [] → ahead cut it →
  ∃ it' why, MessageIterator.next_raw_bodies it
      = (it', Some (Err (ReplayError.Truncated (MessageIterator.offset it') why)))
    ∧ ahead [] it' ∧ moved (length cut) it it'.
Proof.
  intros Hwf Hw Hc Hk Ha. unfold MessageIterator.next_raw_bodies.
  pose proof (encoded_len_bounds msg) as Hb. pose proof (length_message_wire msg Hwf) as Hlen.
  assert (0 < length k)%nat by (destruct k; [done|simpl; lia]).
  rewrite Hw, length_app in Hlen. destruct cut as [|b cut]; [done|].
  injection Hw as <- Hw. cbn [length] in Hlen.
  destruct (read_exact_ahead 1 it _ ltac:(lia) Ha) as (it1 & Hm1 & Ha1 & ->).
  cbn [length Nat.leb take drop head from_option] in *. unfold id. rewrite drop_0 in Ha1.
  rewrite message_total_len_tag.
  rewrite (proj2 (Nat.ltb_ge _ _)) by (unfold MessageIterator.MAX_MESSAGE_LEN; lia).
  destruct (read_exact_cut (Message.encoded_len msg - 1) it1 cut) as (it2 & Hm2 & Ha2 & ->);
    [lia|done|]. pose proof (moved_trans _ _ _ _ _ Hm1 Hm2) as Hm.
  destruct cut; by eexists it2, _.
Qed.

Lemma next_cut it msg cut k :
  wf msg → record_wire (MessageIterator.format it) msg = cut ++ k → cut ≠ [] → k ≠ [] →
  ahead cut it →
  ∃ it' why, MessageIterator.next it
      = (it', Some (Err (ReplayError.Truncated (MessageIterator.offset it') why)))
    ∧ ahead [] it' ∧ moved (length cut) it it'.
Proof.
  unfold MessageIterator.next. destruct (MessageIterator.format it); simpl record_wire.
  - apply next_glimpse_cut.
  - apply next_raw_cut.
Qed.

(** Collecting reads the records in order and goes on behind them. *)
Lemma collect_records msgs rest it n :
  Forall wf msgs → ahead (capture (MessageIterator.format it) msgs ++ rest) it →
  ∃ it', ahead rest it' ∧ moved (length (capture (MessageIterator.format it) msgs)) it it'
    ∧ collect (length msgs + n) it = ((collect n it').1, map Ok msgs ++ (collect n it').2).
Proof.
  intros Hm. revert it. induction Hm as [|msg msgs Hwf Hm IH]; intros it Ha.
  { exists it. split_and!; [done|split; [done|simpl; lia]|]. simpl. by destruct (collect n it). }
  unfold capture in Ha. cbn [map concat] in Ha. rewrite <-app_assoc in Ha.
  destruct (next_record it msg _ Hwf Ha) as (it1 & E1 & Ha1 & Hm1).
  pose proof (proj1 Hm1) as Hf. rewrite <-Hf in Ha1. destruct (IH it1 Ha1) as (it2 & Ha2 & Hm2 & E2).
  exists it2. split; [done|]. split.
  - unfold capture. cbn [map concat]. rewrite length_app. eapply moved_trans; [exact Hm1|].
    by rewrite Hf in Hm2.
  - cbn [length Nat.add collect]. rewrite E1, E2. done.
Qed.

(** ** Properties *)

(** C31: replaying a capture gives the messages that were captured. For both file
    formats, and however the reader hands out the bytes, the iterator yields
    exactly the messages, then ends, with its offset at the end of the file. *)
Theorem replay_roundtrip format msgs chunks n :
  Forall wf msgs → Forall (λ c, c ≠ []) chunks → concat chunks = capture format msgs →
  Z.of_nat (length (capture format msgs)) ≤ u64_max → (length msgs < n)%nat →
  ∃ it, collect n (MessageIterator.new (map Ok chunks) format) = (it, map Ok msgs)
    ∧ MessageIterator.offset it = Z.of_nat (length (capture format msgs)).
Proof.
  intros Hm Hne Hc Hu Hn. set (it0 := MessageIterator.new (map Ok chunks) format).
  assert (ahead (capture format msgs ++ []) it0) as Ha.
  { rewrite app_nil_r. split; simpl; [by exists chunks|done|lia]. }
  replace n with (length msgs + S (n - length msgs - 1))%nat by lia.
  destruct (collect_records msgs [] it0 (S (n - length msgs - 1)) Hm Ha) as (it1 & Ha1 & Hm1 & ->).
  destruct (next_end it1 Ha1) as (it2 & E2 & Hm2). pose proof (moved_trans _ _ _ _ _ Hm1 Hm2) as [_ Ho].
  exists it2. cbn [collect]. rewrite E2. simpl in *. rewrite app_nil_r. split; [done|].
  rewrite Nat.add_0_r in Ho. exact Ho.
Qed.

Lemma replay_roundtrip_witness :
  let msgs := [Message.OrderDelete OrderDelete.default; Message.Noii Noii.default] in
  let file := capture Glimpse msgs in
  ∃ it, collect 3 (MessageIterator.new (map Ok [take 1 file; take 10 (drop 1 file); drop 11 file]) Glimpse)
    = (it, map Ok msgs) ∧ MessageIterator.offset it = 73.
Proof.
  intros msgs file. assert (Forall wf msgs) as Hm.
  { constructor; [|constructor; [|constructor]]; vm_compute;
      repeat (split || constructor); discriminate. }
  apply (replay_roundtrip Glimpse msgs [take 1 file; take 10 (drop 1 file); drop 11 file] 3 Hm).
  - repeat constructor; vm_compute; discriminate.
  - vm_compute. reflexivity.
  - vm_compute. discriminate.
  - vm_compute. lia.
Defined.

(** A capture that breaks off inside a record yields every whole message
    before it, then one [Truncated] error whose offset is the end of the file,
    then ends. *)
Theorem replay_truncated format msgs msg cut k chunks n :
  Forall wf msgs → wf msg → record_wire format msg = cut ++ k → cut ≠ [] → k ≠ [] →
  Forall (λ c, c ≠ []) chunks → concat chunks = capture format msgs ++ cut →
  Z.of_nat (length (capture format msgs ++ cut)) ≤ u64_max → (S (length msgs) < n)%nat →
  ∃ it why, collect n (MessageIterator.new (map Ok chunks) format)
    = (it, map Ok msgs
           ++ [Err (ReplayError.Truncated (Z.of_nat (length (capture format msgs ++ cut))) why)]).
Proof.
  intros Hm Hwf Hw Hc Hk Hne Hcc Hu Hn. set (it0 := MessageIterator.new (map Ok chunks) format).
  assert (ahead (capture format msgs ++ cut) it0) as Ha.
  { split; simpl; [by exists chunks|done|lia]. }
  replace n with (length msgs + S (S (n - length msgs - 2)))%nat by lia.
  destruct (collect_records msgs cut it0 (S (S (n - length msgs - 2))) Hm Ha) as (it1 & Ha1 & Hm1 & ->).
  pose proof (proj1 Hm1) as Hf.
  destruct (next_cut it1 msg cut k) as (it2 & why & E2 & Ha2 & Hm2); [done|by rewrite Hf|done..|].
  destruct (next_end it2 Ha2) as (it3 & E3 & _).
  pose proof (moved_trans _ _ _ _ _ Hm1 Hm2) as [_ Ho]. simpl in Ho.
  exists it3, why. cbn [collect]. rewrite E2, E3. simpl. by rewrite Ho, length_app.
Qed.

Lemma replay_truncated_witness :
  let msg := Message.OrderDelete OrderDelete.default in
  let file := capture RawBodies [msg] ++ take 5 (record_wire RawBodies msg) in
  ∃ it why, collect 3 (MessageIterator.new (map Ok [file]) RawBodies)
    = (it, map Ok [msg] ++ [Err (ReplayError.Truncated 24 why)]).
Proof.
  intros msg file. assert (wf msg) as Hm.
  { vm_compute. repeat (split || constructor); discriminate. }
  apply (replay_truncated RawBodies [msg] msg (take 5 (record_wire RawBodies msg))
    (drop 5 (record_wire RawBodies msg)) [file] 3).
  - by constructor.
  - exact Hm.
  - by rewrite take_drop.
  - vm_compute. discriminate.
  - vm_compute. discriminate.
  - repeat constructor. vm_compute. discriminate.
  - vm_compute. reflexivity.
  - vm_compute. discriminate.
  - vm_compute. lia.
Defined.
