(* ===== verification/SoupSession.v ===== *)
(** The client side of a SoupBinTCP session
    ([crates/itch-soup/src/connection.rs], [heartbeat.rs]).

    A connection reads packets from a [Framed] stream.  What the stream will
    yield is a list of events: [Some (Ok p)] for a packet, [Some (Err e)] for an
    error of the codec or the socket, [None] for the end of the stream (which
    [tokio_util] also reports once after an error); the empty list is a stream
    with nothing to read yet.  Every turn of [poll_next]'s loop takes one event.
    The write half is the buffer [out] of bytes handed to the socket; a [send]
    takes the outcome of the socket's readiness and flush as an input.
    During a login the end of the list means that nothing more arrives before
    the timeout.  A [Duration] is a number of nanoseconds. *)

From S2P Require Import Prelude Primitives Enums Messages Codec CodecMessages MessageCodec.
From S2P Require Import Framing SoupCodec.

Abbreviation packet_event := (option (result SoupPacket.t SoupError.t)).

Inductive Poll (A : Type) := Ready (a : A) | Pending.
Arguments Ready {A} a.
Arguments Pending {A}.

(** ** [str::trim] *)

(** The number of bytes of the white-space character at the front of a UTF-8
    string; 0 where there is none. *)
Definition space_width (bs : list Z) : nat :=
  match bs with
  | b0 :: t =>
      if in_range 0x09 0x0D b0 || (b0 =? 0x20) then 1%nat
      else
        match t with
        | b1 :: t =>
            if (b0 =? 0xC2) && ((b1 =? 0x85) || (b1 =? 0xA0)) then 2%nat
            else
              match t with
              | b2 :: _ =>
                  if (b0 =? 0xE1) && (b1 =? 0x9A) && (b2 =? 0x80)
                     || (b0 =? 0xE2) && (b1 =? 0x80)
                        && (in_range 0x80 0x8A b2 || (b2 =? 0xA8) || (b2 =? 0xA9) || (b2 =? 0xAF))
                     || (b0 =? 0xE2) && (b1 =? 0x81) && (b2 =? 0x9F)
                     || (b0 =? 0xE3) && (b1 =? 0x80) && (b2 =? 0x80)
                  then 3%nat else 0%nat
              | [] => 0%nat
              end
        | [] => 0%nat
        end
  | [] => 0%nat
  end.

(** The same at the back: a character of UTF-8 ends where its bytes end. *)
Definition back_space_width (bs : list Z) : nat :=
  let n := length bs in
  if (space_width (drop (n - 1) bs) =? 1)%nat && (1 <=? n)%nat then 1%nat
  else if (space_width (drop (n - 2) bs) =? 2)%nat && (2 <=? n)%nat then 2%nat
  else if (space_width (drop (n - 3) bs) =? 3)%nat && (3 <=? n)%nat then 3%nat
  else 0%nat.

(** A step takes off at least a byte, so the length is fuel enough. *)
Fixpoint trim_front (fuel : nat) (bs : list Z) : list Z :=
  match fuel with
  | O => bs
  | S fuel =>
      match space_width bs with O => bs | w => trim_front fuel (drop w bs) end
  end.
Fixpoint trim_back (fuel : nat) (bs : list Z) : list Z :=
  match fuel with
  | O => bs
  | S fuel =>
      match back_space_width bs with
      | O => bs
      | w => trim_back fuel (take (length bs - w) bs)
      end
  end.
Definition str_trim (bs : list Z) : list Z :=
  let bs := trim_front (length bs) bs in trim_back (length bs) bs.

(** ** Sending *)

(** What the socket does with a [Framed::send]: the buffer cannot be made ready
    or flushed in time ([Stalled]), or an I/O error occurs, before or after the
    packet was encoded into the buffer. *)
Inductive send_io :=
| Flushed
| ReadyFailed (kind : string)
| FlushFailed (kind : string)
| ReadyStalled
| FlushStalled.

(** [framed.send(packet)] under a timeout: [None] where the timeout elapses. *)
Definition framed_send (packet : SoupPacket.t) (io : send_io) (out : list Z)
    : list Z * option (result unit SoupError.t) :=
  match io with
  | ReadyFailed kind => (out, Some (Err (SoupError.Io kind)))
  | ReadyStalled => (out, None)
  | Flushed | FlushFailed _ | FlushStalled =>
      match SoupCodec.encode packet out with
      | (out, Err e) => (out, Some (Err e))
      | (out, Ok _) =>
          (out, match io with
                | FlushFailed kind => Some (Err (SoupError.Io kind))
                | FlushStalled => None
                | _ => Some (Ok tt)
                end)
      end
  end.

(** [let mut buf = vec![0u8; msg.encoded_len()]; msg.encode(&mut buf)] *)
Definition encode_vec (msg : Message.t) : result (list Z) ProtocolError :=
  let '(buf, r) := Message_encode msg (replicate (Message.encoded_len msg) 0) in
  let? _ := r in Ok buf.

(** ** The connection *)

Definition DEFAULT_LOGIN_TIMEOUT : Z := 10000000000.
Definition DEFAULT_SEND_TIMEOUT : Z := 250000000.
Definition DEBUG_CHANNEL_CAPACITY : nat := 16.

Module SoupCredentials.
Record t := mk { username : list Z; password : list Z }.
Definition new (username password : list Z) : t := mk username password.
End SoupCredentials.

(** The bounded channel of [debug_packets]: what is queued, and whether the
    receiver still exists. *)
Module DebugChannel.
Record t := mk { queue : list (list Z); closed : bool }.
Inductive outcome := Sent | Full | Closed.
Definition channel : t := mk [] false.
Definition try_send (payload : list Z) (ch : t) : t * outcome :=
  if closed ch then (ch, Closed)
  else if (length (queue ch) <? DEBUG_CHANNEL_CAPACITY)%nat
  then (mk (queue ch ++ [payload]) false, Sent)
  else (ch, Full).
End DebugChannel.

Module SoupConnection.
Record t := mk {
  session : list Z;
  expected_sequence : Z;
  session_ended : bool;
  debug_tx : option DebugChannel.t;
  send_timeout : Z;
  out : list Z;
}.

Definition next_expected_sequence (c : t) : Z := expected_sequence c.
Definition set_expected (n : Z) (c : t) : t :=
  mk (session c) n (session_ended c) (debug_tx c) (send_timeout c) (out c).
Definition set_ended (c : t) : t :=
  mk (session c) (expected_sequence c) true (debug_tx c) (send_timeout c) (out c).
Definition set_debug (tx : option DebugChannel.t) (c : t) : t :=
  mk (session c) (expected_sequence c) (session_ended c) tx (send_timeout c) (out c).
Definition set_out (bs : list Z) (c : t) : t :=
  mk (session c) (expected_sequence c) (session_ended c) (debug_tx c) (send_timeout c) bs.
Definition with_send_timeout (timeout : Z) (c : t) : t :=
  mk (session c) (expected_sequence c) (session_ended c) (debug_tx c) timeout (out c).

Definition debug_packets (c : t) : t := set_debug (Some DebugChannel.channel) c.

Definition deliver_sequenced (payload : list Z) : mut t Message.t SoupError.t := λ c,
  match Message_decode payload with
  | Ok msg => (set_expected (u64_saturating_add (expected_sequence c) 1) c, Ok msg)
  | Err e => (c, Err (SoupError.Protocol e))
  end.

(** The [Debug] arm. *)
Definition route_debug (payload : list Z) (c : t) : t :=
  match debug_tx c with
  | Some tx =>
      match DebugChannel.try_send payload tx with
      | (tx, DebugChannel.Sent) | (tx, DebugChannel.Full) => set_debug (Some tx) c
      | (_, DebugChannel.Closed) => set_debug None c
      end
  | None => c
  end.

Fixpoint poll_loop (evs : list packet_event) (c : t)
    : t * list packet_event * Poll (option (result Message.t SoupError.t)) :=
  match evs with
  | [] => (c, [], Pending)
  | None :: evs => (c, evs, Ready None)
  | Some (Err e) :: evs => (c, evs, Ready (Some (Err e)))
  | Some (Ok packet) :: evs =>
      match packet with
      | SoupPacket.SequencedData payload =>
          let '(c, r) := deliver_sequenced payload c in (c, evs, Ready (Some r))
      | SoupPacket.EndOfSession =>
          (set_ended c, evs, Ready (Some (Err SoupError.SessionEnded)))
      | SoupPacket.ServerHeartbeat => poll_loop evs c
      | SoupPacket.Debug payload => poll_loop evs (route_debug payload c)
      | SoupPacket.LoginAccepted _ | SoupPacket.LoginRejected _ =>
          (c, evs, Ready (Some (Err (SoupError.UnexpectedHandshakePacket (SoupPacket.tag packet)))))
      | SoupPacket.LoginRequest _ | SoupPacket.UnsequencedData _
      | SoupPacket.ClientHeartbeat | SoupPacket.LogoutRequest =>
          (c, evs, Ready (Some (Err (SoupError.SoupFraming
             "client-direction packet on a server stream"))))
      end
  end.

Definition poll_next (evs : list packet_event) (c : t)
    : t * list packet_event * Poll (option (result Message.t SoupError.t)) :=
  if session_ended c then (c, evs, Ready None) else poll_loop evs c.

Definition send_unsequenced (msg : Message.t) (io : send_io) : mut t unit SoupError.t := λ c,
  match encode_vec msg with
  | Err e => (c, Err (SoupError.Protocol e))
  | Ok buf =>
      let '(out, res) := framed_send (SoupPacket.UnsequencedData buf) io (out c) in
      (set_out out c,
       match res with Some res => res | None => Err (SoupError.Io "WouldBlock") end)
  end.

(** The names under which older callers use the two. *)
Definition send (msg : Message.t) (io : send_io) : mut t unit SoupError.t := send_unsequenced msg io.
Definition next_message (evs : list packet_event) (c : t)
    : t * list packet_event * Poll (option (result Message.t SoupError.t)) := poll_next evs c.

(** [logout] consumes the connection; [close] flushes and shuts down the write
    half.  There is no timeout here: [None] is a call that does not return. *)
Definition logout (io : send_io) (close : result unit string) (c : t)
    : list Z * option (result unit SoupError.t) :=
  match framed_send SoupPacket.LogoutRequest io (out c) with
  | (out, Some (Ok _)) =>
      (out, Some (match close with Ok _ => Ok tt | Err kind => Err (SoupError.Io kind) end))
  | (out, res) => (out, res)
  end.
End SoupConnection.

(** ** Login *)

(** The loop that awaits the reply. *)
Fixpoint await_reply (evs : list packet_event) (req_session : list Z) (timeout : Z) (out : list Z)
    : list packet_event * result SoupConnection.t SoupError.t :=
  match evs with
  | [] => ([], Err (SoupError.LoginTimeout timeout))
  | next :: evs =>
      match next with
      | None => (evs, Err SoupError.PrematureClose)
      | Some (Err e) => (evs, Err e)
      | Some (Ok (SoupPacket.LoginAccepted (LoginAccepted.mk session sequence))) =>
          (evs,
           if negb (bool_decide (req_session = []))
              && negb (bool_decide (str_trim session = str_trim req_session))
           then Err (SoupError.SessionMismatch req_session session)
           else Ok (SoupConnection.mk session sequence false None DEFAULT_SEND_TIMEOUT out))
      | Some (Ok (SoupPacket.LoginRejected reason)) => (evs, Err (SoupError.LoginRejected reason))
      | Some (Ok (SoupPacket.Debug _)) => await_reply evs req_session timeout out
      | Some (Ok other) => (evs, Err (SoupError.UnexpectedHandshakePacket (SoupPacket.tag other)))
      end
  end.

(** The events left for the connection, the bytes written, and the result. *)
Definition login_with_timeout (evs : list packet_event) (io : send_io)
    (credentials : SoupCredentials.t) (requested_session : list Z) (requested_sequence : Z)
    (timeout : Z) : list packet_event * list Z * result SoupConnection.t SoupError.t :=
  let req := SoupPacket.LoginRequest
    (LoginRequest.mk (SoupCredentials.username credentials) (SoupCredentials.password credentials)
       requested_session requested_sequence) in
  match framed_send req io [] with
  | (out, None) => (evs, out, Err (SoupError.LoginTimeout timeout))
  | (out, Some (Err e)) => (evs, out, Err e)
  | (out, Some (Ok _)) =>
      let '(evs, r) := await_reply evs requested_session timeout out in (evs, out, r)
  end.
Definition login (evs : list packet_event) (io : send_io) (credentials : SoupCredentials.t)
    (requested_session : list Z) (requested_sequence : Z)
    : list packet_event * list Z * result SoupConnection.t SoupError.t :=
  login_with_timeout evs io credentials requested_session requested_sequence DEFAULT_LOGIN_TIMEOUT.

(** ** Delivery *)

Lemma encode_vec_wire msg : wf msg → encode_vec msg = Ok (message_wire msg).
Proof.
  intros Hwf. unfold encode_vec. rewrite Message_encode_wire by (done || by rewrite length_replicate).
  by rewrite drop_ge, app_nil_r by (by rewrite length_replicate).
Qed.

Module Delivery.
Import SoupConnection.

(** Polls a stream until it is pending or has ended; every other poll takes an
    event, so the number of events and one is enough. *)
Fixpoint poll_all (fuel : nat) (evs : list packet_event) (c : t)
    : t * list packet_event * list (result Message.t SoupError.t) :=
  match fuel with
  | O => (c, evs, [])
  | S fuel =>
      match poll_next evs c with
      | (c, evs, Ready (Some r)) =>
          let '(c, evs, rs) := poll_all fuel evs c in (c, evs, r :: rs)
      | (c, evs, _) => (c, evs, [])
      end
  end.

(** What the stream makes of one packet. *)
Definition packet_item (p : SoupPacket.t) : option (result Message.t SoupError.t) :=
  match p with
  | SoupPacket.SequencedData payload =>
      Some (match Message_decode payload with
            | Ok msg => Ok msg
            | Err e => Err (SoupError.Protocol e)
            end)
  | SoupPacket.EndOfSession => Some (Err SoupError.SessionEnded)
  | SoupPacket.ServerHeartbeat | SoupPacket.Debug _ => None
  | SoupPacket.LoginAccepted _ | SoupPacket.LoginRejected _ =>
      Some (Err (SoupError.UnexpectedHandshakePacket (SoupPacket.tag p)))
  | _ => Some (Err (SoupError.SoupFraming "client-direction packet on a server stream"))
  end.

(** The packets up to the end of the session. *)
Fixpoint upto_end (ps : list SoupPacket.t) : list SoupPacket.t :=
  match ps with
  | [] => []
  | SoupPacket.EndOfSession :: _ => [SoupPacket.EndOfSession]
  | p :: ps => p :: upto_end ps
  end.

Definition ok_count {A E} (rs : list (result A E)) : Z :=
  Z.of_nat (length (filter (λ r, is_ok r = true) rs)).

Definition packets (ps : list SoupPacket.t) : list packet_event := map (λ p, Some (Ok p)) ps.

(** A packet that gives no item only touches the debug channel. *)
Lemma poll_loop_skip p evs c :
  packet_item p = None →
  ∃ tx, poll_loop (Some (Ok p) :: evs) c = poll_loop evs (set_debug tx c).
Proof.
  intros Hp. destruct p; try done; cbn [poll_loop].
  - unfold route_debug. destruct (debug_tx c) as [tx|] eqn:E; [|exists None].
    + destruct (DebugChannel.try_send p tx) as [tx' [| |]]; by eexists.
    + f_equal. destruct c. simpl in E. by subst.
  - exists (debug_tx c). f_equal. by destruct c.
Qed.

(** A packet that gives an item is taken off, and counts if it is data that
    decodes. *)
Lemma poll_loop_item p r evs c :
  packet_item p = Some r → 
  ∃ c', poll_loop (Some (Ok p) :: evs) c = (c', evs, Ready (Some r))
    ∧ expected_sequence c'
      = (if is_ok r then u64_saturating_add (expected_sequence c) 1 else expected_sequence c)
    ∧ session c' = session c ∧ out c' = out c
    ∧ session_ended c'
      = (if bool_decide (p = SoupPacket.EndOfSession) then true else session_ended c).
Proof.
  intros [= Hp]. destruct p; cbn [poll_loop packet_item] in *; simplify_eq;
    try (by eexists; split_and!).
  unfold deliver_sequenced. destruct (Message_decode p); by eexists; split_and!.
Qed.

Lemma upto_end_cons p ps : p ≠ SoupPacket.EndOfSession → upto_end (p :: ps) = p :: upto_end ps.
Proof. by destruct p. Qed.

Lemma ok_count_cons {A E} (r : result A E) rs :
  ok_count (r :: rs) = (if is_ok r then 1 else 0) + ok_count rs.
Proof.
  unfold ok_count. rewrite filter_cons. destruct (is_ok r); simpl; [|done].
  rewrite Nat2Z.inj_succ. lia.
Qed.

Lemma poll_all_packets ps fuel c :
  (length ps < fuel)%nat → session_ended c = false →
  0 ≤ expected_sequence c → expected_sequence c + Z.of_nat (length ps) ≤ u64_max →
  ∃ c' rest, poll_all fuel (packets ps) c = (c', rest, omap packet_item (upto_end ps))
    ∧ expected_sequence c' = expected_sequence c + ok_count (omap packet_item (upto_end ps))
    ∧ session c' = session c ∧ out c' = out c
    ∧ session_ended c' = bool_decide (SoupPacket.EndOfSession ∈ ps).
Proof.
  revert fuel c. induction ps as [|p ps IH]; intros [|fuel] c Hfuel Hend Hpos Hmax; try (simpl in *; lia).
  { exists c, []. cbn. unfold poll_next. rewrite Hend. unfold ok_count. simpl. split_and!; done || lia. }
  cbn [length] in *. destruct (decide (p = SoupPacket.EndOfSession)) as [->|Hne].
  { destruct fuel as [|fuel]; [lia|].
    exists (set_ended c), (packets ps). cbn. unfold poll_next. rewrite Hend. simpl.
    unfold ok_count. simpl. split_and!; done || lia. }
  assert (bool_decide (SoupPacket.EndOfSession ∈ p :: ps) = bool_decide (SoupPacket.EndOfSession ∈ ps))
    as ->.
  { apply bool_decide_ext. rewrite elem_of_cons. split; [|by right]. intros [?|?]; [congruence|done]. }
  rewrite upto_end_cons by done. cbn [omap list_omap].
  cbn [poll_all]. unfold poll_next. rewrite Hend. cbn [packets map]. fold (packets ps).
  destruct (packet_item p) as [r|] eqn:Hp.
  - destruct (poll_loop_item p r (packets ps) c Hp) as (c1 & -> & He & Hs & Ho & Hf).
    rewrite bool_decide_false in Hf by done.
    assert (expected_sequence c1 = expected_sequence c + (if is_ok r then 1 else 0)) as He'.
    { rewrite He. destruct (is_ok r); [rewrite u64_saturating_add_small|]; lia. }
    destruct (IH fuel c1) as (c' & rest & -> & He2 & Hs2 & Ho2 & Hf2);
      [lia|congruence|destruct (is_ok r); lia|destruct (is_ok r); lia|].
    exists c', rest. rewrite ok_count_cons. split_and!; [done|lia|congruence|congruence|done].
  - destruct (poll_loop_skip p (packets ps) c Hp) as (tx & ->).
    destruct (IH (S fuel) (set_debug tx c)) as (c' & rest & Hall & Hrest);
      [lia|done|done|simpl; lia|].
    exists c', rest. split; [|exact Hrest]. rewrite <-Hall. cbn [poll_all]. unfold poll_next.
    simpl. by rewrite Hend.
Qed.

(** C15: a SoupBinTCP session delivers exactly what its packets say: each data
    packet up to the end of the session gives its message, or the error of
    decoding it, in order; heartbeats and debug packets give nothing; handshake
    and client packets give one error each; the end of the session is reported
    once, after which the stream is over.  The next expected sequence number
    advances by the number of messages delivered. *)
Theorem session_delivers ps c :
  session_ended c = false → 0 ≤ expected_sequence c →
  expected_sequence c + Z.of_nat (length ps) ≤ u64_max →
  ∃ c' rest, poll_all (S (length ps)) (packets ps) c = (c', rest, omap packet_item (upto_end ps))
    ∧ next_expected_sequence c'
      = next_expected_sequence c + ok_count (omap packet_item (upto_end ps))
    ∧ (SoupPacket.EndOfSession ∈ ps → ∀ evs, poll_next evs c' = (c', evs, Ready None)).
Proof.
  intros Hend Hpos Hmax.
  destruct (poll_all_packets ps (S (length ps)) c) as (c' & rest & Hall & He & _ & _ & Hf);
    [lia|done|done|done|].
  exists c', rest. split_and!; [done|done|]. intros Hin evs. unfold poll_next.
  by rewrite Hf, bool_decide_true.
Qed.
End Delivery.

Import Delivery.

Definition a_message : Message.t :=
  Message.SystemEvent (SystemEvent.mk Header.default EventCode.StartOfMessages).
Lemma a_message_wf : wf a_message.
Proof. vm_compute. repeat split; discriminate. Qed.
(** Messages that differ. *)
Definition numbered (k : Z) : Message.t :=
  Message.SystemEvent (SystemEvent.mk
    (Header.mk StockLocate.default (TrackingNumber.from_u16 (k mod 65536)) Timestamp.default)
    EventCode.StartOfMessages).
Lemma numbered_wf k : wf (numbered k).
Proof.
  pose proof (Z.mod_pos_bound k 65536 ltac:(done)). split_and!; simpl; try (split; [done|]); try done.
Qed.
Definition a_connection : SoupConnection.t := SoupConnection.mk [b@"S"] 7 false None 0 [].

Lemma session_delivers_witness :
  ∃ c' rest,
    poll_all 6 (packets [SoupPacket.ServerHeartbeat; SoupPacket.SequencedData (message_wire a_message);
                         SoupPacket.SequencedData [b@"?"]; SoupPacket.Debug [1];
                         SoupPacket.EndOfSession]) a_connection
    = (c', rest, [Ok a_message; Err (SoupError.Protocol (UnknownMessageType (b@"?")));
                  Err SoupError.SessionEnded])
    ∧ SoupConnection.next_expected_sequence c' = 8
    ∧ (SoupPacket.EndOfSession ∈ [SoupPacket.ServerHeartbeat;
         SoupPacket.SequencedData (message_wire a_message); SoupPacket.SequencedData [b@"?"];
         SoupPacket.Debug [1]; SoupPacket.EndOfSession] →
       ∀ evs, SoupConnection.poll_next evs c' = (c', evs, Ready None)).
Proof.
  apply (session_delivers [SoupPacket.ServerHeartbeat; SoupPacket.SequencedData (message_wire a_message);
    SoupPacket.SequencedData [b@"?"]; SoupPacket.Debug [1]; SoupPacket.EndOfSession] a_connection);
    vm_compute; congruence.
Defined.

(** ** The login *)

Lemma await_reply_debug ds evs req_session timeout out :
  await_reply (packets (map SoupPacket.Debug ds) ++ evs) req_session timeout out
  = await_reply evs req_session timeout out.
Proof. induction ds as [|d ds IH]; simpl; [done|]. exact IH. Qed.

(** The session that the client will take for the one it asked for. *)
Definition session_matches (req_session session : list Z) : Prop :=
  req_session = [] ∨ str_trim session = str_trim req_session.

Lemma await_reply_accepted evs req_session timeout out rest c :
  await_reply evs req_session timeout out = (rest, Ok c) ↔
  ∃ ds a, evs = packets (map SoupPacket.Debug ds ++ [SoupPacket.LoginAccepted a]) ++ rest
    ∧ session_matches req_session (LoginAccepted.session a)
    ∧ c = SoupConnection.mk (LoginAccepted.session a) (LoginAccepted.sequence a) false None
            DEFAULT_SEND_TIMEOUT out.
Proof.
  unfold session_matches. split.
  - induction evs as [|[[p|e]|] evs IH]; try done. destruct p; try done.
    + intros Hr. destruct (IH Hr) as (ds & a & -> & Hm & ->). by exists (p :: ds), a.
    + destruct a as [session sequence]. cbn [await_reply].
      destruct (bool_decide_reflect (req_session = [])) as [He|He];
        [|destruct (bool_decide_reflect (str_trim session = str_trim req_session)) as [Hs|Hs]];
        cbn [negb andb]; intros [= <- <-]; exists [], (LoginAccepted.mk session sequence); auto.
  - intros (ds & [session sequence] & -> & Hm & ->). unfold packets. rewrite map_app, <-app_assoc.
    fold (packets (map SoupPacket.Debug ds)). rewrite await_reply_debug. cbn [map app await_reply].
    cbn [LoginAccepted.session LoginAccepted.sequence] in *.
    destruct Hm as [->|Hm]; [done|]. rewrite (bool_decide_true (_ = str_trim _)) by done.
    by rewrite andb_false_r.
Qed.

Definition login_request (credentials : SoupCredentials.t) (session : list Z) (sequence : Z)
    : SoupPacket.t :=
  SoupPacket.LoginRequest (LoginRequest.mk (SoupCredentials.username credentials)
    (SoupCredentials.password credentials) session sequence).

Lemma framed_send_wf p out :
  wf p → framed_send p Flushed out = (out ++ frame_wire (packet_frame p), Some (Ok tt)).
Proof. intros Hp. unfold framed_send. by rewrite SoupCodec_encode_frame. Qed.

(** A login yields a connection precisely when the request was flushed and the
    server answered, after any number of debug packets, by accepting it for the
    session asked for (or for any, when none was named).  The request on the
    wire is the client's, and the connection takes over the session and the
    sequence number that the server named, whatever number was requested. *)
Theorem login_accepted_iff evs io credentials session sequence rest out c :
  wf (login_request credentials session sequence) →
  login evs io credentials session sequence = (rest, out, Ok c) ↔
  io = Flushed
  ∧ soup_send [login_request credentials session sequence] [] = (out, Ok tt)
  ∧ ∃ ds a, evs = packets (map SoupPacket.Debug ds ++ [SoupPacket.LoginAccepted a]) ++ rest
      ∧ session_matches session (LoginAccepted.session a)
      ∧ c = SoupConnection.mk (LoginAccepted.session a) (LoginAccepted.sequence a) false None
              DEFAULT_SEND_TIMEOUT out.
Proof.
  intros Hwf. unfold login, login_with_timeout. fold (login_request credentials session sequence).
  rewrite soup_send_frames by by apply Forall_singleton.
  assert (frames_wire (map packet_frame [login_request credentials session sequence])
          = frame_wire (packet_frame (login_request credentials session sequence))) as ->.
  { unfold frames_wire. simpl. by rewrite app_nil_r. }
  destruct io; unfold framed_send; rewrite ?SoupCodec_encode_frame by done; cbn [app];
    try (split; [intros [=]|intros [? _]; done]).
  set (o := frame_wire _). destruct (await_reply evs session DEFAULT_LOGIN_TIMEOUT o) as [rest' r] eqn:Er.
  split.
  - intros [= -> <- ->]. split; [done|]. split; [done|]. by apply await_reply_accepted in Er.
  - intros (_ & [= <-] & Hc). apply (await_reply_accepted evs session DEFAULT_LOGIN_TIMEOUT) in Hc.
    congruence.
Qed.

Definition some_credentials : SoupCredentials.t := SoupCredentials.new [b@"u"] [b@"p"].

Lemma some_request_wf : wf (login_request some_credentials [] 0).
Proof. vm_compute. repeat (split || constructor); discriminate. Qed.

Lemma login_accepted_iff_witness :
  (login (packets [SoupPacket.Debug [1]; SoupPacket.LoginAccepted (LoginAccepted.mk [b@"S"] 42)])
     Flushed some_credentials [] 0).2
  = Ok (SoupConnection.mk [b@"S"] 42 false None DEFAULT_SEND_TIMEOUT
          (soup_send [login_request some_credentials [] 0] []).1).
Proof.
  rewrite (proj2 (login_accepted_iff _ Flushed some_credentials [] 0 []
    (soup_send [login_request some_credentials [] 0] []).1 (SoupConnection.mk [b@"S"] 42 false None
      DEFAULT_SEND_TIMEOUT (soup_send [login_request some_credentials [] 0] []).1)
    some_request_wf)).
  - reflexivity.
  - split; [reflexivity|]. split; [vm_compute; reflexivity|].
    exists [[1]], (LoginAccepted.mk [b@"S"] 42). split_and!; [reflexivity|left; reflexivity|reflexivity].
Defined.

Example str_trim_spaces :
  str_trim ([space; 9; 0xE3; 0x80; 0x80] ++ [b@"S"; space; b@"1"] ++ [0xC2; 0xA0; 0xE2; 0x80; 0x89; 10])
  = [b@"S"; space; b@"1"].
Proof. reflexivity. Qed.

(** ** From the server's bytes to the client's messages *)

(** The data packet of a message. *)
Definition data (m : Message.t) : SoupPacket.t := SoupPacket.SequencedData (message_wire m).

Lemma data_wf m : wf m → wf (data m).
Proof.
  intros Hm. unfold data, wf, SoupPacket_wf. rewrite length_message_wire by done.
  pose proof (encoded_len_bounds m). unfold MAX_MESSAGE_LEN. lia.
Qed.

(** Packets that a server sends between the login and the end of the session. *)
Definition traffic (p : SoupPacket.t) : Prop :=
  match p with
  | SoupPacket.SequencedData _ | SoupPacket.ServerHeartbeat | SoupPacket.Debug _ => True
  | _ => False
  end.
Definition data_of (p : SoupPacket.t) : option (list Z) :=
  match p with SoupPacket.SequencedData payload => Some payload | _ => None end.

Lemma decode_message_wire m : wf m → Message_decode (message_wire m) = Ok m.
Proof. intros Hm. rewrite <-(app_nil_r (message_wire m)). by apply Message_decode_wire. Qed.

Lemma traffic_items ps ms :
  Forall traffic ps → Forall wf ms → omap data_of ps = map message_wire ms →
  upto_end ps = ps ∧ omap packet_item ps = map Ok ms.
Proof.
  intros Ht. revert ms. induction Ht as [|p ps Hp Ht IH]; intros ms Hms Hd.
  - by destruct ms.
  - destruct p; try done.
    + destruct (IH ms Hms Hd) as [He Hi]. split; [by rewrite upto_end_cons, He|done].
    + cbn [omap list_omap data_of] in Hd. destruct ms as [|m ms]; [done|]. cbn [map] in Hd. simplify_eq.
      apply Forall_cons in Hms as [Hm Hms].
      destruct (IH ms Hms ltac:(done)) as [He Hi]. rewrite upto_end_cons, He by done. split; [done|].
      cbn [omap list_omap packet_item map]. rewrite decode_message_wire by done. by rewrite Hi.
    + destruct (IH ms Hms Hd) as [He Hi]. split; [by rewrite upto_end_cons, He|done].
Qed.

Lemma ok_count_all {A E} (l : list A) : ok_count (map (Ok (E := E)) l) = Z.of_nat (length l).
Proof. induction l as [|x l IH]; [done|]. cbn [map]. rewrite ok_count_cons, IH. simpl. lia. Qed.

(** Logging in and reading data, on packets. *)
Lemma client_run ds a ps ms credentials session sequence :
  wf (login_request credentials session sequence) →
  session_matches session (LoginAccepted.session a) →
  Forall traffic ps → Forall wf ms → omap data_of ps = map message_wire ms →
  0 ≤ LoginAccepted.sequence a → LoginAccepted.sequence a + Z.of_nat (length ps) ≤ u64_max →
  ∃ c c' rest,
    login (packets (map SoupPacket.Debug ds ++ SoupPacket.LoginAccepted a :: ps)) Flushed credentials
      session sequence
    = (packets ps, frame_wire (packet_frame (login_request credentials session sequence)), Ok c)
    ∧ SoupConnection.next_expected_sequence c = LoginAccepted.sequence a
    ∧ poll_all (S (length ps)) (packets ps) c = (c', rest, map Ok ms)
    ∧ SoupConnection.session c' = LoginAccepted.session a
    ∧ SoupConnection.session_ended c' = false
    ∧ SoupConnection.next_expected_sequence c'
      = LoginAccepted.sequence a + Z.of_nat (length ms).
Proof.
  intros Hreq Hm Ht Hms Hd Hpos Hmax.
  set (out := frame_wire (packet_frame (login_request credentials session sequence))).
  set (c := SoupConnection.mk (LoginAccepted.session a) (LoginAccepted.sequence a) false None
              DEFAULT_SEND_TIMEOUT out).
  destruct (traffic_items ps ms Ht Hms Hd) as [Hup Hit].
  destruct (poll_all_packets ps (S (length ps)) c) as (c' & rest & Hall & He & Hs & _ & Hf);
    [lia|done|done|done|].
  rewrite Hup, Hit in Hall, He. rewrite ok_count_all in He.
  exists c, c', rest. split_and!; [|done|done|done| |done].
  - unfold login, login_with_timeout. fold (login_request credentials session sequence).
    rewrite framed_send_wf by done. cbn [app]. fold out.
    rewrite (proj2 (await_reply_accepted _ session DEFAULT_LOGIN_TIMEOUT out (packets ps) c)); [done|].
    exists ds, a. split_and!; [|done|done]. unfold packets. rewrite !map_app, <-app_assoc. done.
  - rewrite Hf. apply bool_decide_false. intros Hin. rewrite Forall_forall in Ht.
    by specialize (Ht _ Hin).
Qed.

(** C9: client and server agree end to end.  When a server writes, after any debug
    packets, an acceptance and then messages between heartbeats and debug
    packets, then however the network cuts its bytes, the client logs in with
    its own request on the wire, reads exactly those messages in order, and
    stands ready for the number after the last one. *)
Theorem client_receives ds a ps ms chunks credentials session sequence :
  wf (login_request credentials session sequence) →
  Forall wf (map SoupPacket.Debug ds ++ SoupPacket.LoginAccepted a :: ps) →
  session_matches session (LoginAccepted.session a) →
  Forall traffic ps → Forall wf ms → omap data_of ps = map message_wire ms →
  LoginAccepted.sequence a + Z.of_nat (length ps) ≤ u64_max →
  soup_send (map SoupPacket.Debug ds ++ SoupPacket.LoginAccepted a :: ps) [] = (concat chunks, Ok tt) →
  ∃ evs out c c' rest,
    login (map Some (read_chunks SoupCodec.decode chunks Reader.new).2) Flushed credentials
      session sequence = (evs, out, Ok c)
    ∧ read_chunks SoupCodec.decode [out] Reader.new
      = (Reader.new, [Ok (login_request credentials session sequence)])
    ∧ poll_all (S (length evs)) evs c = (c', rest, map Ok ms)
    ∧ SoupConnection.next_expected_sequence c'
      = LoginAccepted.sequence a + Z.of_nat (length ms).
Proof.
  intros Hreq Hwf Hm Ht Hms Hd Hmax Hsend. rewrite soup_send_frames in Hsend by done.
  injection Hsend as Hbytes. cbn [app] in Hbytes. symmetry in Hbytes.
  rewrite (soup_read_packets _ chunks Hwf Hbytes). cbn [snd]. rewrite map_map.
  assert (0 ≤ LoginAccepted.sequence a) as Hpos.
  { apply Forall_app in Hwf as [_ Hwf]. apply Forall_cons in Hwf as [[_ Ha] _]. apply Ha. }
  destruct (client_run ds a ps ms credentials session sequence)
    as (c & c' & rest & Hl & _ & Hall & _ & _ & He); [done..|].
  eexists _, _, c, c', rest. split; [exact Hl|]. split; [|split; [|done]].
  - apply (soup_read_packets [login_request credentials session sequence]); [by apply Forall_singleton|].
    unfold frames_wire. simpl. by rewrite app_nil_r.
  - unfold packets in *. by rewrite length_map.
Qed.

Definition some_packets : list SoupPacket.t :=
  [SoupPacket.ServerHeartbeat; SoupPacket.SequencedData (message_wire a_message);
   SoupPacket.SequencedData (message_wire a_message)].
Definition some_server_bytes : list Z :=
  (soup_send (map SoupPacket.Debug [[1]]
     ++ SoupPacket.LoginAccepted (LoginAccepted.mk [b@"S"] 42) :: some_packets) []).1.

Lemma client_receives_witness :
  ∃ evs out c c' rest,
    login (map Some (read_chunks SoupCodec.decode [take 30 some_server_bytes; drop 30 some_server_bytes]
      Reader.new).2) Flushed some_credentials [] 0 = (evs, out, Ok c)
    ∧ read_chunks SoupCodec.decode [out] Reader.new
      = (Reader.new, [Ok (login_request some_credentials [] 0)])
    ∧ poll_all (S (length evs)) evs c = (c', rest, map Ok [a_message; a_message])
    ∧ SoupConnection.next_expected_sequence c' = 44.
Proof.
  apply (client_receives [[1]] (LoginAccepted.mk [b@"S"] 42) some_packets [a_message; a_message]).
  - exact some_request_wf.
  - apply Forall_cons_2; [apply Nat.leb_le; reflexivity|].
    apply Forall_cons_2; [vm_compute; repeat (split || constructor); discriminate|].
    apply Forall_cons_2; [exact I|].
    repeat (apply Forall_cons_2; [apply Nat.leb_le; reflexivity|]). constructor.
  - left. reflexivity.
  - repeat constructor.
  - repeat (apply Forall_cons_2; [exact a_message_wf|]). constructor.
  - vm_compute. reflexivity.
  - vm_compute. discriminate.
  - rewrite concat_take_drop. vm_compute. reflexivity.
Defined.
