(* ===== verification/Heartbeat.v ===== *)
(** The heartbeats of SoupBinTCP ([crates/itch-soup/src/heartbeat.rs]).

    [OutboundHeartbeat] tells a sender when to send a heartbeat, and
    [InboundHeartbeat] tells a receiver that its peer is silent.  Times are
    nanoseconds, [Instant::now()] is an argument.  The timer of the runtime,
    [tokio::time::Interval], is the class [Interval]: its next deadline, and what
    [tick] and [reset] do to it, with what its documentation says.

    The theorems put the two ends together: a sender that follows the scheduler
    is never taken for dead as long as lateness and network delay stay below the
    timeout, and a peer that falls silent is noticed in time. *)

From S2P Require Import Prelude.

(** [tokio::time::interval(period)] at an instant, [None] where it panics; [tick]
    is the call that completes at an instant, not before the deadline. *)
Class Interval (Tm : Type) := {
  interval : Z → Z → option Tm;
  deadline : Tm → Z;
  tick : Z → Tm → Tm;
  interval_reset : Z → Tm → Tm;
}.
(** A period of zero panics and any other gives a timer; its first tick completes
    at once, and [reset] makes the next tick come one period later. *)
Class IntervalDocumented (Tm : Type) `{Interval Tm} (period_of : Tm → Z) : Prop := {
  interval_zero now : interval now 0 = None;
  interval_some now period :
    0 < period → ∃ i, interval now period = Some i ∧ deadline i = now ∧ period_of i = period;
  tick_period now i : period_of (tick now i) = period_of i;
  reset_deadline now i : deadline (interval_reset now i) = now + period_of i;
  reset_period now i : period_of (interval_reset now i) = period_of i;
}.

Module HeartbeatConfig.
Record t := mk { outbound_interval : Z; dead_link_timeout : Z }.
Definition default : t := mk 1000000000 15000000000.
Definition new (outbound_interval dead_link_timeout : Z) : t :=
  mk outbound_interval dead_link_timeout.
End HeartbeatConfig.

Module OutboundHeartbeat.
Record t (Tm : Type) := mk { config : HeartbeatConfig.t; timer : Tm }.
Arguments mk {Tm}.
Arguments config {Tm}.
Arguments timer {Tm}.
Section outbound.
Context `{Interval Tm}.
Definition new (config : HeartbeatConfig.t) (now : Z) : option (t Tm) :=
  timer ← interval now (HeartbeatConfig.outbound_interval config); Some (mk config timer).
(** [wait_next] completes at [now]. *)
Definition wait_next (now : Z) (h : t Tm) : t Tm := mk (config h) (tick now (timer h)).
Definition reset (now : Z) (h : t Tm) : t Tm := mk (config h) (interval_reset now (timer h)).
Definition on_heartbeat_sent (now : Z) (h : t Tm) : t Tm := mk (config h) (interval_reset now (timer h)).
End outbound.
End OutboundHeartbeat.

Module InboundHeartbeat.
Record t := mk { config : HeartbeatConfig.t; check_interval : Z; last_packet_received : Z }.
Definition new (config : HeartbeatConfig.t) (now : Z) : t :=
  mk config (Z.max (HeartbeatConfig.dead_link_timeout config / 2) 1000000) now.
Definition on_packet_received (now : Z) (h : t) : t := mk (config h) (check_interval h) now.
Definition check_dead_link (now : Z) (h : t) : option Z :=
  let elapsed := Z.max (now - last_packet_received h) 0 in
  if HeartbeatConfig.dead_link_timeout (config h) <=? elapsed then Some elapsed else None.
End InboundHeartbeat.

(** ** A sender and a receiver *)

Section link.
Context `{IntervalDocumented Tm period_of}.
Implicit Types h : OutboundHeartbeat.t Tm.

(** A sender that follows the scheduler: from the instant [t] of its last turn it
    sends a packet of its own before the deadline, or waits for the deadline and
    sends a heartbeat; it may be [late] by so much.  [ts] are the instants at
    which it sends. *)
Inductive sends (late : Z) : OutboundHeartbeat.t Tm → Z → list Z → Prop :=
| sends_none h t : sends late h t []
| sends_packet h t t' ts :
    t ≤ t' ≤ Z.max t (deadline (OutboundHeartbeat.timer h)) + late →
    sends late (OutboundHeartbeat.reset t' h) t' ts → sends late h t (t' :: ts)
| sends_heartbeat h t t' ts :
    t ≤ t' → deadline (OutboundHeartbeat.timer h) ≤ t' ≤ Z.max t (deadline (OutboundHeartbeat.timer h)) + late →
    sends late (OutboundHeartbeat.on_heartbeat_sent t' (OutboundHeartbeat.wait_next t' h)) t' ts →
    sends late h t (t' :: ts).

(** Two sends in a row are at most [d] apart. *)
Fixpoint paced (d t : Z) (ts : list Z) : Prop :=
  match ts with [] => True | t' :: ts => t ≤ t' ≤ t + d ∧ paced d t' ts end.

(** A scheduler that exists starts due, with the configured period. *)
Lemma outbound_new config now h :
  0 ≤ HeartbeatConfig.outbound_interval config → OutboundHeartbeat.new config now = Some h →
  deadline (OutboundHeartbeat.timer h) = now
  ∧ period_of (OutboundHeartbeat.timer h) = HeartbeatConfig.outbound_interval config.
Proof.
  unfold OutboundHeartbeat.new. intros Hi Hn.
  destruct (decide (HeartbeatConfig.outbound_interval config = 0)) as [Hz|Hz].
  - rewrite Hz, interval_zero in Hn. done.
  - destruct (interval_some now (HeartbeatConfig.outbound_interval config)) as (i & Hs & Hd & Hp); [lia|].
    rewrite Hs in Hn. by simplify_eq/=.
Qed.

Lemma sends_paced late h t ts P :
  0 ≤ late → 0 ≤ P → period_of (OutboundHeartbeat.timer h) = P →
  deadline (OutboundHeartbeat.timer h) ≤ t + P → sends late h t ts → paced (P + late) t ts.
Proof.
  intros Hl HP Hp Hd Hs. revert Hp Hd.
  induction Hs as [|h t t' ts Ht Hs IH|h t t' ts Ht Hb Hs IH]; intros Hp Hd; [done|..].
  - split; [lia|]. apply IH; simpl; rewrite ?reset_period, ?reset_deadline; lia.
  - split; [lia|]. apply IH; simpl;
      rewrite ?reset_period, ?reset_deadline, ?tick_period; lia.
Qed.

Lemma paced_lookup d t ts k a b :
  paced d t ts → ts !! k = Some a → ts !! S k = Some b → a ≤ b ≤ a + d.
Proof.
  revert t k. induction ts as [|t' ts IH]; intros t k Hp Ha Hb; [done|]. destruct Hp as [Ht Hp].
  destruct k as [|k]; simpl in *; [|by eapply IH]. simplify_eq. destruct ts; [done|].
  simpl in Hb. simplify_eq. apply Hp.
Qed.
End link.

(** A dead link is noticed: the checks come every [check_interval]; the first
    one at which the peer has been silent for the timeout reports it, at most one
    interval late, and no check before it reports anything. *)
Lemma dead_link_noticed config start last :
  0 ≤ HeartbeatConfig.dead_link_timeout config → start ≤ last →
  let h := InboundHeartbeat.on_packet_received last (InboundHeartbeat.new config start) in
  let tick i := start + Z.of_nat i * InboundHeartbeat.check_interval h in
  ∃ n elapsed, InboundHeartbeat.check_dead_link (tick n) h = Some elapsed
    ∧ HeartbeatConfig.dead_link_timeout config ≤ elapsed
      < HeartbeatConfig.dead_link_timeout config + InboundHeartbeat.check_interval h
    ∧ ∀ i, (i < n)%nat → InboundHeartbeat.check_dead_link (tick i) h = None ∨ tick i < last.
Proof.
  intros Ht Hs h tick. set (T := HeartbeatConfig.dead_link_timeout config) in *.
  set (d := InboundHeartbeat.check_interval h) in *.
  assert (1000000 ≤ d) as Hd by (unfold d, h; simpl; lia).
  set (gap := last + T - start). set (n := Z.to_nat ((gap + d - 1) / d)).
  assert (0 ≤ (gap + d - 1) / d) as Hq by (apply Z.div_pos; unfold gap; lia).
  pose proof (Z.div_mod (gap + d - 1) d ltac:(lia)) as Hdm.
  pose proof (Z.mod_pos_bound (gap + d - 1) d ltac:(lia)) as Hmod.
  assert (last + T ≤ tick n < last + T + d) as Htick.
  { unfold tick, n. rewrite Z2Nat.id by done. fold d. unfold gap in *. nia. }
  exists n, (tick n - last). unfold InboundHeartbeat.check_dead_link. simpl. fold T.
  rewrite Z.max_l by lia. rewrite (proj2 (Z.leb_le _ _)) by lia. split_and!; [done|lia|lia|].
  intros i Hi. destruct (Z.lt_ge_cases (tick i) last) as [?|Hge]; [by right|left].
  rewrite (proj2 (Z.leb_gt _ _)); [done|].
  assert (tick i ≤ tick n - d); [|lia]. unfold tick. fold d. nia.
Qed.

(** ** Properties *)

(** C35: the two ends of a link.  A sender that follows the heartbeat scheduler
    (the scheduler cannot be created with a period of zero), late by at most
    [late], over a network that delays by at most [delay], is not reported dead at
    any check up to the first arrival or between two arrivals in a row, if the
    period, the lateness and the delay together are below the timeout.  A peer that
    falls silent is reported: the checks come every [check_interval]; the first at
    which the silence has lasted for the timeout reports it, at most one interval
    late. *)
Theorem heartbeat_link `{IntervalDocumented Tm period_of} config start late delay
    (o : OutboundHeartbeat.t Tm) ts arrivals last :
  let h := InboundHeartbeat.new config start in
  0 ≤ late → 0 ≤ delay → 0 ≤ HeartbeatConfig.outbound_interval config →
  HeartbeatConfig.outbound_interval config + late + delay < HeartbeatConfig.dead_link_timeout config →
  OutboundHeartbeat.new config start = Some o → sends late o start ts →
  Forall2 (λ t a, t ≤ a ≤ t + delay) ts arrivals → start ≤ last →
  (∀ k a a' now, (start :: arrivals) !! k = Some a → arrivals !! k = Some a' → a ≤ now ≤ a' →
     InboundHeartbeat.check_dead_link now (InboundHeartbeat.on_packet_received a h) = None)
  ∧ let g := InboundHeartbeat.on_packet_received last h in
    let check i := start + Z.of_nat i * InboundHeartbeat.check_interval g in
    ∃ n elapsed, InboundHeartbeat.check_dead_link (check n) g = Some elapsed
      ∧ HeartbeatConfig.dead_link_timeout config ≤ elapsed
        < HeartbeatConfig.dead_link_timeout config + InboundHeartbeat.check_interval g
      ∧ ∀ i, (i < n)%nat → InboundHeartbeat.check_dead_link (check i) g = None ∨ check i < last.
Proof.
  intros h Hl Hdl Hi Hsum Ho Hs Ha Hlast. destruct (outbound_new _ _ _ Hi Ho) as [Hd Hper].
  assert (paced (HeartbeatConfig.outbound_interval config + late) start (start :: ts)) as Hp.
  { split; [lia|]. eapply sends_paced; [done|done|done| |exact Hs]. lia. }
  assert (Forall2 (λ t a, t ≤ a ≤ t + delay) (start :: ts) (start :: arrivals)) as Ha'
    by (constructor; [lia|done]). split.
  - intros k a a' now Hk Hk' Hnow. change ((start :: arrivals) !! S k = Some a') in Hk'.
    destruct (Forall2_lookup_r _ _ _ _ _ Ha' Hk) as (t & Ht & Hta).
    destruct (Forall2_lookup_r _ _ _ _ _ Ha' Hk') as (t' & Ht' & Hta').
    pose proof (paced_lookup _ _ _ _ _ _ Hp Ht Ht'). unfold InboundHeartbeat.check_dead_link. simpl.
    rewrite (proj2 (Z.leb_gt _ _)); [done|]. lia.
  - apply dead_link_noticed; [lia|done].
Qed.

(** A timer by the book. *)
Module Timer.
Record t := mk { next : Z; period : Z }.
#[global] Instance timer : Interval t := {|
  interval now period := if decide (period = 0) then None else Some (mk now period);
  deadline := next;
  tick _ i := mk (next i + period i) (period i);
  interval_reset now i := mk (now + period i) (period i);
|}.
#[global] Instance timer_documented : IntervalDocumented t period.
Proof.
  split; try done. intros now period Hp. exists (mk now period). split; [|done].
  unfold interval, timer. by rewrite decide_False by lia.
Qed.
End Timer.

Lemma heartbeat_link_witness :
  let h := InboundHeartbeat.new HeartbeatConfig.default 0 in
  InboundHeartbeat.check_dead_link 1500000000 (InboundHeartbeat.on_packet_received 600000000 h) = None
  ∧ ∃ n elapsed, InboundHeartbeat.check_dead_link (0 + Z.of_nat n * 7500000000)
      (InboundHeartbeat.on_packet_received 0 h) = Some elapsed.
Proof.
  destruct (heartbeat_link (Tm := Timer.t) HeartbeatConfig.default 0 100000000 200000000
    (OutboundHeartbeat.mk HeartbeatConfig.default (Timer.mk 0 1000000000))
    [0; 500000000; 1500000000] [100000000; 600000000; 1700000000] 0) as [Hok (n & e & Hd & _)].
  - lia.
  - lia.
  - vm_compute. discriminate.
  - vm_compute. reflexivity.
  - reflexivity.
  - apply sends_heartbeat; simpl; [lia|lia|]. apply sends_packet; simpl; [lia|].
    apply sends_heartbeat; simpl; [lia|lia|]. apply sends_none.
  - repeat constructor; lia.
  - lia.
  - split; [|exists n, e; exact Hd].
    apply (Hok 2%nat 600000000 1700000000); [reflexivity|reflexivity|lia].
Defined.
