(* ===== verification/Sources.v ===== *)
(** The message sources of [crates/itch-source/src/impls]: channels and
    iterators, pacing, teeing and merging.

    A source is polled at an instant and gives an item, the end or [Pending];
    the class [MessageSource] is the trait of that name.  A [Sleep] is its
    deadline, and has elapsed when it is polled at or after it (a timer that
    fires late is a poll that comes late).  A channel is the queue of its
    messages with a mark for the senders that are left.  The heap of the standard
    library is the class [BinaryHeap]: [pop] gives one of the greatest elements. *)

From S2P Require Import Prelude Primitives Enums Messages.
From S2P Require Import SeqStore SoupSession.

Abbreviation source_item := (result Message.t SourceError.t).

Class MessageSource (Src : Type) := poll_next : Z → Src → Src * Poll (option source_item).

Module ChannelSource.
Record t := mk { rx : list Message.t; senders : bool }.
Definition from_receiver (rx : list Message.t) (senders : bool) : t := mk rx senders.
(** The producer's side: a bounded channel has a capacity, an unbounded one none. *)
Definition try_send (capacity : option nat) (msg : Message.t) (c : t) : option t :=
  match capacity with
  | Some n => if (length (rx c) <? n)%nat then Some (mk (rx c ++ [msg]) (senders c)) else None
  | None => Some (mk (rx c ++ [msg]) (senders c))
  end.
Definition drop_senders (c : t) : t := mk (rx c) false.
#[global] Instance source : MessageSource t := λ _ c,
  match rx c with
  | msg :: rx => (mk rx (senders c), Ready (Some (Ok msg)))
  | [] => (c, if senders c then Pending else Ready None)
  end.
End ChannelSource.

Module IteratorSource.
Record t := new { iter : list Message.t }.
#[global] Instance source : MessageSource t := λ _ s,
  match iter s with
  | msg :: iter => (new iter, Ready (Some (Ok msg)))
  | [] => (s, Ready None)
  end.
End IteratorSource.

Inductive Pacing :=
| MaxSpeed
| Fixed (period : Z)
| Realtime.

Definition timestamp_of (msg : Message.t) : Z :=
  Timestamp.as_u64 (Header.timestamp (Message.header msg)).

Module PacedSource.
Record t (Src : Type) := mk {
  inner : Src;
  pacing : Pacing;
  pending : option Message.t;
  (** the deadline of the sleep *)
  sleep : option Z;
  last_ts_ns : option Z;
  last_tick : option Z;
}.
Arguments mk {Src}.
Arguments inner {Src}.
Arguments pacing {Src}.
Arguments pending {Src}.
Arguments sleep {Src}.
Arguments last_ts_ns {Src}.
Arguments last_tick {Src}.

Definition paced {Src} (inner : Src) (pacing : Pacing) : t Src := mk inner pacing None None None None.

(** Yielding a message at once. *)
Definition emit {Src} (msg : Message.t) (tick : option Z) (p : t Src) : t Src * Poll (option source_item) :=
  (mk (inner p) (pacing p) (pending p) (sleep p) (Some (timestamp_of msg)) tick,
   Ready (Some (Ok msg))).
(** Keeping it until the deadline. *)
Definition hold {Src} (msg : Message.t) (tick : option Z) (deadline : Z) (p : t Src)
    : t Src * Poll (option source_item) :=
  (mk (inner p) (pacing p) (Some msg) (Some deadline) (last_ts_ns p) tick, Pending).

(** 3) Decide how to emit. *)
Definition pace {Src} (now : Z) (msg : Message.t) (p : t Src) : t Src * Poll (option source_item) :=
  match pacing p with
  | MaxSpeed => emit msg (last_tick p) p
  | Fixed period =>
      match last_tick p with
      | None => emit msg (Some now) p
      | Some prev =>
          let next_tick := prev + period in
          if next_tick <=? now then emit msg (Some now) p
          else hold msg (Some next_tick) next_tick p
      end
  | Realtime =>
      let cur_ts := timestamp_of msg in
      match last_ts_ns p with
      | None => emit msg (last_tick p) p
      | Some prev_ts =>
          if cur_ts <=? prev_ts then emit msg (last_tick p) p
          else hold msg (last_tick p) (now + (cur_ts - prev_ts)) p
      end
  end.

(** 2) Pull the next item. *)
Definition pull `{MessageSource Src} (now : Z) (p : t Src) : t Src * Poll (option source_item) :=
  let '(inner, item) := poll_next now (inner p) in
  let p := mk inner (pacing p) (pending p) (sleep p) (last_ts_ns p) (last_tick p) in
  match item with
  | Ready (Some (Ok msg)) => pace now msg p
  | item => (p, item)
  end.

(** 1) Drive any active sleep first. *)
#[global] Instance source `{MessageSource Src} : MessageSource (t Src) := λ now p,
  match sleep p with
  | Some deadline =>
      if now <? deadline then (p, Pending)
      else
        match pending p with
        | Some msg =>
            emit msg (last_tick p) (mk (inner p) (pacing p) None None (last_ts_ns p) (last_tick p))
        | None => pull now (mk (inner p) (pacing p) None None (last_ts_ns p) (last_tick p))
        end
  | None => pull now p
  end.
End PacedSource.

(** [broadcast.send] appends to the log of the channel; a subscriber starts at its
    end. *)
Module Tee.
Record t (Src : Type) := mk { source : Src; broadcast : list Message.t }.
Arguments mk {Src}.
Arguments source {Src}.
Arguments broadcast {Src}.
Definition new {Src} (source : Src) : t Src := mk source [].
Definition subscribe {Src} (x : t Src) : nat := length (broadcast x).
#[global] Instance tee_source `{MessageSource Src} : MessageSource (t Src) := λ now x,
  let '(source, item) := poll_next now (source x) in
  match item with
  | Ready (Some (Ok msg)) => (mk source (broadcast x ++ [msg]), item)
  | _ => (mk source (broadcast x), item)
  end.
End Tee.

Module PendingMessage.
Record t := mk { timestamp : Z; source_idx : nat; msg : Message.t }.
(** [self.cmp(other)], reversed for a min-heap. *)
Definition cmp (self other : t) : comparison :=
  match timestamp other ?= timestamp self with
  | Eq => (source_idx other ?= source_idx self)%nat
  | c => c
  end.
Definition le (self other : t) : Prop := cmp self other ≠ Gt.
End PendingMessage.

Class BinaryHeap (H : Type) := {
  heap_new : H;
  heap_push : PendingMessage.t → H → H;
  heap_pop : H → option (PendingMessage.t * H);
  heap_elems : H → list PendingMessage.t;
  heap_elems_new : heap_elems heap_new = [];
  heap_elems_push x h : heap_elems (heap_push x h) ≡ₚ x :: heap_elems h;
  heap_pop_none h : heap_pop h = None ↔ heap_elems h = [];
  heap_pop_some h x h' : heap_pop h = Some (x, h') →
    heap_elems h ≡ₚ x :: heap_elems h' ∧ Forall (λ y, PendingMessage.le y x) (heap_elems h);
}.

Module MergeByTimestamp.
Record t (H : Type) := mk { heap : H }.
Arguments mk {H}.
Arguments heap {H}.
Definition new `{BinaryHeap H} : t H := mk heap_new.
Definition push `{BinaryHeap H} (pending : PendingMessage.t) (m : t H) : t H :=
  mk (heap_push pending (heap m)).
#[global] Instance source `{BinaryHeap H} : MessageSource (t H) := λ _ m,
  match heap_pop (heap m) with
  | Some (pending, h) => (mk h, Ready (Some (Ok (PendingMessage.msg pending))))
  | None => (m, Ready None)
  end.
End MergeByTimestamp.

(** The sources are not used (a placeholder, as its documentation says). *)
Definition merge_by_timestamp `{BinaryHeap H} {Src} (sources : list Src) : MergeByTimestamp.t H :=
  MergeByTimestamp.new.

(** ** Driving a source *)

(** Polls at the given instants; the items with the instant at which they came. *)
Fixpoint drive `{MessageSource Src} (nows : list Z) (s : Src) : Src * list (Z * source_item) :=
  match nows with
  | [] => (s, [])
  | now :: nows =>
      let '(s, p) := poll_next now s in
      let '(s', out) := drive nows s in
      (s', match p with Ready (Some item) => (now, item) :: out | _ => out end)
  end.

Definition items (p : Poll (option source_item)) : list source_item :=
  match p with Ready (Some item) => [item] | _ => [] end.

Lemma drive_cons `{MessageSource Src} now nows (s : Src) :
  drive (now :: nows) s
  = ((drive nows (poll_next now s).1).1,
     map (pair now) (items (poll_next now s).2) ++ (drive nows (poll_next now s).1).2).
Proof.
  cbn [drive]. destruct (poll_next now s) as [s1 p]. simpl. destruct (drive nows s1) as [s2 out].
  by destruct p as [[item|]|].
Qed.

(** When a message came, and its own time. *)
Definition message_times (out : list (Z * source_item)) : list (Z * Z) :=
  omap (λ x, match x.2 with Ok msg => Some (x.1, timestamp_of msg) | Err _ => None end) out.

(** ** Pacing *)

Section paced.
Context `{MessageSource Src}.
Implicit Types p : PacedSource.t Src.
Import PacedSource.

Definition pending_items p : list source_item :=
  match pending p with Some msg => [Ok msg] | None => [] end.

(** A message is held exactly while a sleep is active. *)
Definition sleep_ok p : Prop := is_Some (sleep p) ↔ is_Some (pending p).

Lemma sleep_ok_idle p : sleep p = None → pending p = None → sleep_ok p.
Proof. intros Hs Hp. unfold sleep_ok. by rewrite Hs, Hp. Qed.
Lemma sleep_ok_busy p d msg : sleep p = Some d → pending p = Some msg → sleep_ok p.
Proof. intros Hs Hp. unfold sleep_ok. rewrite Hs, Hp. split; by eexists. Qed.
Lemma sleep_ok_cases p :
  sleep_ok p → (sleep p = None ∧ pending p = None) ∨ ∃ d msg, sleep p = Some d ∧ pending p = Some msg.
Proof.
  intros [H1 H2]. destruct (sleep p) as [d|], (pending p) as [msg|]; eauto.
  - by destruct H1.
  - by destruct H2.
Qed.

Lemma pace_spec now msg p :
  sleep p = None → pending p = None →
  let '(p', q) := pace now msg p in
  inner p' = inner p ∧ pacing p' = pacing p ∧ sleep_ok p' ∧ items q ++ pending_items p' = [Ok msg].
Proof.
  intros Hs Hp. unfold pace, emit, hold, sleep_ok, pending_items.
  repeat case_match; simplify_eq/=; split_and!; try done; by rewrite ?Hs, ?Hp.
Qed.

(** One poll: it releases the held message, or passes on what the inner source
    gives, or keeps that. *)
Lemma paced_poll now p :
  sleep_ok p →
  let '(p', q) := poll_next now p in
  pacing p' = pacing p ∧ sleep_ok p'
  ∧ (inner p' = inner p ∧ pending_items p = items q ++ pending_items p'
     ∨ ∃ r, poll_next now (inner p) = (inner p', r) ∧ pending_items p = []
         ∧ items r = items q ++ pending_items p').
Proof.
  intros Hok. change (poll_next now p) with (source now p). unfold source, sleep_ok, pending_items in *.
  destruct (sleep p) as [d|] eqn:Hs, (pending p) as [msg|] eqn:Hp.
  - destruct (now <? d); simpl; rewrite ?Hs, ?Hp; split_and!; try done; left; split_and!; done.
  - destruct Hok as [Hok _]. by destruct Hok.
  - destruct Hok as [_ Hok]. by destruct Hok.
  - unfold pull. destruct (poll_next now (inner p)) as [s r] eqn:Hr.
    set (p1 := mk s (pacing p) (pending p) (sleep p) (last_ts_ns p) (last_tick p)).
    destruct r as [[[msg|e]|]|];
      try (simpl; rewrite Hs, Hp; split_and!; try done; right; eexists; by split_and!).
    pose proof (pace_spec now msg p1 Hs Hp) as Hpace. destruct (pace now msg p1) as [p' q].
    destruct Hpace as (Hi & Hpc & Hok' & Hitems). split_and!; [done|exact Hok'|]. right.
    eexists. rewrite Hi. by split_and!.
Qed.

(** Pacing changes when items come and nothing else: what has come out, with the
    message that is held back, is what the inner source has given, in order. *)
Lemma paced_items nows p :
  sleep_ok p →
  ∃ ns, ns `sublist_of` nows
    ∧ (drive ns (inner p)).1 = inner (drive nows p).1
    ∧ pending_items p ++ map snd (drive ns (inner p)).2
      = map snd (drive nows p).2 ++ pending_items (drive nows p).1.
Proof.
  revert p. induction nows as [|now nows IH]; intros p Hok.
  { exists []. by rewrite app_nil_r. }
  pose proof (paced_poll now p Hok) as Hpoll. rewrite drive_cons. cbn [fst snd].
  destruct (poll_next now p) as [p1 q]. cbn [fst snd].
  destruct Hpoll as (_ & Hok1 & Hcases). destruct (IH p1 Hok1) as (ns & Hsub & Hin & Hitems).
  rewrite map_app, map_map, map_id. rewrite <-app_assoc, <-Hitems.
  destruct Hcases as [[Hi Hp]|(r & Hr & Hp & Hq)].
  - exists ns. rewrite Hi in Hin, Hitems |- *. split_and!; [by apply sublist_cons|done|].
    by rewrite Hp, <-app_assoc.
  - exists (now :: ns). rewrite drive_cons, Hr. cbn [fst snd]. split_and!; [by apply sublist_skip|done|].
    by rewrite Hp, map_app, map_map, map_id, Hq, <-app_assoc.
Qed.

Ltac paced_side := first [done | by apply sleep_ok_idle | by eapply sleep_ok_busy | by intros ? [=]].

(** With a fixed period the ticks are at least a period apart, and no message
    comes before its tick. *)
Lemma fixed_times period nows p tick k e t :
  0 ≤ period → pacing p = Fixed period → last_tick p = Some tick → sleep_ok p →
  (∀ d, sleep p = Some d → d = tick) →
  message_times (drive nows p).2 !! k = Some (e, t) →
  tick + (Z.of_nat k + match sleep p with Some _ => 0 | None => 1 end) * period ≤ e.
Proof.
  intros Hper. revert p tick k. induction nows as [|now nows IH]; intros p tick k Hpc Hlt Hok Hd Hk; [done|].
  rewrite drive_cons in Hk. cbn [snd] in Hk. change (poll_next now p) with (source now p) in Hk.
  unfold source in Hk. destruct (sleep_ok_cases p Hok) as [[Hs Hp]|(d & msg & Hs & Hp)]; rewrite Hs in *.
  - unfold pull in Hk. destruct (poll_next now (inner p)) as [s r]. rewrite Hs, Hp in Hk.
    destruct r as [[[msg|err]|]|]; cbn in Hk;
      try (eapply (IH _ tick k) in Hk; [cbn in Hk; lia|paced_side..]).
    unfold pace in Hk. cbn [pacing last_tick] in Hk. rewrite Hpc, Hlt in Hk.
    destruct (Z.leb_spec (tick + period) now) as [Hnow|Hnow]; cbn in Hk.
    + destruct k as [|k]; simpl in Hk; [simplify_eq; lia|].
      eapply (IH _ now k) in Hk; [cbn in Hk; nia|paced_side..].
    + eapply (IH _ (tick + period) k) in Hk; [cbn in Hk; lia|paced_side..].
  - rewrite Hp in Hk. rewrite (Hd d eq_refl) in *. destruct (Z.ltb_spec now tick) as [Hnow|Hnow].
    + eapply (IH p tick k) in Hk; [by rewrite Hs in Hk|paced_side..|]. intros d'. by rewrite Hs; intros [= <-].
    + cbn in Hk. destruct k as [|k]; simpl in Hk; [simplify_eq; lia|].
      eapply (IH _ tick k) in Hk; [cbn in Hk; lia|paced_side..].
Qed.

(** In real time each message comes at least as long after the one before it as
    their timestamps are apart. *)
Fixpoint respects_gaps (e t : Z) (l : list (Z * Z)) : Prop :=
  match l with
  | [] => True
  | (e', t') :: l => t' - t ≤ e' - e ∧ respects_gaps e' t' l
  end.

Lemma realtime_times nows p e t :
  pacing p = Realtime → last_ts_ns p = Some t → sleep_ok p →
  StronglySorted Z.le (e :: nows) →
  (∀ d msg, sleep p = Some d → pending p = Some msg → timestamp_of msg - t ≤ d - e) →
  respects_gaps e t (message_times (drive nows p).2).
Proof.
  revert p e t. induction nows as [|now nows IH]; intros p e t Hpc Hlt Hok Hsort Hd; [done|].
  apply StronglySorted_inv in Hsort as [Hsort Hall]. apply Forall_cons in Hall as [Hnow Hall].
  assert (StronglySorted Z.le (e :: nows)) as Hsort'.
  { constructor; [by apply StronglySorted_inv in Hsort as [? _]|done]. }
  rewrite drive_cons. cbn [snd]. change (poll_next now p) with (source now p). unfold source.
  destruct (sleep_ok_cases p Hok) as [[Hs Hp]|(d & msg & Hs & Hp)]; rewrite Hs, ?Hp.
  - unfold pull. destruct (poll_next now (inner p)) as [s r]. rewrite Hs, Hp.
    destruct r as [[[msg|err]|]|]; try (cbn; apply IH; paced_side).
    unfold pace. cbn [pacing last_ts_ns]. rewrite Hpc, Hlt.
    destruct (Z.leb_spec (timestamp_of msg) t); cbn.
    + split; [lia|]. apply IH; paced_side.
    + apply IH; try paced_side. cbn. intros d' msg' [= <-] [= <-]. lia.
  - specialize (Hd d msg Hs Hp). destruct (Z.ltb_spec now d) as [Hlt'|Hge]; cbn.
    + apply IH; try paced_side. intros d' msg'. rewrite Hs, Hp. intros [= <-] [= <-]. lia.
    + split; [lia|]. apply IH; paced_side.
Qed.

(** Pacing delays and does nothing else.  Whatever the inner source and whenever
    the stream is polled, the items that have come out, and at most one message
    that is being held, are those that the inner source has given, in order. *)
Theorem paced_keeps_items nows (s : Src) pacing :
  ∃ ns, ns `sublist_of` nows
    ∧ map snd (drive ns s).2
      = map snd (drive nows (PacedSource.paced s pacing)).2
        ++ pending_items (drive nows (PacedSource.paced s pacing)).1.
Proof.
  destruct (paced_items nows (PacedSource.paced s pacing)) as (ns & Hsub & _ & Hitems);
    [by apply sleep_ok_idle|]. by exists ns.
Qed.

(** And it keeps time.  With a fixed period the [k]-th message after the first
    comes at least [k] periods after it; in real time, when the clock does not run
    backwards, two messages in succession come at least as far apart as their
    timestamps are. *)
Theorem paced_keeps_time nows (s : Src) period :
  StronglySorted Z.le nows → 0 ≤ period →
  (∀ k e0 t0 e t,
     let times := message_times (drive nows (PacedSource.paced s (Fixed period))).2 in
     times !! 0%nat = Some (e0, t0) → times !! k = Some (e, t) → e0 + Z.of_nat k * period ≤ e)
  ∧ match message_times (drive nows (PacedSource.paced s Realtime)).2 with
    | [] => True
    | (e, t) :: times => respects_gaps e t times
    end.
Proof.
  intros Hsort Hper. split; revert s.
  - induction nows as [|now nows IH]; intros s k e0 t0 e t times; [done|].
    apply StronglySorted_inv in Hsort as [Hsort _]. subst times. rewrite drive_cons. cbn [snd].
    change (poll_next now ?p) with (PacedSource.source now p). unfold PacedSource.source, PacedSource.pull.
    cbn [PacedSource.sleep PacedSource.paced PacedSource.inner]. destruct (poll_next now s) as [s' r].
    destruct r as [[[msg|err]|]|]; cbn; try (by apply (IH Hsort s')).
    intros [= <- <-] Hk. destruct k as [|k]; simpl in Hk; [simplify_eq; lia|].
    eapply (fixed_times period) in Hk; [|paced_side..]. cbn in Hk. lia.
  - induction nows as [|now nows IH]; intros s; [done|].
    pose proof Hsort as Hall. apply StronglySorted_inv in Hsort as [Hsort _]. rewrite drive_cons. cbn [snd].
    change (poll_next now ?p) with (PacedSource.source now p). unfold PacedSource.source, PacedSource.pull.
    cbn [PacedSource.sleep PacedSource.paced PacedSource.inner]. destruct (poll_next now s) as [s' r].
    destruct r as [[[msg|err]|]|]; cbn; try (by apply (IH Hsort s')).
    apply realtime_times; paced_side.
Qed.

End paced.

(** ** Teeing *)

Definition messages_of (out : list (Z * source_item)) : list Message.t :=
  omap (λ x, match x.2 with Ok msg => Some msg | Err _ => None end) out.

Lemma tee_run `{MessageSource Src} nows (s : Src) log :
  drive nows (Tee.mk s log)
  = (Tee.mk (drive nows s).1 (log ++ messages_of (drive nows s).2), (drive nows s).2).
Proof.
  revert s log. induction nows as [|now nows IH]; intros s log; [by simpl; rewrite app_nil_r|].
  cbn [drive]. change (poll_next now (Tee.mk s log)) with (Tee.tee_source now (Tee.mk s log)).
  unfold Tee.tee_source. cbn [Tee.source Tee.broadcast]. destruct (poll_next now s) as [s' r].
  destruct r as [[[msg|e]|]|]; rewrite IH; destruct (drive nows s') as [s2 out]; try done.
  cbn. by rewrite <-app_assoc.
Qed.

(** A tee gives what its source gives, and its subscribers what it gave as
    messages since they subscribed. *)
Lemma tee_copies `{MessageSource Src} nows (x : Tee.t Src) :
  let '(x', out) := drive nows x in
  out = (drive nows (Tee.source x)).2
  ∧ drop (Tee.subscribe x) (Tee.broadcast x') = messages_of out.
Proof.
  destruct x as [s log]. rewrite tee_run. split; [done|]. cbn. unfold Tee.subscribe. cbn.
  apply drop_app_length.
Qed.

(** ** Merging *)

Section merge.
Context `{BinaryHeap H}.

Lemma pending_le x y :
  PendingMessage.le x y ↔
  PendingMessage.timestamp y < PendingMessage.timestamp x
  ∨ PendingMessage.timestamp y = PendingMessage.timestamp x
    ∧ (PendingMessage.source_idx y ≤ PendingMessage.source_idx x)%nat.
Proof.
  unfold PendingMessage.le, PendingMessage.cmp.
  destruct (Z.compare_spec (PendingMessage.timestamp y) (PendingMessage.timestamp x)) as [He|Hl|Hg].
  - destruct (Nat.compare_spec (PendingMessage.source_idx y) (PendingMessage.source_idx x));
      split; intros; try done; (right; lia) || (exfalso; lia).
  - split; [by left|done].
  - split; [done|intros [?|?]; lia].
Qed.

(** Merging sorts: whatever was pushed comes out by timestamp, and by the index
    of the source among equal timestamps, after which the stream is over. *)
Theorem merge_sorts (ps : list PendingMessage.t) (m : MergeByTimestamp.t H) nows :
  heap_elems (MergeByTimestamp.heap m) ≡ₚ ps → length nows = length ps →
  ∃ qs m', drive nows m = (m', zip nows (map (λ x, Ok (PendingMessage.msg x)) qs))
    ∧ qs ≡ₚ ps
    ∧ StronglySorted (λ x y, PendingMessage.le y x) qs
    ∧ ∀ now, poll_next now m' = (m', Ready None).
Proof.
  revert m nows. remember (length ps) as n eqn:Hn. revert ps Hn.
  induction n as [|n IH]; intros ps Hn m nows Hps Hlen.
  - destruct ps, nows; try done. exists [], m. split_and!; [done|done|constructor|].
    intros now. symmetry in Hps. apply Permutation_nil in Hps. apply heap_pop_none in Hps.
    change (poll_next now m) with (MergeByTimestamp.source now m). unfold MergeByTimestamp.source.
    by rewrite Hps.
  - destruct nows as [|now nows]; [done|]. destruct (heap_pop (MergeByTimestamp.heap m)) as [[x h]|] eqn:Hpop.
    2:{ apply heap_pop_none in Hpop. rewrite Hpop in Hps. apply Permutation_length in Hps. simpl in Hps. lia. }
    destruct (heap_pop_some _ _ _ Hpop) as [Hperm Hmax].
    assert (length (heap_elems h) = n) as Hh.
    { apply Permutation_length in Hperm. apply Permutation_length in Hps. simpl in Hperm. lia. }
    destruct (IH (heap_elems h) (eq_sym Hh) (MergeByTimestamp.mk h) nows) as (qs & m' & Hd & Hq & Hs & He);
      [done|by injection Hlen|].
    exists (x :: qs), m'. split_and!; [| | |done].
    + assert (poll_next now m
        = (MergeByTimestamp.mk h, Ready (Some (Ok (PendingMessage.msg x))))) as Hpoll.
      { change (poll_next now m) with (MergeByTimestamp.source now m). unfold MergeByTimestamp.source.
        by rewrite Hpop. }
      rewrite drive_cons, Hpoll. cbn [fst snd]. by rewrite Hd.
    + by rewrite Hq, <-Hperm.
    + constructor; [done|]. rewrite Hq. rewrite Hperm in Hmax. by apply Forall_cons in Hmax as [_ ?].
Qed.
End merge.

(** A heap as a list, of which [pop] takes the first greatest element. *)
Fixpoint select_max (x : PendingMessage.t) (l : list PendingMessage.t)
    : PendingMessage.t * list PendingMessage.t :=
  match l with
  | [] => (x, [])
  | y :: l =>
      match PendingMessage.cmp y x with
      | Gt => let '(z, l) := select_max y l in (z, x :: l)
      | _ => let '(z, l) := select_max x l in (z, y :: l)
      end
  end.

Lemma select_max_spec x l z l' :
  select_max x l = (z, l') → x :: l ≡ₚ z :: l' ∧ Forall (λ y, PendingMessage.le y z) (x :: l).
Proof.
  revert x z l'. induction l as [|y l IH]; intros x z l'; cbn [select_max].
  - intros [= <- <-]. split; [done|]. apply Forall_singleton, pending_le. lia.
  - assert (∀ a b, (b = x ∧ a = y) ∨ (b = y ∧ a = x) → PendingMessage.le b a →
      (let '(z, l) := select_max a l in (z, b :: l)) = (z, l') →
      x :: y :: l ≡ₚ z :: l' ∧ Forall (λ w, PendingMessage.le w z) (x :: y :: l)) as Hstep.
    { intros a b Hab Hle Hsel. destruct (select_max a l) as [z1 l1] eqn:E. simplify_eq.
      destruct (IH _ _ _ E) as [Hp Hall].
      assert (x :: y :: l ≡ₚ b :: a :: l) as Hxy by (destruct Hab as [[-> ->]|[-> ->]]; [done|constructor]).
      rewrite Hxy. split; [rewrite Hp; constructor|]. constructor; [|done].
      apply Forall_cons in Hall as [Haz _]. rewrite pending_le in *. lia. }
    destruct (PendingMessage.cmp y x) eqn:Hc.
    + apply Hstep; [by right|]. unfold PendingMessage.le. by rewrite Hc.
    + apply Hstep; [by right|]. unfold PendingMessage.le. by rewrite Hc.
    + apply Hstep; [by left|]. assert (¬ PendingMessage.le y x) as Hn.
      { unfold PendingMessage.le. rewrite Hc. intros Hne. by apply Hne. }
      rewrite pending_le in *. lia.
Qed.

#[global, refine] Instance list_heap : BinaryHeap (list PendingMessage.t) := {|
  heap_new := [];
  heap_push := cons;
  heap_pop l := match l with [] => None | x :: l => Some (select_max x l) end;
  heap_elems l := l;
|}.
Proof.
  - done.
  - done.
  - by intros [|x l].
  - intros [|x l] z l'; [done|]. intros [= E]. by apply select_max_spec.
Defined.

Definition at_time (ts : Z) (source_idx : nat) : PendingMessage.t :=
  PendingMessage.mk ts source_idx (numbered ts).

Example merged :
  map snd (drive [0; 0; 0; 0; 0]
    (foldr MergeByTimestamp.push MergeByTimestamp.new
       [at_time 5 0; at_time 3 1; at_time 9 0; at_time 3 0])).2
  = map (λ k, Ok (numbered k)) [3; 3; 5; 9].
Proof. vm_compute. reflexivity. Qed.

(** A message every ten units, polled at odd times: the third is due at 20 and
    comes at 23, the fourth at 30.  A period is counted from the time at which the
    message before was due, not from when it came. *)
Example paced_ticks :
  map fst (drive [0; 1; 12; 13; 23; 24; 29; 30]
    (PacedSource.paced (IteratorSource.new (map numbered [1; 2; 3; 4])) (Fixed 10))).2
  = [0; 12; 23; 30].
Proof. vm_compute. reflexivity. Qed.
