(* ===== verification/Kafka.v ===== *)
(** The Kafka source ([crates/itch-source-kafka/src/lib.rs]).

    The consumer of [rdkafka] is not part of the repository: [Consumer] has the
    calls that the source makes, and nothing is assumed of it.  What it hands out,
    in which order and when, is up to it; the theorem says what the source makes
    of that.  [Backlog] is a consumer whose records arrive in the course of time. *)

From S2P Require Import Prelude Primitives Text Enums Messages Codec CodecMessages MessageCodec.
From S2P Require Import SeqStore SoupSession Sources.

Module Kafka.
Inductive AutoOffsetReset := Earliest | Latest.
Definition as_str (r : AutoOffsetReset) : string :=
  match r with Earliest => "earliest" | Latest => "latest" end.

Module Config.
Record t := mk {
  brokers : string; group_id : string; topic : string;
  auto_offset_reset : AutoOffsetReset;
  additional_props : list (string * string);
}.
End Config.

Inductive Error (Er : Type) :=
| Client (e : Er)
| Decode (e : ProtocolError)
| BadConfig (reason : string).
#[global] Arguments Client {_} _.
#[global] Arguments Decode {_} _.
#[global] Arguments BadConfig {_} _.

(** [ClientConfig::create], [subscribe], and one poll of [consumer.stream()]: a
    record has a payload or none. *)
Class Consumer (C Er : Type) := {
  create : gmap string string → result C Er;
  subscribe : list string → C → C * result unit Er;
  poll : Z → C → C * Poll (option (result (option (list Z)) Er));
}.
#[global] Hint Mode Consumer ! - : typeclass_instances.

Record t (C : Type) := mk {
  consumer : C;
  topic : string;
  decoder : list Z → result Message.t ProtocolError;
}.
#[global] Arguments mk {_} _ _ _.
#[global] Arguments consumer {_} _.
#[global] Arguments topic {_} _.
#[global] Arguments decoder {_} _.

Definition default_decoder (bytes : list Z) : result Message.t ProtocolError := Message_decode bytes.

(** [Box::new(err)] of a decoding error. *)
#[global] Instance boxed_protocol : SeqStore.Boxed ProtocolError := λ e,
  match e with
  | InvalidEnumCode _ _ => "InvalidEnumCode" | Truncated _ _ => "Truncated"
  | BufferTooSmall _ _ => "BufferTooSmall" | UnknownMessageType _ => "UnknownMessageType"
  end.

Section source.
Context `{Consumer C Er, SeqStore.Boxed Er}.

(** The properties: the four defaults, then those of the caller in order, where
    [set] replaces. *)
Definition client_config (config : Config.t) : gmap string string :=
  foldl (λ props kv, <[kv.1 := kv.2]> props)
    (<["auto.offset.reset" := as_str (Config.auto_offset_reset config)]>
     (<["enable.auto.commit" := "true"]>
      (<["group.id" := Config.group_id config]>
       (<["bootstrap.servers" := Config.brokers config]> ∅))))
    (Config.additional_props config).

Definition connect (config : Config.t) : result (t C) (Error Er) :=
  if decide (Config.brokers config = "") then Err (BadConfig "brokers must not be empty")
  else if decide (Config.group_id config = "") then Err (BadConfig "group_id must not be empty")
  else if decide (Config.topic config = "") then Err (BadConfig "topic must not be empty")
  else
    match create (client_config config) with
    | Err e => Err (Client e)
    | Ok consumer =>
        let '(consumer, r) := subscribe [Config.topic config] consumer in
        match r with
        | Err e => Err (Client e)
        | Ok _ => Ok (mk consumer (Config.topic config) default_decoder)
        end
    end.

Definition with_decoder (decoder : list Z → result Message.t ProtocolError) (s : t C) : t C :=
  mk (consumer s) (topic s) decoder.

(** What a record is turned into. *)
Definition item_of (dec : list Z → result Message.t ProtocolError)
    (record : result (option (list Z)) Er) : source_item :=
  match record with
  | Ok (Some payload) =>
      match dec payload with
      | Ok msg => Ok msg
      | Err err => Err (SourceError.Backend (SeqStore.boxed err))
      end
  | Ok None => Err (SourceError.Backend "kafka record had no payload")
  | Err err => Err (SourceError.Backend (SeqStore.boxed err))
  end.

#[global] Instance source : MessageSource (t C) := λ now s,
  let '(c, p) := poll now (consumer s) in
  (mk c (topic s) (decoder s),
   match p with
   | Ready (Some record) => Ready (Some (item_of (decoder s) record))
   | Ready None => Ready None
   | Pending => Pending
   end).
End source.

(** The records that a consumer hands out when it is polled at the given
    instants. *)
Fixpoint consumed `{Consumer C Er} (nows : list Z) (c : C) : C * list (Z * result (option (list Z)) Er) :=
  match nows with
  | [] => (c, [])
  | now :: nows =>
      let '(c, p) := poll now c in
      let '(c', out) := consumed nows c in
      (c', match p with Ready (Some record) => (now, record) :: out | _ => out end)
  end.
End Kafka.

(** ** A consumer with a backlog *)

(** Every record has the time from which it can be had. *)
Module Backlog.
Import Kafka.
Record t := mk {
  props : gmap string string; topics : list string;
  records : list (Z * result (option (list Z)) string);
}.
#[global] Instance boxed : SeqStore.Boxed string := λ e, e.
#[global] Instance consumer : Consumer t string := {|
  create := λ props, Ok (mk props [] []);
  subscribe := λ topics c, (mk (props c) topics (records c), Ok tt);
  poll := λ now c,
    match records c with
    | record :: records =>
        if record.1 <=? now then (mk (props c) (topics c) records, Ready (Some record.2)) else (c, Pending)
    | [] => (c, Pending)
    end |}.
End Backlog.

(** ** Properties *)

(** The payload begins with the encoding of a well-formed message. *)
Definition holds {Er} (record : result (option (list Z)) Er) (m : Message.t) : Prop :=
  wf m ∧ ∃ extra, record = Ok (Some (message_wire m ++ extra)).
(** A payload is bytes. *)
Definition record_ok {Er} (record : result (option (list Z)) Er) : Prop :=
  match record with Ok (Some payload) => Forall is_u8 payload | _ => True end.
(** The item for a record: its message, or an error if it holds none. *)
Definition answers {Er} (record : result (option (list Z)) Er) (item : source_item) : Prop :=
  (∃ m, item = Ok m ∧ holds record m)
  ∨ (∃ why, item = Err (SourceError.Backend why)) ∧ ∀ m, ¬ holds record m.

Lemma item_of_answers `{SeqStore.Boxed Er} (record : result (option (list Z)) Er) :
  record_ok record → answers record (Kafka.item_of Kafka.default_decoder record).
Proof.
  unfold answers, holds, Kafka.item_of, Kafka.default_decoder.
  destruct record as [[payload|]|e]; intros Hok; [|right; split; [by eexists|]; by intros m [_ [? [=]]]..].
  destruct (Message_decode payload) as [m|e] eqn:E; [left|right].
  - destruct (Message_decode_ok_inv _ _ Hok E) as (Hwf & _ & Ht). exists m. split_and!; [done|done|].
    exists (drop (Message.encoded_len m) payload). by rewrite <-Ht, take_drop.
  - split; [by eexists|]. intros m [Hm [extra Hp]]. pose proof (Message_decode_wire m extra Hm). congruence.
Qed.

(** A poll of the source is a poll of the consumer. *)
Lemma kafka_poll `{Kafka.Consumer C Er, SeqStore.Boxed Er} now (s : Kafka.t C) :
  poll_next now s
  = (Kafka.mk (Kafka.poll now (Kafka.consumer s)).1 (Kafka.topic s) (Kafka.decoder s),
     match (Kafka.poll now (Kafka.consumer s)).2 with
     | Ready (Some record) => Ready (Some (Kafka.item_of (Kafka.decoder s) record))
     | Ready None => Ready None
     | Pending => Pending
     end).
Proof. unfold poll_next, Kafka.source. by destruct (Kafka.poll now (Kafka.consumer s)). Qed.

Lemma kafka_drive `{Kafka.Consumer C Er, SeqStore.Boxed Er} nows (s : Kafka.t C) :
  (drive nows s).2
  = map (λ x, (x.1, Kafka.item_of (Kafka.decoder s) x.2)) (Kafka.consumed nows (Kafka.consumer s)).2
  ∧ Kafka.consumer (drive nows s).1 = (Kafka.consumed nows (Kafka.consumer s)).1.
Proof.
  revert s. induction nows as [|now nows IH]; intros s; [done|].
  rewrite drive_cons, kafka_poll. cbn [fst snd Kafka.consumed].
  destruct (Kafka.poll now (Kafka.consumer s)) as [c p]. cbn [fst snd].
  destruct (IH (Kafka.mk c (Kafka.topic s) (Kafka.decoder s))) as [-> ->].
  cbn [Kafka.consumer Kafka.decoder]. destruct (Kafka.consumed nows c) as [c' out].
  by destruct p as [[record|]|].
Qed.

(** C38: a Kafka source passes on what its consumer hands out, whatever the
    consumer is.  However it is polled, with the default decoder its items are the
    records that the consumer hands out at these polls, in the consumer's order (Kafka orders records within a
    partition only), one item for each record at the same instant: the message that
    the payload begins with, or an error where it begins with no message, there is
    no payload or the client failed.  A record without a message neither ends the
    stream nor hides a later record: after any polls the consumer stands where it
    would stand without the source, and the stream ends only if the consumer's
    does. *)
Theorem kafka_one_item_per_record `{Kafka.Consumer C Er, SeqStore.Boxed Er} (s : Kafka.t C) nows :
  let run := Kafka.consumed nows (Kafka.consumer s) in
  Kafka.decoder s = Kafka.default_decoder → Forall (λ x, record_ok x.2) run.2 →
  Forall2 (λ x y, x.1 = y.1 ∧ answers x.2 y.2) run.2 (drive nows s).2
  ∧ Kafka.consumer (drive nows s).1 = run.1
  ∧ ∀ now, (poll_next now (drive nows s).1).2 = Ready None ↔ (Kafka.poll now run.1).2 = Ready None.
Proof.
  cbn zeta. intros Hdec Hok. destruct (kafka_drive nows s) as [-> Hc]. split_and!; [|done|].
  - rewrite Hdec. induction Hok as [|x xs Hx _ IH]; [done|]. constructor; [|done].
    split; [done|]. by apply item_of_answers.
  - intros now. rewrite kafka_poll, Hc. cbn [snd].
    by destruct (Kafka.poll now _).2 as [[record|]|].
Qed.

(** The topic as the source reads it: good records, a bad one, an empty one; the
    last comes late. *)
Definition sample_records : list (Z * result (option (list Z)) string) :=
  [(0, Ok (Some (message_wire (fixture EventCode.StartOfMessages)))); (1, Ok (Some [255])); (1, Ok None);
   (7, Ok (Some (message_wire (fixture EventCode.EndOfMessages))))].
Definition sample_source : Kafka.t Backlog.t :=
  Kafka.mk (Backlog.mk ∅ ["itch"] sample_records) "itch" Kafka.default_decoder.

Lemma kafka_one_item_per_record_witness :
  let run := Kafka.consumed [0; 1; 2; 3; 8] (Kafka.consumer sample_source) in
  map fst run.2 = [0; 1; 2; 8]
  ∧ Forall2 (λ x y, x.1 = y.1 ∧ answers x.2 y.2) run.2 (drive [0; 1; 2; 3; 8] sample_source).2.
Proof.
  split; [reflexivity|]. refine (proj1 (kafka_one_item_per_record sample_source [0; 1; 2; 3; 8] _ _)).
  - reflexivity.
  - vm_compute. repeat constructor; discriminate.
Defined.

(** Properties of the caller win over the defaults, the last of equal keys over
    the others; the rest keep their default. *)
Lemma client_config_lookup (config : Kafka.Config.t) k :
  Kafka.client_config config !! k
  = match last (filter (λ kv, kv.1 = k) (Kafka.Config.additional_props config)) with
    | Some kv => Some kv.2
    | None =>
        if decide (k = "auto.offset.reset") then Some (Kafka.as_str (Kafka.Config.auto_offset_reset config))
        else if decide (k = "enable.auto.commit") then Some "true"
        else if decide (k = "group.id") then Some (Kafka.Config.group_id config)
        else if decide (k = "bootstrap.servers") then Some (Kafka.Config.brokers config)
        else None
    end.
Proof.
  unfold Kafka.client_config. induction (Kafka.Config.additional_props config) as [|kv props IH] using rev_ind.
  - simpl. repeat case_decide; subst; by rewrite ?lookup_insert_eq, ?lookup_insert_ne, ?lookup_insert_eq by done.
  - rewrite foldl_app, filter_app. cbn [foldl]. rewrite filter_cons, filter_nil.
    destruct (decide (kv.1 = k)) as [<-|Hne].
    + by rewrite lookup_insert_eq, last_snoc.
    + by rewrite lookup_insert_ne, app_nil_r by done.
Qed.

(** Connecting fails before any I/O exactly when one of the three names is
    empty; otherwise the client is created with the caller's properties over the
    defaults, and subscribed to the topic. *)
Theorem kafka_connect (config : Kafka.Config.t) :
  (Kafka.Config.brokers config = "" ∨ Kafka.Config.group_id config = "" ∨ Kafka.Config.topic config = ""
   → ∃ reason, Kafka.connect (C := Backlog.t) config = Err (Kafka.BadConfig reason))
  ∧ (Kafka.Config.brokers config ≠ "" → Kafka.Config.group_id config ≠ "" → Kafka.Config.topic config ≠ "" →
     Kafka.connect config
     = Ok (Kafka.mk (Backlog.mk (Kafka.client_config config) [Kafka.Config.topic config] [])
             (Kafka.Config.topic config) Kafka.default_decoder)).
Proof.
  unfold Kafka.connect. split.
  - intros Hor. repeat case_decide; [by eexists..|]. tauto.
  - intros Hb Hg Ht. by rewrite !decide_False.
Qed.
