(* ===== verification/SoupServer.v ===== *)
(** The SoupBinTCP server ([crates/itch-soup/src/server.rs]).

    The server is one ingest task, one accept loop and one task per subscriber.
    They share the store and the broadcast channel.  [step] is one move of one
    task, from one access to shared state to the next: a whole run is a sequence
    of moves in any order.  What a move cannot decide itself is part of the
    action: what the socket brings, whether a send succeeds, which send of a
    batch fails, when a signal comes.

    - [store] and [source] are the server's; the source's coming items are a
      list, its end is the end of the stream.
    - [log] is what was broadcast.  A receiver is a position in it, set when it
      subscribes; it sees [Closed] when it has read all and every sender is gone,
      and may be told at any time that it lags (the channel's capacity is not
      modelled).  There are two senders: the ingest task's and the accept loop's,
      which lives until [serve] returns.
    - [out] has the packets that were sent to a subscriber.

    The policy is the function [warmup] of the store that it may read, the
    authenticator the function [check].  Local addresses, [set_nodelay] and the
    waiting of [wait_ingest] are not modelled. *)

From S2P Require Import Prelude Primitives Enums Messages Codec CodecMessages MessageCodec.
From S2P Require Import SeqStore Framing SoupCodec SoupSession.

(** ** Authentication and configuration *)

Class Authenticator (A : Type) := check : A → list Z → list Z → result unit LoginRejectReason.t.

Module AllowAllAuthenticator.
Inductive t := new.
#[global] Instance auth : Authenticator t := λ _ _username _password, Ok tt.
End AllowAllAuthenticator.

Module StaticAuthenticator.
Record t := mk { username : list Z; password : list Z }.
#[global] Instance auth : Authenticator t := λ self username_ password_,
  if bool_decide (username_ = username self) && bool_decide (password_ = password self) then Ok tt
  else Err LoginRejectReason.NotAuthorized.
End StaticAuthenticator.

(** [String::truncate] panics inside a character: [None]. *)
Definition is_char_boundary (i : nat) (s : list Z) : bool :=
  match s !! i with Some b => negb (utf8_cont b) | None => (i =? length s)%nat end.
Definition SoupSession_new (id : list Z) : option (list Z) :=
  if (10 <? length id)%nat then if is_char_boundary 10 id then Some (take 10 id) else None
  else Some id.

Definition DEFAULT_BROADCAST_CAPACITY : Z := 4096.
Definition DEFAULT_UNSEQUENCED_INBOX_CAPACITY : nat := 1024.
Definition DEFAULT_SHUTDOWN_GRACE : Z := 5000000000.

Module ServerConfig.
Record t := mk {
  session : list Z; start_sequence : Z; broadcast_capacity : Z; shutdown_grace : Z }.
(** The defaults of [bind_with_auth]. *)
Definition bind : t :=
  mk [b@"S"; b@"0"; b@"0"; b@"0"; b@"1"] 1 DEFAULT_BROADCAST_CAPACITY DEFAULT_SHUTDOWN_GRACE.
Definition with_broadcast_capacity (capacity : Z) (c : t) : t :=
  mk (session c) (start_sequence c) (Z.max capacity 1) (shutdown_grace c).
Definition with_session (id : list Z) (c : t) : t :=
  mk id (start_sequence c) (broadcast_capacity c) (shutdown_grace c).
Definition with_start_sequence (seq : Z) (c : t) : t :=
  mk (session c) (Z.max seq 1) (broadcast_capacity c) (shutdown_grace c).
Definition with_shutdown_grace (grace : Z) (c : t) : t :=
  mk (session c) (start_sequence c) (broadcast_capacity c) grace.
End ServerConfig.

(** ** A subscriber's task *)

Module Subscriber.
(** Where [handle_subscriber] stands, with its live locals. *)
Inductive phase :=
| AwaitLogin
| LoggedIn (req : LoginRequest.t)
| Warming (latest resume_from : Z)
| Replaying (next_expected : Z)
| Live (next_expected : Z)
| Closed.
Record t := mk { at_ : phase; rx : nat; out : list SoupPacket.t }.

(** [accept_tx.subscribe()] and the start of the task. *)
Definition subscribe (sent : nat) : t := mk AwaitLogin sent [].
Definition goto (p : phase) (s : t) : t := mk p (rx s) (out s).
Definition close (s : t) : t := goto Closed s.

(** [framed.send(p)]; [io] says whether the socket takes it. *)
Definition send (p : SoupPacket.t) (io : bool) (s : t) : t * bool :=
  if io && is_ok (SoupCodec.encode p []).2 then (mk (at_ s) (rx s) (out s ++ [p]), true)
  else (s, false).

(** Encodes a message and sends it as sequenced data. *)
Definition send_data (msg : Message.t) (io : bool) (s : t) : t * bool :=
  match encode_vec msg with
  | Ok buf => send (SoupPacket.SequencedData buf) io s
  | Err _ => (s, false)
  end.

(** A loop that sends messages and leaves at the first failure; the [k]-th send
    fails when [fails] is [Some k]. *)
Fixpoint send_all (ms : list Message.t) (fails : option nat) (s : t) : t * bool :=
  match ms with
  | [] => (s, true)
  | m :: ms =>
      match send_data m (negb (bool_decide (fails = Some O))) s with
      | (s, true) => send_all ms (pred <$> fails) s
      | (s, false) => (s, false)
      end
  end.

Section handler.
Context `{SeqStore.Ops St E, Authenticator A} (auth : A) (session_id : list Z).
Context (warmup : St → result (list Message.t) SourceError.t).

(** 1) Login handshake. *)
Definition reject (reason : LoginRejectReason.t) (io : bool) (s : t) : t :=
  close (send (SoupPacket.LoginRejected reason) io s).1.

Definition login_step (ev : packet_event) (io : bool) (s : t) : t :=
  match ev with
  | Some (Ok (SoupPacket.LoginRequest req)) =>
      match check auth (LoginRequest.username req) (LoginRequest.password req) with
      | Err reason => reject reason io s
      | Ok _ =>
          let trimmed_requested := str_trim (LoginRequest.requested_session req) in
          if negb (bool_decide (trimmed_requested = []))
             && negb (bool_decide (trimmed_requested = str_trim session_id))
          then reject LoginRejectReason.SessionUnavailable io s
          else goto (LoggedIn req) s
      end
  | _ => close s
  end.

(** The resume point and the acceptance. *)
Definition accept_step (store : St) (req : LoginRequest.t) (io : bool) (s : t) : t :=
  let latest := match SeqStore.latest store with Ok l => l | Err _ => 0 end in
  let resume_from :=
    if LoginRequest.requested_sequence req =? 0 then u64_saturating_add latest 1
    else LoginRequest.requested_sequence req in
  match send (SoupPacket.LoginAccepted (LoginAccepted.mk session_id resume_from)) io s with
  | (s, true) => goto (Warming latest resume_from) s
  | (s, false) => close s
  end.

(** 2) Warmup messages from the policy. *)
Definition warmup_step (store : St) (latest resume_from : Z) (fails : option nat) (s : t) : t :=
  match warmup store with
  | Err _ => close s
  | Ok ms =>
      match send_all ms fails s with
      | (s, true) => goto (if resume_from <=? latest then Replaying resume_from else Live resume_from) s
      | (s, false) => close s
      end
  end.

(** 3) One turn of the replay loop. *)
Definition replay_step (store : St) (next_expected : Z) (fails : option nat) (s : t) : t :=
  match SeqStore.range next_expected 256 store with
  | Err _ => close s
  | Ok range =>
      match last range with
      | None => goto (Live next_expected) s
      | Some (seq, _) =>
          match send_all (map snd range) fails s with
          | (s, true) => goto (Replaying (u64_saturating_add seq 1)) s
          | (s, false) => close s
          end
      end
  end.

(** 4) Live: the arm of [rx.recv()]; [None] where it has to wait. *)
Definition recv_step (log : list (Z * Message.t)) (senders_gone : bool) (next_expected : Z)
    (lagged io : bool) (s : t) : option t :=
  if lagged then Some (close s)
  else
    match log !! rx s with
    | Some (seq, msg) =>
        let s := mk (at_ s) (S (rx s)) (out s) in
        if seq <? next_expected then Some s
        else
          match send_data msg io s with
          | (s, true) => Some (goto (Live (u64_saturating_add seq 1)) s)
          | (s, false) => Some (close s)
          end
    | None =>
        if senders_gone then Some (close (send SoupPacket.EndOfSession io s).1) else None
    end.

(** The arm of [framed.next()], with the inbox of the server. *)
Definition packet_step (ev : packet_event) (inbox : list Message.t) (s : t) : t * list Message.t :=
  match ev with
  | Some (Ok SoupPacket.LogoutRequest) => (close s, inbox)
  | Some (Ok SoupPacket.ClientHeartbeat) | Some (Ok (SoupPacket.Debug _)) => (s, inbox)
  | Some (Ok (SoupPacket.UnsequencedData payload)) =>
      match Message_decode payload with
      | Ok msg =>
          if (length inbox <? DEFAULT_UNSEQUENCED_INBOX_CAPACITY)%nat then (s, inbox ++ [msg])
          else (s, inbox)
      | Err _ => (s, inbox)
      end
  | _ => (close s, inbox)
  end.
End handler.
End Subscriber.

(** ** The server *)

(** The ingest task: before it has read [latest], waiting for the source, with a
    message stored but not broadcast, ended. *)
Inductive ingest_state :=
| Starting
| Running (next_seq : Z)
| Stored (next_seq : Z) (msg : Message.t)
| Ended.

(** [serve]: in the accept loop, waiting for the ingest task, waiting for the
    subscribers, returned. *)
Inductive serve_state := Accepting | Joining | Grace | Returned.

Record world (St : Type) := mk_world {
  store : St;
  source : list (result Message.t SourceError.t);
  ingest : ingest_state;
  log : list (Z * Message.t);
  subs : list Subscriber.t;
  inbox : list Message.t;
  serve : serve_state;
}.
Arguments mk_world {St}.
Arguments store {St}.
Arguments source {St}.
Arguments ingest {St}.
Arguments log {St}.
Arguments subs {St}.
Arguments inbox {St}.
Arguments serve {St}.

Inductive action :=
| IngestStart | IngestNext | IngestSend
| Accept
| ShutdownSignal | IngestNoticed | IngestJoined | GraceOver
| SubLogin (i : nat) (ev : packet_event) (io : bool)
| SubAccept (i : nat) (io : bool)
| SubWarmup (i : nat) (fails : option nat)
| SubReplay (i : nat) (fails : option nat)
| SubRecv (i : nat) (lagged io : bool)
| SubPacket (i : nat) (ev : packet_event)
| InboxRecv.

Section server.
Context `{SeqStore.Ops St E, Authenticator A} (auth : A) (cfg : ServerConfig.t).
Context (warmup : St → result (list Message.t) SourceError.t).
Implicit Types w : world St.

Definition init (st : St) (src : list (result Message.t SourceError.t)) : world St :=
  mk_world st src Starting [] [] [] Accepting.

Definition set_ingest (x : ingest_state) w : world St :=
  mk_world (store w) (source w) x (log w) (subs w) (inbox w) (serve w).
Definition set_serve (x : serve_state) w : world St :=
  mk_world (store w) (source w) (ingest w) (log w) (subs w) (inbox w) x.
Definition set_sub (i : nat) (s : Subscriber.t) w : world St :=
  mk_world (store w) (source w) (ingest w) (log w) (<[i := s]> (subs w)) (inbox w) (serve w).

(** The ingest task. *)
Definition ingest_start w : world St :=
  set_ingest (Running
    (match SeqStore.latest (store w) with
     | Ok latest => Z.max (u64_saturating_add latest 1) (ServerConfig.start_sequence cfg)
     | Err _ => ServerConfig.start_sequence cfg
     end)) w.

Definition ingest_next (next_seq : Z) w : world St :=
  match source w with
  | Ok msg :: src =>
      match SeqStore.store next_seq msg (store w) with
      | (st, Ok _) =>
          mk_world st src (Stored next_seq msg) (log w) (subs w) (inbox w) (serve w)
      | (st, Err _) =>
          mk_world st src (Running next_seq) (log w) (subs w) (inbox w) (serve w)
      end
  | Err _ :: src => mk_world (store w) src Ended (log w) (subs w) (inbox w) (serve w)
  | [] => set_ingest Ended w
  end.

Definition ingest_send (next_seq : Z) (msg : Message.t) w : world St :=
  mk_world (store w) (source w) (Running (u64_saturating_add next_seq 1))
    (log w ++ [(next_seq, msg)]) (subs w) (inbox w) (serve w).

(** No [broadcast::Sender] is left. *)
Definition senders_gone w : bool :=
  match ingest w, serve w with Ended, Returned => true | _, _ => false end.

(** One move; [None] where the task has to wait. *)
Definition step (a : action) w : option (world St) :=
  let sub i (k : Subscriber.phase → Subscriber.t → option (world St)) :=
    match subs w !! i with Some s => k (Subscriber.at_ s) s | None => None end in
  match a with
  | IngestStart => match ingest w with Starting => Some (ingest_start w) | _ => None end
  | IngestNext => match ingest w with Running n => Some (ingest_next n w) | _ => None end
  | IngestSend => match ingest w with Stored n msg => Some (ingest_send n msg w) | _ => None end
  | Accept =>
      match serve w with
      | Accepting =>
          Some (mk_world (store w) (source w) (ingest w) (log w)
                  (subs w ++ [Subscriber.subscribe (length (log w))]) (inbox w) (serve w))
      | _ => None
      end
  | ShutdownSignal => match serve w with Accepting => Some (set_serve Joining w) | _ => None end
  | IngestNoticed =>
      match serve w, ingest w with Accepting, Ended => Some (set_serve Joining w) | _, _ => None end
  | IngestJoined =>
      match serve w, ingest w with Joining, Ended => Some (set_serve Grace w) | _, _ => None end
  | GraceOver => match serve w with Grace => Some (set_serve Returned w) | _ => None end
  | SubLogin i ev io => sub i (λ p s,
      match p with
      | Subscriber.AwaitLogin =>
          Some (set_sub i (Subscriber.login_step auth (ServerConfig.session cfg) ev io s) w)
      | _ => None
      end)
  | SubAccept i io => sub i (λ p s,
      match p with
      | Subscriber.LoggedIn req =>
          Some (set_sub i (Subscriber.accept_step (ServerConfig.session cfg) (store w) req io s) w)
      | _ => None
      end)
  | SubWarmup i fails => sub i (λ p s,
      match p with
      | Subscriber.Warming latest resume_from =>
          Some (set_sub i (Subscriber.warmup_step warmup (store w) latest resume_from fails s) w)
      | _ => None
      end)
  | SubReplay i fails => sub i (λ p s,
      match p with
      | Subscriber.Replaying n => Some (set_sub i (Subscriber.replay_step (store w) n fails s) w)
      | _ => None
      end)
  | SubRecv i lagged io => sub i (λ p s,
      match p with
      | Subscriber.Live n =>
          s ← Subscriber.recv_step (log w) (senders_gone w) n lagged io s; Some (set_sub i s w)
      | _ => None
      end)
  | SubPacket i ev => sub i (λ p s,
      match p with
      | Subscriber.Live _ =>
          let '(s, inbox) := Subscriber.packet_step ev (inbox w) s in
          Some (mk_world (store w) (source w) (ingest w) (log w) (<[i := s]> (subs w)) inbox (serve w))
      | _ => None
      end)
  | InboxRecv =>
      Some (mk_world (store w) (source w) (ingest w) (log w) (subs w) (tail (inbox w)) (serve w))
  end.
End server.

(** ** What is sent to a subscriber *)

Module SubscriberFacts.
Import Subscriber.

Definition push (ps : list SoupPacket.t) (s : t) : t := mk (at_ s) (rx s) (out s ++ ps).

Lemma push_nil s : push [] s = s.
Proof. unfold push. rewrite app_nil_r. by destruct s. Qed.
Lemma push_push ps qs s : push qs (push ps s) = push (ps ++ qs) s.
Proof. unfold push. simpl. by rewrite app_assoc. Qed.

Lemma send_small p io s :
  (SoupPacket.payload_len p ≤ 1000)%nat → send p io s = (if io then push [p] s else s, io).
Proof.
  intros Hp. unfold send, SoupCodec.encode, SoupPacket.encoded_len, MAX_MESSAGE_LEN.
  rewrite (proj2 (Nat.ltb_ge _ _)) by lia. simpl. rewrite andb_true_r. by destruct io.
Qed.

Lemma send_data_spec m io s :
  wf m → send_data m io s = (if io then push [data m] s else s, io).
Proof.
  intros Hm. unfold send_data. rewrite encode_vec_wire by done. apply send_small.
  unfold data. cbn [SoupPacket.payload_len]. rewrite length_message_wire by done.
  pose proof (encoded_len_bounds m). lia.
Qed.

(** A batch is sent up to its first failure. *)
Lemma send_all_spec ms fails s :
  Forall wf ms →
  ∃ j b, send_all ms fails s = (push (map data (take j ms)) s, b)
    ∧ (j ≤ length ms)%nat ∧ (b = true → j = length ms) ∧ (fails = None → b = true).
Proof.
  intros Hms. revert fails s. induction Hms as [|m ms Hm Hms IH]; intros fails s.
  { exists O, true. simpl. rewrite push_nil. split_and!; auto. }
  cbn [send_all]. rewrite send_data_spec by done.
  destruct (bool_decide_reflect (fails = Some O)) as [->|Hf]; cbn [negb].
  { exists O, false. simpl. rewrite push_nil. split_and!; [done|lia|done|done]. }
  destruct (IH (pred <$> fails) (push [data m] s)) as (j & b & -> & Hj & Hb & Hn).
  exists (S j), b. rewrite push_push. cbn [length take map app]. split_and!; [done|lia| |].
  - intros Hb'. by rewrite (Hb Hb').
  - intros ->. by apply Hn.
Qed.
End SubscriberFacts.

Lemma seqZ_snoc a n : 0 ≤ n → seqZ a n ++ [a + n] = seqZ a (n + 1).
Proof. intros. rewrite seqZ_app by lia. done. Qed.

Lemma take_seqZ a n j : (j ≤ Z.to_nat n)%nat → take j (seqZ a n) = seqZ a (Z.of_nat j).
Proof.
  intros Hj. destruct (Z.le_gt_cases 0 n) as [Hn|Hn].
  - replace n with (Z.of_nat j + (n - Z.of_nat j)) by lia. rewrite seqZ_app by lia.
    by rewrite take_app_length' by (rewrite length_seqZ; lia).
  - by replace j with O by lia.
Qed.

Lemma last_run {B} (f : Z → B) a n : 0 < n → last (map f (seqZ a n)) = Some (f (a + n - 1)).
Proof.
  intros Hn. replace n with (n - 1 + 1) at 1 by lia. rewrite <-seqZ_snoc, map_app by lia.
  cbn [map]. rewrite last_snoc. do 2 f_equal. lia.
Qed.

Lemma seqZ_below P a n : a + n ≤ P + 1 → Forall (λ k, k ≤ P) (seqZ a n).
Proof. intros H. apply Forall_forall. intros k Hk%elem_of_seqZ. lia. Qed.

Section service.
Context `{SeqStore.Contract St E, Authenticator A} (auth : A) (cfg : ServerConfig.t).
Context (warmup : St → result (list Message.t) SourceError.t).
(** The messages by number; the server's first is [first], the store's [lo]. *)
Context (msgs : Z → Message.t) (lo first : Z).
(** Whether replays are assumed to keep up with the store. *)
Context (timely : bool).
Implicit Types (w : world St) (s : Subscriber.t) (ks : list Z).

(** The numbers of the messages sent: consecutive from the resume point, with
    one jump at most, and none when replays are timely; all of them numbers that
    the store can hold. *)
Definition run_from (resume : Z) (ks : list Z) : Prop :=
  ((∃ n, ks = seqZ resume n)
   ∨ timely = false ∧ ∃ n live m, ks = seqZ resume n ++ seqZ live m ∧ 0 ≤ n ∧ resume + n < live)
  ∧ Forall (λ k, k < SeqStore.seq_limit St) ks.

Definition acceptance (resume : Z) : SoupPacket.t :=
  SoupPacket.LoginAccepted (LoginAccepted.mk (ServerConfig.session cfg) resume).

Inductive served : list SoupPacket.t → Prop :=
| served_nothing : served []
| served_rejected reason : served [SoupPacket.LoginRejected reason]
| served_accepted resume : served [acceptance resume]
| served_data resume st ws warm ks fin :
    warmup st = Ok ws → warm `prefix_of` ws → (ks ≠ [] → warm = ws) → run_from resume ks →
    fin = [] ∨ fin = [SoupPacket.EndOfSession] →
    served (acceptance resume :: map data (warm ++ map msgs ks) ++ fin).

(** What a subscriber in the data phase has been sent. *)
Definition sent_upto (resume : Z) (ks : list Z) (s : Subscriber.t) : Prop :=
  ∃ st ws, warmup st = Ok ws
    ∧ Subscriber.out s = acceptance resume :: map data (ws ++ map msgs ks).

Definition sub_ok (sent : nat) (high : Z) (s : Subscriber.t) : Prop :=
  (Subscriber.rx s ≤ sent)%nat ∧
  match Subscriber.at_ s with
  | Subscriber.AwaitLogin => Subscriber.out s = []
  | Subscriber.LoggedIn req =>
      Subscriber.out s = [] ∧ is_u64 (LoginRequest.requested_sequence req)
  | Subscriber.Warming latest resume =>
      Subscriber.out s = [acceptance resume] ∧ latest ≤ high ∧ is_u64 resume
      ∧ first + Z.of_nat (Subscriber.rx s) ≤ latest + 1
  | Subscriber.Replaying n =>
      ∃ resume, sent_upto resume (seqZ resume (n - resume)) s ∧ 0 ≤ resume ≤ n ∧ n ≤ high + 1
  | Subscriber.Live n =>
      ∃ resume ks, sent_upto resume ks s ∧ 0 ≤ resume ≤ n ∧ Forall (λ k, k ≤ high) ks
        ∧ (ks = seqZ resume (n - resume)
             ∧ (timely = true → first + Z.of_nat (Subscriber.rx s) ≤ n)
           ∨ timely = false
             ∧ (∃ k live, ks = seqZ resume k ++ seqZ live (n - live) ∧ 0 ≤ k ∧ resume + k < live < n)
             ∧ first + Z.of_nat (Subscriber.rx s) ≤ n)
  | Subscriber.Closed => served (Subscriber.out s)
  end.

(** The source will bring [msgs n], [msgs (n + 1)], ... up to its first error. *)
Fixpoint src_ok (n : Z) (src : list (result Message.t SourceError.t)) : Prop :=
  match src with
  | Ok m :: src => m = msgs n ∧ src_ok (n + 1) src
  | _ => True
  end.

Record world_ok w : Prop := {
  wo_store : store_tracks msgs lo (store w);
  wo_log : log w = map (λ k, (k, msgs k)) (seqZ first (Z.of_nat (length (log w))));
  wo_ingest :
    match ingest w with
    | Starting => log w = [] ∧ SeqStore.high (store w) = first - 1 ∧ src_ok first (source w)
    | Running n =>
        n = first + Z.of_nat (length (log w)) ∧ SeqStore.high (store w) = n - 1
        ∧ src_ok n (source w)
    | Stored n m =>
        n = first + Z.of_nat (length (log w)) ∧ SeqStore.high (store w) = n
        ∧ m = msgs n ∧ src_ok (n + 1) (source w)
    | Ended => first + Z.of_nat (length (log w)) ≤ SeqStore.high (store w) + 1
    end;
  wo_room : SeqStore.high (store w) + Z.of_nat (length (source w)) < SeqStore.seq_limit St;
  wo_subs : Forall (sub_ok (length (log w)) (SeqStore.high (store w))) (subs w);
}.

(** What is asked for in a replay is still in the store. *)
Definition replay_covered (w : world St) (i : nat) : Prop :=
  ∀ s n, subs w !! i = Some s → Subscriber.at_ s = Subscriber.Replaying n →
    lo ≤ n ∧ SeqStore.high (store w) - SeqStore.retention (store w) < n.

(** The actions considered: sequence numbers are those of the wire, and replays
    are timely where that is assumed. *)
Definition admissible (a : action) w : Prop :=
  match a with
  | SubLogin _ (Some (Ok (SoupPacket.LoginRequest req))) _ =>
      is_u64 (LoginRequest.requested_sequence req)
  | SubReplay i _ => timely = true → replay_covered w i
  | _ => True
  end.

Definition move w w' : Prop := ∃ a, admissible a w ∧ step auth cfg warmup a w = Some w'.

Hypothesis msgs_wf : ∀ k, wf (msgs k).
Hypothesis warmup_wf : ∀ st ws, warmup st = Ok ws → Forall wf ws.
Hypothesis start_ok : ServerConfig.start_sequence cfg ≤ first.

Lemma sub_ok_mono sent high sent' high' s :
  (sent ≤ sent')%nat → high ≤ high' → sub_ok sent high s → sub_ok sent' high' s.
Proof.
  intros Hs Hh [Hrx Hp]. split; [lia|]. destruct (Subscriber.at_ s); try done.
  - destruct Hp as (? & ? & ? & ?). split_and!; [done|lia|done|done].
  - destruct Hp as (resume & ? & ? & ?). exists resume. split_and!; done || lia.
  - destruct Hp as (resume & ks & ? & ? & Hks & ?). exists resume, ks. split_and!; try (done || lia).
    eapply Forall_impl; [exact Hks|]. simpl. lia.
Qed.

(** The data phase may end at any time. *)
Lemma sent_upto_served resume ks s fin :
  sent_upto resume ks s → run_from resume ks → fin = [] ∨ fin = [SoupPacket.EndOfSession] →
  served (Subscriber.out s ++ fin).
Proof.
  intros (st & ws & Hw & ->) Hr Hfin.
  change (served (acceptance resume :: map data (ws ++ map msgs ks) ++ fin)).
  by eapply served_data.
Qed.

Lemma sent_upto_push resume ks ks' ps s :
  sent_upto resume ks s → ps = map data (map msgs ks') →
  sent_upto resume (ks ++ ks') (SubscriberFacts.push ps s).
Proof.
  intros (st & ws & Hw & Ho) ->. exists st, ws. split; [done|]. simpl.
  rewrite Ho, (map_app msgs ks), app_assoc, (map_app data (ws ++ _)). done.
Qed.


(** The data-phase part of a subscriber's state, whatever it does next. *)
Lemma live_run sent high s n :
  Subscriber.at_ s = Subscriber.Live n → sub_ok sent high s → high < SeqStore.seq_limit St →
  ∃ resume ks, sent_upto resume ks s ∧ run_from resume ks.
Proof.
  intros Ha [_ Hp] Hlim. rewrite Ha in Hp. destruct Hp as (resume & ks & Hs & _ & Hall & Hk).
  exists resume, ks. split; [done|]. split; [|eapply Forall_impl; [exact Hall|]; simpl; lia].
  destruct Hk as [[-> _]|(? & (k & live & -> & ? & ?) & _)].
  - left. by eexists.
  - right. split; [done|]. exists k, live, (n - live). split_and!; done || lia.
Qed.

Lemma closed_ok sent high s :
  (Subscriber.rx s ≤ sent)%nat → served (Subscriber.out s) → sub_ok sent high (Subscriber.close s).
Proof. by split. Qed.

(** A batch of a replay or of the live phase that fails on the way. *)
Lemma served_push resume ks n j s :
  sent_upto resume ks s → run_from resume (ks ++ seqZ n (Z.of_nat j)) →
  served (Subscriber.out (SubscriberFacts.push (map data (map msgs (seqZ n (Z.of_nat j)))) s)).
Proof.
  intros Hs Hr. rewrite <-(app_nil_r (Subscriber.out _)).
  eapply sent_upto_served; [by apply sent_upto_push|done|by left].
Qed.

Lemma login_step_ok sent high ev io s :
  Subscriber.at_ s = Subscriber.AwaitLogin →
  (∀ req, ev = Some (Ok (SoupPacket.LoginRequest req)) → is_u64 (LoginRequest.requested_sequence req)) →
  sub_ok sent high s →
  sub_ok sent high (Subscriber.login_step auth (ServerConfig.session cfg) ev io s).
Proof.
  intros Ha Hev [Hrx Hp]. rewrite Ha in Hp.
  assert (sub_ok sent high (Subscriber.close s)) as Hclose.
  { apply closed_ok; [done|]. rewrite Hp. constructor. }
  assert (∀ reason, sub_ok sent high (Subscriber.reject reason io s)) as Hrej.
  { intros reason. unfold Subscriber.reject. rewrite SubscriberFacts.send_small by by apply Nat.leb_le.
    destruct io; [|done]. apply closed_ok; [done|]. simpl. rewrite Hp. constructor. }
  unfold Subscriber.login_step. destruct ev as [[p|e]|]; [|done|done].
  destruct p as [|req| | | | | | | |]; try done.
  destruct (check _ _ _) as [[]|reason]; [|done]. case_match; [done|].
  split; [done|]. split; [done|]. by apply Hev.
Qed.

Lemma accept_step_ok w req io s :
  world_ok w → Subscriber.at_ s = Subscriber.LoggedIn req →
  sub_ok (length (log w)) (SeqStore.high (store w)) s →
  first + Z.of_nat (length (log w)) ≤ SeqStore.high (store w) + 1 →
  sub_ok (length (log w)) (SeqStore.high (store w))
    (Subscriber.accept_step (ServerConfig.session cfg) (store w) req io s).
Proof.
  intros Hw Ha [Hrx Hp] Hlen. rewrite Ha in Hp. destruct Hp as [Hout Hseq].
  unfold Subscriber.accept_step. pose proof (tr_inv _ _ _ (wo_store _ Hw)) as Hi.
  rewrite SeqStore.latest_ok by done. pose proof (SeqStore.high_ok _ Hi).
  set (resume := if _ =? 0 then _ else _). rewrite SubscriberFacts.send_small by by apply Nat.leb_le.
  destruct io; [|apply closed_ok; [done|]; rewrite Hout; constructor].
  split; [done|]. simpl. rewrite Hout. split_and!; [done|lia| |lia].
  unfold resume. case_match; [|done]. pose proof (wo_room _ Hw). pose proof SeqStore.limits_ok as Hlim.
  rewrite u64_saturating_add_small by lia. unfold in_width, u64_max in *. lia.
Qed.

Lemma warmup_step_ok w latest resume fails s :
  Subscriber.at_ s = Subscriber.Warming latest resume →
  sub_ok (length (log w)) (SeqStore.high (store w)) s →
  sub_ok (length (log w)) (SeqStore.high (store w))
    (Subscriber.warmup_step warmup (store w) latest resume fails s).
Proof.
  intros Ha [Hrx Hp]. rewrite Ha in Hp. destruct Hp as (Hout & Hl & Hu & Hf).
  unfold Subscriber.warmup_step. destruct (warmup (store w)) as [ws|] eqn:Ew; cycle 1.
  { apply closed_ok; [done|]. rewrite Hout. constructor. }
  destruct (SubscriberFacts.send_all_spec ws fails s) as (j & b & -> & Hj & Hb & _); [by eapply warmup_wf|].
  destruct b.
  - rewrite (Hb eq_refl), firstn_all. 
    assert (sent_upto resume [] (SubscriberFacts.push (map data ws) s)) as Hs.
    { exists (store w), ws. split; [done|]. simpl. rewrite Hout, app_nil_r. done. }
    unfold in_width in Hu. split; [done|]. destruct (Z.leb_spec resume latest) as [El|El]; simpl.
    + exists resume. rewrite Z.sub_diag. split_and!; done || lia.
    + exists resume, []. split_and!; [done|lia|lia|done|].
      left. rewrite Z.sub_diag. split; [done|]. simpl. lia.
  - apply closed_ok; [done|]. simpl. rewrite Hout.
    rewrite <-(app_nil_r (map data _)). cbn [app].
    replace (map data (take j ws)) with (map data (take j ws ++ map msgs [])) by (simpl; by rewrite app_nil_r).
    eapply served_data; [done|apply prefix_take|done|split; [left; by exists 0|done]|by left].
Qed.

(** A replay step sends the next run of numbers. *)
Lemma replay_step_ok w n fails s :
  world_ok w → Subscriber.at_ s = Subscriber.Replaying n →
  sub_ok (length (log w)) (SeqStore.high (store w)) s →
  first + Z.of_nat (length (log w)) ≤ SeqStore.high (store w) + 1 →
  (timely = true → lo ≤ n ∧ SeqStore.high (store w) - SeqStore.retention (store w) < n) →
  sub_ok (length (log w)) (SeqStore.high (store w)) (Subscriber.replay_step (store w) n fails s).
Proof.
  intros Hw Ha [Hrx Hp] Hlen Htime. rewrite Ha in Hp. destruct Hp as (resume & Hs & Hn & Hhi).
  pose proof (wo_store _ Hw) as Ht. pose proof (wo_room _ Hw) as Hroom.
  pose proof SeqStore.limits_ok as Hlim.
  assert (is_u64 n) as Hu by (unfold in_width, u64_max in *; lia).
  unfold Subscriber.replay_step.
  destruct (tracks_range_sound msgs lo (store w) n 256) as (k & Hr & Hk & Hmax); [done|done|lia|lia|].
  rewrite Hr. destruct (decide (k = 0)) as [->|Hk0].
  - simpl. split; [done|]. simpl. exists resume, (seqZ resume (n - resume)). split_and!; [done|lia|lia| |].
    { apply seqZ_below. lia. }
    left. split; [done|]. intros Htrue. destruct (Htime Htrue) as [Hlo Hret].
    rewrite (tracks_range msgs lo) in Hr by (done || lia).
    assert (n = SeqStore.high (store w) + 1); [|lia].
    destruct (Z.eq_dec n (SeqStore.high (store w) + 1)) as [|Hne]; [done|].
    rewrite (seqZ_cons n) in Hr by lia. done.
  - rewrite last_run by lia. rewrite u64_saturating_add_small by lia. rewrite map_map.
    change (map _ (seqZ n k)) with (map msgs (seqZ n k)).
    destruct (SubscriberFacts.send_all_spec (map msgs (seqZ n k)) fails s) as (j & b & -> & Hj & Hb & _).
    { apply Forall_map, Forall_true. intros; apply msgs_wf. }
    rewrite length_map, length_seqZ in Hj, Hb.
    assert (take j (map msgs (seqZ n k)) = map msgs (seqZ n (Z.of_nat j))) as ->.
    { change (map msgs) with (fmap (M := list) msgs). by rewrite <-fmap_take, take_seqZ. }
    assert (seqZ resume (n - resume) ++ seqZ n (Z.of_nat j) = seqZ resume (n - resume + Z.of_nat j)) as Hrun.
    { rewrite (seqZ_app resume) by lia. do 2 f_equal. lia. }
    destruct b.
    + split; [done|]. exists resume. rewrite (Hb eq_refl), Z2Nat.id in * by lia.
      replace (n + k - 1 + 1 - resume) with (n - resume + k) by lia. rewrite <-Hrun.
      split_and!; [|lia|lia|lia]. apply (sent_upto_push _ _ _ _ _ Hs). done.
    + apply closed_ok; [done|]. apply (served_push resume _ n j _ Hs). rewrite Hrun.
      split; [left; by eexists|]. eapply Forall_impl; [apply (seqZ_below (SeqStore.high (store w)))|]; simpl; lia.
Qed.

(** The receiver's next message is the one that its position names. *)
Lemma log_lookup w i seq msg :
  world_ok w → log w !! i = Some (seq, msg) →
  seq = first + Z.of_nat i ∧ msg = msgs seq ∧ (i < length (log w))%nat.
Proof.
  intros Hw Hi. pose proof (lookup_lt_Some _ _ _ Hi) as Hlt. rewrite (wo_log _ Hw) in Hi.
  rewrite list_lookup_fmap, lookup_seqZ_lt in Hi by lia. simpl in Hi. by simplify_eq.
Qed.

Lemma log_high w : world_ok w → first + Z.of_nat (length (log w)) ≤ SeqStore.high (store w) + 1.
Proof.
  intros Hw. pose proof (wo_ingest _ Hw) as Hi. destruct (ingest w).
  - destruct Hi as (-> & -> & _). simpl. lia.
  - destruct Hi as (-> & -> & _). lia.
  - destruct Hi as (-> & -> & _). lia.
  - done.
Qed.

(** A live message is the next one of the run, or the first after a jump. *)
Lemma live_next resume n seq rx ks :
  seq = first + Z.of_nat rx → n ≤ seq → 0 ≤ resume ≤ n →
  (ks = seqZ resume (n - resume) ∧ (timely = true → first + Z.of_nat rx ≤ n)
   ∨ timely = false
     ∧ (∃ k live, ks = seqZ resume k ++ seqZ live (n - live) ∧ 0 ≤ k ∧ resume + k < live < n)
     ∧ first + Z.of_nat rx ≤ n) →
  ks ++ [seq] = seqZ resume (seq + 1 - resume)
  ∨ timely = false ∧ ∃ k live, ks ++ [seq] = seqZ resume k ++ seqZ live (seq + 1 - live)
      ∧ 0 ≤ k ∧ resume + k < live < seq + 1.
Proof.
  intros Hseq Hle Hres [[-> Ht]|(Hf & (k & live & -> & Hk & Hlive) & Hrx)].
  - destruct (decide (seq = n)) as [->|Hne].
    + left. replace n with (resume + (n - resume)) at 2 by lia. rewrite seqZ_snoc by lia. f_equal. lia.
    + right. split; [destruct timely; [specialize (Ht eq_refl); lia|done]|].
      exists (n - resume), seq. replace (seq + 1 - seq) with 1 by lia.
      split_and!; [done|lia|lia|lia].
  - right. split; [done|]. exists k, live. assert (seq = n) as -> by lia. split_and!; [|lia|lia|lia].
    rewrite <-app_assoc. f_equal. replace n with (live + (n - live)) at 2 by lia.
    rewrite seqZ_snoc by lia. f_equal. lia.
Qed.

Lemma recv_step_ok w n gone lagged io s s' :
  world_ok w → Subscriber.at_ s = Subscriber.Live n →
  sub_ok (length (log w)) (SeqStore.high (store w)) s →
  Subscriber.recv_step (log w) gone n lagged io s = Some s' →
  sub_ok (length (log w)) (SeqStore.high (store w)) s'.
Proof.
  intros Hw Ha Hok Hstep. pose proof (wo_room _ Hw) as Hroom.
  destruct (live_run _ _ _ _ Ha Hok ltac:(lia)) as (r0 & ks0 & Hs0 & Hr0).
  assert (served (Subscriber.out s)) as Hserved.
  { rewrite <-(app_nil_r (Subscriber.out s)). eapply sent_upto_served; [done|done|by left]. }
  destruct Hok as [Hrx Hp]. rewrite Ha in Hp. destruct Hp as (resume & ks & Hs & Hres & Hall & Hks).
  unfold Subscriber.recv_step in Hstep. destruct lagged; [simplify_eq; by apply closed_ok|].
  destruct (log w !! Subscriber.rx s) as [[seq msg]|] eqn:El.
  - destruct (log_lookup _ _ _ _ Hw El) as (Hseq & -> & Hlt). simpl in Hstep.
    destruct (Z.ltb_spec seq n) as [Hskip|Hge].
    { injection Hstep as <-. split; [simpl; lia|]. cbn [Subscriber.at_ Subscriber.rx]. rewrite Ha.
      exists resume, ks. split_and!; [exact Hs|lia|lia|done|].
      destruct Hks as [[-> Ht]|(? & ? & ?)]; [left; split; [done|lia]|right; split_and!; done || lia]. }
    rewrite SubscriberFacts.send_data_spec in Hstep by done. destruct io; injection Hstep as <-.
    + split; [simpl; lia|]. pose proof (log_high _ Hw). pose proof (wo_room _ Hw).
      pose proof SeqStore.limits_ok as Hlim.
      cbn [Subscriber.at_ Subscriber.goto Subscriber.rx SubscriberFacts.push].
      rewrite u64_saturating_add_small by lia. exists resume, (ks ++ [seq]).
      split; [|split; [lia|split]].
      2:{ apply Forall_app. split; [done|]. constructor; [lia|constructor]. }
      { apply (sent_upto_push resume ks [seq] [data (msgs seq)]
          (Subscriber.mk (Subscriber.at_ s) (S (Subscriber.rx s)) (Subscriber.out s))); [exact Hs|done]. }
      destruct (live_next _ _ _ _ _ Hseq Hge Hres Hks) as [->|(? & ?)];
        [left; split; [done|lia]|right; split_and!; done || lia].
    + apply closed_ok; [simpl; lia|done].
  - destruct gone; [|done]. simplify_eq. rewrite SubscriberFacts.send_small by by apply Nat.leb_le.
    destruct io; apply closed_ok; try done. simpl. eapply sent_upto_served; [done|done|by right].
Qed.

Lemma packet_step_ok sent high n ev inb s :
  Subscriber.at_ s = Subscriber.Live n → sub_ok sent high s → high < SeqStore.seq_limit St →
  sub_ok sent high (Subscriber.packet_step ev inb s).1.
Proof.
  intros Ha Hok Hlim. assert (sub_ok sent high (Subscriber.close s)) as Hclose.
  { destruct (live_run _ _ _ _ Ha Hok Hlim) as (r & ks & Hs & Hr). apply closed_ok; [apply Hok|].
    rewrite <-(app_nil_r (Subscriber.out s)). eapply sent_upto_served; [done|done|by left]. }
  unfold Subscriber.packet_step. repeat case_match; simplify_eq; done.
Qed.

(** Changing one subscriber. *)
Lemma world_ok_sub i s w :
  world_ok w → sub_ok (length (log w)) (SeqStore.high (store w)) s → world_ok (set_sub i s w).
Proof.
  intros [Hst Hlog Hin Hroom Hsubs] Hs. split; try done. simpl. by apply Forall_insert.
Qed.

Lemma world_ok_ingest_next n w :
  world_ok w → ingest w = Running n → world_ok (ingest_next n w).
Proof.
  intros [Hst Hlog Hin Hroom Hsubs] Hing. rewrite Hing in Hin. destruct Hin as (Hn & Hh & Hsrc).
  unfold ingest_next. destruct (source w) as [|[m|e] src] eqn:Es.
  - split; simpl; rewrite ?Es; try done. simpl. lia.
  - destruct Hsrc as [-> Hsrc]. cbn [length] in Hroom.
    destruct (tracks_store msgs lo (store w) Hst) as (st' & Hstore & Hst' & Hh' & _); [lia|apply msgs_wf|].
    replace (SeqStore.high (store w) + 1) with n in * by lia. rewrite Hstore.
    split; simpl; rewrite ?Hh'; try done; [lia|].
    eapply Forall_impl; [done|]. intros s. apply sub_ok_mono; [done|lia].
  - cbn [length] in Hroom. split; simpl; try done; lia.
Qed.

Lemma world_ok_ingest_send n m w :
  world_ok w → ingest w = Stored n m → world_ok (ingest_send n m w).
Proof.
  intros [Hst Hlog Hin Hroom Hsubs] Hing. rewrite Hing in Hin. destruct Hin as (Hn & Hh & -> & Hsrc).
  pose proof SeqStore.limits_ok as Hlim.
  assert (Z.of_nat (length (log w) + 1) = Z.of_nat (length (log w)) + 1) as Hl by lia.
  split; simpl; rewrite ?length_app; cbn [length]; rewrite ?Hl; try done.
  - rewrite <-seqZ_snoc, map_app, <-Hlog by lia. simpl. by rewrite <-Hn.
  - rewrite u64_saturating_add_small by lia. split_and!; [lia|lia|done].
  - eapply Forall_impl; [done|]. intros s. apply sub_ok_mono; [lia|done].
Qed.

Lemma world_ok_move w w' : world_ok w → move w w' → world_ok w'.
Proof.
  intros Hw (a & Hadm & Hstep). pose proof (log_high _ Hw) as Hlen.
  assert (∀ i s, subs w !! i = Some s → sub_ok (length (log w)) (SeqStore.high (store w)) s) as Hsub.
  { intros i s Hi. by apply (Forall_lookup_1 _ _ i _ (wo_subs _ Hw)). }
  assert (∀ x, world_ok (set_serve x w)) as Hserve by (intros x; by destruct Hw).
  destruct a; simpl in Hstep.
  - destruct (ingest w) eqn:Hing; simplify_eq. destruct Hw as [Hst Hlog Hin Hroom Hsubs].
    pose proof SeqStore.limits_ok as Hlim. rewrite Hing in Hin. destruct Hin as (Hnil & Hh & Hsrc). pose proof (tr_inv _ _ _ Hst) as Hi.
    split; simpl; try done. rewrite SeqStore.latest_ok by done.
    rewrite u64_saturating_add_small, Hnil by lia. simpl. split_and!; [lia|lia|].
    replace (Z.max _ _) with first by lia. done.
  - destruct (ingest w) eqn:Hing; simplify_eq. by apply world_ok_ingest_next.
  - destruct (ingest w) eqn:Hing; simplify_eq. by apply world_ok_ingest_send.
  - destruct (serve w); simplify_eq. destruct Hw as [Hst Hlog Hin Hroom Hsubs].
    split; simpl; try done. apply Forall_app. split; [done|]. by apply Forall_singleton.
  - destruct (serve w); by simplify_eq.
  - destruct (serve w), (ingest w); by simplify_eq.
  - destruct (serve w), (ingest w); by simplify_eq.
  - destruct (serve w); by simplify_eq.
  - destruct (subs w !! i) as [s|] eqn:Hi; [|done]. destruct (Subscriber.at_ s) eqn:Ha; simplify_eq.
    apply world_ok_sub; [done|]. apply login_step_ok; [done| |by eapply Hsub].
    intros req ->. exact Hadm.
  - destruct (subs w !! i) as [s|] eqn:Hi; [|done]. destruct (Subscriber.at_ s) eqn:Ha; simplify_eq.
    apply world_ok_sub; [done|]. apply accept_step_ok; eauto.
  - destruct (subs w !! i) as [s|] eqn:Hi; [|done]. destruct (Subscriber.at_ s) eqn:Ha; simplify_eq.
    apply world_ok_sub; [done|]. apply warmup_step_ok; eauto.
  - destruct (subs w !! i) as [s|] eqn:Hi; [|done]. destruct (Subscriber.at_ s) eqn:Ha; simplify_eq.
    apply world_ok_sub; [done|]. apply replay_step_ok; eauto.
    intros Ht. by apply (Hadm Ht _ _ Hi Ha).
  - destruct (subs w !! i) as [s|] eqn:Hi; [|done]. destruct (Subscriber.at_ s) eqn:Ha; simplify_eq.
    destruct (Subscriber.recv_step _ _ _ _ _ _) as [s'|] eqn:Hr; [|done]. simpl in Hstep. simplify_eq.
    apply world_ok_sub; [done|]. eapply recv_step_ok; eauto.
  - destruct (subs w !! i) as [s|] eqn:Hi; [|done]. destruct (Subscriber.at_ s) eqn:Ha; simplify_eq.
    destruct (Subscriber.packet_step _ _ _) as [s' inb] eqn:Hr. simplify_eq.
    destruct Hw as [Hst Hlog Hin Hroom Hsubs]. split; simpl; try done. apply Forall_insert; [done|].
    replace s' with (Subscriber.packet_step ev (inbox w) s).1 by by rewrite Hr.
    eapply packet_step_ok; eauto. lia.
  - simplify_eq. by destruct Hw.
Qed.

Lemma world_ok_init st src :
  store_tracks msgs lo st → SeqStore.high st = first - 1 → src_ok first src →
  SeqStore.high st + Z.of_nat (length src) < SeqStore.seq_limit St → world_ok (init st src).
Proof. intros. split; simpl; try done. Qed.

(** At any time of any run, a subscriber was sent something a server may send. *)
Lemma sub_ok_served sent high s :
  sub_ok sent high s → high < SeqStore.seq_limit St → served (Subscriber.out s).
Proof.
  intros Hok Hlim. destruct (Subscriber.at_ s) as [|req|latest resume|n|n|] eqn:Ha.
  - destruct Hok as [_ Hp]. rewrite Ha in Hp. rewrite Hp. constructor.
  - destruct Hok as [_ Hp]. rewrite Ha in Hp. destruct Hp as [-> _]. constructor.
  - destruct Hok as [_ Hp]. rewrite Ha in Hp. destruct Hp as [-> _]. constructor.
  - destruct Hok as [_ Hp]. rewrite Ha in Hp. destruct Hp as (resume & Hs & _ & Hn).
    rewrite <-(app_nil_r (Subscriber.out s)).
    eapply sent_upto_served; [done| |by left]. split; [left; by eexists|].
    eapply Forall_impl; [apply (seqZ_below high)|]; simpl; lia.
  - destruct (live_run _ _ _ _ Ha Hok Hlim) as (r & ks & Hs & Hr).
    rewrite <-(app_nil_r (Subscriber.out s)). eapply sent_upto_served; [done|done|by left].
  - destruct Hok as [_ Hp]. by rewrite Ha in Hp.
Qed.

Lemma reachable_ok st src w :
  store_tracks msgs lo st → SeqStore.high st = first - 1 → src_ok first src →
  SeqStore.high st + Z.of_nat (length src) < SeqStore.seq_limit St → rtc move (init st src) w → world_ok w.
Proof.
  intros Hst Hh Hsrc Hroom Hrtc.
  assert (∀ w1, rtc move w1 w → world_ok w1 → world_ok w) as Hinv.
  { induction 1; [done|]. eauto using world_ok_move. }
  eapply Hinv; [done|]. by apply world_ok_init.
Qed.

Lemma reachable_served st src w i s :
  store_tracks msgs lo st → SeqStore.high st = first - 1 → src_ok first src →
  SeqStore.high st + Z.of_nat (length src) < SeqStore.seq_limit St →
  rtc move (init st src) w → subs w !! i = Some s → served (Subscriber.out s).
Proof.
  intros Hst Hh Hsrc Hroom Hrtc Hi. pose proof (reachable_ok _ _ _ Hst Hh Hsrc Hroom Hrtc) as Hw.
  pose proof (wo_room _ Hw).
  eapply sub_ok_served; [by apply (Forall_lookup_1 _ _ i _ (wo_subs _ Hw))|lia].
Qed.
End service.
