(* ===== verification/SoupServing.v ===== *)
(** What the subscribers of a SoupBinTCP server are served
    ([crates/itch-soup/src/server.rs]): the properties of the model of
    [SoupServer.v], over all orders in which its tasks can move, and the path
    from the server to the client of [SoupSession.v]. *)

From S2P Require Import Prelude Primitives Enums Messages Codec CodecMessages MessageCodec.
From S2P Require Import SeqStore Framing SoupCodec SoupSession SoupServer.

(** ** A subscriber catches up *)

(** Several moves in a row. *)
Fixpoint run_actions `{SeqStore.Ops St E, Authenticator A} (auth : A) (cfg : ServerConfig.t)
    (warmup : St → result (list Message.t) SourceError.t) (acts : list action) (w : world St)
    : option (world St) :=
  match acts with
  | [] => Some w
  | a :: acts => w' ← step auth cfg warmup a w; run_actions auth cfg warmup acts w'
  end.

(** A move of the task of subscriber [i], which logs in with [req]. *)
Definition own_move (i : nat) (req : LoginRequest.t) (a : action) : Prop :=
  match a with
  | SubLogin j (Some (Ok (SoupPacket.LoginRequest r))) _ => j = i ∧ r = req
  | SubAccept j _ | SubWarmup j _ | SubReplay j _ | SubRecv j _ _ => j = i
  | _ => False
  end.

(** The session that the server will let a client name. *)
Definition session_served (cfg : ServerConfig.t) (req : LoginRequest.t) : Prop :=
  str_trim (LoginRequest.requested_session req) = []
  ∨ str_trim (LoginRequest.requested_session req) = str_trim (ServerConfig.session cfg).

Section catch_up.
Context `{SeqStore.Contract St E, Authenticator A} (auth : A) (cfg : ServerConfig.t).
Context (warmup : St → result (list Message.t) SourceError.t) (msgs : Z → Message.t) (lo first : Z).
Context (w : world St) (i : nat) (req : LoginRequest.t).
Hypothesis msgs_wf : ∀ k, wf (msgs k).
Hypothesis Hw : world_ok cfg warmup msgs lo first true w.
Hypothesis Hi : is_Some (subs w !! i).
Implicit Types s : Subscriber.t.

Lemma run_actions_app acts acts' (w1 : world St) :
  run_actions auth cfg warmup (acts ++ acts') w1
  = w2 ← run_actions auth cfg warmup acts w1; run_actions auth cfg warmup acts' w2.
Proof.
  revert w1. induction acts as [|a acts IH]; intros w1; [done|]. simpl.
  destruct (step auth cfg warmup a w1); simpl; [apply IH|done].
Qed.

(** Moves of the subscriber alone bring it to the state [s]. *)
Definition reaches s : Prop :=
  ∃ acts, Forall (own_move i req) acts ∧ run_actions auth cfg warmup acts w = Some (set_sub i s w).

Lemma set_sub_twice s s' : set_sub i s' (set_sub i s w) = set_sub i s' w.
Proof. unfold set_sub. simpl. by rewrite list_insert_insert_eq. Qed.

Lemma sub_set s : subs (set_sub i s w) !! i = Some s.
Proof. simpl. apply list_lookup_insert_eq. by apply lookup_lt_is_Some. Qed.

Lemma reaches_step a s s' :
  own_move i req a → reaches s → step auth cfg warmup a (set_sub i s w) = Some (set_sub i s' (set_sub i s w)) →
  reaches s'.
Proof.
  intros Hown [acts [Hacts Ha]] Hs. exists (acts ++ [a]).
  split; [by rewrite Forall_app, Forall_singleton|]. rewrite run_actions_app, Ha. simpl. rewrite Hs. simpl.
  by rewrite set_sub_twice.
Qed.

Let high := SeqStore.high (store w).

Lemma replay_catches_up k n s :
  (Z.to_nat (high + 1 - n) ≤ k)%nat → reaches s → Subscriber.at_ s = Subscriber.Replaying n →
  lo ≤ n ≤ high + 1 → high - SeqStore.retention (store w) < n →
  reaches (Subscriber.mk (Subscriber.Live (high + 1)) (Subscriber.rx s)
    (Subscriber.out s ++ map data (map msgs (seqZ n (high + 1 - n))))).
Proof.
  pose proof (wo_store _ _ _ _ _ _ _ Hw) as Ht. pose proof (wo_room _ _ _ _ _ _ _ Hw) as Hroom.
  pose proof (tr_lo _ _ _ Ht) as Hlo. fold high in Hroom, Hlo. pose proof SeqStore.limits_ok as Hlim.
  revert n s. induction k as [|k IH]; intros n s Hk Hr Ha Hn Hret.
  all: assert (is_u64 n) as Hu by (unfold in_width, u64_max in *; lia).
  all: assert (step auth cfg warmup (SubReplay i None) (set_sub i s w)
    = Some (set_sub i (Subscriber.replay_step (store w) n None s) (set_sub i s w))) as Hstep
    by (unfold step; rewrite sub_set, Ha; done).
  all: pose proof (reaches_step (SubReplay i None) _ _ eq_refl Hr Hstep) as Hr'; revert Hr'.
  all: unfold Subscriber.replay_step; rewrite (tracks_range msgs lo) by (done || lia); fold high.
  - replace n with (high + 1) by lia. rewrite !seqZ_nil by lia. simpl. by rewrite app_nil_r.
  - destruct (decide (n = high + 1)) as [->|Hne].
    { rewrite !seqZ_nil by lia. simpl. by rewrite app_nil_r. }
    set (c := 256 `min` (high - n + 1)). assert (0 < c) as Hc by lia.
    rewrite last_run by done. rewrite u64_saturating_add_small by lia. rewrite map_map.
    change (map _ (seqZ n c)) with (map msgs (seqZ n c)).
    destruct (SubscriberFacts.send_all_spec (map msgs (seqZ n c)) None s) as (j & b & -> & _ & Hj & Hb).
    { apply Forall_map, Forall_true. intros; apply msgs_wf. }
    rewrite (Hb eq_refl) in *. rewrite (Hj eq_refl), firstn_all. intros Hr'.
    specialize (IH (n + c) _ ltac:(lia) Hr'). simpl in IH.
    rewrite <-app_assoc, <-!map_app, <-seqZ_app in IH by lia.
    replace (c + (high + 1 - (n + c))) with (high + 1 - n) in IH by lia.
    apply IH; [f_equal; lia|lia|lia].
Qed.

Lemma live_catches_up d rx out :
  reaches (Subscriber.mk (Subscriber.Live (high + 1)) rx out) → (rx + d = length (log w))%nat →
  reaches (Subscriber.mk (Subscriber.Live (high + 1)) (length (log w)) out).
Proof.
  revert rx. induction d as [|d IH]; intros rx Hr Hd; [by rewrite <-Hd, Nat.add_0_r|].
  apply (IH (S rx)); [|lia]. apply (reaches_step (SubRecv i false true) _ _ eq_refl Hr).
  unfold step. rewrite sub_set. cbn [Subscriber.at_]. unfold Subscriber.recv_step.
  cbn [log set_sub Subscriber.rx].
  destruct (lookup_lt_is_Some_2 (log w) rx) as [[seq msg] El]; [lia|]. rewrite El.
  destruct (log_lookup _ _ _ _ _ _ _ _ _ _ Hw El) as (Hseq & _ & _).
  pose proof (log_high _ _ _ _ _ _ _ Hw). fold high in H2.
  rewrite (proj2 (Z.ltb_lt _ _)) by lia. done.
Qed.

(** From the connection to the data phase. *)
Lemma handshake_reaches rx ws :
  let resume := if LoginRequest.requested_sequence req =? 0 then high + 1
                else LoginRequest.requested_sequence req in
  Forall wf ws → warmup (store w) = Ok ws →
  subs w !! i = Some (Subscriber.mk Subscriber.AwaitLogin rx []) →
  check auth (LoginRequest.username req) (LoginRequest.password req) = Ok tt →
  session_served cfg req →
  reaches
    (Subscriber.mk (if resume <=? high then Subscriber.Replaying resume else Subscriber.Live resume)
       rx (acceptance cfg resume :: map data ws)).
Proof.
  intros resume Hws Hwarm Hs Hauth Hsess.
  assert (reaches (Subscriber.mk Subscriber.AwaitLogin rx [])) as R0.
  { exists []. split; [done|]. simpl. unfold set_sub. rewrite list_insert_id by done. by destruct w. }
  assert (reaches (Subscriber.mk (Subscriber.LoggedIn req) rx [])) as R1.
  { apply (reaches_step (SubLogin i (Some (Ok (SoupPacket.LoginRequest req))) true) _ _ (conj eq_refl eq_refl) R0).
    unfold step. rewrite sub_set. simpl. unfold Subscriber.login_step. rewrite Hauth.
    destruct Hsess as [->|Hsess]; [done|]. rewrite (bool_decide_true (_ = _) Hsess). by rewrite andb_false_r. }
  assert (reaches (Subscriber.mk (Subscriber.Warming high resume) rx [acceptance cfg resume])) as R2.
  { apply (reaches_step (SubAccept i true) _ _ eq_refl R1). unfold step. rewrite sub_set.
    cbn [Subscriber.at_ store set_sub]. unfold Subscriber.accept_step.
    rewrite SeqStore.latest_ok by apply (tr_inv _ _ _ (wo_store _ _ _ _ _ _ _ Hw)). fold high.
    pose proof (wo_room _ _ _ _ _ _ _ Hw) as Hroom. fold high in Hroom.
    pose proof SeqStore.limits_ok as Hlim. rewrite u64_saturating_add_small by lia. fold resume.
    by rewrite SubscriberFacts.send_small by by apply Nat.leb_le. }
  apply (reaches_step (SubWarmup i None) _ _ eq_refl R2). unfold step. rewrite sub_set.
  cbn [Subscriber.at_ store set_sub]. unfold Subscriber.warmup_step. rewrite Hwarm.
  destruct (SubscriberFacts.send_all_spec ws None
    (Subscriber.mk (Subscriber.Warming high resume) rx [acceptance cfg resume]))
    as (j & b & -> & _ & Hj & Hb); [done|].
  rewrite (Hb eq_refl) in *. by rewrite (Hj eq_refl), firstn_all.
Qed.
(** By its own moves alone a subscriber reaches the point where it has been sent
    everything stored from its resume number on. *)
Lemma catches_up rx ws :
  let resume := if LoginRequest.requested_sequence req =? 0 then high + 1
                else LoginRequest.requested_sequence req in
  Forall wf ws → warmup (store w) = Ok ws →
  subs w !! i = Some (Subscriber.mk Subscriber.AwaitLogin rx []) →
  check auth (LoginRequest.username req) (LoginRequest.password req) = Ok tt →
  session_served cfg req →
  (LoginRequest.requested_sequence req = 0
   ∨ lo ≤ LoginRequest.requested_sequence req ≤ high + 1
     ∧ high - SeqStore.retention (store w) < LoginRequest.requested_sequence req) →
  reaches (Subscriber.mk (Subscriber.Live (high + 1)) (length (log w))
    (acceptance cfg resume :: map data (ws ++ map msgs (seqZ resume (high + 1 - resume))))).
Proof.
  intros resume Hws Hwarm Hsub Hauth Hsess Hreq.
  pose proof (wo_store _ _ _ _ _ _ _ Hw) as Ht. pose proof (tr_inv _ _ _ Ht) as Hinv.
  pose proof (tr_lo _ _ _ Ht) as Hlo. pose proof (SeqStore.retention_ok _ Hinv). fold high in Hlo.
  assert (rx ≤ length (log w))%nat as Hrx.
  { apply (Forall_lookup_1 _ _ i _ (wo_subs _ _ _ _ _ _ _ Hw) Hsub). }
  assert (lo ≤ resume ≤ high + 1 ∧ high - SeqStore.retention (store w) < resume) as Hres.
  { unfold resume. destruct (Z.eqb_spec (LoginRequest.requested_sequence req) 0); lia. }
  pose proof (handshake_reaches rx ws Hws Hwarm Hsub Hauth Hsess) as R3. fold resume in R3.
  apply (live_catches_up (length (log w) - rx) rx); [|lia].
  destruct (Z.leb_spec resume high).
  - eapply replay_catches_up in R3; [|done|done|lia|lia]. simpl in R3. by rewrite <-map_app in R3.
  - replace resume with (high + 1) in * by lia. rewrite seqZ_nil, app_nil_r by lia. exact R3.
Qed.
End catch_up.

(** A list of admissible moves is a run. *)
Section runs.
Context `{SeqStore.Contract St E, Authenticator A} (auth : A) (cfg : ServerConfig.t).
Context (warmup : St → result (list Message.t) SourceError.t) (lo : Z) (timely : bool).

Fixpoint admissible_run (acts : list action) (w : world St) : Prop :=
  match acts with
  | [] => True
  | a :: acts =>
      admissible lo timely a w
      ∧ match step auth cfg warmup a w with Some w' => admissible_run acts w' | None => False end
  end.

Lemma admissible_run_rtc acts w w' :
  admissible_run acts w → run_actions auth cfg warmup acts w = Some w' →
  rtc (move auth cfg warmup lo timely) w w'.
Proof.
  revert w. induction acts as [|a acts IH]; intros w Hadm Hrun; simpl in Hrun.
  - simplify_eq. apply rtc_refl.
  - destruct Hadm as [Ha Hadm]. destruct (step auth cfg warmup a w) as [w1|] eqn:Hs; [|done].
    apply rtc_l with w1; [by exists a|]. by apply IH.
Qed.

(** The same as a check. *)
Definition admissible_b (a : action) (w : world St) : bool :=
  match a with
  | SubLogin _ (Some (Ok (SoupPacket.LoginRequest req))) _ =>
      (0 <=? LoginRequest.requested_sequence req) && (LoginRequest.requested_sequence req <? 2 ^ 64)
  | SubReplay i _ =>
      match Subscriber.at_ <$> subs w !! i with
      | Some (Subscriber.Replaying n) =>
          (lo <=? n) && (SeqStore.high (store w) - SeqStore.retention (store w) <? n)
      | _ => true
      end
  | _ => true
  end.
Definition admissible_run_b : list action → world St → bool :=
  fix go acts w :=
    match acts with
    | [] => true
    | a :: acts =>
        admissible_b a w
        && match step auth cfg warmup a w with Some w' => go acts w' | None => false end
    end.

Lemma admissible_run_check acts w : admissible_run_b acts w = true → admissible_run acts w.
Proof.
  revert w. induction acts as [|a acts IH]; intros w; [done|]. simpl. rewrite andb_true_iff. intros [Ha Hr].
  split; [|destruct (step auth cfg warmup a w); [by apply IH|done]].
  destruct a as [| | | | | | | |? [[[]|]|]| | | | | |]; try done; simpl in Ha |- *.
  - rewrite andb_true_iff, Z.leb_le, Z.ltb_lt in Ha. done.
  - intros _ s n Hs Hn. rewrite Hs in Ha. simpl in Ha. rewrite Hn in Ha.
    by rewrite andb_true_iff, Z.leb_le, Z.ltb_lt in Ha.
Qed.
End runs.

(** A server with five messages and a client that asks for the first. *)
Definition demo_store : RingSeqStore.t := RingSeqStore.with_capacity 8.
Definition demo_source : list (result Message.t SourceError.t) := map Ok (map numbered (seqZ 1 5)).
Definition demo_warmup (_ : RingSeqStore.t) : result (list Message.t) SourceError.t :=
  StaticPolicy.warmup StaticPolicy.empty.
Definition demo_request : LoginRequest.t := LoginRequest.mk [b@"u"] [b@"p"] [] 1.
Definition demo_login (i : nat) : list action :=
  [SubLogin i (Some (Ok (SoupPacket.LoginRequest demo_request))) true; SubAccept i true;
   SubWarmup i None].
(** The client is accepted between the store and the broadcast of message 1. *)
Definition demo_actions : list action :=
  [IngestStart; IngestNext; Accept] ++ demo_login 0
  ++ [SubReplay 0 None; IngestSend; IngestNext; SubReplay 0 None; SubReplay 0 None; IngestSend;
      SubRecv 0 false true; SubRecv 0 false true; IngestNext; IngestSend; SubRecv 0 false true].
Definition demo_run (acts : list action) : option (world RingSeqStore.t) :=
  run_actions AllowAllAuthenticator.new ServerConfig.bind demo_warmup acts
    (init demo_store demo_source).

Lemma demo_warmup_wf st ws : demo_warmup st = Ok ws → Forall wf ws.
Proof. intros [= <-]. constructor. Qed.
Lemma demo_tracks : store_tracks numbered 1 demo_store.
Proof.
  change 1 with (SeqStore.high demo_store + 1).
  apply tracks_empty; [apply RingSeqStoreFacts.inv_with_capacity|done].
Qed.

Lemma run_output {St} (r : option (world St)) i ps :
  (λ w, Subscriber.out <$> subs w !! i) <$> r = Some (Some ps) →
  ∃ w s, r = Some w ∧ subs w !! i = Some s ∧ Subscriber.out s = ps.
Proof.
  destruct r as [w|]; intros Hd; [|done]. apply (inj Some) in Hd.
  destruct (subs w !! i) as [s|] eqn:Hs; [|done]. apply (inj Some) in Hd. by exists w, s.
Qed.

Lemma demo_output :
  ∃ w s, demo_run demo_actions = Some w ∧ subs w !! 0%nat = Some s
    ∧ Subscriber.out s = acceptance ServerConfig.bind 1 :: map data (map numbered (seqZ 1 3)).
Proof.
  apply run_output. vm_compute. reflexivity.
Qed.

Lemma demo_admissible :
  admissible_run AllowAllAuthenticator.new ServerConfig.bind demo_warmup 1 true demo_actions
    (init demo_store demo_source).
Proof.
  vm_compute. repeat split; try discriminate; intros; simplify_eq; split; discriminate || done.
Qed.

(** ** Properties *)

(** C5: the SoupBinTCP server sends every subscriber its messages in sequence. Let
    the store hold the stream under its numbers, the source continue it within the
    numbers that the store can hold, all messages be well formed, and the
    configured start number be at most the next number of the store. Whatever the
    tasks do in whatever order (messages stored and broadcast, clients connecting,
    logging in, falling behind, failing sends, shutdown), if a replay never asks
    for a number that the store has already dropped, then a subscriber that was
    accepted has been sent the acceptance with its resume number, the warm-up, and
    then the messages of consecutive numbers from the resume number on, none
    missing and none twice, and perhaps the end of the session. *)
Theorem server_sends_in_sequence `{SeqStore.Contract St E, Authenticator A} (auth : A)
    (cfg : ServerConfig.t) (warmup : St → result (list Message.t) SourceError.t)
    (msgs : Z → Message.t) lo (st : St) src (w : world St) i s :
  (∀ k, wf (msgs k)) → (∀ st ws, warmup st = Ok ws → Forall wf ws) →
  ServerConfig.start_sequence cfg ≤ SeqStore.high st + 1 →
  store_tracks msgs lo st → src_ok msgs (SeqStore.high st + 1) src →
  SeqStore.high st + Z.of_nat (length src) < SeqStore.seq_limit St →
  rtc (move auth cfg warmup lo true) (init st src) w → subs w !! i = Some s →
  Subscriber.out s = []
  ∨ (∃ reason, Subscriber.out s = [SoupPacket.LoginRejected reason])
  ∨ ∃ resume warm n fin,
      Subscriber.out s = acceptance cfg resume :: map data (warm ++ map msgs (seqZ resume n)) ++ fin
      ∧ (warm = [] ∨ ∃ st' ws, warmup st' = Ok ws ∧ warm `prefix_of` ws ∧ (0 < n → warm = ws))
      ∧ (fin = [] ∨ fin = [SoupPacket.EndOfSession]).
Proof.
  intros Hwf Hwarm Hstart Hst Hsrc Hroom Hrtc Hi.
  pose proof (reachable_served auth cfg warmup msgs lo (SeqStore.high st + 1) true Hwf Hwarm Hstart
    st src w i s Hst ltac:(lia) Hsrc Hroom Hrtc Hi) as Hserved.
  inversion Hserved as [Eo|reason Eo|resume Eo|resume st' ws warm ks fin Hw Hpre Hks Hrun Hfin Eo];
    [by left|right; left; by eexists| |]; right; right.
  - exists resume, [], 0, []. split_and!; [done|by left|by left].
  - destruct Hrun as [[[n ->]|[? _]] _]; [|done]. exists resume, warm, n, fin. split_and!; [done| |done].
    right. exists st', ws. split_and!; [done|done|]. intros Hn. apply Hks. by rewrite seqZ_cons by lia.
Qed.

Lemma server_sends_in_sequence_witness :
  ∃ w s, demo_run demo_actions = Some w ∧ subs w !! 0%nat = Some s
    ∧ Subscriber.out s = acceptance ServerConfig.bind 1 :: map data (map numbered (seqZ 1 3))
    ∧ (Subscriber.out s = []
       ∨ (∃ reason, Subscriber.out s = [SoupPacket.LoginRejected reason])
       ∨ ∃ resume warm n fin,
           Subscriber.out s = acceptance ServerConfig.bind resume
             :: map data (warm ++ map numbered (seqZ resume n)) ++ fin
           ∧ (warm = [] ∨ ∃ st' ws, demo_warmup st' = Ok ws ∧ warm `prefix_of` ws ∧ (0 < n → warm = ws))
           ∧ (fin = [] ∨ fin = [SoupPacket.EndOfSession])).
Proof.
  destruct demo_output as (w & s & Hrun & Hs & Hout).
  exists w, s. split; [exact Hrun|]. split; [exact Hs|]. split; [exact Hout|].
  apply (server_sends_in_sequence AllowAllAuthenticator.new ServerConfig.bind demo_warmup numbered 1
    demo_store demo_source w 0 s).
  - exact numbered_wf.
  - exact demo_warmup_wf.
  - vm_compute. discriminate.
  - exact demo_tracks.
  - repeat split.
  - vm_compute. reflexivity.
  - apply (admissible_run_rtc _ _ _ _ _ demo_actions); [exact demo_admissible|exact Hrun].
  - exact Hs.
Defined.

(** Without that assumption the sequence can break at most once, where a
    subscriber goes over from the replay to the live messages, and it never goes
    back: the numbers are consecutive from the resume number up to that point and
    consecutive, all larger, after it. *)
Theorem server_sends_one_jump `{SeqStore.Contract St E, Authenticator A} (auth : A)
    (cfg : ServerConfig.t) (warmup : St → result (list Message.t) SourceError.t)
    (msgs : Z → Message.t) lo (st : St) src (w : world St) i s :
  (∀ k, wf (msgs k)) → (∀ st ws, warmup st = Ok ws → Forall wf ws) →
  ServerConfig.start_sequence cfg ≤ SeqStore.high st + 1 →
  store_tracks msgs lo st → src_ok msgs (SeqStore.high st + 1) src →
  SeqStore.high st + Z.of_nat (length src) < SeqStore.seq_limit St →
  rtc (move auth cfg warmup lo false) (init st src) w → subs w !! i = Some s →
  Subscriber.out s = []
  ∨ (∃ reason, Subscriber.out s = [SoupPacket.LoginRejected reason])
  ∨ ∃ resume warm n live m fin,
      Subscriber.out s
      = acceptance cfg resume :: map data (warm ++ map msgs (seqZ resume n ++ seqZ live m)) ++ fin
      ∧ resume + n ≤ live ∧ (fin = [] ∨ fin = [SoupPacket.EndOfSession]).
Proof.
  intros Hwf Hwarm Hstart Hst Hsrc Hroom Hrtc Hi.
  pose proof (reachable_served auth cfg warmup msgs lo (SeqStore.high st + 1) false Hwf Hwarm Hstart
    st src w i s Hst ltac:(lia) Hsrc Hroom Hrtc Hi) as Hserved.
  inversion Hserved as [Eo|reason Eo|resume Eo|resume st' ws warm ks fin Hw Hpre Hks Hrun Hfin Eo];
    [by left|right; left; by eexists| |]; right; right.
  - exists resume, [], 0, resume, 0, []. split_and!; [done|lia|by left].
  - destruct Hrun as [[[n ->]|(_ & n & live & m & -> & Hn & Hlive)] _].
    + exists resume, warm, n, (resume + n), 0, fin. rewrite (seqZ_nil _ 0), app_nil_r by lia.
      split_and!; done || lia.
    + exists resume, warm, n, live, m, fin. split_and!; done || lia.
Qed.

(** A ring of two, all five messages stored, a client that asks for number 1 and
    is then sent a sixth. *)
Definition jump_source : list (result Message.t SourceError.t) := map Ok (map numbered (seqZ 1 6)).
Definition jump_actions : list action :=
  IngestStart :: concat (replicate 5 [IngestNext; IngestSend]) ++ [Accept] ++ demo_login 0
  ++ [SubReplay 0 None; IngestNext; IngestSend; SubRecv 0 false true].
Definition jump_run (acts : list action) : option (world RingSeqStore.t) :=
  run_actions AllowAllAuthenticator.new ServerConfig.bind demo_warmup acts
    (init (RingSeqStore.with_capacity 2) jump_source).

Lemma jump_output :
  ∃ w s, jump_run jump_actions = Some w ∧ subs w !! 0%nat = Some s
    ∧ Subscriber.out s = acceptance ServerConfig.bind 1 :: map data (map numbered [6]).
Proof.
  apply run_output. vm_compute. reflexivity.
Qed.

Lemma jump_admissible :
  admissible_run AllowAllAuthenticator.new ServerConfig.bind demo_warmup 1 false jump_actions
    (init (RingSeqStore.with_capacity 2) jump_source).
Proof. vm_compute. repeat split; discriminate. Qed.

(** The client was accepted at number 1 and is sent number 6 next, although 4 and
    5 were in the store. *)
Lemma server_sends_one_jump_witness :
  ∃ w s, jump_run jump_actions = Some w ∧ subs w !! 0%nat = Some s
    ∧ Subscriber.out s = acceptance ServerConfig.bind 1 :: map data (map numbered [6])
    ∧ (Subscriber.out s = []
       ∨ (∃ reason, Subscriber.out s = [SoupPacket.LoginRejected reason])
       ∨ ∃ resume warm n live m fin,
           Subscriber.out s = acceptance ServerConfig.bind resume
             :: map data (warm ++ map numbered (seqZ resume n ++ seqZ live m)) ++ fin
           ∧ resume + n ≤ live ∧ (fin = [] ∨ fin = [SoupPacket.EndOfSession])).
Proof.
  destruct jump_output as (w & s & Hrun & Hs & Hout).
  exists w, s. split; [exact Hrun|]. split; [exact Hs|]. split; [exact Hout|].
  apply (server_sends_one_jump AllowAllAuthenticator.new ServerConfig.bind demo_warmup numbered 1
    (RingSeqStore.with_capacity 2) jump_source w 0 s).
  - exact numbered_wf.
  - exact demo_warmup_wf.
  - vm_compute. discriminate.
  - change 1 with (SeqStore.high (RingSeqStore.with_capacity 2) + 1).
    apply tracks_empty; [apply RingSeqStoreFacts.inv_with_capacity|reflexivity].
  - repeat split.
  - vm_compute. reflexivity.
  - apply (admissible_run_rtc _ _ _ _ _ jump_actions); [exact jump_admissible|exact Hrun].
  - exact Hs.
Defined.

(** C17: serving is never stuck: from any state that the server can be in, a
    subscriber that the authenticator admits, that names the server's session or
    none, and that asks for a number the store still has (or for the most recent)
    reaches, by moves of its own task alone, the point where it has been sent the
    warm-up and everything stored from there on and waits for the next live
    message. *)
Theorem server_catches_up `{SeqStore.Contract St E, Authenticator A} (auth : A)
    (cfg : ServerConfig.t) (warmup : St → result (list Message.t) SourceError.t)
    (msgs : Z → Message.t) lo first (w : world St) i rx req ws :
  (∀ k, wf (msgs k)) → Forall wf ws → warmup (store w) = Ok ws →
  world_ok cfg warmup msgs lo first true w →
  subs w !! i = Some (Subscriber.mk Subscriber.AwaitLogin rx []) →
  check auth (LoginRequest.username req) (LoginRequest.password req) = Ok tt →
  session_served cfg req →
  (LoginRequest.requested_sequence req = 0
   ∨ lo ≤ LoginRequest.requested_sequence req ≤ SeqStore.high (store w) + 1
     ∧ SeqStore.high (store w) - SeqStore.retention (store w) < LoginRequest.requested_sequence req) →
  ∃ acts w' s', Forall (own_move i req) acts ∧ run_actions auth cfg warmup acts w = Some w'
    ∧ store w' = store w ∧ subs w' !! i = Some s'
    ∧ Subscriber.at_ s' = Subscriber.Live (SeqStore.high (store w) + 1)
    ∧ Subscriber.rx s' = length (log w)
    ∧ let resume := if LoginRequest.requested_sequence req =? 0 then SeqStore.high (store w) + 1
                    else LoginRequest.requested_sequence req in
      Subscriber.out s'
      = acceptance cfg resume
        :: map data (ws ++ map msgs (seqZ resume (SeqStore.high (store w) + 1 - resume))).
Proof.
  intros Hwf Hws Hwarm Hw Hi Hauth Hsess Hreq.
  assert (Hsome : is_Some (subs w !! i)) by by eexists.
  destruct (catches_up auth cfg warmup msgs lo first w i req Hwf Hw Hsome rx ws Hws Hwarm Hi Hauth Hsess Hreq)
    as [acts [Hown Ha]].
  eexists acts, _, _. split; [exact Hown|]. split; [exact Ha|]. split; [done|]. split; [by apply sub_set|].
  split_and!; done.
Qed.

(** The world after the first two messages, with a client connected. *)
Definition demo_start : list action :=
  [IngestStart; IngestNext; IngestSend; IngestNext; IngestSend; Accept].

Lemma demo_world :
  ∃ w, demo_run demo_start = Some w ∧ world_ok ServerConfig.bind demo_warmup numbered 1 1 true w
    ∧ subs w = [Subscriber.mk Subscriber.AwaitLogin 2 []]
    ∧ SeqStore.high (store w) = 2 ∧ SeqStore.retention (store w) = 8.
Proof.
  assert ((λ w, (subs w, RingSeqStore.max_seen (store w), RingSeqStore.capacity (store w)))
    <$> demo_run demo_start = Some ([Subscriber.mk Subscriber.AwaitLogin 2 []], 2, 8)) as Hd
    by (vm_compute; reflexivity).
  destruct (demo_run demo_start) as [w|] eqn:Hrun; [|done]. apply (inj Some) in Hd.
  injection Hd as Hsubs Hhigh Hcap. exists w. split_and!; [done| |done|done|done].
  apply (reachable_ok AllowAllAuthenticator.new ServerConfig.bind demo_warmup numbered 1 1 true
    numbered_wf demo_warmup_wf ltac:(done) demo_store demo_source);
    [exact demo_tracks|done|repeat split|done|].
  apply (admissible_run_rtc _ _ _ _ _ demo_start); [|exact Hrun].
  vm_compute. repeat split; discriminate.
Qed.

Lemma server_catches_up_witness :
  ∃ w acts w' s', demo_run demo_start = Some w ∧ Forall (own_move 0 demo_request) acts
    ∧ run_actions AllowAllAuthenticator.new ServerConfig.bind demo_warmup acts w = Some w'
    ∧ subs w' !! 0%nat = Some s'
    ∧ Subscriber.out s' = acceptance ServerConfig.bind 1 :: map data (map numbered (seqZ 1 2)).
Proof.
  destruct demo_world as (w & Hrun & Hw & Hsubs & Hhigh & Hret).
  destruct (server_catches_up AllowAllAuthenticator.new ServerConfig.bind demo_warmup numbered 1 1 w 0 2
    demo_request []) as (acts & w' & s' & Hown & Hacts & _ & Hs & _ & _ & Hout).
  - exact numbered_wf.
  - constructor.
  - reflexivity.
  - exact Hw.
  - rewrite Hsubs. reflexivity.
  - reflexivity.
  - left. reflexivity.
  - right. rewrite Hhigh, Hret. vm_compute. repeat split; discriminate || reflexivity.
  - exists w, acts, w', s'. rewrite Hhigh in Hout. split_and!; assumption.
Defined.

Import Delivery.

(** A client and the server count alike, up to the warm-up.  A client that has
    read what it was sent has received the warm-up and the messages from its
    resume number on, and expects the number of the server's next message plus
    one for every warm-up message; without a warm-up the two numbers are the
    same, so that a reconnect resumes where the client stopped. *)
Theorem client_position `{SeqStore.Contract St E, Authenticator A} (auth : A) (cfg : ServerConfig.t)
    (policy : StaticPolicy.t) (msgs : Z → Message.t) lo (st : St) src (w : world St) i s n
    credentials sequence :
  (∀ k, wf (msgs k)) → Forall wf (StaticPolicy.messages policy) →
  ServerConfig.start_sequence cfg ≤ SeqStore.high st + 1 →
  store_tracks msgs lo st → src_ok msgs (SeqStore.high st + 1) src →
  SeqStore.high st + Z.of_nat (length src) < SeqStore.seq_limit St →
  rtc (move auth cfg (λ _, StaticPolicy.warmup policy) lo true) (init st src) w →
  subs w !! i = Some s → Subscriber.at_ s = Subscriber.Live n →
  n + Z.of_nat (length (StaticPolicy.messages policy)) ≤ u64_max →
  wf (login_request credentials [] sequence) →
  ∃ resume evs out c c' rest,
    login (packets (Subscriber.out s)) Flushed credentials [] sequence = (evs, out, Ok c)
    ∧ poll_all (S (length evs)) evs c
      = (c', rest, map Ok (StaticPolicy.messages policy ++ map msgs (seqZ resume (n - resume))))
    ∧ SoupConnection.next_expected_sequence c = resume
    ∧ SoupConnection.next_expected_sequence c'
      = n + Z.of_nat (length (StaticPolicy.messages policy)).
Proof.
  intros Hwf Hpol Hstart Hst Hsrc Hroom Hrtc Hi Ha Hmax Hreq. set (ws := StaticPolicy.messages policy) in *.
  assert (∀ (st : St) ws', StaticPolicy.warmup policy = Ok ws' → Forall wf ws') as Hwarm
    by (intros _ ws' [= <-]; done).
  pose proof (reachable_ok auth cfg _ msgs lo (SeqStore.high st + 1) true Hwf Hwarm Hstart
    st src w Hst ltac:(lia) Hsrc Hroom Hrtc) as Hw.
  pose proof (Forall_lookup_1 _ _ i _ (wo_subs _ _ _ _ _ _ _ Hw) Hi) as [_ Hp]. rewrite Ha in Hp.
  destruct Hp as (resume & ks & (st' & ws' & [= <-] & Hout) & Hres & _ & [[-> _]|[? _]]); [|done].
  fold ws in Hout. set (ms := ws ++ map msgs (seqZ resume (n - resume))) in *.
  assert (Z.of_nat (length ms) = Z.of_nat (length ws) + (n - resume)) as Hlen.
  { unfold ms. rewrite length_app, length_map, length_seqZ. lia. }
  destruct (client_run [] (LoginAccepted.mk (ServerConfig.session cfg) resume) (map data ms) ms
    credentials [] sequence) as (c & c' & rest & Hl & Hc & Hall & _ & _ & He); simpl.
  - done.
  - by left.
  - apply Forall_map, Forall_true. done.
  - apply Forall_app. split; [done|]. apply Forall_map, Forall_true. intros; apply Hwf.
  - clear. induction ms as [|m ms IH]; [done|]. cbn. by f_equal.
  - lia.
  - rewrite length_map. lia.
  - simpl in He, Hl. rewrite Hout. exists resume. eexists _, _, c, c', rest.
    split; [exact Hl|]. unfold packets. rewrite !length_map in *. split_and!; [exact Hall|exact Hc|lia].
Qed.

(** With one warm-up message: after the acceptance at 1, the warm-up and message 1,
    the client expects 3 while the server's next message is 2. *)
Definition warm_policy : StaticPolicy.t := StaticPolicy.new [numbered 99].
Definition warm_actions : list action :=
  [IngestStart; Accept] ++ demo_login 0 ++ [IngestNext; IngestSend; SubRecv 0 false true].
Definition warm_run (acts : list action) : option (world RingSeqStore.t) :=
  run_actions AllowAllAuthenticator.new ServerConfig.bind (λ _, StaticPolicy.warmup warm_policy) acts
    (init demo_store demo_source).

Lemma warm_live :
  ∃ w s, warm_run warm_actions = Some w ∧ subs w !! 0%nat = Some s
    ∧ Subscriber.at_ s = Subscriber.Live 2.
Proof.
  assert ((λ w, Subscriber.at_ <$> subs w !! 0%nat) <$> warm_run warm_actions
    = Some (Some (Subscriber.Live 2))) as Hd by (vm_compute; reflexivity).
  destruct (warm_run warm_actions) as [w|]; [|done]. apply (inj Some) in Hd.
  destruct (subs w !! 0%nat) as [s|] eqn:Hs; [|done]. apply (inj Some) in Hd. by exists w, s.
Qed.

Lemma warm_admissible :
  admissible_run AllowAllAuthenticator.new ServerConfig.bind (λ _, StaticPolicy.warmup warm_policy) 1
    true warm_actions (init demo_store demo_source).
Proof. vm_compute. repeat split; discriminate. Qed.

Lemma client_position_witness :
  ∃ s resume evs out c c' rest,
    Subscriber.at_ s = Subscriber.Live 2
    ∧ login (packets (Subscriber.out s)) Flushed some_credentials [] 0 = (evs, out, Ok c)
    ∧ poll_all (S (length evs)) evs c
      = (c', rest, map Ok ([numbered 99] ++ map numbered (seqZ resume (2 - resume))))
    ∧ SoupConnection.next_expected_sequence c = resume
    ∧ SoupConnection.next_expected_sequence c' = 2 + 1.
Proof.
  destruct warm_live as (w & s & Hrun & Hs & Ha).
  destruct (client_position AllowAllAuthenticator.new ServerConfig.bind warm_policy numbered 1
    demo_store demo_source w 0 s 2 some_credentials 0) as (resume & evs & out & c & c' & rest & Hc).
  - exact numbered_wf.
  - constructor; [exact (numbered_wf 99)|constructor].
  - vm_compute. discriminate.
  - exact demo_tracks.
  - repeat split.
  - vm_compute. reflexivity.
  - apply (admissible_run_rtc _ _ _ _ _ warm_actions); [exact warm_admissible|exact Hrun].
  - exact Hs.
  - exact Ha.
  - vm_compute. discriminate.
  - exact some_request_wf.
  - exists s, resume, evs, out, c, c', rest. split; [exact Ha|exact Hc].
Defined.

(** ** The end of the session *)

Section end_of_session.
Context `{SeqStore.Ops St E, Authenticator A} (auth : A) (cfg : ServerConfig.t).
Context (warmup : St → result (list Message.t) SourceError.t).
Implicit Types (w : world St) (s : Subscriber.t).

Definition any_step w w' : Prop := ∃ a, step auth cfg warmup a w = Some w'.

Definition not_ended s : Prop := SoupPacket.EndOfSession ∉ Subscriber.out s.

Lemma send_not_ended p io s :
  p ≠ SoupPacket.EndOfSession → not_ended s → not_ended (Subscriber.send p io s).1.
Proof.
  intros Hp Hs. unfold Subscriber.send. case_match; [|done]. unfold not_ended in *. simpl.
  rewrite elem_of_app, list_elem_of_singleton. intros [?|?]; [done|congruence].
Qed.

Lemma send_data_not_ended m io s : not_ended s → not_ended (Subscriber.send_data m io s).1.
Proof. intros Hs. unfold Subscriber.send_data. case_match; [by apply send_not_ended|done]. Qed.

Lemma send_all_not_ended ms fails s : not_ended s → not_ended (Subscriber.send_all ms fails s).1.
Proof.
  revert fails s. induction ms as [|m ms IH]; intros fails s Hs; [done|]. cbn [Subscriber.send_all].
  pose proof (send_data_not_ended m (negb (bool_decide (fails = Some O))) s Hs) as Hd.
  destruct (Subscriber.send_data _ _ _) as [s' []]; [by apply IH|done].
Qed.

(** What a subscriber's step does to its output does not end the session, as long
    as a sender is left. *)
Lemma recv_not_ended lg n lagged io s s' :
  Subscriber.recv_step lg false n lagged io s = Some s' → not_ended s → not_ended s'.
Proof.
  unfold Subscriber.recv_step. intros Hr Hs. destruct lagged; [by simplify_eq|].
  destruct (lg !! _) as [[seq msg]|]; [|done]. case_match; [by simplify_eq|].
  pose proof (send_data_not_ended msg io
    (Subscriber.mk (Subscriber.at_ s) (S (Subscriber.rx s)) (Subscriber.out s)) Hs) as Hd.
  destruct (Subscriber.send_data _ _ _) as [s1 []]; by simplify_eq.
Qed.

Lemma login_not_ended ev io s :
  not_ended s → not_ended (Subscriber.login_step auth (ServerConfig.session cfg) ev io s).
Proof.
  intros Hs. unfold Subscriber.login_step, Subscriber.reject.
  repeat case_match; try done; apply (send_not_ended _ io s); done.
Qed.

Lemma accept_not_ended (st : St) req io s :
  not_ended s → not_ended (Subscriber.accept_step (ServerConfig.session cfg) st req io s).
Proof.
  intros Hs. unfold Subscriber.accept_step. set (p := SoupPacket.LoginAccepted _).
  pose proof (send_not_ended p io s ltac:(done) Hs) as Hd.
  by destruct (Subscriber.send p io s) as [s' []].
Qed.

Lemma warmup_not_ended (st : St) latest resume fails s :
  not_ended s → not_ended (Subscriber.warmup_step warmup st latest resume fails s).
Proof.
  intros Hs. unfold Subscriber.warmup_step. destruct (warmup st) as [ms|]; [|done].
  pose proof (send_all_not_ended ms fails s Hs) as Hd.
  by destruct (Subscriber.send_all ms fails s) as [s' []].
Qed.

Lemma replay_not_ended (st : St) n fails s :
  not_ended s → not_ended (Subscriber.replay_step st n fails s).
Proof.
  intros Hs. unfold Subscriber.replay_step. destruct (SeqStore.range _ _ _) as [range|]; [|done].
  destruct (last range) as [[seq msg]|]; [|done].
  pose proof (send_all_not_ended (map snd range) fails s Hs) as Hd.
  by destruct (Subscriber.send_all _ fails s) as [s' []].
Qed.

Lemma packet_not_ended ev inb s : not_ended s → not_ended (Subscriber.packet_step ev inb s).1.
Proof. intros Hs. unfold Subscriber.packet_step. by repeat case_match. Qed.

Lemma set_sub_not_ended i s w :
  Forall not_ended (subs w) → not_ended s → Forall not_ended (subs (set_sub i s w)).
Proof. intros Hw Hs. by apply Forall_insert. Qed.

Lemma step_returned w w' : any_step w w' → serve w = Returned → serve w' = Returned.
Proof.
  intros [a Hstep] Hser. unfold step in Hstep. rewrite Hser in Hstep.
  destruct a; unfold ingest_next in *; repeat (case_match; simplify_eq/=); try (by simplify_eq/=).
  all: destruct (Subscriber.recv_step _ _ _ _ _ _); by simplify_eq/=.
Qed.

Lemma step_not_ended w w' :
  any_step w w' → serve w ≠ Returned → Forall not_ended (subs w) → Forall not_ended (subs w').
Proof.
  intros [a Hstep] Hser Hsubs.
  assert (∀ i s, subs w !! i = Some s → not_ended s) as Hsub
    by (intros i s; apply (Forall_lookup_1 _ _ _ _ Hsubs)).
  destruct a; simpl in Hstep;
    try (destruct (subs w !! i) as [s|] eqn:Hi; [|done]; specialize (Hsub _ _ Hi);
         destruct (Subscriber.at_ s); try done).
  - destruct (ingest w); by simplify_eq.
  - destruct (ingest w); simplify_eq. unfold ingest_next in *. by repeat case_match.
  - destruct (ingest w); by simplify_eq.
  - destruct (serve w); simplify_eq/=. apply Forall_app. split; [done|].
    apply Forall_singleton, not_elem_of_nil.
  - destruct (serve w); by simplify_eq/=.
  - destruct (serve w), (ingest w); by simplify_eq/=.
  - destruct (serve w), (ingest w); by simplify_eq/=.
  - destruct (serve w); by simplify_eq/=.
  - injection Hstep as <-. by apply set_sub_not_ended, login_not_ended.
  - injection Hstep as <-. by apply set_sub_not_ended, accept_not_ended.
  - injection Hstep as <-. by apply set_sub_not_ended, warmup_not_ended.
  - injection Hstep as <-. by apply set_sub_not_ended, replay_not_ended.
  - destruct (Subscriber.recv_step _ _ _ _ _ _) as [s'|] eqn:Hr; [|done]. injection Hstep as <-.
    apply set_sub_not_ended; [done|]. assert (senders_gone w = false) as Hg.
    { unfold senders_gone. by destruct (ingest w), (serve w). }
    rewrite Hg in Hr. by eapply recv_not_ended.
  - pose proof (packet_not_ended ev (inbox w) s Hsub) as Hp.
    destruct (Subscriber.packet_step _ _ _) as [s' inb]. injection Hstep as <-.
    by apply Forall_insert.
  - by injection Hstep as <-.
Qed.

(** No subscriber is sent the end of the session before [serve] has returned.
    The channel reports its end only when every sender is gone, and the accept
    loop keeps one until the function returns: while the source is over and
    [serve] waits for its subscribers, they wait for it, so the grace always runs
    out with a subscriber connected. *)
Theorem no_end_of_session_before_return st src w s :
  rtc any_step (init st src) w → serve w ≠ Returned → s ∈ subs w →
  SoupPacket.EndOfSession ∉ Subscriber.out s.
Proof.
  intros Hrtc Hser Hs. assert (Forall not_ended (subs w)) as Hall; [|by eapply Forall_forall in Hall].
  clear s Hs. revert w Hrtc Hser. refine (rtc_ind_r (R := any_step) _ _ _ _); [constructor|].
  intros w1 w2 _ Hstep IH Hser. assert (serve w1 ≠ Returned) as Hser1
    by (intros Hret; apply Hser; by eapply step_returned).
  by apply (step_not_ended w1 w2 Hstep Hser1 (IH Hser1)).
Qed.
End end_of_session.

(** A client is connected, the source ends and [serve] waits: nothing is sent. *)
Definition grace_actions : list action :=
  [IngestStart; Accept] ++ demo_login 0
  ++ concat (replicate 5 [IngestNext; IngestSend; SubRecv 0 false true])
  ++ [IngestNext; IngestNoticed; IngestJoined].

Lemma run_actions_rtc `{SeqStore.Ops St E, Authenticator A} (auth : A) cfg
    (warmup : St → result (list Message.t) SourceError.t) acts w w' :
  run_actions auth cfg warmup acts w = Some w' → rtc (any_step auth cfg warmup) w w'.
Proof.
  revert w. induction acts as [|a acts IH]; intros w Hrun; simpl in Hrun.
  - simplify_eq. apply rtc_refl.
  - destruct (step auth cfg warmup a w) as [w1|] eqn:Hs; [|done].
    apply rtc_l with w1; [by exists a|]. by apply IH.
Qed.

Lemma grace_waits :
  ∃ w s, demo_run grace_actions = Some w ∧ ingest w = Ended ∧ serve w = Grace ∧ subs w = [s]
    ∧ step AllowAllAuthenticator.new ServerConfig.bind demo_warmup (SubRecv 0 false true) w = None.
Proof.
  assert ((λ w, (ingest w, serve w, length (subs w),
    bool_decide (is_Some (step AllowAllAuthenticator.new ServerConfig.bind demo_warmup (SubRecv 0 false true) w))))
    <$> demo_run grace_actions = Some (Ended, Grace, 1%nat, false)) as Hd by (vm_compute; reflexivity).
  destruct (demo_run grace_actions) as [w|]; [|done]. apply (inj Some) in Hd.
  injection Hd as Hi Hs Hl Hn. apply bool_decide_eq_false, eq_None_not_Some in Hn.
  assert (∃ s, subs w = [s]) as [s Es].
  { clear -Hl. destruct (subs w) as [|s [|]]; try done. by exists s. }
  by exists w, s.
Qed.

Lemma no_end_of_session_before_return_witness :
  ∃ w s, demo_run grace_actions = Some w ∧ ingest w = Ended ∧ serve w = Grace ∧ subs w = [s]
    ∧ step AllowAllAuthenticator.new ServerConfig.bind demo_warmup (SubRecv 0 false true) w = None
    ∧ SoupPacket.EndOfSession ∉ Subscriber.out s.
Proof.
  destruct grace_waits as (w & s & Hrun & Hi & Hs & Hsubs & Hn).
  exists w, s. split_and!; [exact Hrun|exact Hi|exact Hs|exact Hsubs|exact Hn|].
  apply (no_end_of_session_before_return AllowAllAuthenticator.new ServerConfig.bind demo_warmup
    demo_store demo_source w s).
  - apply (run_actions_rtc _ _ _ grace_actions), Hrun.
  - rewrite Hs. discriminate.
  - rewrite Hsubs. left.
Defined.
