(* ===== verification/Resilient.v ===== *)
(** The reconnecting SoupBinTCP client ([crates/itch-soup/src/resilient.rs]).

    The network is the list of what the coming connection attempts meet: a
    failure to connect, or a server, which is a function from the login request
    to the events that the connection will yield, with the outcome of sending
    the request.  An attempt takes the head of the list; with an empty list, and
    on a connection without further events, the client waits ([None]).  The
    random number generator is the parameter [random_range], of which the code
    uses that its result lies in the given range.  A [SocketAddr] is a number;
    sleeping is the list of the delays taken. *)

From S2P Require Import Prelude Primitives Enums Messages Codec CodecMessages MessageCodec.
From S2P Require Import Framing SoupCodec SoupSession.
Import Delivery.

Definition DEFAULT_BACKOFF_MIN : Z := 100000000.
Definition DEFAULT_BACKOFF_MAX : Z := 30000000000.
Definition DEFAULT_RESILIENT_LOGIN_TIMEOUT : Z := 5000000000.

Module ResilientSoupConfig.
Record t := mk {
  addrs : list Z;
  credentials : SoupCredentials.t;
  requested_session : option (list Z);
  initial_sequence : Z;
  max_attempts : option Z;
  backoff_min : Z;
  backoff_max : Z;
  login_timeout : Z;
}.
Definition new (addrs : list Z) (credentials : SoupCredentials.t) : t :=
  mk addrs credentials None 0 None DEFAULT_BACKOFF_MIN DEFAULT_BACKOFF_MAX
     DEFAULT_RESILIENT_LOGIN_TIMEOUT.
Definition with_requested_session (session : list Z) (c : t) : t :=
  mk (addrs c) (credentials c) (Some session) (initial_sequence c) (max_attempts c) (backoff_min c)
     (backoff_max c) (login_timeout c).
Definition with_initial_sequence (seq : Z) (c : t) : t :=
  mk (addrs c) (credentials c) (requested_session c) seq (max_attempts c) (backoff_min c)
     (backoff_max c) (login_timeout c).
Definition with_max_attempts (max : Z) (c : t) : t :=
  mk (addrs c) (credentials c) (requested_session c) (initial_sequence c) (Some max) (backoff_min c)
     (backoff_max c) (login_timeout c).
Definition with_backoff (min max : Z) (c : t) : t :=
  mk (addrs c) (credentials c) (requested_session c) (initial_sequence c) (max_attempts c) min max
     (login_timeout c).
Definition with_login_timeout (timeout : Z) (c : t) : t :=
  mk (addrs c) (credentials c) (requested_session c) (initial_sequence c) (max_attempts c)
     (backoff_min c) (backoff_max c) timeout.
End ResilientSoupConfig.

(** What a connection attempt meets. *)
Inductive attempt :=
| ConnectFailed (kind : string)
| Connected (io : send_io) (server : LoginRequest.t → list packet_event).

Module ResilientSoupClient.
Record t := mk {
  config : ResilientSoupConfig.t;
  next_addr : nat;
  attempt_ : Z;
  last_session : option (list Z);
  next_sequence : Z;
  (** the live connection with what it will yield *)
  conn : option (SoupConnection.t * list packet_event);
  terminated : bool;
}.

(** [assert!(!config.addrs.is_empty())] panics: [None]. *)
Definition new (config : ResilientSoupConfig.t) : option t :=
  match ResilientSoupConfig.addrs config with
  | [] => None
  | _ => Some (mk config 0 0 None (ResilientSoupConfig.initial_sequence config) None false)
  end.

Definition set_conn (x : option (SoupConnection.t * list packet_event)) (c : t) : t :=
  mk (config c) (next_addr c) (attempt_ c) (last_session c) (next_sequence c) x (terminated c).
Definition set_next_sequence (n : Z) (c : t) : t :=
  mk (config c) (next_addr c) (attempt_ c) (last_session c) n (conn c) (terminated c).
Definition set_attempt (n : Z) (c : t) : t :=
  mk (config c) (next_addr c) n (last_session c) (next_sequence c) (conn c) (terminated c).
Definition terminate (c : t) : t :=
  mk (config c) (next_addr c) (attempt_ c) (last_session c) (next_sequence c) (conn c) true.

Definition is_fatal (err : SoupError.t) : bool :=
  match err with
  | SoupError.LoginRejected LoginRejectReason.NotAuthorized
  | SoupError.LoginRejected LoginRejectReason.SessionUnavailable
  | SoupError.SessionMismatch _ _ => true
  | _ => false
  end.

(** The cursor chooses the address to connect to, and moves on with every attempt.
    What is met at that address, and what a server there answers to the login, is
    the [attempt]. *)
Definition try_connect_once (a : attempt) (c : t)
    : t * result (SoupConnection.t * list packet_event) SoupError.t :=
  let cfg := config c in
  let c := mk cfg ((next_addr c + 1) mod length (ResilientSoupConfig.addrs cfg)) (attempt_ c)
              (last_session c) (next_sequence c) (conn c) (terminated c) in
  match a with
  | ConnectFailed kind => (c, Err (SoupError.Io kind))
  | Connected io server =>
      let req_session := default [] (ResilientSoupConfig.requested_session cfg) in
      let credentials := ResilientSoupConfig.credentials cfg in
      let evs := server (LoginRequest.mk (SoupCredentials.username credentials)
        (SoupCredentials.password credentials) req_session (next_sequence c)) in
      match login_with_timeout evs io credentials req_session (next_sequence c)
              (ResilientSoupConfig.login_timeout cfg) with
      | (evs, _, Ok conn_) =>
          (mk cfg (next_addr c) 0 (Some (SoupConnection.session conn_))
              (SoupConnection.next_expected_sequence conn_) (conn c) (terminated c),
           Ok (conn_, evs))
      | (_, _, Err e) => (c, Err e)
      end
  end.

Section backoff.
(** [rng.random_range(lo..=hi)]. *)
Context (random_range : Z → Z → Z).

(** A [Duration] in milliseconds ([as_millis] is a [u128]). *)
Definition millis (d : Z) : Z := d / 1000000.

(** [u64::checked_shl] only checks the shift amount; bits are shifted out. *)
Definition u64_checked_shl (x : Z) (n : Z) : option Z :=
  if n <? 64 then Some (Z.shiftl x n mod 2 ^ 64) else None.

Definition backoff_delay (c : t) : Z :=
  let cfg := config c in
  let min_ms := Z.min (Z.max (millis (ResilientSoupConfig.backoff_min cfg)) 1) u64_max in
  let max_ms := Z.max (Z.min (millis (ResilientSoupConfig.backoff_max cfg)) u64_max) min_ms in
  let exp := Z.min (attempt_ c) 30 in
  let upper_ms := Z.min (default u64_max (u64_checked_shl min_ms exp)) max_ms in
  let chosen := if upper_ms <=? min_ms then min_ms else random_range min_ms upper_ms in
  chosen * 1000000.

Definition attempts_exhausted (c : t) : bool :=
  match ResilientSoupConfig.max_attempts (config c) with
  | Some max => max <=? attempt_ c
  | None => false
  end.

(** [self.attempt.saturating_add(1)] on [u32]. *)
Definition u32_saturating_add (x y : Z) : Z := Z.min (x + y) u32_max.

(** The retry loop: the rest of the network, the delays, the result. *)
Fixpoint try_connect_with_backoff (net : list attempt) (c : t)
    : t * list attempt * list Z * option (result (SoupConnection.t * list packet_event) SoupError.t) :=
  match net with
  | [] => (c, [], [], None)
  | a :: net =>
      match try_connect_once a c with
      | (c, Ok conn) => (c, net, [], Some (Ok conn))
      | (c, Err err) =>
          let c := set_attempt (u32_saturating_add (attempt_ c) 1) c in
          if is_fatal err then (c, net, [], Some (Err err))
          else if attempts_exhausted c then (c, net, [], Some (Err err))
          else
            let delay := backoff_delay c in
            let '(c, net, delays, r) := try_connect_with_backoff net c in
            (c, net, delay :: delays, r)
      end
  end.

(** Reading from the live connection: a result for the caller, waiting, or a
    connection that was closed without the end of the session. *)
Inductive read_outcome :=
| Return (r : result Message.t SoupError.t)
| Wait
| Reconnect.

Definition read_conn (conn_ : SoupConnection.t) (evs : list packet_event) (c : t)
    : t * read_outcome :=
  let '(conn_, evs, p) := SoupConnection.poll_next evs conn_ in
  let c := set_conn (Some (conn_, evs)) c in
  match p with
  | Pending => (c, Wait)
  | Ready (Some (Ok msg)) =>
      (set_next_sequence (SoupConnection.next_expected_sequence conn_) c, Return (Ok msg))
  | Ready (Some (Err err)) =>
      let c := set_next_sequence (SoupConnection.next_expected_sequence conn_) c in
      match err with
      | SoupError.Protocol _ => (c, Return (Err err))
      | _ =>
          if is_fatal err then (set_conn None (terminate c), Return (Err err))
          else (set_conn None c, Return (Err err))
      end
  | Ready None =>
      (set_conn None (set_next_sequence (SoupConnection.next_expected_sequence conn_) c), Reconnect)
  end.

(** [next_message]'s loop; every turn after the first takes an attempt. *)
Fixpoint next_loop (fuel : nat) (net : list attempt) (c : t)
    : t * list attempt * list Z * option (option (result Message.t SoupError.t)) :=
  match fuel with
  | O => (c, net, [], None)
  | S fuel =>
      let '(c, net, delays, r) :=
        match conn c with
        | Some live => (c, net, [], Some (Ok live))
        | None => try_connect_with_backoff net c
        end in
      match r with
      | None => (c, net, delays, None)
      | Some (Err err) => (terminate c, net, delays, Some (Some (Err err)))
      | Some (Ok (conn_, evs)) =>
          match read_conn conn_ evs c with
          | (c, Return r) => (c, net, delays, Some (Some r))
          | (c, Wait) => (c, net, delays, None)
          | (c, Reconnect) =>
              let '(c, net, delays', r) := next_loop fuel net c in (c, net, delays ++ delays', r)
          end
      end
  end.

Definition next_message (net : list attempt) (c : t)
    : t * list attempt * list Z * option (option (result Message.t SoupError.t)) :=
  if terminated c then (c, net, [], Some None) else next_loop (S (S (length net))) net c.

(** [into_stream]: the results of [k] polls, up to the end or to waiting. *)
Fixpoint polls (k : nat) (net : list attempt) (c : t)
    : t * list attempt * list (result Message.t SoupError.t) :=
  match k with
  | O => (c, net, [])
  | S k =>
      match next_message net c with
      | (c, net, _, Some (Some r)) => let '(c, net, rs) := polls k net c in (c, net, r :: rs)
      | (c, net, _, _) => (c, net, [])
      end
  end.
End backoff.
End ResilientSoupClient.

(** ** Servers that keep their numbering *)

Section honest.
Context (msgs : Z → Message.t).

Definition not_data (e : packet_event) : Prop :=
  match e with Some (Ok (SoupPacket.SequencedData _)) => False | _ => True end.

(** The data packets of [evs] are the messages [n], [n + 1], ...; anything else
    may come between them: heartbeats, the end of the session, errors, a closed
    connection. *)
Inductive feeds : Z → list packet_event → Prop :=
| feeds_nil n : feeds n []
| feeds_data n evs : 1 ≤ n < u64_max → feeds (n + 1) evs → feeds n (Some (Ok (data (msgs n))) :: evs)
| feeds_other n e evs : not_data e → feeds n evs → feeds n (e :: evs).

(** A server that accepts a login resumes at the number asked for (at one of its
    choice, if that is 0) and numbers its messages from there.  How it refuses or
    breaks off a login is left open. *)
Definition honest (a : attempt) : Prop :=
  match a with
  | ConnectFailed _ => True
  | Connected _ server =>
      ∀ req ds acc rest,
        server req = packets (map SoupPacket.Debug ds ++ [SoupPacket.LoginAccepted acc]) ++ rest →
        (LoginRequest.requested_sequence req ≠ 0 →
         LoginAccepted.sequence acc = LoginRequest.requested_sequence req)
        ∧ 1 ≤ LoginAccepted.sequence acc ∧ feeds (LoginAccepted.sequence acc) rest
  end.

Hypothesis msgs_wf : ∀ k, wf (msgs k).

(** What one poll of the connection does to the numbering. *)
Definition poll_effect (n : Z)
    (x : SoupConnection.t * list packet_event * Poll (option (result Message.t SoupError.t))) : Prop :=
  feeds (SoupConnection.expected_sequence x.1.1) x.1.2
  ∧ match x.2 with
    | Ready (Some (Ok m)) => m = msgs n ∧ SoupConnection.expected_sequence x.1.1 = n + 1
    | _ => SoupConnection.expected_sequence x.1.1 = n
    end.

Lemma poll_loop_feeds evs n cn :
  feeds n evs → SoupConnection.expected_sequence cn = n → 1 ≤ n →
  poll_effect n (SoupConnection.poll_loop evs cn).
Proof.
  intros Hf. revert cn. induction Hf as [n|n evs Hn Hf IH|n e evs He Hf IH]; intros cn Hcn Hpos.
  - split; [constructor|done].
  - cbn [SoupConnection.poll_loop data]. unfold SoupConnection.deliver_sequenced.
    rewrite decode_message_wire by done. unfold poll_effect. simpl.
    by rewrite Hcn, u64_saturating_add_small by lia.
  - assert (∀ cn' p, SoupConnection.expected_sequence cn' = n →
      (∀ m, p ≠ Ready (Some (Ok m))) → poll_effect n (cn', evs, p)) as Hquiet.
    { intros cn' p Hc' Hp. split; simpl; [by rewrite Hc'|].
      destruct p as [[[m|]|]|]; try done. by destruct (Hp m). }
    destruct e as [[p|err]|]; cbn [SoupConnection.poll_loop]; [|by apply Hquiet|by apply Hquiet].
    destruct p; try (by apply Hquiet); try (by apply IH); [|done].
    apply IH; [|done]. unfold SoupConnection.route_debug. by repeat case_match.
Qed.

Lemma poll_next_feeds evs n cn :
  feeds n evs → SoupConnection.expected_sequence cn = n → 1 ≤ n →
  poll_effect n (SoupConnection.poll_next evs cn).
Proof.
  intros Hf Hcn Hn. unfold SoupConnection.poll_next. case_match; [|by apply poll_loop_feeds].
  split; simpl; by rewrite ?Hcn.
Qed.

Import ResilientSoupClient.

(** The client's number is the connection's, and the connection feeds from it. *)
Definition conn_ok (n : Z) (live : SoupConnection.t * list packet_event) : Prop :=
  SoupConnection.expected_sequence live.1 = n ∧ 1 ≤ n ∧ feeds n live.2.
Definition client_ok (c : t) : Prop :=
  ∀ live, conn c = Some live → conn_ok (next_sequence c) live.

(** Before the first login the number may be 0; afterwards it only moves when
    messages are delivered. *)
Definition moved (n n' k : Z) : Prop := n ≠ 0 → n' = n + k.

Lemma login_honest evs io credentials session sequence timeout rest out cn server :
  honest (Connected io server) →
  server (LoginRequest.mk (SoupCredentials.username credentials)
    (SoupCredentials.password credentials) session sequence) = evs →
  login_with_timeout evs io credentials session sequence timeout = (rest, out, Ok cn) →
  conn_ok (SoupConnection.expected_sequence cn) (cn, rest)
  ∧ moved sequence (SoupConnection.expected_sequence cn) 0.
Proof.
  intros Hh Hev Hl. unfold login_with_timeout in Hl.
  destruct (framed_send _ io []) as [o [[[]|e]|]]; try done.
  destruct (await_reply evs session timeout o) as [rest' r] eqn:Er. simplify_eq.
  apply await_reply_accepted in Er as (ds & acc & Hevs & _ & ->).
  destruct (Hh _ _ _ _ Hevs) as (Hseq & Hpos & Hfeeds). simpl in *.
  split; [by split_and!|]. intros Hne. rewrite Hseq by done. lia.
Qed.

Lemma try_connect_once_ok a c c' r :
  honest a → conn c = None → try_connect_once a c = (c', r) →
  conn c' = None ∧ terminated c' = terminated c ∧ config c' = config c
  ∧ moved (next_sequence c) (next_sequence c') 0
  ∧ match r with
    | Ok live => conn_ok (next_sequence c') live ∧ attempt_ c' = 0
    | Err _ => attempt_ c' = attempt_ c
    end.
Proof.
  intros Hh Hc Ht. unfold try_connect_once in Ht. destruct a as [kind|io server].
  - simplify_eq. simpl. split_and!; try done. intros _; lia.
  - destruct (login_with_timeout _ _ _ _ _ _) as [[rest out] [cn|e]] eqn:El; simplify_eq; simpl.
    + destruct (login_honest _ _ _ _ _ _ _ _ _ _ Hh eq_refl El) as [Hok Hm]. by split_and!.
    + split_and!; try done. intros _; lia.
Qed.

Lemma number_moved_trans n n' n'' k k' : moved n n' 0 → (n' ≠ 0 → n'' = n' + k') → k = k' → moved n n'' k.
Proof. unfold moved. intros H1 H2 -> Hn. specialize (H1 Hn). rewrite H2; lia. Qed.

Lemma try_connect_ok random_range net c :
  Forall honest net → conn c = None →
  let '(c', net', _, r) := try_connect_with_backoff random_range net c in
  conn c' = None ∧ terminated c' = terminated c ∧ Forall honest net'
  ∧ moved (next_sequence c) (next_sequence c') 0
  ∧ match r with Some (Ok live) => conn_ok (next_sequence c') live | _ => True end.
Proof.
  intros Hnet. revert c. induction Hnet as [|a net Ha Hnet IH]; intros c Hc; simpl.
  { split_and!; try done. intros _. lia. }
  destruct (try_connect_once a c) as [c1 r] eqn:E.
  destruct (try_connect_once_ok _ _ _ _ Ha Hc E) as (Hc1 & Hterm & _ & Hm & Hr). destruct r as [live|err].
  { split_and!; try done. apply Hr. }
  destruct (is_fatal err); [done|]. destruct (attempts_exhausted _); [done|].
  specialize (IH (set_attempt (u32_saturating_add (attempt_ c1) 1) c1) Hc1).
  destruct (try_connect_with_backoff random_range net _) as [[[c2 net2] delays] r2].
  destruct IH as (? & Ht2 & ? & Hm2 & ?). simpl in *. split_and!; try done; [congruence|].
  by eapply number_moved_trans; [exact Hm|exact Hm2|].
Qed.

Lemma read_conn_ok c live :
  conn_ok (next_sequence c) live →
  let '(c', o) := read_conn live.1 live.2 c in
  client_ok c'
  ∧ (o = Reconnect → conn c' = None ∧ terminated c' = terminated c)
  ∧ match o with
    | Return (Ok m) => m = msgs (next_sequence c) ∧ next_sequence c' = next_sequence c + 1
    | _ => next_sequence c' = next_sequence c
    end.
Proof.
  destruct live as [cn evs]. intros (Hcn & Hpos & Hf). simpl in *. unfold read_conn.
  pose proof (poll_next_feeds _ _ _ Hf Hcn Hpos) as [Hf' Hp].
  destruct (SoupConnection.poll_next evs cn) as [[cn' evs'] p]. simpl in *.
  assert (∀ n c', n = SoupConnection.expected_sequence cn' → 1 ≤ n →
    client_ok (set_next_sequence n (set_conn (Some (cn', evs')) c'))) as Hlive.
  { intros n c' -> Hn live Hl. simpl in *. simplify_eq. by split_and!. }
  assert (∀ c', client_ok (set_conn None c')) as Hnone by (intros c' live; done).
  unfold SoupConnection.next_expected_sequence.
  destruct p as [[[m|err]|]|].
  - destruct Hp as [-> Hp]. split_and!; [apply Hlive; [done|lia]|done|done|done].
  - destruct err; simpl; repeat case_match; simplify_eq;
      split_and!; try done; apply Hlive; [done|lia].
  - split_and!; try done.
  - split_and!; [|done|done]. intros live Hl. simpl in *. simplify_eq. rewrite <-Hp. split_and!; [done|lia|done].
Qed.

(** One call of [next_message]. *)
Lemma next_loop_ok random_range fuel net c :
  Forall honest net → client_ok c →
  let '(c', net', _, r) := next_loop random_range fuel net c in
  client_ok c' ∧ Forall honest net'
  ∧ match r with
    | Some (Some (Ok m)) =>
        m = msgs (next_sequence c' - 1) ∧ 2 ≤ next_sequence c'
        ∧ moved (next_sequence c) (next_sequence c') 1
    | _ => moved (next_sequence c) (next_sequence c') 0
    end.
Proof.
  revert net c. induction fuel as [|fuel IH]; intros net c Hnet Hc; simpl.
  { split_and!; try done. intros _; lia. }
  assert (let '(c1, net1, _, r1) :=
    match conn c with
    | Some live => (c, net, [], Some (Ok live))
    | None => try_connect_with_backoff random_range net c
    end in Forall honest net1 ∧ moved (next_sequence c) (next_sequence c1) 0 ∧ client_ok c1
      ∧ match r1 with Some (Ok live) => conn_ok (next_sequence c1) live | _ => True end) as Hconn.
  { destruct (conn c) as [live|] eqn:El.
    - split_and!; try done; [intros _; lia|by apply Hc].
    - pose proof (try_connect_ok random_range net c Hnet El) as Ht.
      destruct (try_connect_with_backoff random_range net c) as [[[c1 net1] d1] r1].
      destruct Ht as (Hn & _ & ? & ? & ?). split_and!; try done. intros live. by rewrite Hn. }
  destruct (match conn c with Some _ => _ | None => _ end) as [[[c1 net1] d1] r1].
  destruct Hconn as (Hnet1 & Hm1 & Hc1 & Hr1).
  destruct r1 as [[[cn evs]|err]|]; [|done|done].
  pose proof (read_conn_ok c1 (cn, evs) Hr1) as Hread. simpl in Hread.
  destruct (read_conn cn evs c1) as [c2 [r| |]]; destruct Hread as (Hc2 & Hre & Ho).
  - destruct r as [m|err].
    + destruct Ho as [-> Ho]. destruct Hr1 as (_ & Hpos & _). rewrite Ho.
      split_and!; try done; [f_equal; lia|lia|]. intros Hne. rewrite (Hm1 Hne). lia.
    + split_and!; try done. by rewrite Ho.
  - split_and!; try done. by rewrite Ho.
  - specialize (IH net1 c2 Hnet1 Hc2). destruct (next_loop random_range fuel net1 c2) as [[[c3 net3] d3] r3].
    destruct IH as (? & ? & IH). split_and!; try done.
    rewrite Ho in IH. destruct r3 as [[[m|]|]|].
    + destruct IH as (? & ? & IH). split_and!; try done. by eapply number_moved_trans.
    + by eapply number_moved_trans.
    + by eapply number_moved_trans.
    + by eapply number_moved_trans.
Qed.

Definition oks (rs : list (result Message.t SoupError.t)) : list Message.t :=
  omap (λ r, match r with Ok m => Some m | Err _ => None end) rs.

Lemma polls_ok random_range k net c :
  Forall honest net → client_ok c →
  ∃ first, (next_sequence c ≠ 0 → first = next_sequence c)
    ∧ oks (polls random_range k net c).2
      = map msgs (seqZ first (Z.of_nat (length (oks (polls random_range k net c).2)))).
Proof.
  revert net c. induction k as [|k IH]; intros net c Hnet Hc; simpl.
  { exists (next_sequence c). by split. }
  unfold next_message. destruct (terminated c); [exists (next_sequence c); by split|].
  pose proof (next_loop_ok random_range (S (S (length net))) net c Hnet Hc) as Hn.
  destruct (next_loop random_range _ net c) as [[[c1 net1] d1] r1]. destruct Hn as (Hc1 & Hnet1 & Hr1).
  destruct r1 as [[r|]|]; [|exists (next_sequence c); by split|exists (next_sequence c); by split].
  destruct (IH net1 c1 Hnet1 Hc1) as (first & Hfirst & Hoks).
  destruct (polls random_range k net1 c1) as [[c2 net2] rs]. cbn [snd] in *. destruct r as [m|err].
  - destruct Hr1 as (-> & Hge & Hm). specialize (Hfirst ltac:(lia)). subst first.
    exists (next_sequence c1 - 1). split; [intros Hne; rewrite (Hm Hne); lia|].
    unfold oks in *. cbn [omap list_omap length]. rewrite Nat2Z.inj_succ, seqZ_cons by lia. cbn [map].
    replace (Z.succ (next_sequence c1 - 1)) with (next_sequence c1) by lia. rewrite Z.pred_succ.
    by f_equal.
  - exists first. split; [|exact Hoks]. intros Hne. specialize (Hr1 Hne). rewrite Z.add_0_r in Hr1.
    rewrite <-Hr1 in *. by apply Hfirst.
Qed.
End honest.

Import ResilientSoupClient.

(** ** Backoff *)

Section delays.
Context (random_range : Z → Z → Z).
Hypothesis random_in_range : ∀ lo hi, lo ≤ hi → lo ≤ random_range lo hi ≤ hi.

(** The bounds of the configuration in milliseconds. *)
Definition min_ms (cfg : ResilientSoupConfig.t) : Z :=
  Z.min (Z.max (millis (ResilientSoupConfig.backoff_min cfg)) 1) u64_max.
Definition max_ms (cfg : ResilientSoupConfig.t) : Z :=
  Z.max (Z.min (millis (ResilientSoupConfig.backoff_max cfg)) u64_max) (min_ms cfg).

Lemma backoff_delay_bounds c :
  0 ≤ attempt_ c →
  min_ms (config c) * 1000000 ≤ backoff_delay random_range c ≤ max_ms (config c) * 1000000
  ∧ backoff_delay random_range c ≤ min_ms (config c) * 2 ^ attempt_ c * 1000000.
Proof.
  intros Hc. unfold backoff_delay. fold (min_ms (config c)). fold (max_ms (config c)).
  set (lo := min_ms (config c)). set (hi := max_ms (config c)).
  assert (1 ≤ lo) as Hlo by (unfold lo, min_ms, u64_max; lia).
  assert (lo ≤ hi) as Hhi by (unfold hi, max_ms, lo; lia).
  set (e := attempt_ c `min` 30). assert (0 ≤ e ≤ attempt_ c) as He by lia.
  assert (1 ≤ 2 ^ e ≤ 2 ^ attempt_ c) as Hpow.
  { split; [pose proof (Z.pow_pos_nonneg 2 e); lia|apply Z.pow_le_mono_r; lia]. }
  unfold u64_checked_shl. rewrite (proj2 (Z.ltb_lt e 64)) by lia. cbn [default from_option id].
  set (up := Z.min (Z.shiftl lo e mod 2 ^ 64) hi).
  assert (up ≤ lo * 2 ^ e) as Hup.
  { unfold up. rewrite Z.shiftl_mul_pow2 by lia. etransitivity; [apply Z.le_min_l|].
    apply Z.mod_le; [nia|done]. }
  assert (lo * 2 ^ e ≤ lo * 2 ^ attempt_ c) as Hle by (apply Z.mul_le_mono_nonneg_l; lia).
  assert (lo ≤ lo * 2 ^ attempt_ c) as Hone by nia. set (top := lo * 2 ^ attempt_ c) in *.
  destruct (Z.leb_spec up lo) as [?|Hgt]; [lia|].
  pose proof (random_in_range lo up ltac:(lia)). assert (up ≤ hi) by (unfold up; lia). lia.
Qed.
End delays.

(** ** Retrying *)

Section retry.
Context (random_range : Z → Z → Z).

(** An attempt that fails, and not for good. *)
Definition fails (c : t) (a : attempt) : Prop :=
  ∀ c', config c' = config c → next_sequence c' = next_sequence c →
    ∃ e, (try_connect_once a c').2 = Err e ∧ is_fatal e = false.

Definition within_budget (max : option Z) (n : Z) : Prop :=
  match max with Some max => n < max ≤ u32_max | None => True end.

Lemma try_connect_once_fail a c e :
  (try_connect_once a c).2 = Err e →
  let c' := (try_connect_once a c).1 in
  config c' = config c ∧ next_sequence c' = next_sequence c ∧ attempt_ c' = attempt_ c
  ∧ conn c' = conn c ∧ terminated c' = terminated c.
Proof.
  unfold try_connect_once. destruct a; [done|].
  by destruct (login_with_timeout _ _ _ _ _ _) as [[? ?] [?|?]].
Qed.

Lemma fails_same c c' a :
  config c' = config c → next_sequence c' = next_sequence c → fails c a → fails c' a.
Proof. intros Hcfg Hn Hf c1 H1 H2. apply Hf; congruence. Qed.

Lemma budget_left c :
  within_budget (ResilientSoupConfig.max_attempts (config c)) (attempt_ c + 1) →
  0 ≤ attempt_ c →
  attempts_exhausted (set_attempt (u32_saturating_add (attempt_ c) 1) c) = false.
Proof.
  unfold within_budget, attempts_exhausted, u32_saturating_add. simpl.
  destruct (ResilientSoupConfig.max_attempts (config c)); [|done]. intros Hb Hc.
  apply Z.leb_gt. lia.
Qed.

Lemma budget_next c n :
  within_budget (ResilientSoupConfig.max_attempts (config c)) (attempt_ c + Z.of_nat (S n)) →
  0 ≤ attempt_ c →
  let c' := set_attempt (u32_saturating_add (attempt_ c) 1) c in
  0 ≤ attempt_ c' ∧ attempts_exhausted c' = false
  ∧ within_budget (ResilientSoupConfig.max_attempts (config c)) (attempt_ c' + Z.of_nat n).
Proof.
  unfold within_budget, attempts_exhausted, u32_saturating_add, u32_max. simpl.
  destruct (ResilientSoupConfig.max_attempts (config c)); intros Hb Hc.
  - split_and!; [lia|apply Z.leb_gt; lia|lia|lia].
  - split_and!; [lia|done|done].
Qed.

(** A delay that the client may take. *)
Definition a_delay (cfg : ResilientSoupConfig.t) (d : Z) : Prop :=
  ∃ c, config c = cfg ∧ 0 ≤ attempt_ c ∧ d = backoff_delay random_range c.

(** Failed attempts within the budget are skipped. *)
Lemma retry_skips fs net c :
  Forall (fails c) fs → 0 ≤ attempt_ c →
  within_budget (ResilientSoupConfig.max_attempts (config c)) (attempt_ c + Z.of_nat (length fs)) →
  ∃ c' delays, config c' = config c ∧ next_sequence c' = next_sequence c ∧ conn c' = conn c
    ∧ terminated c' = terminated c ∧ 0 ≤ attempt_ c'
    ∧ (ResilientSoupConfig.max_attempts (config c) ≠ None →
       attempt_ c' = attempt_ c + Z.of_nat (length fs))
    ∧ length delays = length fs ∧ Forall (a_delay (config c)) delays
    ∧ try_connect_with_backoff random_range (fs ++ net) c
      = let '(c2, net2, ds, r) := try_connect_with_backoff random_range net c' in
        (c2, net2, delays ++ ds, r).
Proof.
  intros Hfs. revert c Hfs. induction fs as [|a fs IH]; intros c Hfs Hatt Hb.
  { exists c, []. split_and!; try done; [simpl; lia|]. simpl.
    by destruct (try_connect_with_backoff random_range net c) as [[[? ?] ?] ?]. }
  apply Forall_cons in Hfs as [Ha Hfs]. cbn [length] in Hb.
  destruct (Ha c eq_refl eq_refl) as (e & He & Hnf).
  destruct (try_connect_once_fail a c e He) as (Hcfg & Hseq & Hat & Hconn & Hterm).
  cbn [app try_connect_with_backoff].
  destruct (try_connect_once a c) as [c1 r1]. simpl in *. subst r1. rewrite Hnf.
  rewrite <-Hcfg, <-Hat in Hb. rewrite <-Hat in Hatt.
  destruct (budget_next c1 (length fs) Hb Hatt) as (Hatt2 & -> & Hb2).
  set (c2 := set_attempt (u32_saturating_add (attempt_ c1) 1) c1) in *.
  destruct (IH c2) as (c' & delays & ? & ? & ? & ? & ? & Hcnt & Hlen & Hds & Heq); [|done|done|].
  { eapply Forall_impl; [exact Hfs|]. intros x. by apply fails_same. }
  exists c', (backoff_delay random_range c2 :: delays). rewrite Heq.
  destruct (try_connect_with_backoff random_range net c') as [[[c3 net3] ds3] r3].
  change (config c2) with (config c1) in *. rewrite <-Hcfg in *.
  split_and!; try done; simpl in *; try congruence.
  - intros Hne. rewrite (Hcnt Hne). unfold within_budget in Hb.
    destruct (ResilientSoupConfig.max_attempts (config c1)); [|done].
    unfold u32_saturating_add. lia.
  - constructor; [by exists c2|done].
Qed.
End retry.

(** ** Fuel *)

Lemma try_connect_len random_range net c :
  let '(c', net', _, r) := try_connect_with_backoff random_range net c in
  match r with
  | Some _ => (length net' < length net)%nat
  | None => True
  end.
Proof.
  revert c. induction net as [|a net IH]; intros c; simpl; [done|].
  destruct (try_connect_once a c) as [c1 [live|err]]; [simpl; lia|].
  destruct (is_fatal err); [simpl; lia|]. destruct (attempts_exhausted _); [simpl; lia|].
  specialize (IH (set_attempt (u32_saturating_add (attempt_ c1) 1) c1)).
  destruct (try_connect_with_backoff random_range net _) as [[[c2 net2] d2] [r2|]]; [lia|done].
Qed.

Lemma read_conn_reconnect cn evs c c' : read_conn cn evs c = (c', Reconnect) → conn c' = None.
Proof.
  unfold read_conn. destruct (SoupConnection.poll_next evs cn) as [[cn' evs'] p].
  intros. repeat case_match; by simplify_eq.
Qed.

(** The loop needs a turn for the live connection and one per attempt; more fuel
    than that changes nothing. *)
Lemma next_loop_fuel random_range fuel net c :
  (length net + match conn c with Some _ => 1 | None => 0 end < fuel)%nat →
  next_loop random_range (S fuel) net c = next_loop random_range fuel net c.
Proof.
  revert net c. induction fuel as [|fuel IH]; intros net c Hf; [lia|].
  remember (S fuel) as fuel' eqn:Hfuel. cbn [next_loop]. symmetry. rewrite Hfuel at 1.
  cbn [next_loop]. symmetry.
  assert (let '(_, net1, _, r1) :=
    match conn c with
    | Some live => (c, net, [], Some (Ok live))
    | None => try_connect_with_backoff random_range net c
    end in match r1 with Some _ => (length net1 < fuel)%nat | None => True end) as Hlen.
  { destruct (conn c); [lia|]. pose proof (try_connect_len random_range net c) as Hl.
    destruct (try_connect_with_backoff random_range net c) as [[[c1 net1] d1] [r1|]]; [lia|done]. }
  destruct (match conn c with Some live => (c, net, [], Some (Ok live)) | None => _ end)
    as [[[c1 net1] d1] [[[cn evs]|err]|]]; try done.
  destruct (read_conn cn evs c1) as [c2 [r| |]] eqn:Er; try done.
  apply read_conn_reconnect in Er. subst fuel'. rewrite IH; [done|]. rewrite Er. lia.
Qed.

(** A new client, at the first number that it is configured for. *)
Lemma new_polls_ok random_range (msgs : Z → Message.t) cfg c net k :
  (∀ n, wf (msgs n)) → ResilientSoupClient.new cfg = Some c → Forall (honest msgs) net →
  ∃ first,
    (ResilientSoupConfig.initial_sequence cfg ≠ 0 →
     first = ResilientSoupConfig.initial_sequence cfg)
    ∧ oks (polls random_range k net c).2
      = map msgs (seqZ first (Z.of_nat (length (oks (polls random_range k net c).2)))).
Proof.
  intros Hwf Hnew Hnet.
  assert (conn c = None ∧ next_sequence c = ResilientSoupConfig.initial_sequence cfg) as [Hc <-].
  { unfold new in Hnew. destruct (ResilientSoupConfig.addrs cfg); by simplify_eq. }
  apply (polls_ok msgs Hwf random_range k net c Hnet). intros live. by rewrite Hc.
Qed.

(** ** Properties *)

(** The resilient client delivers each message exactly once and in order,
    across any number of connections.  Whatever its attempts meet (failures,
    rejections, time-outs, servers that break off anywhere), as long as every
    server that accepts it resumes at the number asked for and numbers its
    messages consistently, the messages that the client's stream yields are those
    of consecutive numbers, from the configured first number on (or, if that is
    0, from the number of the first connection). *)
Theorem resilient_exactly_once random_range (msgs : Z → Message.t) cfg c net k :
  (∀ n, wf (msgs n)) → ResilientSoupClient.new cfg = Some c → Forall (honest msgs) net →
  ∃ first,
    (ResilientSoupConfig.initial_sequence cfg ≠ 0 →
     first = ResilientSoupConfig.initial_sequence cfg)
    ∧ oks (polls random_range k net c).2
      = map msgs (seqZ first (Z.of_nat (length (oks (polls random_range k net c).2)))).
Proof.
  by apply new_polls_ok.
Qed.

(** Two servers: the first accepts, sends two messages and drops the connection;
    the second continues. *)
Definition server_of (n : nat) (end_ : list packet_event) (req : LoginRequest.t) : list packet_event :=
  let first := if LoginRequest.requested_sequence req =? 0 then 5
               else LoginRequest.requested_sequence req in
  if in_range 1 1000 first then
    packets [SoupPacket.LoginAccepted (LoginAccepted.mk [b@"S"] first)]
    ++ map (λ k, Some (Ok (data (numbered k)))) (seqZ first (Z.of_nat n)) ++ end_
  else [None].
Definition demo_client : ResilientSoupConfig.t := ResilientSoupConfig.new [1; 2] some_credentials.
Definition demo_net : list attempt :=
  [ConnectFailed "ConnectionRefused"; Connected Flushed (server_of 2 [None]);
   Connected Flushed (server_of 2 [Some (Ok SoupPacket.EndOfSession)])].

Lemma feeds_run msgs n k end_ :
  (∀ m, feeds msgs m end_) → 1 ≤ n → n + Z.of_nat k ≤ u64_max →
  feeds msgs n (map (λ j, Some (Ok (data (msgs j)))) (seqZ n (Z.of_nat k)) ++ end_).
Proof.
  intros He. revert n. induction k as [|k IH]; intros n Hn Hk; [apply He|].
  rewrite seqZ_cons by lia. cbn [map app]. constructor; [lia|].
  replace (Z.pred (Z.of_nat (S k))) with (Z.of_nat k) by lia. apply IH; lia.
Qed.

Lemma debug_prefix ds acc rest acc' rest' :
  packets [SoupPacket.LoginAccepted acc'] ++ rest'
  = packets (map SoupPacket.Debug ds ++ [SoupPacket.LoginAccepted acc]) ++ rest →
  acc' = acc ∧ rest' = rest.
Proof. destruct ds; simpl; intros; by simplify_eq. Qed.

Lemma honest_server io k end_ :
  (∀ m, feeds numbered m end_) → Z.of_nat k ≤ 1000 → honest numbered (Connected io (server_of k end_)).
Proof.
  intros He Hk req ds acc rest. unfold server_of. case_match eqn:Er.
  - intros Hs. apply debug_prefix in Hs as [<- <-]. simpl.
    unfold in_range in Er. apply andb_prop in Er as [H1 H2]. apply Z.leb_le in H1, H2.
    split_and!; [|done|apply feeds_run; [done|done|unfold u64_max; lia]].
    intros Hne. by rewrite (proj2 (Z.eqb_neq _ _)).
  - intros Hs. by destruct ds.
Qed.

Lemma demo_net_honest : Forall (honest numbered) demo_net.
Proof.
  constructor; [done|]. constructor; [|constructor; [|constructor]].
  all: apply honest_server; [|done]; intros m; constructor; [done|constructor].
Qed.

Definition demo_random (lo _ : Z) : Z := lo.

Lemma resilient_exactly_once_witness :
  oks (polls demo_random 10 demo_net (mk demo_client 0 0 None 0 None false)).2
  = map numbered (seqZ 5 4)
  ∧ ∃ first, oks (polls demo_random 10 demo_net (mk demo_client 0 0 None 0 None false)).2
      = map numbered (seqZ first (Z.of_nat
          (length (oks (polls demo_random 10 demo_net (mk demo_client 0 0 None 0 None false)).2)))).
Proof.
  split; [vm_compute; reflexivity|].
  destruct (resilient_exactly_once demo_random numbered demo_client
    (mk demo_client 0 0 None 0 None false) demo_net 10) as (first & _ & H).
  - exact numbered_wf.
  - reflexivity.
  - exact demo_net_honest.
  - exists first. exact H.
Defined.

(** C34: a client without a connection gets the next message as soon as a server
    gives it one: after any failed attempts that its budget of attempts allows,
    the attempt that is accepted and yields a message makes [next_message] return
    it, with one delay per failure, each between the configured bounds (in whole
    milliseconds, the lower at least one and the upper at least the lower), and
    resets the budget. *)
Theorem resilient_reconnects random_range c fs io server net evs out cn cn' evs' m :
  (∀ lo hi, lo ≤ hi → lo ≤ random_range lo hi ≤ hi) →
  conn c = None → terminated c = false → 0 ≤ attempt_ c →
  Forall (fails c) fs →
  within_budget (ResilientSoupConfig.max_attempts (config c)) (attempt_ c + Z.of_nat (length fs)) →
  login_with_timeout
    (server (LoginRequest.mk (SoupCredentials.username (ResilientSoupConfig.credentials (config c)))
       (SoupCredentials.password (ResilientSoupConfig.credentials (config c)))
       (default [] (ResilientSoupConfig.requested_session (config c))) (next_sequence c)))
    io (ResilientSoupConfig.credentials (config c))
    (default [] (ResilientSoupConfig.requested_session (config c))) (next_sequence c)
    (ResilientSoupConfig.login_timeout (config c)) = (evs, out, Ok cn) →
  SoupConnection.poll_next evs cn = (cn', evs', Ready (Some (Ok m))) →
  ∃ c' delays,
    next_message random_range (fs ++ Connected io server :: net) c
    = (c', net, delays, Some (Some (Ok m)))
    ∧ length delays = length fs
    ∧ Forall (λ d, min_ms (config c) * 1000000 ≤ d ≤ max_ms (config c) * 1000000) delays
    ∧ conn c' = Some (cn', evs') ∧ attempt_ c' = 0
    ∧ next_sequence c' = SoupConnection.next_expected_sequence cn'.
Proof.
  intros Hrng Hconn Hterm Hatt Hfs Hb Hl Hp.
  destruct (retry_skips random_range fs (Connected io server :: net) c Hfs Hatt Hb)
    as (c1 & delays & Hcfg & Hseq & Hconn1 & Hterm1 & _ & _ & Hlen & Hds & Heq).
  unfold next_message. rewrite Hterm. cbn [next_loop]. rewrite Hconn, Heq.
  cbn [try_connect_with_backoff]. unfold try_connect_once. cbv zeta. cbn [next_sequence].
  rewrite Hcfg, Hseq, Hl. unfold read_conn. rewrite Hp. rewrite app_nil_r.
  eexists _, delays. split_and!; [done|done| |done|done|done].
  eapply Forall_impl; [exact Hds|]. intros d (c2 & Hc2 & Hatt2 & ->). rewrite <-Hc2.
  by apply (backoff_delay_bounds random_range Hrng).
Qed.

Lemma refused_fails c kind : fails c (ConnectFailed kind).
Proof. intros c' _ _. by exists (SoupError.Io kind). Qed.

Definition limited_client : t :=
  mk (ResilientSoupConfig.with_max_attempts 2 demo_client) 0 0 None 7 None false.

Lemma resilient_reconnects_witness :
  ∃ c' delays,
    next_message demo_random [ConnectFailed "ConnectionRefused"; Connected Flushed (server_of 1 [])]
      limited_client = (c', [], delays, Some (Some (Ok (numbered 7))))
    ∧ length delays = 1%nat
    ∧ Forall (λ d, min_ms (config limited_client) * 1000000 ≤ d
                   ≤ max_ms (config limited_client) * 1000000) delays
    ∧ next_sequence c' = 8.
Proof.
  destruct (resilient_reconnects demo_random limited_client [ConnectFailed "ConnectionRefused"] Flushed
    (server_of 1 []) [] (map (λ k, Some (Ok (data (numbered k)))) (seqZ 7 1))
    (soup_send [login_request some_credentials [] 7] []).1
    (SoupConnection.mk [b@"S"] 7 false None DEFAULT_SEND_TIMEOUT
      (soup_send [login_request some_credentials [] 7] []).1)
    (SoupConnection.mk [b@"S"] 8 false None DEFAULT_SEND_TIMEOUT
      (soup_send [login_request some_credentials [] 7] []).1) [] (numbered 7))
    as (c' & delays & H1 & H2 & H3 & _ & _ & H4).
  - intros lo hi Hle. unfold demo_random. split; [reflexivity|exact Hle].
  - reflexivity.
  - reflexivity.
  - vm_compute. discriminate.
  - constructor; [apply refused_fails|constructor].
  - vm_compute. split; [reflexivity|discriminate].
  - vm_compute. reflexivity.
  - vm_compute. reflexivity.
  - exists c', delays. split; [exact H1|]. split; [exact H2|]. split; [exact H3|exact H4].
Defined.

(** The budget of attempts is kept: when [max_attempts] attempts in a row fail,
    the last error is returned after exactly that many attempts, with a delay
    between each two, and the client is at its end for good. *)
Theorem resilient_gives_up random_range c fs a net max :
  conn c = None → terminated c = false → 0 ≤ attempt_ c →
  ResilientSoupConfig.max_attempts (config c) = Some max → max ≤ u32_max →
  attempt_ c + Z.of_nat (length fs) + 1 = max →
  Forall (fails c) (fs ++ [a]) →
  ∃ c' delays e,
    next_message random_range (fs ++ a :: net) c = (c', net, delays, Some (Some (Err e)))
    ∧ length delays = length fs
    ∧ ∀ net', next_message random_range net' c' = (c', net', [], Some None).
Proof.
  intros Hconn Hterm Hatt Hmax Hu Hb Hfs. apply Forall_app in Hfs as [Hfs Ha].
  apply Forall_cons in Ha as [Ha _].
  destruct (retry_skips random_range fs (a :: net) c Hfs Hatt)
    as (c1 & delays & Hcfg & Hseq & Hconn1 & Hterm1 & _ & Hcnt & Hlen & _ & Heq).
  { rewrite Hmax. simpl. lia. }
  specialize (Hcnt ltac:(congruence)).
  destruct (Ha c1 Hcfg Hseq) as (e & He & Hnf).
  destruct (try_connect_once_fail a c1 e He) as (Hcfg2 & _ & Hat2 & _ & _).
  unfold next_message at 1. rewrite Hterm. cbn [next_loop]. rewrite Hconn, Heq.
  cbn [try_connect_with_backoff]. destruct (try_connect_once a c1) as [c2 r2]. simpl in *. subst r2.
  rewrite Hnf. unfold attempts_exhausted. cbn [config set_attempt attempt_].
  rewrite Hcfg2, Hcfg, Hmax. rewrite (proj2 (Z.leb_le _ _)) by (unfold u32_saturating_add; lia).
  eexists _, _, e. split; [done|]. rewrite app_nil_r. split; [done|]. done.
Qed.

Lemma resilient_gives_up_witness :
  ∃ c' delays e,
    next_message demo_random [ConnectFailed "ConnectionRefused"; ConnectFailed "TimedOut";
                              Connected Flushed (server_of 1 [])] limited_client
    = (c', [Connected Flushed (server_of 1 [])], delays, Some (Some (Err e)))
    ∧ length delays = 1%nat
    ∧ ∀ net', next_message demo_random net' c' = (c', net', [], Some None).
Proof.
  apply (resilient_gives_up demo_random limited_client [ConnectFailed "ConnectionRefused"]
    (ConnectFailed "TimedOut") [Connected Flushed (server_of 1 [])] 2).
  - reflexivity.
  - reflexivity.
  - vm_compute. discriminate.
  - reflexivity.
  - vm_compute. discriminate.
  - reflexivity.
  - constructor; [apply refused_fails|constructor; [apply refused_fails|constructor]].
Defined.

(** A connection that is accepted at once. *)
Lemma connect_accepted c server session seq rest :
  let credentials := ResilientSoupConfig.credentials (config c) in
  let requested := default [] (ResilientSoupConfig.requested_session (config c)) in
  session_matches requested session → wf (login_request credentials requested (next_sequence c)) →
  server (LoginRequest.mk (SoupCredentials.username credentials) (SoupCredentials.password credentials)
    requested (next_sequence c))
  = packets [SoupPacket.LoginAccepted (LoginAccepted.mk session seq)] ++ rest →
  ∃ c' cn, try_connect_once (Connected Flushed server) c = (c', Ok (cn, rest))
    ∧ config c' = config c ∧ next_sequence c' = seq ∧ conn c' = conn c ∧ terminated c' = terminated c
    ∧ SoupConnection.expected_sequence cn = seq ∧ SoupConnection.session_ended cn = false.
Proof.
  intros credentials requested Hsess Hwf Hs. unfold try_connect_once. cbn [next_sequence].
  fold credentials requested. rewrite Hs. unfold login_with_timeout. unfold login_request in Hwf.
  rewrite (framed_send_wf _ [] Hwf).
  rewrite (proj2 (await_reply_accepted _ requested _ _ rest _)) by (exists [], (LoginAccepted.mk session seq); done).
  eexists _, _. split_and!; reflexivity.
Qed.

(** The turns of the loop: connecting, reading an item, finding the connection
    closed. *)
Lemma next_loop_connect random_range fuel a net c c1 live :
  conn c = None → try_connect_once a c = (c1, Ok live) →
  next_loop random_range (S fuel) (a :: net) c
  = next_loop random_range (S fuel) net (set_conn (Some live) c1).
Proof.
  intros Hc Ha. cbn [next_loop]. rewrite Hc. cbn [try_connect_with_backoff]. rewrite Ha. by destruct live.
Qed.

(** A result that leaves the connection open. *)
Definition surfaced (r : result Message.t SoupError.t) : Prop :=
  match r with Err (SoupError.Protocol _) | Ok _ => True | _ => False end.

Lemma next_loop_item random_range fuel net c cn evs cn' evs' r :
  conn c = Some (cn, evs) → SoupConnection.poll_next evs cn = (cn', evs', Ready (Some r)) →
  surfaced r →
  next_loop random_range (S fuel) net c
  = (set_next_sequence (SoupConnection.expected_sequence cn') (set_conn (Some (cn', evs')) c), net, [],
     Some (Some r)).
Proof.
  intros Hc Hp Hr. cbn [next_loop]. rewrite Hc. unfold read_conn. rewrite Hp.
  destruct r as [m|[]]; done.
Qed.

Lemma next_loop_closed random_range fuel net c cn evs cn' evs' :
  conn c = Some (cn, evs) → SoupConnection.poll_next evs cn = (cn', evs', Ready None) →
  next_loop random_range (S fuel) net c
  = next_loop random_range fuel net
      (set_conn None (set_next_sequence (SoupConnection.expected_sequence cn') c)).
Proof.
  intros Hc Hp. cbn [next_loop]. rewrite Hc. unfold read_conn. rewrite Hp.
  change (set_conn None (set_next_sequence (SoupConnection.next_expected_sequence cn')
    (set_conn (Some (cn', evs')) c)))
    with (set_conn None (set_next_sequence (SoupConnection.expected_sequence cn') c)).
  by destruct (next_loop random_range fuel net _) as [[[? ?] ?] ?].
Qed.

(** The same for whole calls: reading from the open connection, opening one, and
    finding it closed and opening the next. *)
Section calls.
Context (random_range : Z → Z → Z) (net : list attempt) (cn cn' : SoupConnection.t).
Context (evs evs' : list packet_event) (r : result Message.t SoupError.t).
Hypothesis Hp : SoupConnection.poll_next evs cn = (cn', evs', Ready (Some r)).
Hypothesis Hr : surfaced r.

Definition having_read (c : t) : t :=
  set_next_sequence (SoupConnection.expected_sequence cn') (set_conn (Some (cn', evs')) c).

Lemma next_message_live c :
  terminated c = false → conn c = Some (cn, evs) →
  next_message random_range net c = (having_read c, net, [], Some (Some r)).
Proof. intros Ht Hc. unfold next_message. rewrite Ht. by apply next_loop_item with cn evs. Qed.

Lemma next_message_opens a c c1 :
  terminated c = false → conn c = None → try_connect_once a c = (c1, Ok (cn, evs)) →
  next_message random_range (a :: net) c = (having_read c1, net, [], Some (Some r)).
Proof.
  intros Ht Hc Ha. unfold next_message. rewrite Ht. cbn [length].
  rewrite (next_loop_connect random_range _ a net c c1 _ Hc Ha).
  by rewrite (next_loop_item random_range _ net (set_conn (Some (cn, evs)) c1) cn evs cn' evs' r).
Qed.

Lemma next_message_reopens a c c1 cn0 :
  terminated c = false → conn c = Some (cn0, [None]) → SoupConnection.session_ended cn0 = false →
  try_connect_once a (set_conn None (set_next_sequence (SoupConnection.expected_sequence cn0) c))
  = (c1, Ok (cn, evs)) →
  next_message random_range (a :: net) c = (having_read c1, net, [], Some (Some r)).
Proof.
  intros Ht Hc He Ha. unfold next_message. rewrite Ht. cbn [length].
  rewrite (next_loop_closed random_range _ _ c cn0 [None] cn0 [] Hc)
    by (unfold SoupConnection.poll_next; by rewrite He).
  rewrite (λ H, next_loop_connect random_range _ a net _ c1 _ H Ha) by done.
  by rewrite (next_loop_item random_range _ net (set_conn (Some (cn, evs)) c1) cn evs cn' evs' r).
Qed.
End calls.

Lemma poll_data cn m evs :
  wf m → SoupConnection.session_ended cn = false → SoupConnection.expected_sequence cn < u64_max →
  ∃ cn', SoupConnection.poll_next (Some (Ok (data m)) :: evs) cn = (cn', evs, Ready (Some (Ok m)))
    ∧ SoupConnection.expected_sequence cn' = SoupConnection.expected_sequence cn + 1
    ∧ SoupConnection.session_ended cn' = false.
Proof.
  intros Hwf He Hm. unfold SoupConnection.poll_next. rewrite He. cbn [SoupConnection.poll_loop data].
  unfold SoupConnection.deliver_sequenced. rewrite decode_message_wire by done.
  eexists. split; [done|]. simpl. split; [|done]. apply u64_saturating_add_small. lia.
Qed.

(** After a message that does not decode, the client counts one less than the
    server: when the connection is lost later, the client asks for the number of
    the last message it delivered, and delivers that message a second time. *)
Theorem bad_frame_delivers_twice random_range cfg c n payload e :
  ResilientSoupClient.new (ResilientSoupConfig.with_initial_sequence n cfg) = Some c →
  ResilientSoupConfig.requested_session cfg = None →
  wf (login_request (ResilientSoupConfig.credentials cfg) [] n) →
  wf (login_request (ResilientSoupConfig.credentials cfg) [] (n + 1)) →
  1 ≤ n → n + 3 < u64_max → Message_decode payload = Err e →
  let message k := if k =? n then SoupPacket.SequencedData payload else data (numbered k) in
  let server req :=
    packets [SoupPacket.LoginAccepted (LoginAccepted.mk [b@"S"] (LoginRequest.requested_sequence req));
             message (LoginRequest.requested_sequence req);
             message (LoginRequest.requested_sequence req + 1)] ++ [None] in
  (polls random_range 3 [Connected Flushed server; Connected Flushed server] c).2
  = [Err (SoupError.Protocol e); Ok (numbered (n + 1)); Ok (numbered (n + 1))].
Proof.
  intros Hnew Hsess Hw1 Hw2 Hn Hmax He message server.
  assert (c = mk (ResilientSoupConfig.with_initial_sequence n cfg) 0 0 None n None false) as ->.
  { unfold new in Hnew. simpl in Hnew. by destruct (ResilientSoupConfig.addrs cfg); simplify_eq. }
  set (c0 := mk _ _ _ _ _ _ _).
  assert (ResilientSoupConfig.requested_session (config c0) = None) as Hs0 by done.
  destruct (connect_accepted c0 server [b@"S"] n (packets [message n; message (n + 1)] ++ [None]))
    as (c1 & cn & Hc1 & Hcfg & _ & Hconn & Hterm & Hcn & Hend);
    [by left; rewrite Hs0|by rewrite Hs0|by rewrite Hs0|].
  assert (SoupConnection.poll_next (packets [message n; message (n + 1)] ++ [None]) cn
    = (cn, packets [message (n + 1)] ++ [None], Ready (Some (Err (SoupError.Protocol e))))) as Hp1.
  { unfold SoupConnection.poll_next, message. rewrite Hend, Z.eqb_refl. cbn.
    unfold SoupConnection.deliver_sequenced. by rewrite He. }
  assert (message (n + 1) = data (numbered (n + 1))) as Hm1.
  { unfold message. by rewrite (proj2 (Z.eqb_neq _ _)) by lia. }
  destruct (poll_data cn (numbered (n + 1)) [None] (numbered_wf _) Hend) as (cn2 & Hp2 & Hcn2 & Hend2); [lia|].
  assert (terminated c1 = false) as Ht1 by done.
  set (net := [Connected Flushed server]).
  pose (d1 := having_read cn (packets [message (n + 1)] ++ [None]) c1).
  pose (d2 := having_read cn2 [None] d1).
  pose (d3 := set_conn None (set_next_sequence (SoupConnection.expected_sequence cn2) d2)).
  assert (next_sequence d3 = n + 1) as Hd3 by (simpl; by rewrite Hcn2, Hcn).
  destruct (connect_accepted d3 server [b@"S"] (n + 1)
    (packets [message (n + 1); message (n + 1 + 1)] ++ [None]))
    as (c3 & cn3 & Hc3 & _ & _ & _ & _ & Hcn3 & Hend3).
  { left. change (config d3) with (config c1). by rewrite Hcfg, Hs0. }
  { rewrite Hd3. change (config d3) with (config c1). by rewrite Hcfg, Hs0. }
  { rewrite Hd3. change (config d3) with (config c1). by rewrite Hcfg, Hs0. }
  destruct (poll_data cn3 (numbered (n + 1)) (packets [message (n + 1 + 1)] ++ [None]) (numbered_wf _) Hend3)
    as (cn4 & Hp4 & _ & _); [lia|].
  rewrite <-Hm1 in Hp2, Hp4.
  pose proof (next_message_opens random_range net _ _ _ _ _ Hp1 I _ c0 c1 eq_refl eq_refl Hc1) as E1.
  pose proof (next_message_live random_range net _ _ _ _ _ Hp2 I d1 Ht1 eq_refl) as E2.
  pose proof (next_message_reopens random_range [] _ _ _ _ _ Hp4 I _ d2 c3 cn2 Ht1 eq_refl Hend2 Hc3) as E3.
  fold d1 in E1. fold d2 in E2. fold net in E3. cbn [polls]. rewrite E1, E2, E3. reflexivity.
Qed.

Lemma bad_frame_delivers_twice_witness :
  let message k := if k =? 7 then SoupPacket.SequencedData [b@"?"] else data (numbered k) in
  let server req :=
    packets [SoupPacket.LoginAccepted (LoginAccepted.mk [b@"S"] (LoginRequest.requested_sequence req));
             message (LoginRequest.requested_sequence req);
             message (LoginRequest.requested_sequence req + 1)] ++ [None] in
  (polls demo_random 3 [Connected Flushed server; Connected Flushed server]
     (mk (ResilientSoupConfig.with_initial_sequence 7 demo_client) 0 0 None 7 None false)).2
  = [Err (SoupError.Protocol (UnknownMessageType (b@"?"))); Ok (numbered 8); Ok (numbered 8)].
Proof.
  apply (bad_frame_delivers_twice demo_random demo_client _ 7 [b@"?"]).
  - reflexivity.
  - reflexivity.
  - vm_compute. repeat (split || constructor); discriminate.
  - vm_compute. repeat (split || constructor); discriminate.
  - discriminate.
  - reflexivity.
  - reflexivity.
Defined.
