(* ===== verification/SoupEndToEnd.v ===== *)
(** The reconnecting client of [resilient.rs] against servers of [server.rs].

    [Resilient.v] asks of a server that it resumes where the client says and
    numbers its messages from there ([honest]).  Here the servers of
    [SoupServer.v] are shown to do so, in every interleaving of their tasks, so
    that the guarantee of the client holds of the whole system: several server
    processes over time, each on a store of its own with the same numbering, and
    a client that is cut off from them at any point. *)

From S2P Require Import Prelude Primitives Enums Messages Codec CodecMessages MessageCodec.
From S2P Require Import SeqStore Framing SoupCodec SoupSession SoupServer SoupServing Resilient.
Import Delivery.

(** ** The resume number *)

Section resume.
Context `{SeqStore.Contract St E, Authenticator A} (auth : A) (cfg : ServerConfig.t).
Context (warmup : St → result (list Message.t) SourceError.t) (msgs : Z → Message.t) (lo first : Z).
Context (i : nat) (req : LoginRequest.t).
Implicit Types (w : world St) (s : Subscriber.t).

(** A move of the server in which subscriber [i], if it logs in, sends [req]. *)
Definition move_for w w' : Prop :=
  ∃ a, admissible lo true a w ∧ step auth cfg warmup a w = Some w'
    ∧ ∀ req' io, a = SubLogin i (Some (Ok (SoupPacket.LoginRequest req'))) io → req' = req.

(** The number that the acceptance names. *)
Definition resumes (acc : LoginAccepted.t) : Prop :=
  1 ≤ LoginAccepted.sequence acc
  ∧ (LoginRequest.requested_sequence req ≠ 0 →
     LoginAccepted.sequence acc = LoginRequest.requested_sequence req).

Definition opened (out : list SoupPacket.t) : Prop :=
  ∃ acc rest, out = SoupPacket.LoginAccepted acc :: rest ∧ resumes acc.

Definition asked s : Prop :=
  match Subscriber.at_ s with
  | Subscriber.AwaitLogin => Subscriber.out s = []
  | Subscriber.LoggedIn r => r = req ∧ is_u64 (LoginRequest.requested_sequence r) ∧ Subscriber.out s = []
  | Subscriber.Closed =>
      ∀ acc rest, Subscriber.out s = SoupPacket.LoginAccepted acc :: rest → resumes acc
  | _ => opened (Subscriber.out s)
  end.

Lemma asked_head s acc rest :
  asked s → Subscriber.out s = SoupPacket.LoginAccepted acc :: rest → resumes acc.
Proof.
  unfold asked. intros Ha Ho. destruct (Subscriber.at_ s).
  - congruence.
  - destruct Ha as (_ & _ & Ha). congruence.
  - destruct Ha as (acc' & rest' & Ho' & Hr); congruence.
  - destruct Ha as (acc' & rest' & Ho' & Hr); congruence.
  - destruct Ha as (acc' & rest' & Ho' & Hr); congruence.
  - by eapply Ha.
Qed.

Definition in_data (p : Subscriber.phase) : bool :=
  match p with Subscriber.AwaitLogin | Subscriber.LoggedIn _ => false | _ => true end.

(** A step of the data phases only sends more. *)
Definition grows s s' : Prop :=
  in_data (Subscriber.at_ s') = true ∧ Subscriber.out s `prefix_of` Subscriber.out s'.

Lemma grows_asked s s' : opened (Subscriber.out s) → grows s s' → asked s'.
Proof.
  intros (acc & rest & Ho & Hr) [Hp [ps Hps]]. rewrite Ho in Hps. simpl in Hps.
  unfold asked. destruct (Subscriber.at_ s'); try done; [by exists acc, (rest ++ ps)..|].
  intros acc' rest'. rewrite Hps. by intros [= <- _].
Qed.

Lemma send_grows p io s :
  let s' := (Subscriber.send p io s).1 in
  Subscriber.at_ s' = Subscriber.at_ s ∧ Subscriber.out s `prefix_of` Subscriber.out s'.
Proof. unfold Subscriber.send. case_match; simpl; [|done]. split; [done|by eexists]. Qed.

Lemma send_data_grows m io s :
  Subscriber.out s `prefix_of` Subscriber.out (Subscriber.send_data m io s).1.
Proof. unfold Subscriber.send_data. case_match; [apply send_grows|done]. Qed.

Lemma send_all_grows ms fails s :
  Subscriber.out s `prefix_of` Subscriber.out (Subscriber.send_all ms fails s).1.
Proof.
  revert fails s. induction ms as [|m ms IH]; intros fails s; [done|]. cbn [Subscriber.send_all].
  pose proof (send_data_grows m (negb (bool_decide (fails = Some O))) s) as Hd.
  destruct (Subscriber.send_data _ _ _) as [s' []]; [|done]. by etrans; [|apply IH].
Qed.

Lemma warmup_grows (st : St) latest resume fails s :
  grows s (Subscriber.warmup_step warmup st latest resume fails s).
Proof.
  unfold Subscriber.warmup_step. destruct (warmup st) as [ms|]; [|done].
  pose proof (send_all_grows ms fails s) as Hd.
  destruct (Subscriber.send_all ms fails s) as [s' []]; (split; [|done]); simpl; [by case_match|done].
Qed.

Lemma replay_grows (st : St) n fails s : grows s (Subscriber.replay_step st n fails s).
Proof.
  unfold Subscriber.replay_step. destruct (SeqStore.range _ _ _) as [range|]; [|done].
  destruct (last range) as [[seq msg]|]; [|done].
  pose proof (send_all_grows (map snd range) fails s) as Hd.
  by destruct (Subscriber.send_all _ fails s) as [s' []].
Qed.

Lemma recv_grows lg gone n lagged io s s' :
  Subscriber.at_ s = Subscriber.Live n →
  Subscriber.recv_step lg gone n lagged io s = Some s' → grows s s'.
Proof.
  unfold Subscriber.recv_step. intros Ha Hr. destruct lagged; [by simplify_eq|].
  destruct (lg !! _) as [[seq msg]|].
  - case_match; [simplify_eq; split; simpl; [by rewrite Ha|done]|].
    pose proof (send_data_grows msg io
      (Subscriber.mk (Subscriber.at_ s) (S (Subscriber.rx s)) (Subscriber.out s))) as Hd.
    destruct (Subscriber.send_data _ _ _) as [s1 []]; by simplify_eq.
  - destruct gone; simplify_eq. split; [done|]. apply send_grows.
Qed.

Lemma packet_grows ev inb n s :
  Subscriber.at_ s = Subscriber.Live n → grows s (Subscriber.packet_step ev inb s).1.
Proof.
  intros Ha. assert (grows s s) as Hs by (split; [by rewrite Ha|done]).
  assert (grows s (Subscriber.close s)) by done. unfold Subscriber.packet_step. by repeat case_match.
Qed.

Lemma login_asked ev io s :
  (∀ r, ev = Some (Ok (SoupPacket.LoginRequest r)) → r = req ∧ is_u64 (LoginRequest.requested_sequence r)) →
  Subscriber.at_ s = Subscriber.AwaitLogin → asked s →
  asked (Subscriber.login_step auth (ServerConfig.session cfg) ev io s).
Proof.
  intros Hev Ha Hs. unfold asked in Hs. rewrite Ha in Hs.
  assert (asked (Subscriber.close s)) as Hclose by (intros acc rest; simpl; by rewrite Hs).
  assert (∀ reason, asked (Subscriber.reject reason io s)) as Hrej.
  { intros reason acc rest. unfold Subscriber.reject, Subscriber.send. simpl.
    case_match; simpl; by rewrite Hs. }
  unfold Subscriber.login_step. destruct ev as [[[]|]|]; try done.
  destruct (Hev _ eq_refl) as [-> Hu]. repeat case_match; done.
Qed.

Lemma accept_asked w r io s :
  world_ok cfg warmup msgs lo first true w → Subscriber.at_ s = Subscriber.LoggedIn r → asked s →
  asked (Subscriber.accept_step (ServerConfig.session cfg) (store w) r io s).
Proof.
  intros Hw Ha Hs. unfold asked in Hs. rewrite Ha in Hs. destruct Hs as (-> & Hu & Ho).
  pose proof (tr_inv _ _ _ (wo_store _ _ _ _ _ _ _ Hw)) as Hi. pose proof (SeqStore.high_ok _ Hi).
  unfold Subscriber.accept_step. rewrite SeqStore.latest_ok by done. set (resume := if _ =? 0 then _ else _).
  assert (resumes (LoginAccepted.mk (ServerConfig.session cfg) resume)) as Hr.
  { pose proof (wo_room _ _ _ _ _ _ _ Hw). pose proof SeqStore.limits_ok as Hlim. unfold resume, in_width in *.
    split; simpl; destruct (Z.eqb_spec (LoginRequest.requested_sequence req) 0); try done; [|lia].
    rewrite u64_saturating_add_small; lia. }
  rewrite SubscriberFacts.send_small by by apply Nat.leb_le.
  destruct io; [|intros acc rest; simpl; by rewrite Ho].
  exists (LoginAccepted.mk (ServerConfig.session cfg) resume), []. simpl. by rewrite Ho.
Qed.

(** What subscriber [i] is, if there is one. *)
Definition asks w : Prop := ∀ s, subs w !! i = Some s → asked s.

Lemma asks_sub w j s :
  (j = i → asked s) → asks w → asks (set_sub j s w).
Proof.
  intros Hj Hw s'. simpl. destruct (decide (j = i)) as [->|Hne].
  - rewrite list_lookup_insert. case_decide; intros; simplify_eq; [auto|]. by apply Hw.
  - rewrite list_lookup_insert_ne by done. apply Hw.
Qed.

Lemma asks_move w w' :
  world_ok cfg warmup msgs lo first true w → move_for w w' → asks w → asks w'.
Proof.
  intros Hok (a & Hadm & Hstep & Hreq) Hw.
  assert (∀ j s s', subs w !! j = Some s → (asked s → asked s') → asks (set_sub j s' w)) as Hset.
  { intros j s s' Hj Has. apply asks_sub; [|done]. intros ->. by apply Has, Hw. }
  destruct a; simpl in Hstep;
    try (destruct (subs w !! i0) as [s|] eqn:Hi; [|done]; destruct (Subscriber.at_ s) eqn:Ha; try done).
  - destruct (ingest w); by simplify_eq.
  - destruct (ingest w); simplify_eq. unfold ingest_next. by repeat case_match.
  - destruct (ingest w); by simplify_eq.
  - destruct (serve w); simplify_eq. intros s Hs. simpl in Hs. apply lookup_snoc_Some in Hs as [[_ Hs]|[_ <-]];
      [by apply Hw|done].
  - destruct (serve w); by simplify_eq.
  - destruct (serve w), (ingest w); by simplify_eq.
  - destruct (serve w), (ingest w); by simplify_eq.
  - destruct (serve w); by simplify_eq.
  - simplify_eq. apply asks_sub; [|done]. intros ->. apply login_asked; [|done|by apply Hw].
    intros r ->. split; [by eapply Hreq|done].
  - simplify_eq. eapply Hset; [done|]. by apply accept_asked.
  - simplify_eq. eapply Hset; [done|]. unfold asked at 1. rewrite Ha. intros; by eapply grows_asked, warmup_grows.
  - simplify_eq. eapply Hset; [done|]. unfold asked at 1. rewrite Ha. intros; by eapply grows_asked, replay_grows.
  - destruct (Subscriber.recv_step _ _ _ _ _ _) as [s'|] eqn:Er; simplify_eq/=. eapply Hset; [done|].
    unfold asked at 1. rewrite Ha. intros; by eapply grows_asked, recv_grows.
  - pose proof (packet_grows ev (inbox w) _ _ Ha) as Hg. destruct (Subscriber.packet_step _ _ _) as [s' inb].
    simplify_eq. apply (Hset i0 s s' Hi). unfold asked at 1. rewrite Ha. intros; by eapply grows_asked.
  - by simplify_eq.
Qed.

Hypothesis msgs_wf : ∀ k, wf (msgs k).
Hypothesis warmup_wf : ∀ st ws, warmup st = Ok ws → Forall wf ws.
Hypothesis start_ok : ServerConfig.start_sequence cfg ≤ first.

Lemma move_for_move w w' : move_for w w' → move auth cfg warmup lo true w w'.
Proof. intros (a & Hadm & Hstep & _). by exists a. Qed.

Lemma asks_run w w' :
  rtc move_for w w' → world_ok cfg warmup msgs lo first true w → asks w → asks w'.
Proof.
  induction 1 as [|w w1 w' Hm _ IH]; [done|]. intros Hok Hw. apply IH.
  - by eapply (world_ok_move auth), move_for_move.
  - by eapply asks_move.
Qed.
End resume.

(** ** The system *)

(** A server process: its store, its authenticator, its configuration and what
    its source will bring.  Its policy sends no warm-up. *)
Record process := {
  pr_store : Type;
  pr_error : Type;
  pr_ops : SeqStore.Ops pr_store pr_error;
  pr_contract : SeqStore.Contract pr_store pr_error;
  pr_authenticator : Type;
  pr_check : Authenticator pr_authenticator;
  pr_auth : pr_authenticator;
  pr_cfg : ServerConfig.t;
  pr_initial : pr_store;
  pr_source : list (result Message.t SourceError.t);
  pr_lo : Z;
}.
#[local] Existing Instances pr_ops pr_contract pr_check.

Definition no_warmup {St} (_ : St) : result (list Message.t) SourceError.t :=
  StaticPolicy.warmup StaticPolicy.empty.

Section system.
Context (msgs : Z → Message.t).

(** Its store holds the messages of the stream under their numbers, and its
    source continues the stream. *)
Record process_ok (p : process) : Prop := {
  po_start : ServerConfig.start_sequence (pr_cfg p) ≤ SeqStore.high (pr_initial p) + 1;
  po_store : store_tracks msgs (pr_lo p) (pr_initial p);
  po_source : src_ok msgs (SeqStore.high (pr_initial p) + 1) (pr_source p);
  po_room : SeqStore.high (pr_initial p) + Z.of_nat (length (pr_source p))
            < SeqStore.seq_limit (pr_store p);
}.

(** What a lost connection yields. *)
Definition broken_off (e : packet_event) : Prop := match e with Some (Ok _) => False | _ => True end.

(** A client that logged in with [req] reads some of what the process has sent it
    at some point of a run. *)
Definition answered (req : LoginRequest.t) (evs : list packet_event) : Prop :=
  ∃ p w i s k tail, process_ok p
    ∧ rtc (move_for (pr_auth p) (pr_cfg p) no_warmup (pr_lo p) i req) (init (pr_initial p) (pr_source p)) w
    ∧ subs w !! i = Some s
    ∧ evs = packets (take k (Subscriber.out s)) ++ tail ∧ Forall broken_off tail.

Definition behind (a : attempt) : Prop :=
  match a with ConnectFailed _ => True | Connected _ server => ∀ req, answered req (server req) end.

Hypothesis msgs_wf : ∀ k, wf (msgs k).

Lemma broken_feeds n tail : Forall broken_off tail → feeds msgs n tail.
Proof.
  induction 1 as [|e tail He _ IH]; constructor; [|done]. by destruct e as [[]|].
Qed.

Lemma feeds_take n evs k tail :
  feeds msgs n evs → (∀ m, feeds msgs m tail) → feeds msgs n (take k evs ++ tail).
Proof.
  intros Hf Ht. revert k. induction Hf as [n|n evs Hn Hf IH|n e evs He Hf IH]; intros k.
  - by rewrite take_nil.
  - destruct k as [|k]; [apply Ht|]. cbn [take app]. by constructor.
  - destruct k as [|k]; [apply Ht|]. cbn [take app]. by constructor.
Qed.

Lemma packets_take k ps : packets (take k ps) = take k (packets ps).
Proof. symmetry. apply firstn_map. Qed.

(** The data of a run of numbers, and the end of the session. *)
Lemma run_feeds resume n fin limit :
  1 ≤ resume → Forall (λ k, k < limit) (seqZ resume n) → limit ≤ u64_max →
  fin = [] ∨ fin = [SoupPacket.EndOfSession] →
  feeds msgs resume (packets (map data (map msgs (seqZ resume n)) ++ fin)).
Proof.
  intros Hr Hks Hl Hfin. assert (∀ m, feeds msgs m (packets fin)) as Hf.
  { intros m. destruct Hfin as [->| ->]; repeat constructor. }
  unfold packets. rewrite map_app, !map_map. destruct (Z.le_gt_cases n 0).
  { rewrite seqZ_nil by done. apply Hf. }
  replace n with (Z.of_nat (Z.to_nat n)) by lia. apply feeds_run; [done|done|].
  rewrite Forall_forall in Hks. specialize (Hks (resume + n - 1)).
  rewrite elem_of_seqZ in Hks. lia.
Qed.

Lemma tail_no_reply tail ds acc rest :
  Forall broken_off tail →
  tail ≠ packets (map SoupPacket.Debug ds ++ [SoupPacket.LoginAccepted acc]) ++ rest.
Proof. intros Ht ->. destruct ds; by apply Forall_inv in Ht. Qed.

Lemma behind_honest a : behind a → honest msgs a.
Proof.
  destruct a as [kind|io server]; [done|]. intros Hb req ds acc rest Hev.
  destruct (Hb req) as (p & w & i & s & k & tail & [Hst Htr Hsrc Hroom] & Hrtc & Hi & Hs & Ht).
  rewrite Hev in Hs. symmetry in Hs.
  assert (∀ (st : pr_store p) ws, no_warmup st = Ok ws → Forall wf ws) as Hwarm by (intros st ws [= <-]; done).
  assert (rtc (move (pr_auth p) (pr_cfg p) no_warmup (pr_lo p) true) (init (pr_initial p) (pr_source p)) w) as Hmv.
  { eapply rtc_subrel; [|exact Hrtc]. apply move_for_move. }
  pose proof (reachable_served _ _ _ msgs _ _ true msgs_wf Hwarm Hst _ _ _ i s Htr ltac:(lia) Hsrc Hroom Hmv Hi)
    as Hserved.
  assert (asked req s) as Hasked.
  { eapply asks_run; [exact msgs_wf|exact Hwarm|exact Hst|exact Hrtc| |done|exact Hi].
    apply world_ok_init; [done|lia|done|done]. }
  destruct k as [|k]; [by apply (tail_no_reply tail ds acc rest) in Ht|].
  inversion Hserved as [Eo|reason Eo|resume Eo|resume st ws warm ks fin Hw Hpre _ Hrun Hfin Eo];
    rewrite <-Eo in Hs; cbn [take] in Hs.
  - by apply (tail_no_reply tail ds acc rest) in Ht.
  - by destruct ds.
  - apply (debug_prefix ds acc rest _ (packets (take k []) ++ tail)) in Hs as [<- <-].
    destruct (asked_head _ _ _ _ Hasked (eq_sym Eo)) as [Hpos Hseq]. split_and!; [done|done|].
    rewrite take_nil. by apply broken_feeds.
  - injection Hw as <-. apply prefix_nil_inv in Hpre as ->. cbn [app] in Hs, Eo.
    apply (debug_prefix ds acc rest) in Hs as [<- <-].
    destruct (asked_head _ _ _ _ Hasked (eq_sym Eo)) as [Hpos Hseq]. split_and!; [done|done|].
    destruct Hrun as [[[n ->]|[? _]] Hlim]; [|done]. rewrite packets_take. apply feeds_take.
    + eapply run_feeds; [done|done|apply SeqStore.limits_ok|done].
    + intros m. by apply broken_feeds.
Qed.
End system.

(** ** Catching up *)

Section catching_up.
Import ResilientSoupClient.
Context (random_range : Z → Z → Z) (net : list attempt).

(** The client reads the messages that its connection holds. *)
Lemma polls_read ms c cn :
  Forall wf ms → terminated c = false → conn c = Some (cn, packets (map data ms)) →
  SoupConnection.session_ended cn = false →
  SoupConnection.expected_sequence cn = next_sequence c →
  next_sequence c + Z.of_nat (length ms) ≤ u64_max →
  ∃ c', polls random_range (length ms) net c = (c', net, map Ok ms)
    ∧ next_sequence c' = next_sequence c + Z.of_nat (length ms).
Proof.
  intros Hms. revert c cn. induction Hms as [|m ms Hm Hms IH]; intros c cn Ht Hc He Hn Hu.
  { exists c. split; [done|]. simpl. lia. }
  cbn [map packets length polls] in *.
  destruct (poll_data cn m (packets (map data ms)) Hm He) as (cn' & Hp & Hn' & He'); [lia|].
  rewrite (next_message_live random_range net cn cn' _ _ (Ok m) Hp I c Ht Hc).
  destruct (IH (having_read cn' (packets (map data ms)) c) cn') as (c' & Hpolls & Hc');
    [done|done|done|done|simpl; lia|].
  rewrite Hpolls. exists c'. split; [done|]. rewrite Hc'. simpl. lia.
Qed.

(** It connects and reads them. *)
Lemma polls_connects ms c server session :
  Forall wf ms → terminated c = false → conn c = None → 1 ≤ next_sequence c →
  next_sequence c + Z.of_nat (length ms) ≤ u64_max →
  let credentials := ResilientSoupConfig.credentials (config c) in
  let requested := default [] (ResilientSoupConfig.requested_session (config c)) in
  session_matches requested session → wf (login_request credentials requested (next_sequence c)) →
  server (LoginRequest.mk (SoupCredentials.username credentials) (SoupCredentials.password credentials)
    requested (next_sequence c))
  = packets (SoupPacket.LoginAccepted (LoginAccepted.mk session (next_sequence c)) :: map data ms) →
  let r := polls random_range (length ms) (Connected Flushed server :: net) c in
  r.2 = map Ok ms ∧ next_sequence r.1.1 = next_sequence c + Z.of_nat (length ms).
Proof.
  intros Hms Ht Hc Hn Hu credentials requested Hsess Hreq Hs. destruct Hms as [|m ms Hm Hms]; [simpl; split; [done|lia]|].
  cbn [map packets length polls] in *.
  destruct (connect_accepted c server session (next_sequence c) (packets (data m :: map data ms)) Hsess Hreq Hs)
    as (c1 & cn & Htry & _ & Hn1 & Hc1 & Ht1 & Hcn & He).
  destruct (poll_data cn m (packets (map data ms)) Hm He) as (cn' & Hp & Hn' & He'); [lia|].
  rewrite (next_message_opens random_range net cn cn' _ _ (Ok m) Hp I _ c c1 Ht Hc Htry).
  destruct (polls_read ms (having_read cn' (packets (map data ms)) c1) cn') as (c' & Hpolls & Hc');
    [done|simpl; congruence|done|done|done|simpl; lia|].
  rewrite Hpolls. split; [done|]. simpl. rewrite Hc'. simpl. lia.
Qed.
End catching_up.

(** ** Properties *)

(** C6: the reconnecting client and the servers together deliver each message
    once. Whatever server processes the client's attempts reach, each without a
    warm-up, with a store that holds the stream under its numbers, a source that
    continues it, a start number that is at most the next number of the store, and
    replays that never ask for a number the store has dropped, whatever else the
    tasks of these processes do in whatever order, wherever a connection is cut,
    and as often as connecting fails: the messages that the client's stream yields
    are those of consecutive numbers, from the configured first number on, none
    missing and none twice. *)
Theorem system_exactly_once random_range (msgs : Z → Message.t) cfg c net k :
  (∀ n, wf (msgs n)) → ResilientSoupClient.new cfg = Some c → Forall (behind msgs) net →
  let ms := oks (ResilientSoupClient.polls random_range k net c).2 in
  ∃ first,
    (ResilientSoupConfig.initial_sequence cfg ≠ 0 →
     first = ResilientSoupConfig.initial_sequence cfg)
    ∧ ms = map msgs (seqZ first (Z.of_nat (length ms))).
Proof.
  intros Hwf Hnew Hnet. apply new_polls_ok; [done|done|].
  eapply Forall_impl; [exact Hnet|]. intros a. by apply behind_honest.
Qed.

(** A list of moves in which subscriber [i] logs in with [req] is such a run. *)
Definition logs_in (i : nat) (req : LoginRequest.t) (a : action) : Prop :=
  match a with
  | SubLogin j (Some (Ok (SoupPacket.LoginRequest r))) _ => j = i → r = req
  | _ => True
  end.

Lemma move_for_run `{SeqStore.Contract St E, Authenticator A} (auth : A) cfg warmup lo i req acts
    (w w' : world St) :
  admissible_run auth cfg warmup lo true acts w → Forall (logs_in i req) acts →
  run_actions auth cfg warmup acts w = Some w' → rtc (move_for auth cfg warmup lo i req) w w'.
Proof.
  revert w. induction acts as [|a acts IH]; intros w Hadm Hl Hrun; simpl in Hrun.
  { simplify_eq. apply rtc_refl. }
  destruct Hadm as [Ha Hadm]. apply Forall_cons in Hl as [Hl Hls].
  destruct (step auth cfg warmup a w) as [w1|] eqn:Hs; [|done].
  apply rtc_l with w1; [|by apply IH]. exists a. split_and!; [done|done|].
  intros r io ->. by apply Hl.
Qed.

(** Five messages, and two connections to the process: one that is cut after the
    second message, and one that continues with the third. *)
Definition demo_process : process :=
  Build_process RingSeqStore.t _ _ _ AllowAllAuthenticator.t _ AllowAllAuthenticator.new
    ServerConfig.bind demo_store demo_source 1.

Lemma demo_process_ok : process_ok numbered demo_process.
Proof. split; [vm_compute; discriminate|exact demo_tracks|repeat split|vm_compute; reflexivity]. Qed.

Definition request_of (n : Z) : LoginRequest.t := LoginRequest.mk [b@"u"] [b@"p"] [] n.
#[local] Instance LoginRequest_eq_dec : EqDecision LoginRequest.t.
Proof. solve_decision. Defined.

Definition cut_off (n : Z) (out : list SoupPacket.t) (req : LoginRequest.t) : list packet_event :=
  if bool_decide (req = request_of n) then packets out ++ [None] else [None].

Lemma cut_off_behind n k acts w s out :
  admissible_run AllowAllAuthenticator.new ServerConfig.bind demo_warmup 1 true acts
    (init demo_store demo_source) →
  Forall (logs_in 0 (request_of n)) acts → demo_run acts = Some w → subs w !! 0%nat = Some s →
  take k (Subscriber.out s) = out → behind numbered (Connected Flushed (cut_off n out)).
Proof.
  intros Hadm Hl Hrun Hs Ho req. unfold cut_off. case_bool_decide as Hr.
  - subst req out. exists demo_process, w, 0%nat, s, k, [None].
    split_and!; [exact demo_process_ok|by apply (move_for_run _ _ _ _ _ _ acts)|done|done|by repeat constructor].
  - exists demo_process,
      (mk_world demo_store demo_source Starting [] [Subscriber.subscribe 0] [] Accepting),
      0%nat, (Subscriber.subscribe 0), 0%nat, [None].
    split_and!; [exact demo_process_ok| |done|done|by repeat constructor].
    apply (move_for_run _ _ _ _ _ _ [Accept]); [by split|by repeat constructor|done].
Qed.

Definition cut_actions : list action :=
  [IngestStart; IngestNext; IngestSend; IngestNext; IngestSend; Accept;
   SubLogin 0 (Some (Ok (SoupPacket.LoginRequest (request_of 1)))) true; SubAccept 0 true;
   SubWarmup 0 None; SubReplay 0 None; SubReplay 0 None; IngestNext; IngestSend; SubRecv 0 false true].
Definition resumed_actions : list action :=
  [IngestStart; IngestNext; IngestSend; IngestNext; IngestSend; IngestNext; IngestSend; Accept;
   SubLogin 0 (Some (Ok (SoupPacket.LoginRequest (request_of 3)))) true; SubAccept 0 true;
   SubWarmup 0 None; SubReplay 0 None; SubReplay 0 None; IngestNext; IngestSend; SubRecv 0 false true].
Definition cut_net : list attempt :=
  [ConnectFailed "ConnectionRefused";
   Connected Flushed (cut_off 1 (acceptance ServerConfig.bind 1 :: map data (map numbered [1; 2])));
   Connected Flushed (cut_off 3 (acceptance ServerConfig.bind 3 :: map data (map numbered [3; 4])))].

Lemma cut_net_behind : Forall (behind numbered) cut_net.
Proof.
  constructor; [done|]. constructor; [|constructor; [|constructor]].
  - destruct (run_output (demo_run cut_actions) 0
      (acceptance ServerConfig.bind 1 :: map data (map numbered [1; 2; 3]))) as (w & s & Hr & Hs & Ho);
      [vm_compute; reflexivity|].
    apply (cut_off_behind 1 3 cut_actions w s); [|by repeat constructor|done|done|by rewrite Ho].
    apply admissible_run_check. vm_compute. reflexivity.
  - destruct (run_output (demo_run resumed_actions) 0
      (acceptance ServerConfig.bind 3 :: map data (map numbered [3; 4]))) as (w & s & Hr & Hs & Ho);
      [vm_compute; reflexivity|].
    apply (cut_off_behind 3 3 resumed_actions w s); [|by repeat constructor|done|done|by rewrite Ho].
    apply admissible_run_check. vm_compute. reflexivity.
Qed.

Definition from_one : ResilientSoupConfig.t := ResilientSoupConfig.with_initial_sequence 1 demo_client.

Lemma system_exactly_once_witness :
  let c := ResilientSoupClient.mk from_one 0 0 None 1 None false in
  let ms := oks (ResilientSoupClient.polls demo_random 10 cut_net c).2 in
  ms = map numbered [1; 2; 3; 4]
  ∧ ∃ first, (1 ≠ 0 → first = 1) ∧ ms = map numbered (seqZ first (Z.of_nat (length ms))).
Proof.
  split; [vm_compute; reflexivity|].
  apply (system_exactly_once demo_random numbered from_one).
  - exact numbered_wf.
  - reflexivity.
  - exact cut_net_behind.
Defined.

(** C16: the system catches up.  From any state that a server process without a
    warm-up can be in, a client that has lost its connection, that the server
    admits, that names the server's session or none, and whose next number the
    store still has, gets everything: once it is connected, moves of the task of
    its connection alone, begun by a login that asks for the client's next number,
    lead to a point where the client's next polls, if its login gets the answer of
    that task, yield every message stored from that number on, in order, and leave
    it at the number after the last.  (What is answered to any other login is
    left open, so the client must be the one to ask for that number.) *)
Theorem system_catches_up random_range (msgs : Z → Message.t) p w i rx c :
  let n := ResilientSoupClient.next_sequence c in
  let high := SeqStore.high (store w) in
  let credentials := ResilientSoupConfig.credentials (ResilientSoupClient.config c) in
  let requested := default [] (ResilientSoupConfig.requested_session (ResilientSoupClient.config c)) in
  let req := LoginRequest.mk (SoupCredentials.username credentials) (SoupCredentials.password credentials)
               requested n in
  (∀ k, wf (msgs k)) → process_ok msgs p →
  rtc (move (pr_auth p) (pr_cfg p) no_warmup (pr_lo p) true) (init (pr_initial p) (pr_source p)) w →
  subs w !! i = Some (Subscriber.mk Subscriber.AwaitLogin rx []) →
  ResilientSoupClient.conn c = None → ResilientSoupClient.terminated c = false →
  session_matches requested (ServerConfig.session (pr_cfg p)) →
  check (pr_auth p) (SoupCredentials.username credentials) (SoupCredentials.password credentials) = Ok tt →
  wf (login_request credentials requested n) →
  1 ≤ n → pr_lo p ≤ n ≤ high + 1 → high - SeqStore.retention (store w) < n →
  ∃ acts w' s', Forall (own_move i req) acts
    ∧ run_actions (pr_auth p) (pr_cfg p) no_warmup acts w = Some w'
    ∧ store w' = store w ∧ subs w' !! i = Some s'
    ∧ ∀ net server, server req = packets (Subscriber.out s') →
        let r := ResilientSoupClient.polls random_range (Z.to_nat (high + 1 - n))
                   (Connected Flushed server :: net) c in
        r.2 = map Ok (map msgs (seqZ n (high + 1 - n)))
        ∧ ResilientSoupClient.next_sequence r.1.1 = high + 1.
Proof.
  intros n high credentials requested req Hwf [Hst Htr Hsrc Hroom] Hrtc Hi Hc Ht Hsess Hauth Hreq Hn Hlo Hret.
  assert (∀ (st : pr_store p) ws, no_warmup st = Ok ws → Forall wf ws) as Hwarm by (intros st ws [= <-]; done).
  pose proof (reachable_ok _ _ _ msgs _ _ true Hwf Hwarm Hst _ _ _ Htr ltac:(lia) Hsrc Hroom Hrtc) as Hw.
  assert (session_served (pr_cfg p) req) as Hserved.
  { destruct Hsess as [He|He]; [left|right]; simpl; [by rewrite He|done]. }
  destruct (catches_up (pr_auth p) (pr_cfg p) no_warmup msgs _ _ w i req Hwf Hw ltac:(by eexists) rx []
    ltac:(done) ltac:(done) Hi Hauth Hserved) as (acts & Hown & Ha); [right; done|].
  cbn [LoginRequest.requested_sequence req] in Ha. rewrite (proj2 (Z.eqb_neq n 0)) in Ha by lia.
  eexists acts, _, _. split; [exact Hown|]. split; [exact Ha|]. split; [done|].
  split; [apply sub_set; by eexists|]. intros net server Hserver. revert Hserver. cbn [Subscriber.out app]. fold high. intros Hserver.
  assert (Z.of_nat (length (map msgs (seqZ n (high + 1 - n)))) = high + 1 - n) as Hlen.
  { rewrite length_map, length_seqZ. lia. }
  pose proof (wo_room _ _ _ _ _ _ _ Hw). pose proof (SeqStore.limits_ok (St := pr_store p)) as Hlim.
  fold high in H.
  destruct (polls_connects random_range net (map msgs (seqZ n (high + 1 - n))) c
    server (ServerConfig.session (pr_cfg p))) as [Hr Hns]; try done; [|fold n; lia|].
  { apply Forall_map, Forall_true. intros; apply Hwf. }
  replace (Z.to_nat (high + 1 - n)) with (length (map msgs (seqZ n (high + 1 - n)))) by lia.
  split; [exact Hr|]. rewrite Hns. fold n. lia.
Qed.

(** A connection that answers one login only. *)
Definition answering (n : Z) (out : list SoupPacket.t) (req : LoginRequest.t) : list packet_event :=
  if bool_decide (req = request_of n) then packets out else [None].

Lemma system_catches_up_witness :
  ∃ w acts w' s', demo_run demo_start = Some w ∧ Forall (own_move 0 (request_of 1)) acts
    ∧ run_actions AllowAllAuthenticator.new ServerConfig.bind no_warmup acts w = Some w'
    ∧ subs w' !! 0%nat = Some s'
    ∧ (ResilientSoupClient.polls demo_random 2 [Connected Flushed (answering 1 (Subscriber.out s'))]
         (ResilientSoupClient.mk from_one 0 0 None 1 None false)).2 = map Ok (map numbered [1; 2]).
Proof.
  destruct demo_world as (w & Hrun & _ & Hsubs & Hhigh & Hret).
  destruct (system_catches_up demo_random numbered demo_process w 0 2
    (ResilientSoupClient.mk from_one 0 0 None 1 None false)) as (acts & w' & s' & Hown & Ha & _ & Hs & Hp).
  - exact numbered_wf.
  - exact demo_process_ok.
  - apply (admissible_run_rtc _ _ _ _ _ demo_start); [|exact Hrun].
    apply admissible_run_check. vm_compute. reflexivity.
  - exact (f_equal (lookup 0%nat) Hsubs).
  - reflexivity.
  - reflexivity.
  - left. reflexivity.
  - reflexivity.
  - vm_compute. repeat (split || constructor); discriminate.
  - simpl. lia.
  - change (SeqStore.high (store w)) with (RingSeqStore.max_seen (store w)). simpl in *. lia.
  - simpl in *. lia.
  - exists w, acts, w', s'. split; [exact Hrun|]. split; [exact Hown|]. split; [exact Ha|]. split; [exact Hs|].
    specialize (Hp [] (answering 1 (Subscriber.out s')) eq_refl). simpl in Hp, Hhigh. rewrite Hhigh in Hp. exact (proj1 Hp).
Defined.
