(* ===== verification/Compressed.v ===== *)
(** ITCH inside zstd inside SoupBinTCP ([crates/itch-compressed/src/lib.rs]).

    zstd is a parameter: [zstd_decode] gives the chunks that [copy_decode] hands
    to its writer and the kind of the error that ends them, if any;
    [zstd_encode] is [encode_all].  What is used of them is that decoding an
    encoded buffer gives the buffer back.  Connections and the network are
    modelled as in [SoupSession.v] and [Resilient.v]: a stream is the list of its
    coming events. *)

From S2P Require Import Prelude Primitives Enums Messages Codec CodecMessages MessageCodec.
From S2P Require Import Framing SoupCodec SoupSession Resilient.
Import Delivery.

Definition MAX_DECOMPRESSED_LEN : nat := 64 * 1024.
Definition DEFAULT_COMPRESSED_LOGIN_TIMEOUT : Z := 10000000000.

Module CompressedError.
Inductive t :=
| Soup (e : SoupError.t)
| Compression (reason : string)
| Protocol (e : ProtocolError).
End CompressedError.

(** [LimitedWriter]: a buffer that takes at most [cap] bytes. *)
Module LimitedWriter.
Definition write (cap : nat) (src : list Z) (inner : list Z) : list Z * result nat string :=
  let remaining := (cap - length inner)%nat in
  if (remaining =? 0)%nat then (inner, Err "WriteZero"%string)
  else
    let n := Nat.min (length src) remaining in
    (inner ++ take n src, Ok n).

(** [io::Write::write_all]: every successful write takes a byte, so the length
    of [src] is fuel enough. *)
Fixpoint write_loop (fuel : nat) (cap : nat) (src inner : list Z) : list Z * result unit string :=
  match src, fuel with
  | [], _ => (inner, Ok tt)
  | _, O => (inner, Ok tt)
  | _, S fuel =>
      match write cap src inner with
      | (inner, Err e) => (inner, Err e)
      | (inner, Ok n) => write_loop fuel cap (drop n src) inner
      end
  end.
Definition write_all (cap : nat) (src inner : list Z) : list Z * result unit string :=
  write_loop (length src) cap src inner.

(** Writing one chunk after the other. *)
Fixpoint write_chunks (cap : nat) (chunks : list (list Z)) (inner : list Z)
    : list Z * result unit string :=
  match chunks with
  | [] => (inner, Ok tt)
  | c :: chunks =>
      match write_all cap c inner with
      | (inner, Err e) => (inner, Err e)
      | (inner, Ok _) => write_chunks cap chunks inner
      end
  end.
End LimitedWriter.

Definition translate_zstd_io_error (kind : string) : CompressedError.t :=
  CompressedError.Compression
    (if String.eqb kind "InvalidData" then "zstd invalid data"
     else if String.eqb kind "UnexpectedEof" then "zstd truncated frame"
     else if String.eqb kind "WriteZero" then "zstd output exceeds MAX_DECOMPRESSED_LEN"
     else "zstd decompression failed").

(** The new contents of [dst], and the result. *)
Definition decompress_into (zstd_decode : list Z → list (list Z) * option string) (src : list Z)
    : list Z * result nat CompressedError.t :=
  let '(chunks, ending) := zstd_decode src in
  match LimitedWriter.write_chunks MAX_DECOMPRESSED_LEN chunks [] with
  | (dst, Err kind) => (dst, Err (translate_zstd_io_error kind))
  | (dst, Ok _) =>
      match ending with
      | Some kind => (dst, Err (translate_zstd_io_error kind))
      | None => (dst, Ok (length dst))
      end
  end.

Module CompressedSoupConnection.
Record t := mk {
  scratch : list Z;
  cursor : nat;
  session : list Z;
  expected_sequence : Z;
  session_ended : bool;
  (** the bytes written so far *)
  out : list Z;
}.
Definition next_expected_sequence (c : t) : Z := expected_sequence c.
(** [scratch] replaced and [cursor = 0]. *)
Definition set_scratch (bs : list Z) (c : t) : t :=
  mk bs 0 (session c) (expected_sequence c) (session_ended c) (out c).
Definition set_ended (c : t) : t :=
  mk (scratch c) (cursor c) (session c) (expected_sequence c) true (out c).

(** The loop of [handshake]. *)
Fixpoint await_reply (evs : list packet_event) (req_session : list Z) (timeout : Z) (out : list Z)
    : list packet_event * result t CompressedError.t :=
  match evs with
  | [] => ([], Err (CompressedError.Soup (SoupError.LoginTimeout timeout)))
  | next :: evs =>
      match next with
      | None => (evs, Err (CompressedError.Soup SoupError.PrematureClose))
      | Some (Err e) => (evs, Err (CompressedError.Soup e))
      | Some (Ok (SoupPacket.LoginAccepted (LoginAccepted.mk session sequence))) =>
          (evs,
           if negb (bool_decide (req_session = []))
              && negb (bool_decide (str_trim session = str_trim req_session))
           then Err (CompressedError.Soup (SoupError.SessionMismatch req_session session))
           else Ok (mk [] 0 session sequence false out))
      | Some (Ok (SoupPacket.LoginRejected reason)) =>
          (evs, Err (CompressedError.Soup (SoupError.LoginRejected reason)))
      | Some (Ok (SoupPacket.Debug _)) => await_reply evs req_session timeout out
      | Some (Ok other) =>
          (evs, Err (CompressedError.Soup (SoupError.UnexpectedHandshakePacket (SoupPacket.tag other))))
      end
  end.

(** The events left for the connection, the bytes written, and the result. *)
Definition handshake (evs : list packet_event) (io : send_io) (credentials : SoupCredentials.t)
    (requested_session : list Z) (requested_sequence timeout : Z)
    : list packet_event * list Z * result t CompressedError.t :=
  let req := SoupPacket.LoginRequest
    (LoginRequest.mk (SoupCredentials.username credentials) (SoupCredentials.password credentials)
       requested_session requested_sequence) in
  match framed_send req io [] with
  | (out, None) => (evs, out, Err (CompressedError.Soup (SoupError.LoginTimeout timeout)))
  | (out, Some (Err e)) => (evs, out, Err (CompressedError.Soup e))
  | (out, Some (Ok _)) =>
      let '(evs, r) := await_reply evs requested_session timeout out in (evs, out, r)
  end.

(** As [SoupConnection.logout], with the errors wrapped. *)
Definition logout (io : send_io) (close : result unit string) (c : t)
    : list Z * option (result unit CompressedError.t) :=
  match framed_send SoupPacket.LogoutRequest io (out c) with
  | (out, Some (Ok _)) =>
      (out, Some (match close with
                  | Ok _ => Ok tt
                  | Err kind => Err (CompressedError.Soup (SoupError.Io kind))
                  end))
  | (out, Some (Err e)) => (out, Some (Err (CompressedError.Soup e)))
  | (out, None) => (out, None)
  end.

Definition drain_one_message : mut t (option Message.t) CompressedError.t := λ c,
  if (length (scratch c) <=? cursor c)%nat then (c, Ok None)
  else
    match Message_decode (drop (cursor c) (scratch c)) with
    | Ok msg =>
        (mk (scratch c) (cursor c + Message.encoded_len msg) (session c)
            (u64_saturating_add (expected_sequence c) 1) (session_ended c) (out c),
         Ok (Some msg))
    | Err err => (set_scratch [] c, Err (CompressedError.Protocol err))
    end.

Section stream.
Context (zstd_decode : list Z → list (list Z) * option string).

Fixpoint poll_loop (evs : list packet_event) (c : t)
    : t * list packet_event * Poll (option (result Message.t CompressedError.t)) :=
  match drain_one_message c with
  | (c, Ok (Some msg)) => (c, evs, Ready (Some (Ok msg)))
  | (c, Err err) => (c, evs, Ready (Some (Err err)))
  | (c, Ok None) =>
      match evs with
      | [] => (c, [], Pending)
      | None :: evs => (c, evs, Ready None)
      | Some (Err e) :: evs => (c, evs, Ready (Some (Err (CompressedError.Soup e))))
      | Some (Ok packet) :: evs =>
          match packet with
          | SoupPacket.SequencedData payload =>
              match decompress_into zstd_decode payload with
              | (dst, Ok _) => poll_loop evs (set_scratch dst c)
              | (_, Err err) => (set_scratch [] c, evs, Ready (Some (Err err)))
              end
          | SoupPacket.EndOfSession =>
              (set_ended c, evs, Ready (Some (Err (CompressedError.Soup SoupError.SessionEnded))))
          | SoupPacket.ServerHeartbeat | SoupPacket.Debug _ => poll_loop evs c
          | SoupPacket.LoginAccepted _ | SoupPacket.LoginRejected _ =>
              (c, evs, Ready (Some (Err (CompressedError.Soup
                 (SoupError.UnexpectedHandshakePacket (SoupPacket.tag packet))))))
          | SoupPacket.LoginRequest _ | SoupPacket.UnsequencedData _
          | SoupPacket.ClientHeartbeat | SoupPacket.LogoutRequest =>
              (c, evs, Ready (Some (Err (CompressedError.Soup (SoupError.SoupFraming
                 "client-direction packet on a server stream")))))
          end
      end
  end.

Definition poll_next (evs : list packet_event) (c : t)
    : t * list packet_event * Poll (option (result Message.t CompressedError.t)) :=
  if session_ended c then (c, evs, Ready None) else poll_loop evs c.
End stream.
End CompressedSoupConnection.

(** ** Whole payloads *)

(** The loop of [compress_messages]; [tmp] is reused from message to message. *)
Fixpoint concat_messages (ms : list Message.t) (tmp concatenated : list Z)
    : result (list Z) CompressedError.t :=
  match ms with
  | [] => Ok concatenated
  | m :: ms =>
      let n := Message.encoded_len m in
      let tmp := take n tmp ++ replicate (n - length tmp) 0 in
      match Message_encode m tmp with
      | (_, Err e) => Err (CompressedError.Protocol e)
      | (tmp, Ok _) => concat_messages ms tmp (concatenated ++ tmp)
      end
  end.

Definition compress_messages (zstd_encode : list Z → Z → result (list Z) string)
    (ms : list Message.t) (level : Z) : result (list Z) CompressedError.t :=
  let? concatenated := concat_messages ms [] [] in
  match zstd_encode concatenated level with
  | Ok compressed => Ok compressed
  | Err _ => Err (CompressedError.Compression "zstd compression failed")
  end.

(** [while off < scratch.len()], on the rest of the buffer; a message has at least
    a byte, so the length of the buffer is fuel enough. *)
Fixpoint decode_all (fuel : nat) (buf : list Z) : result (list Message.t) CompressedError.t :=
  match buf, fuel with
  | [], _ => Ok []
  | _, O => Ok []
  | _, S fuel =>
      match Message_decode buf with
      | Err e => Err (CompressedError.Protocol e)
      | Ok msg =>
          let? rest := decode_all fuel (drop (Message.encoded_len msg) buf) in Ok (msg :: rest)
      end
  end.

Definition decompress_messages (zstd_decode : list Z → list (list Z) * option string)
    (compressed : list Z) : result (list Message.t) CompressedError.t :=
  match decompress_into zstd_decode compressed with
  | (_, Err e) => Err e
  | (scratch, Ok _) => decode_all (length scratch) scratch
  end.

(** ** The bound on the output *)

Lemma write_loop_spec fuel cap src inner :
  (length src ≤ fuel)%nat → (length inner ≤ cap)%nat →
  LimitedWriter.write_loop fuel cap src inner
  = if (length inner + length src <=? cap)%nat then (inner ++ src, Ok tt)
    else (take cap (inner ++ src), Err "WriteZero"%string).
Proof.
  revert src inner. induction fuel as [|fuel IH]; intros src inner Hf Hc; destruct src as [|x src];
    try (simpl in Hf; lia);
    try (simpl; by rewrite app_nil_r, Nat.add_0_r, (proj2 (Nat.leb_le _ _) Hc)).
  cbn [LimitedWriter.write_loop]. unfold LimitedWriter.write.
  destruct (Nat.eqb_spec (cap - length inner) 0) as [He|He].
  { rewrite (proj2 (Nat.leb_gt _ _)) by (simpl; lia). rewrite take_app_le by lia.
    by rewrite take_ge by lia. }
  set (n := Nat.min _ _).
  assert (1 ≤ n)%nat as Hn by (unfold n; cbn [length]; lia).
  assert (n ≤ length (x :: src))%nat as Hn' by (unfold n; lia).
  rewrite IH; rewrite ?length_drop, ?length_app, ?length_take; [|lia..].
  rewrite <-app_assoc, take_drop. rewrite Nat.min_l by done.
  by replace (length inner + n + (length (x :: src) - n))%nat
    with (length inner + length (x :: src))%nat by lia.
Qed.

Lemma write_chunks_spec cap chunks inner :
  (length inner ≤ cap)%nat →
  LimitedWriter.write_chunks cap chunks inner
  = if (length inner + length (concat chunks) <=? cap)%nat then (inner ++ concat chunks, Ok tt)
    else (take cap (inner ++ concat chunks), Err "WriteZero"%string).
Proof.
  revert inner. induction chunks as [|c chunks IH]; intros inner Hc; cbn [LimitedWriter.write_chunks].
  { simpl. by rewrite app_nil_r, (proj2 (Nat.leb_le _ _)) by lia. }
  unfold LimitedWriter.write_all. rewrite write_loop_spec by done. cbn [concat].
  rewrite length_app. destruct (Nat.leb_spec (length inner + length c) cap).
  - rewrite IH by (rewrite length_app; lia). by rewrite length_app, <-app_assoc, Nat.add_assoc.
  - rewrite (proj2 (Nat.leb_gt _ _)) by lia. rewrite app_assoc, (take_app_le (inner ++ c)); [done|].
    rewrite length_app. lia.
Qed.

(** A payload that decompresses to more than the bound is refused, and nothing
    else is: the bound itself is allowed. *)
Lemma decompress_into_spec zstd_decode src chunks ending :
  zstd_decode src = (chunks, ending) →
  decompress_into zstd_decode src
  = if (length (concat chunks) <=? MAX_DECOMPRESSED_LEN)%nat
    then (concat chunks,
          match ending with
          | Some kind => Err (translate_zstd_io_error kind)
          | None => Ok (length (concat chunks))
          end)
    else (take MAX_DECOMPRESSED_LEN (concat chunks),
          Err (CompressedError.Compression "zstd output exceeds MAX_DECOMPRESSED_LEN")).
Proof.
  intros Hz. unfold decompress_into. rewrite Hz, write_chunks_spec by apply Nat.le_0_l.
  cbn [length app]. rewrite Nat.add_0_l. destruct (_ <=? _)%nat; [by destruct ending|done].
Qed.

(** ** What a payload holds *)

(** The messages of a buffer, up to the first that is malformed. *)
Fixpoint items_fuel (fuel : nat) (buf : list Z) : list (result Message.t CompressedError.t) :=
  match buf, fuel with
  | [], _ | _, O => []
  | _, S fuel =>
      match Message_decode buf with
      | Err e => [Err (CompressedError.Protocol e)]
      | Ok msg => Ok msg :: items_fuel fuel (drop (Message.encoded_len msg) buf)
      end
  end.
Definition buffer_items (buf : list Z) : list (result Message.t CompressedError.t) :=
  items_fuel (length buf) buf.

Lemma length_drop_message (fuel : nat) (msg : Message.t) (buf : list Z) :
  (length buf ≤ S fuel)%nat → (length (drop (Message.encoded_len msg) buf) ≤ fuel)%nat.
Proof. pose proof (encoded_len_bounds msg). rewrite length_drop. lia. Qed.

Lemma items_fuel_enough fuel fuel' buf :
  (length buf ≤ fuel)%nat → (length buf ≤ fuel')%nat → items_fuel fuel buf = items_fuel fuel' buf.
Proof.
  revert fuel' buf. induction fuel as [|fuel IH]; intros [|fuel'] [|x buf] Hf Hf'; try done;
    try (simpl in *; lia).
  cbn [items_fuel]. destruct (Message_decode (x :: buf)); [|done]. f_equal.
  apply IH; by apply length_drop_message.
Qed.

Lemma buffer_items_unfold buf :
  buf ≠ [] →
  buffer_items buf
  = match Message_decode buf with
    | Err e => [Err (CompressedError.Protocol e)]
    | Ok msg => Ok msg :: buffer_items (drop (Message.encoded_len msg) buf)
    end.
Proof.
  intros Hne. unfold buffer_items. destruct buf as [|x buf]; [done|]. cbn [length items_fuel].
  destruct (Message_decode (x :: buf)) as [msg|]; [|done]. f_equal.
  apply items_fuel_enough; [by apply length_drop_message|done].
Qed.

Lemma buffer_items_wire ms : Forall wf ms → buffer_items (concat (map message_wire ms)) = map Ok ms.
Proof.
  induction 1 as [|m ms Hm Hms IH]; [done|]. cbn [map concat].
  rewrite buffer_items_unfold.
  - rewrite Message_decode_wire by done. rewrite <-(length_message_wire m Hm).
    by rewrite drop_app_length, IH.
  - done.
Qed.

(** All messages, or the first error. *)
Fixpoint collect (rs : list (result Message.t CompressedError.t))
    : result (list Message.t) CompressedError.t :=
  match rs with
  | [] => Ok []
  | Err e :: _ => Err e
  | Ok m :: rs => let? ms := collect rs in Ok (m :: ms)
  end.
Lemma collect_ok ms : collect (map Ok ms) = Ok ms.
Proof. induction ms as [|m ms IH]; [done|]. cbn [map collect]. by rewrite IH. Qed.

Lemma decode_all_items fuel buf : decode_all fuel buf = collect (items_fuel fuel buf).
Proof.
  revert buf. induction fuel as [|fuel IH]; intros [|x buf]; try done.
  cbn [decode_all items_fuel]. destruct (Message_decode (x :: buf)); [|done].
  cbn [collect]. by rewrite IH.
Qed.

Lemma concat_messages_wire ms tmp acc :
  Forall wf ms → concat_messages ms tmp acc = Ok (acc ++ concat (map message_wire ms)).
Proof.
  intros Hms. revert tmp acc. induction Hms as [|m ms Hm Hms IH]; intros tmp acc.
  { by rewrite app_nil_r. }
  cbn [concat_messages]. set (buf := take _ tmp ++ _).
  assert (length buf = Message.encoded_len m) as Hl.
  { unfold buf. rewrite length_app, length_take, length_replicate. lia. }
  rewrite Message_encode_wire by (done || lia). rewrite drop_ge, app_nil_r by lia.
  by rewrite IH, <-app_assoc.
Qed.

(** ** Delivery *)

Module CompressedDelivery.
Import CompressedSoupConnection.

Section delivery.
Context (zstd_decode : list Z → list (list Z) * option string).

(** What the stream makes of one packet. *)
Definition packet_items (p : SoupPacket.t) : list (result Message.t CompressedError.t) :=
  match p with
  | SoupPacket.SequencedData payload =>
      match decompress_into zstd_decode payload with
      | (dst, Ok _) => buffer_items dst
      | (_, Err e) => [Err e]
      end
  | _ =>
      match packet_item p with
      | Some (Err e) => [Err (CompressedError.Soup e)]
      | _ => []
      end
  end.

Fixpoint poll_all (fuel : nat) (evs : list packet_event) (c : t)
    : t * list packet_event * list (result Message.t CompressedError.t) :=
  match fuel with
  | O => (c, evs, [])
  | S fuel =>
      match poll_next zstd_decode evs c with
      | (c, evs, Ready (Some r)) =>
          let '(c, evs, rs) := poll_all fuel evs c in (c, evs, r :: rs)
      | (c, evs, _) => (c, evs, [])
      end
  end.

(** What is still to come: the rest of the scratch buffer, then the packets. *)
Definition todo (ps : list SoupPacket.t) (c : t) : list (result Message.t CompressedError.t) :=
  if session_ended c then []
  else buffer_items (drop (cursor c) (scratch c)) ++ concat (map packet_items (upto_end ps)).

Lemma drain_items c :
  session_ended c = false →
  match buffer_items (drop (cursor c) (scratch c)) with
  | [] => drain_one_message c = (c, Ok None)
  | Ok m :: rs =>
      ∃ c', drain_one_message c = (c', Ok (Some m))
        ∧ buffer_items (drop (cursor c') (scratch c')) = rs
        ∧ expected_sequence c' = u64_saturating_add (expected_sequence c) 1
        ∧ session_ended c' = false
  | Err e :: rs => drain_one_message c = (set_scratch [] c, Err e) ∧ rs = []
  end.
Proof.
  intros Hend. unfold drain_one_message.
  destruct (Nat.leb_spec (length (scratch c)) (cursor c)) as [Hl|Hl]; [by rewrite drop_ge|].
  rewrite buffer_items_unfold.
  2:{ intros He%(f_equal length). rewrite length_drop in He. simpl in He. lia. }
  destruct (Message_decode _) as [m|e]; [|done].
  eexists. split_and!; [done|..]; [|done|done]. by rewrite drop_drop.
Qed.

Definition will_end (ps : list SoupPacket.t) (c : t) : bool :=
  session_ended c || bool_decide (SoupPacket.EndOfSession ∈ ps).

Lemma will_end_cons p ps c :
  p ≠ SoupPacket.EndOfSession → will_end (p :: ps) c = will_end ps c.
Proof.
  intros Hp. unfold will_end. f_equal. apply bool_decide_ext. rewrite elem_of_cons.
  split; [|by right]. intros [?|?]; [congruence|done].
Qed.

(** One poll, as a step from [todo ps c] to the rest of it. *)
Definition poll_step (ps : list SoupPacket.t) (c : t)
    (x : t * list packet_event * Poll (option (result Message.t CompressedError.t))) : Prop :=
  match todo ps c with
  | [] => (x.2 = Pending ∨ x.2 = Ready None)
      ∧ expected_sequence x.1.1 = expected_sequence c ∧ session_ended x.1.1 = will_end ps c
  | r :: rs => ∃ c' ps', x = (c', packets ps', Ready (Some r)) ∧ todo ps' c' = rs
      ∧ expected_sequence c'
        = (if is_ok r then u64_saturating_add (expected_sequence c) 1 else expected_sequence c)
      ∧ will_end ps' c' = will_end ps c
  end.

(** A message still in the buffer is the next item. *)
Lemma poll_loop_buffered ps c :
  session_ended c = false → buffer_items (drop (cursor c) (scratch c)) ≠ [] →
  poll_step ps c (poll_loop zstd_decode (packets ps) c).
Proof.
  intros Hend Hne. pose proof (drain_items c Hend) as Hd. unfold poll_step, todo. rewrite Hend.
  destruct (buffer_items (drop (cursor c) (scratch c))) as [|[m|e] rs] eqn:Hbuf; [done|..].
  - destruct Hd as (c' & Hd & Hrs & He & Hend'). exists c', ps. rewrite Hend', Hrs. split_and!; try done.
    + by destruct ps; cbn [packets map poll_loop]; rewrite Hd.
    + unfold will_end. by rewrite Hend', Hend.
  - destruct Hd as [Hd ->]. exists (set_scratch [] c), ps. split_and!; try done.
    + by destruct ps; cbn [packets map poll_loop]; rewrite Hd.
    + simpl. by rewrite Hend.
Qed.

(** A packet that gives an item itself, on a drained buffer. *)
Lemma poll_step_item p ps c c' e :
  session_ended c = false → buffer_items (drop (cursor c) (scratch c)) = [] →
  packet_items p = [Err e] →
  buffer_items (drop (cursor c') (scratch c')) = [] →
  session_ended c' = bool_decide (p = SoupPacket.EndOfSession) →
  expected_sequence c' = expected_sequence c →
  poll_step (p :: ps) c (c', packets ps, Ready (Some (Err e))).
Proof.
  intros Hend Hbuf Hitems Hbuf' Hend' He. unfold poll_step, todo. rewrite Hend, Hbuf.
  destruct (decide (p = SoupPacket.EndOfSession)) as [->|Hp].
  - rewrite bool_decide_true in Hend' by done. injection Hitems as <-.
    exists c', ps. rewrite Hend'. split_and!; try done. unfold will_end. rewrite Hend', Hend. symmetry.
    apply bool_decide_true. by left.
  - rewrite bool_decide_false in Hend' by done. rewrite upto_end_cons by done.
    cbn [map concat]. rewrite Hitems. exists c', ps. rewrite Hend', Hbuf'. split_and!; try done.
    rewrite will_end_cons by done. unfold will_end. by rewrite Hend', Hend.
Qed.

(** A packet that only fills the buffer, on a drained one. *)
Lemma poll_step_fill p ps c bs x :
  session_ended c = false → buffer_items (drop (cursor c) (scratch c)) = [] →
  p ≠ SoupPacket.EndOfSession → packet_items p = buffer_items bs →
  poll_step ps (set_scratch bs c) x → poll_step (p :: ps) c x.
Proof.
  intros Hend Hbuf Hp Hitems. unfold poll_step, todo. rewrite will_end_cons, upto_end_cons by done.
  cbn [map concat session_ended cursor scratch set_scratch expected_sequence].
  by rewrite Hend, Hbuf, Hitems.
Qed.

Lemma poll_step_skip p ps c x :
  session_ended c = false → buffer_items (drop (cursor c) (scratch c)) = [] →
  p ≠ SoupPacket.EndOfSession → packet_items p = [] →
  poll_step ps c x → poll_step (p :: ps) c x.
Proof.
  intros Hend Hbuf Hp Hitems. unfold poll_step, todo. rewrite will_end_cons, upto_end_cons by done.
  cbn [map concat]. by rewrite Hend, Hbuf, Hitems.
Qed.

Lemma poll_loop_step ps c :
  session_ended c = false → poll_step ps c (poll_loop zstd_decode (packets ps) c).
Proof.
  revert c. induction ps as [|p ps IH]; intros c Hend;
    (destruct (buffer_items (drop (cursor c) (scratch c))) eqn:Hbuf;
     [|by apply poll_loop_buffered; rewrite ?Hbuf]);
    pose proof (drain_items c Hend) as Hd; rewrite Hbuf in Hd;
    cbn [packets map poll_loop]; rewrite Hd.
  { unfold poll_step, todo, will_end. rewrite Hend, Hbuf. simpl. auto. }
  fold (packets ps).
  destruct p; try (apply poll_step_item; done); try (apply poll_step_skip; [done..|by apply IH]).
  destruct (decompress_into zstd_decode p) as [dst [n|e]] eqn:Hz.
  - apply (poll_step_fill _ _ _ dst); [done..| |by apply IH]. simpl. by rewrite Hz.
  - apply poll_step_item; try done. simpl. by rewrite Hz.
Qed.

Lemma poll_next_step ps c : poll_step ps c (poll_next zstd_decode (packets ps) c).
Proof.
  unfold poll_next. destruct (session_ended c) eqn:Hend; [|by apply poll_loop_step].
  unfold poll_step, todo, will_end. rewrite Hend. simpl. auto.
Qed.

Lemma poll_all_todo fuel ps c :
  (length (todo ps c) < fuel)%nat →
  0 ≤ expected_sequence c → expected_sequence c + Z.of_nat (length (todo ps c)) ≤ u64_max →
  ∃ c' rest, poll_all fuel (packets ps) c = (c', rest, todo ps c)
    ∧ expected_sequence c' = expected_sequence c + ok_count (todo ps c)
    ∧ session_ended c' = will_end ps c.
Proof.
  revert ps c. induction fuel as [|fuel IH]; intros ps c Hf Hpos Hmax; [lia|].
  pose proof (poll_next_step ps c) as Hs. unfold poll_step in Hs. cbn [poll_all].
  destruct (todo ps c) as [|r rs] eqn:Ht.
  - destruct (poll_next zstd_decode (packets ps) c) as [[c' evs] p]. simpl in Hs.
    destruct Hs as ([-> | ->] & He & Hw); exists c', evs; unfold ok_count; simpl; split_and!; done || lia.
  - destruct Hs as (c1 & ps1 & -> & Hrs & He & Hw). cbn [length] in *.
    assert (expected_sequence c1 = expected_sequence c + (if is_ok r then 1 else 0)) as He'.
    { rewrite He. destruct (is_ok r); [rewrite u64_saturating_add_small|]; lia. }
    destruct (IH ps1 c1) as (c' & rest & -> & He2 & Hw2);
      [rewrite Hrs; lia|destruct (is_ok r); lia|rewrite Hrs; destruct (is_ok r); lia|].
    exists c', rest. rewrite ok_count_cons, <-Hrs, Hw2. split_and!; [done|lia|done].
Qed.

(** C32: a compressed session delivers exactly what its packets hold: every data
    packet up to the end of the session gives the messages of its decompressed
    payload in order, up to the first malformed one, which gives its error and
    drops the rest of that payload only; a payload that zstd refuses, or that
    exceeds the bound, gives one error.  Heartbeats and debug packets give
    nothing, the end of the session is reported once, after which the stream is
    over.  The expected sequence number advances by the number of messages. *)
Theorem compressed_session_delivers ps c :
  session_ended c = false → (length (scratch c) ≤ cursor c)%nat → 0 ≤ expected_sequence c →
  let items := concat (map packet_items (upto_end ps)) in
  expected_sequence c + Z.of_nat (length items) ≤ u64_max →
  ∃ c' rest, poll_all (S (length items)) (packets ps) c = (c', rest, items)
    ∧ next_expected_sequence c' = next_expected_sequence c + ok_count items
    ∧ (SoupPacket.EndOfSession ∈ ps → ∀ evs, poll_next zstd_decode evs c' = (c', evs, Ready None)).
Proof.
  intros Hend Hcur Hpos items Hmax.
  assert (todo ps c = items) as Ht by (unfold todo; by rewrite Hend, drop_ge).
  rewrite <-Ht in *. destruct (poll_all_todo (S (length (todo ps c))) ps c) as (c' & rest & Hall & He & Hw);
    [lia|done|done|].
  exists c', rest. split_and!; [done|done|]. intros Hin evs. unfold poll_next.
  by rewrite Hw; unfold will_end; rewrite (bool_decide_true _ Hin), orb_true_r.
Qed.
End delivery.
End CompressedDelivery.
Import CompressedDelivery.

(** A codec that stores its input, behind a one-byte header. *)
Definition stored_decode (src : list Z) : list (list Z) * option string :=
  match src with
  | 1 :: bs => ([bs], None)
  | _ => ([], Some "InvalidData"%string)
  end.
Definition stored_encode (bs : list Z) (level : Z) : result (list Z) string := Ok (1 :: bs).
Definition a_compressed_connection : CompressedSoupConnection.t :=
  CompressedSoupConnection.mk [] 0 [b@"S"] 7 false [].

(** Two messages and a malformed one in the first packet, no zstd frame in the
    second, then a message. *)
Definition some_compressed_packets : list SoupPacket.t :=
  [SoupPacket.SequencedData (1 :: message_wire (numbered 1) ++ message_wire (numbered 2) ++ [b@"?"; 0]);
   SoupPacket.ServerHeartbeat; SoupPacket.SequencedData [9];
   SoupPacket.SequencedData (1 :: message_wire (numbered 3)); SoupPacket.EndOfSession].

Lemma compressed_session_delivers_witness :
  ∃ c' rest,
    poll_all stored_decode 7 (packets some_compressed_packets) a_compressed_connection
    = (c', rest, [Ok (numbered 1); Ok (numbered 2);
                  Err (CompressedError.Protocol (UnknownMessageType (b@"?")));
                  Err (CompressedError.Compression "zstd invalid data"); Ok (numbered 3);
                  Err (CompressedError.Soup SoupError.SessionEnded)])
    ∧ CompressedSoupConnection.next_expected_sequence c' = 10
    ∧ (SoupPacket.EndOfSession ∈ some_compressed_packets →
       ∀ evs, CompressedSoupConnection.poll_next stored_decode evs c' = (c', evs, Ready None)).
Proof.
  apply (compressed_session_delivers stored_decode some_compressed_packets a_compressed_connection);
    [reflexivity|apply Nat.le_refl|vm_compute; discriminate|vm_compute; discriminate].
Defined.

(** ** Round trip *)

Section roundtrip.
Context (zstd_decode : list Z → list (list Z) * option string).
Context (zstd_encode : list Z → Z → result (list Z) string).

(** Decoding what was encoded gives it back, in some chunks. *)
Definition zstd_inverse : Prop :=
  ∀ bs level z, zstd_encode bs level = Ok z →
  ∃ chunks, zstd_decode z = (chunks, None) ∧ concat chunks = bs.
Hypothesis Hzstd : zstd_inverse.

Definition total_len (ms : list Message.t) : nat := sum_list_with Message.encoded_len ms.

Lemma length_wires ms : Forall wf ms → length (concat (map message_wire ms)) = total_len ms.
Proof.
  induction 1 as [|m ms Hm Hms IH]; [done|]. cbn [map concat total_len sum_list_with].
  rewrite length_app, length_message_wire, IH by done. done.
Qed.

Lemma compress_decompress_into ms level z :
  Forall wf ms → compress_messages zstd_encode ms level = Ok z →
  let wires := concat (map message_wire ms) in
  decompress_into zstd_decode z
  = if (total_len ms <=? MAX_DECOMPRESSED_LEN)%nat then (wires, Ok (length wires))
    else (take MAX_DECOMPRESSED_LEN wires,
          Err (CompressedError.Compression "zstd output exceeds MAX_DECOMPRESSED_LEN")).
Proof.
  intros Hms Hc wires. unfold compress_messages in Hc. rewrite concat_messages_wire in Hc by done.
  cbn [app] in Hc. simpl in Hc. destruct (zstd_encode _ level) as [z'|] eqn:Hz; [|done]. simplify_eq/=.
  destruct (Hzstd _ _ _ Hz) as (chunks & Hd & Hcat).
  rewrite (decompress_into_spec _ _ _ _ Hd), Hcat. by rewrite <-length_wires.
Qed.

(** C33: what [compress_messages] makes of any well-formed messages,
    [decompress_messages] turns back into them, when they take at most the 64
    KiB that a receiver allows; above that, and only above that, it is refused
    with the error that says so.  Nothing is used of zstd but that decoding
    inverts encoding. *)
Theorem compress_roundtrip ms level z :
  Forall wf ms → compress_messages zstd_encode ms level = Ok z →
  decompress_messages zstd_decode z
  = if (total_len ms <=? MAX_DECOMPRESSED_LEN)%nat then Ok ms
    else Err (CompressedError.Compression "zstd output exceeds MAX_DECOMPRESSED_LEN").
Proof.
  intros Hms Hc. unfold decompress_messages. rewrite (compress_decompress_into ms level z Hms Hc).
  destruct (_ <=? _)%nat; [|done]. rewrite decode_all_items. fold (buffer_items (concat (map message_wire ms))).
  by rewrite buffer_items_wire, collect_ok.
Qed.

(** A packet of compressed messages gives those messages. *)
Lemma packet_items_compressed ms level z :
  Forall wf ms → (total_len ms ≤ MAX_DECOMPRESSED_LEN)%nat →
  compress_messages zstd_encode ms level = Ok z →
  packet_items zstd_decode (SoupPacket.SequencedData z) = map Ok ms.
Proof.
  intros Hms Hlen Hc. simpl. rewrite (compress_decompress_into ms level z Hms Hc).
  rewrite (proj2 (Nat.leb_le _ _)) by done. by apply buffer_items_wire.
Qed.
End roundtrip.

Lemma stored_inverse : zstd_inverse stored_decode stored_encode.
Proof. intros bs level z [= <-]. exists [bs]. split; [done|]. simpl. by rewrite app_nil_r. Qed.

Lemma compress_roundtrip_witness :
  (let? z := compress_messages stored_encode [numbered 1; numbered 2] 3 in
   decompress_messages stored_decode z) = Ok [numbered 1; numbered 2].
Proof.
  exact (compress_roundtrip stored_decode stored_encode stored_inverse [numbered 1; numbered 2] 3
    (1 :: message_wire (numbered 1) ++ message_wire (numbered 2))
    (Forall_cons_2 _ _ _ (numbered_wf 1) (Forall_cons_2 _ _ _ (numbered_wf 2) (Forall_nil_2 _)))
    eq_refl).
Defined.
