(* ===== verification/CompressedResilient.v ===== *)
(** The reconnecting client of compressed sessions
    ([crates/itch-compressed/src/lib.rs], [ResilientCompressedSoupClient]).

    The network is modelled as in [Resilient.v].  The client numbers messages,
    while SoupBinTCP numbers data packets: [compressed_resume] says what that
    does to a session that is resumed. *)

From S2P Require Import Prelude Primitives Enums Messages Codec CodecMessages MessageCodec.
From S2P Require Import Framing SoupCodec SoupSession Resilient Compressed.
Import Delivery CompressedDelivery.

Module ResilientCompressedSoupClient.
Record t := mk {
  config : ResilientSoupConfig.t;
  next_addr : nat;
  attempt_ : Z;
  last_session : option (list Z);
  next_sequence : Z;
  conn : option (CompressedSoupConnection.t * list packet_event);
  terminated : bool;
}.

(** [assert!(!config.addrs.is_empty())] panics: [None]. *)
Definition new (config : ResilientSoupConfig.t) : option t :=
  match ResilientSoupConfig.addrs config with
  | [] => None
  | _ => Some (mk config 0 0 None (ResilientSoupConfig.initial_sequence config) None false)
  end.
Definition next_expected_sequence (c : t) : Z := next_sequence c.

Definition set_conn (x : option (CompressedSoupConnection.t * list packet_event)) (c : t) : t :=
  mk (config c) (next_addr c) (attempt_ c) (last_session c) (next_sequence c) x (terminated c).
Definition set_next_sequence (n : Z) (c : t) : t :=
  mk (config c) (next_addr c) (attempt_ c) (last_session c) n (conn c) (terminated c).
Definition set_attempt (n : Z) (c : t) : t :=
  mk (config c) (next_addr c) n (last_session c) (next_sequence c) (conn c) (terminated c).
Definition terminate (c : t) : t :=
  mk (config c) (next_addr c) (attempt_ c) (last_session c) (next_sequence c) (conn c) true.

(** Any rejection is fatal here. *)
Definition is_fatal (err : SoupError.t) : bool :=
  match err with
  | SoupError.LoginRejected _ | SoupError.SessionMismatch _ _ => true
  | _ => false
  end.
(** [soup.is_some_and(Self::is_fatal)]. *)
Definition fatal (err : CompressedError.t) : bool :=
  match err with CompressedError.Soup e => is_fatal e | _ => false end.

Definition try_connect_once (a : attempt) (c : t)
    : t * result (CompressedSoupConnection.t * list packet_event) CompressedError.t :=
  let cfg := config c in
  let c := mk cfg ((next_addr c + 1) mod length (ResilientSoupConfig.addrs cfg)) (attempt_ c)
              (last_session c) (next_sequence c) (conn c) (terminated c) in
  match a with
  | ConnectFailed kind => (c, Err (CompressedError.Soup (SoupError.Io kind)))
  | Connected io server =>
      let req_session := default [] (ResilientSoupConfig.requested_session cfg) in
      let credentials := ResilientSoupConfig.credentials cfg in
      let evs := server (LoginRequest.mk (SoupCredentials.username credentials)
        (SoupCredentials.password credentials) req_session (next_sequence c)) in
      match CompressedSoupConnection.handshake evs io credentials req_session (next_sequence c)
              (ResilientSoupConfig.login_timeout cfg) with
      | (evs, _, Ok conn_) =>
          (mk cfg (next_addr c) 0 (Some (CompressedSoupConnection.session conn_))
              (CompressedSoupConnection.next_expected_sequence conn_) (conn c) (terminated c),
           Ok (conn_, evs))
      | (_, _, Err e) => (c, Err e)
      end
  end.

(** The middle of the range instead of a random delay; in nanoseconds. *)
Definition backoff_delay (c : t) : Z :=
  let cfg := config c in
  let min_ms := Z.min (Z.max (ResilientSoupClient.millis (ResilientSoupConfig.backoff_min cfg)) 1)
                  u64_max in
  let max_ms := Z.max (Z.min (ResilientSoupClient.millis (ResilientSoupConfig.backoff_max cfg)) u64_max)
                  min_ms in
  let exp := Z.min (attempt_ c) 30 in
  let upper_ms := Z.min (default u64_max (ResilientSoupClient.u64_checked_shl min_ms exp)) max_ms in
  if upper_ms <=? min_ms then min_ms * 1000000
  else u64_saturating_add min_ms ((upper_ms - min_ms) / 2) * 1000000.

Definition attempts_exhausted (c : t) : bool :=
  match ResilientSoupConfig.max_attempts (config c) with
  | Some max => max <=? attempt_ c
  | None => false
  end.

Fixpoint try_connect_with_backoff (net : list attempt) (c : t)
    : t * list attempt * list Z
      * option (result (CompressedSoupConnection.t * list packet_event) CompressedError.t) :=
  match net with
  | [] => (c, [], [], None)
  | a :: net =>
      match try_connect_once a c with
      | (c, Ok conn) => (c, net, [], Some (Ok conn))
      | (c, Err err) =>
          let c := set_attempt (ResilientSoupClient.u32_saturating_add (attempt_ c) 1) c in
          if fatal err then (c, net, [], Some (Err err))
          else if attempts_exhausted c then (c, net, [], Some (Err err))
          else
            let delay := backoff_delay c in
            let '(c, net, delays, r) := try_connect_with_backoff net c in
            (c, net, delay :: delays, r)
      end
  end.

Section stream.
Context (zstd_decode : list Z → list (list Z) * option string).

Inductive read_outcome :=
| Return (r : result Message.t CompressedError.t)
| Wait
| Reconnect.

Definition read_conn (conn_ : CompressedSoupConnection.t) (evs : list packet_event) (c : t)
    : t * read_outcome :=
  let '(conn_, evs, p) := CompressedSoupConnection.poll_next zstd_decode evs conn_ in
  let c := set_conn (Some (conn_, evs)) c in
  let next := CompressedSoupConnection.next_expected_sequence conn_ in
  match p with
  | Pending => (c, Wait)
  | Ready (Some (Ok msg)) => (set_next_sequence next c, Return (Ok msg))
  | Ready (Some (Err err)) =>
      let c := set_next_sequence next c in
      match err with
      | CompressedError.Protocol _ | CompressedError.Compression _ => (c, Return (Err err))
      | CompressedError.Soup _ =>
          if fatal err then (set_conn None (terminate c), Return (Err err))
          else (set_conn None c, Return (Err err))
      end
  | Ready None => (set_conn None (set_next_sequence next c), Reconnect)
  end.

(** [next_message]'s loop; every turn after the first takes an attempt. *)
Fixpoint next_loop (fuel : nat) (net : list attempt) (c : t)
    : t * list attempt * list Z * option (option (result Message.t CompressedError.t)) :=
  match fuel with
  | O => (c, net, [], None)
  | S fuel =>
      let '(c, net, delays, r) :=
        match conn c with
        | Some live => (c, net, [], Some (Ok live))
        | None => try_connect_with_backoff net c
        end in
      match r with
      | None => (c, net, delays, None)
      | Some (Err err) => (terminate c, net, delays, Some (Some (Err err)))
      | Some (Ok (conn_, evs)) =>
          match read_conn conn_ evs c with
          | (c, Return r) => (c, net, delays, Some (Some r))
          | (c, Wait) => (c, net, delays, None)
          | (c, Reconnect) =>
              let '(c, net, delays', r) := next_loop fuel net c in (c, net, delays ++ delays', r)
          end
      end
  end.

Definition next_message (net : list attempt) (c : t)
    : t * list attempt * list Z * option (option (result Message.t CompressedError.t)) :=
  if terminated c then (c, net, [], Some None) else next_loop (S (S (length net))) net c.

(** [into_stream]: the results of [k] polls, up to the end or to waiting. *)
Fixpoint polls (k : nat) (net : list attempt) (c : t)
    : t * list attempt * list (result Message.t CompressedError.t) :=
  match k with
  | O => (c, net, [])
  | S k =>
      match next_message net c with
      | (c, net, _, Some (Some r)) => let '(c, net, rs) := polls k net c in (c, net, r :: rs)
      | (c, net, _, _) => (c, net, [])
      end
  end.
End stream.
End ResilientCompressedSoupClient.

(** ** Delays *)

(** The delay is one that the plain client could have drawn, so its bounds hold:
    between the two limits, and at most the lower limit doubled at each failure. *)
Lemma compressed_backoff_bounds c :
  let cfg := ResilientCompressedSoupClient.config c in
  let n := ResilientCompressedSoupClient.attempt_ c in
  0 ≤ n →
  min_ms cfg * 1000000 ≤ ResilientCompressedSoupClient.backoff_delay c ≤ max_ms cfg * 1000000
  ∧ ResilientCompressedSoupClient.backoff_delay c ≤ min_ms cfg * 2 ^ n * 1000000.
Proof.
  intros cfg n Hn. set (mid := λ lo hi, lo + (hi - lo) / 2).
  assert (∀ lo hi, lo ≤ hi → lo ≤ mid lo hi ≤ hi) as Hmid.
  { intros lo hi Hle. unfold mid. pose proof (Z.div_pos (hi - lo) 2). 
    pose proof (Z.div_le_upper_bound (hi - lo) 2 (hi - lo)). lia. }
  assert (ResilientCompressedSoupClient.backoff_delay c
    = ResilientSoupClient.backoff_delay mid
        (ResilientSoupClient.mk cfg 0 n None 0 None false)) as ->.
  { unfold ResilientCompressedSoupClient.backoff_delay, ResilientSoupClient.backoff_delay. simpl.
    fold cfg n. fold (min_ms cfg). fold (max_ms cfg).
    set (up := Z.min _ (max_ms cfg)). case_match eqn:Hup; [done|]. apply Z.leb_gt in Hup.
    assert (up ≤ u64_max) as Hmax by (unfold up, max_ms, min_ms; lia).
    rewrite u64_saturating_add_small; [done|].
    pose proof (Hmid (min_ms cfg) up ltac:(lia)). unfold mid in *. lia. }
  by apply (backoff_delay_bounds mid Hmid (ResilientSoupClient.mk cfg 0 n None 0 None false)).
Qed.

(** ** Resuming *)

Module CompressedResume.
Import ResilientCompressedSoupClient.

(** A session is at hand: it is open, or the next attempt opens it. *)
Definition at_hand (net : list attempt) (c : t) (net1 : list attempt) (c1 : t)
    (cn : CompressedSoupConnection.t) (evs : list packet_event) : Prop :=
  terminated c = false ∧ terminated c1 = false
  ∧ ((conn c = Some (cn, evs) ∧ net1 = net ∧ c1 = c)
     ∨ (conn c = None ∧ ∃ a, net = a :: net1 ∧ try_connect_once a c = (c1, Ok (cn, evs)))).

Section resume.
Context (zstd_decode : list Z → list (list Z) * option string).

Lemma next_message_return net c net1 c1 cn evs c' r :
  at_hand net c net1 c1 cn evs → read_conn zstd_decode cn evs c1 = (c', Return r) →
  next_message zstd_decode net c = (c', net1, [], Some (Some r)).
Proof.
  intros (Ht & _ & Hh) Hread. unfold next_message. rewrite Ht. cbn [next_loop].
  destruct Hh as [(-> & -> & ->)|(-> & a & -> & Ha)]; [by rewrite Hread|].
  cbn [try_connect_with_backoff]. by rewrite Ha, Hread.
Qed.

(** Reading a run of messages from the session at hand. *)
Lemma polls_messages ms rest k net c net1 c1 cn ps :
  at_hand net c net1 c1 cn (packets ps) →
  todo zstd_decode ps cn = map Ok ms ++ rest →
  0 ≤ CompressedSoupConnection.expected_sequence cn →
  CompressedSoupConnection.expected_sequence cn + Z.of_nat (length ms) ≤ u64_max →
  ∃ net' c' c1' cn' ps',
    polls zstd_decode (length ms + k) net c
    = (let '(c2, net2, rs) := polls zstd_decode k net' c' in (c2, net2, map Ok ms ++ rs))
    ∧ at_hand net' c' net1 c1' cn' (packets ps') ∧ todo zstd_decode ps' cn' = rest
    ∧ config c1' = config c1
    ∧ CompressedSoupConnection.expected_sequence cn'
      = CompressedSoupConnection.expected_sequence cn + Z.of_nat (length ms).
Proof.
  revert net c c1 cn ps. induction ms as [|m ms IH]; intros net c c1 cn ps Hh Ht Hpos Hmax.
  { exists net, c, c1, cn, ps. split_and!; try done; [|simpl; lia].
    simpl. by destruct (polls zstd_decode k net c) as [[? ?] ?]. }
  pose proof (poll_next_step zstd_decode ps cn) as Hs. unfold poll_step in Hs. rewrite Ht in Hs.
  cbn [map app length] in *. destruct Hs as (cn1 & ps1 & Hp & Ht1 & He1 & _). cbn [is_ok] in He1.
  rewrite u64_saturating_add_small in He1 by lia.
  set (c2 := set_next_sequence (CompressedSoupConnection.next_expected_sequence cn1)
               (set_conn (Some (cn1, packets ps1)) c1)).
  assert (read_conn zstd_decode cn (packets ps) c1 = (c2, Return (Ok m))) as Hread.
  { unfold read_conn. by rewrite Hp. }
  assert (terminated c1 = false) as Ht1' by apply Hh.
  destruct (IH net1 c2 c2 cn1 ps1) as (net' & c' & c1' & cn' & ps' & Hpolls & Hh' & Hrest & Hcfg & He');
    [|done|lia|lia|].
  { split_and!; try done. left. by split_and!. }
  exists net', c', c1', cn', ps'. split_and!; [|done|done|by rewrite Hcfg|lia].
  cbn [Nat.add polls]. rewrite (next_message_return _ _ _ _ _ _ _ _ Hh Hread), Hpolls.
  by destruct (polls zstd_decode k net' c') as [[? ?] ?].
Qed.

(** The end of the session: it is reported, and the client will reconnect with
    the number that it expects. *)
Lemma polls_session_end k net c net1 c1 cn ps :
  at_hand net c net1 c1 cn (packets ps) →
  todo zstd_decode ps cn = [Err (CompressedError.Soup SoupError.SessionEnded)] →
  ∃ c', polls zstd_decode (S k) net c
    = (let '(c2, net2, rs) := polls zstd_decode k net1 c' in
       (c2, net2, Err (CompressedError.Soup SoupError.SessionEnded) :: rs))
    ∧ terminated c' = false ∧ conn c' = None ∧ config c' = config c1
    ∧ next_sequence c' = CompressedSoupConnection.expected_sequence cn.
Proof.
  intros Hh Ht. pose proof (poll_next_step zstd_decode ps cn) as Hs. unfold poll_step in Hs.
  rewrite Ht in Hs. destruct Hs as (cn1 & ps1 & Hp & _ & He1 & _). cbn [is_ok] in He1.
  set (c' := set_conn None (set_next_sequence (CompressedSoupConnection.next_expected_sequence cn1)
               (set_conn (Some (cn1, packets ps1)) c1))).
  assert (read_conn zstd_decode cn (packets ps) c1
    = (c', Return (Err (CompressedError.Soup SoupError.SessionEnded)))) as Hread.
  { unfold read_conn. by rewrite Hp. }
  exists c'. cbn [polls]. rewrite (next_message_return _ _ _ _ _ _ _ _ Hh Hread).
  split_and!; try done. by destruct Hh as (_ & ? & _).
Qed.

(** A server of the data packets [zs], numbered from 1 as SoupBinTCP numbers
    them: it resumes at the packet asked for, and ends the session after packet
    [upto]. *)
Definition packet_server (zs : list (list Z)) (upto : nat) (req : LoginRequest.t) : list packet_event :=
  let n := LoginRequest.requested_sequence req in
  packets (SoupPacket.LoginAccepted (LoginAccepted.mk [b@"S"] n)
           :: map SoupPacket.SequencedData (drop (Z.to_nat (n - 1)) (take upto zs))
           ++ [SoupPacket.EndOfSession]).

Lemma connect_packet_server c zs upto net :
  terminated c = false → conn c = None →
  ResilientSoupConfig.requested_session (config c) = None →
  wf (login_request (ResilientSoupConfig.credentials (config c)) [] (next_sequence c)) →
  ∃ c1 out, let cn := CompressedSoupConnection.mk [] 0 [b@"S"] (next_sequence c) false out in
    config c1 = config c
    ∧ at_hand (Connected Flushed (packet_server zs upto) :: net) c net c1 cn
        (packets (map SoupPacket.SequencedData (drop (Z.to_nat (next_sequence c - 1)) (take upto zs))
                  ++ [SoupPacket.EndOfSession])).
Proof.
  intros Ht Hc Hs Hwf. eexists _, _. cbn zeta. unfold at_hand. split; cycle 1.
  - split; [done|]. split; cycle 1.
    + right. split; [done|]. eexists. split; [done|]. unfold try_connect_once.
      cbn [next_sequence config]. rewrite Hs. cbn [default from_option].
      unfold CompressedSoupConnection.handshake.
      fold (login_request (ResilientSoupConfig.credentials (config c)) [] (next_sequence c)).
      rewrite framed_send_wf by done. reflexivity.
    + done.
  - done.
Qed.

Lemma upto_end_data (zs : list (list Z)) :
  upto_end (map SoupPacket.SequencedData zs ++ [SoupPacket.EndOfSession])
  = map SoupPacket.SequencedData zs ++ [SoupPacket.EndOfSession].
Proof. induction zs as [|z zs IH]; [done|]. cbn [map app upto_end]. by rewrite IH. Qed.

Context (zstd_encode : list Z → Z → result (list Z) string) (level : Z).
Hypothesis Hzstd : zstd_inverse zstd_decode zstd_encode.

(** [z] is [ms] compressed, and within the bound. *)
Definition batch (ms : list Message.t) (z : list Z) : Prop :=
  Forall wf ms ∧ (total_len ms ≤ MAX_DECOMPRESSED_LEN)%nat
  ∧ compress_messages zstd_encode ms level = Ok z.

Lemma todo_batches batches zs n out :
  Forall2 batch batches zs →
  todo zstd_decode (map SoupPacket.SequencedData zs ++ [SoupPacket.EndOfSession])
    (CompressedSoupConnection.mk [] 0 [b@"S"] n false out)
  = map Ok (concat batches) ++ [Err (CompressedError.Soup SoupError.SessionEnded)].
Proof.
  intros Hb. unfold todo. cbn [CompressedSoupConnection.session_ended
    CompressedSoupConnection.cursor CompressedSoupConnection.scratch]. rewrite upto_end_data.
  cbn [drop]. change (buffer_items []) with (@nil (result Message.t CompressedError.t)). cbn [app].
  induction Hb as [|ms z batches zs (Hms & Hlen & Hz) Hb IH]; [done|].
  cbn [map app concat]. rewrite (packet_items_compressed zstd_decode zstd_encode Hzstd ms level z) by done.
  by rewrite IH, map_app, <-app_assoc.
Qed.

(** One session with the packet server. *)
Lemma polls_packet_server k net c batches zs upto :
  terminated c = false → conn c = None →
  ResilientSoupConfig.requested_session (config c) = None →
  wf (login_request (ResilientSoupConfig.credentials (config c)) [] (next_sequence c)) →
  Forall2 batch batches zs →
  let ms := concat (drop (Z.to_nat (next_sequence c - 1)) (take upto batches)) in
  next_sequence c + Z.of_nat (length ms) ≤ u64_max →
  ∃ c', polls zstd_decode (length ms + S k) (Connected Flushed (packet_server zs upto) :: net) c
    = (let '(c2, net2, rs) := polls zstd_decode k net c' in
       (c2, net2, map Ok ms ++ Err (CompressedError.Soup SoupError.SessionEnded) :: rs))
    ∧ terminated c' = false ∧ conn c' = None ∧ config c' = config c
    ∧ next_sequence c' = next_sequence c + Z.of_nat (length ms).
Proof.
  intros Ht Hc Hs Hwf Hb ms Hmax.
  destruct (connect_packet_server c zs upto net Ht Hc Hs Hwf) as (c1 & out & Hcfg & Hh).
  assert (0 ≤ next_sequence c) as Hpos by (destruct Hwf as (_ & _ & _ & [? _]); done).
  destruct (polls_messages ms [Err (CompressedError.Soup SoupError.SessionEnded)] (S k)
    _ _ _ _ _ _ Hh) as (net' & c' & c1' & cn' & ps' & -> & Hh' & Ht' & Hcfg' & He');
    [|done|done|].
  { apply todo_batches. apply Forall2_drop. by apply Forall2_take. }
  destruct (polls_session_end k _ _ _ _ _ _ Hh' Ht')
    as (c2 & -> & Hterm & Hconn & Hcfg2 & Hn2).
  exists c2. split_and!; try done; [|congruence|by rewrite Hn2, He'].
  by destruct (polls zstd_decode k net c2) as [[? ?] ?].
Qed.

Lemma login_request_wf_seq credentials session m n :
  wf (login_request credentials session m) → is_u64 n → wf (login_request credentials session n).
Proof. intros (Hu & Hp & Hs & _) Hn. by split_and!. Qed.

Lemma length_concat_parts {A} (n : nat) (l : list (list A)) :
  length (concat l) = (length (concat (take n l)) + length (concat (drop n l)))%nat.
Proof. by rewrite <-length_app, <-concat_app, take_drop. Qed.

(** What a compressed session delivers across a reconnection to a server
    that numbers its data packets, as SoupBinTCP does.  The client asks for the
    number of messages it has had, not of packets: after the first [k] packets
    it continues with the packets after the first [n], where [n] is the number
    of messages that those [k] packets held.  It gets every message when each
    packet holds one; a packet with more than one makes it skip packets. *)
Theorem compressed_resume config c batches zs k :
  new config = Some c →
  ResilientSoupConfig.requested_session config = None →
  ResilientSoupConfig.initial_sequence config = 1 →
  wf (login_request (ResilientSoupConfig.credentials config) [] 0) →
  Forall2 batch batches zs →
  2 * Z.of_nat (length (concat batches)) < u64_max →
  let first := concat (take k batches) in
  let second := concat (drop (length first) batches) in
  let ended := Err (CompressedError.Soup SoupError.SessionEnded) in
  ∃ c', polls zstd_decode (length first + S (length second + 1))
          [Connected Flushed (packet_server zs k); Connected Flushed (packet_server zs (length zs))] c
        = (c', [], (map Ok first ++ [ended]) ++ map Ok second ++ [ended]).
Proof.
  intros Hnew Hs Hinit Hwf Hb Hmax first second ended.
  pose proof (length_concat_parts k batches) as Hk. fold first in Hk.
  pose proof (length_concat_parts (length first) batches) as Hn. fold second in Hn.
  unfold new in Hnew. destruct (ResilientSoupConfig.addrs config) as [|addr addrs]; simplify_eq.
  rewrite Hinit. set (c := mk config 0 0 None 1 None false).
  assert (∀ n, 0 ≤ n ≤ u64_max → wf (login_request (ResilientSoupConfig.credentials config) [] n)) as Hreq.
  { intros n Hrange. eapply login_request_wf_seq; [exact Hwf|]. unfold u64_max in Hrange. split; lia. }
  destruct (polls_packet_server (length second + 1)
    [Connected Flushed (packet_server zs (length zs))] c batches zs k)
    as (c1 & H1 & Ht1 & Hc1 & Hcfg1 & Hn1); try done;
    [by apply Hreq; unfold u64_max|change (1 + Z.of_nat (length first) ≤ u64_max); lia|].
  change (concat (drop (Z.to_nat (next_sequence c - 1)) (take k batches))) with first in H1, Hn1.
  change (next_sequence c) with 1 in Hn1. rewrite H1.
  assert (concat (drop (Z.to_nat (next_sequence c1 - 1)) (take (length zs) batches)) = second) as Hsec.
  { rewrite Hn1. replace (Z.to_nat (1 + Z.of_nat (length first) - 1)) with (length first) by lia.
    by rewrite <-(Forall2_length _ _ _ Hb), firstn_all. }
  destruct (polls_packet_server 0 [] c1 batches zs (length zs)) as (c2 & H2 & _);
    rewrite ?Hcfg1, ?Hsec, ?Hn1; try done; [apply Hreq; lia|lia|].
  rewrite Hsec in H2. rewrite H2. simpl. exists c2. by rewrite <-app_assoc.
Qed.
End resume.
End CompressedResume.
Import CompressedResume.

(** Three packets; the first holds two messages.  The session breaks after it,
    and the client goes on with the third: message 3 never arrives. *)
Definition some_batches : list (list Message.t) := [[numbered 1; numbered 2]; [numbered 3]; [numbered 4]].
Definition some_payloads : list (list Z) :=
  map (λ ms, 1 :: concat (map message_wire ms)) some_batches.
Definition resuming_config : ResilientSoupConfig.t :=
  ResilientSoupConfig.with_initial_sequence 1 (ResilientSoupConfig.new [1] some_credentials).

Lemma some_batch ms : Forall wf ms → (length ms ≤ 3)%nat →
  batch stored_encode 3 ms (1 :: concat (map message_wire ms)).
Proof.
  intros Hms Hlen. split; [done|]. split.
  - transitivity (65 * length ms)%nat; [|unfold MAX_DECOMPRESSED_LEN; lia]. clear.
    induction ms as [|m ms IH]; [done|]. pose proof (encoded_len_bounds m).
    cbn [total_len sum_list_with length] in *. unfold total_len in IH. lia.
  - unfold compress_messages. by rewrite concat_messages_wire.
Qed.

Lemma compressed_resume_witness :
  ∃ c c', ResilientCompressedSoupClient.new resuming_config = Some c
    ∧ ResilientCompressedSoupClient.polls stored_decode 5
        [Connected Flushed (packet_server some_payloads 1);
         Connected Flushed (packet_server some_payloads 3)] c
      = (c', [], [Ok (numbered 1); Ok (numbered 2); Err (CompressedError.Soup SoupError.SessionEnded);
                  Ok (numbered 4); Err (CompressedError.Soup SoupError.SessionEnded)]).
Proof.
  eexists. destruct (compressed_resume stored_decode stored_encode 3 stored_inverse resuming_config _
    some_batches some_payloads 1 eq_refl eq_refl eq_refl some_request_wf) as (c' & H).
  - repeat (apply Forall2_cons_2; [apply some_batch;
      [repeat (apply Forall_cons_2; [apply numbered_wf|]); constructor|simpl; lia]|]). constructor.
  - vm_compute. reflexivity.
  - exists c'. split; [reflexivity|exact H].
Defined.
