(* ===== verification/TcpServer.v ===== *)
(** The TCP publisher ([crates/itch-tcp/src/server.rs]).

    The tasks and their moves are modelled as in [SoupServer.v], whose states of
    the ingest task are reused: the store and the broadcast log are shared, a
    receiver is a position in the log, the senders are the ingest task's and the
    accept loop's, lagging may be reported at any time.  There is no login and no
    replay; a subscriber is sent the warm-up and then what is broadcast from its
    connection on.  [out] has the messages that were sent to it. *)

From S2P Require Import Prelude Primitives Enums Messages Codec CodecMessages MessageCodec.
From S2P Require Import SeqStore Framing TcpCodec SoupCodec SoupSession SoupServer.

Module TcpServer.
Definition DEFAULT_BROADCAST_CAPACITY : Z := 4096.
(** [with_broadcast_capacity]; [bind] sets the default. *)
Definition with_broadcast_capacity (capacity : Z) : Z := Z.max capacity 1.

Module Sub.
Inductive phase := Warming | Live | Closed.
Record t := mk { at_ : phase; rx : nat; out : list Message.t }.
Definition subscribe (sent : nat) : t := mk Warming sent [].
Definition goto (p : phase) (s : t) : t := mk p (rx s) (out s).

(** [framed.send(msg)]. *)
Definition send (msg : Message.t) (io : bool) (s : t) : t * bool :=
  if io && is_ok (ItchCodec.encode msg []).2 then (mk (at_ s) (rx s) (out s ++ [msg]), true)
  else (s, false).
Fixpoint send_all (ms : list Message.t) (fails : option nat) (s : t) : t * bool :=
  match ms with
  | [] => (s, true)
  | m :: ms =>
      match send m (negb (bool_decide (fails = Some O))) s with
      | (s, true) => send_all ms (pred <$> fails) s
      | (s, false) => (s, false)
      end
  end.

(** 1) Warmup first. *)
Definition warmup_step (warmup : result (list Message.t) SourceError.t) (fails : option nat) (s : t) : t :=
  match warmup with
  | Err _ => goto Closed s
  | Ok ms =>
      match send_all ms fails s with
      | (s, true) => goto Live s
      | (s, false) => goto Closed s
      end
  end.

(** 2) Live. *)
Definition recv_step (log : list Message.t) (senders_gone lagged io : bool) (s : t) : option t :=
  if lagged then Some (goto Closed s)
  else
    match log !! rx s with
    | Some msg =>
        match send msg io (mk (at_ s) (S (rx s)) (out s)) with
        | (s, true) => Some s
        | (s, false) => Some (goto Closed s)
        end
    | None => if senders_gone then Some (goto Closed s) else None
    end.
End Sub.

Record world (St : Type) := mk_world {
  store : St;
  source : list (result Message.t SourceError.t);
  ingest : ingest_state;
  log : list Message.t;
  subs : list Sub.t;
  serve : serve_state;
}.
Arguments mk_world {St}.
Arguments store {St}.
Arguments source {St}.
Arguments ingest {St}.
Arguments log {St}.
Arguments subs {St}.
Arguments serve {St}.

Inductive action :=
| IngestStart | IngestNext | IngestSend
| Accept | IngestNoticed | IngestJoined
| SubWarmup (i : nat) (fails : option nat)
| SubRecv (i : nat) (lagged io : bool).

Section server.
Context `{SeqStore.Ops St E} (warmup : St → result (list Message.t) SourceError.t).
Implicit Types w : world St.

Definition init (st : St) (src : list (result Message.t SourceError.t)) : world St :=
  mk_world st src Starting [] [] Accepting.

Definition set_sub (i : nat) (s : Sub.t) w : world St :=
  mk_world (store w) (source w) (ingest w) (log w) (<[i := s]> (subs w)) (serve w).
Definition set_serve (x : serve_state) w : world St :=
  mk_world (store w) (source w) (ingest w) (log w) (subs w) x.

Definition ingest_start w : world St :=
  mk_world (store w) (source w)
    (Running (match SeqStore.latest (store w) with
              | Ok latest => Z.max (u64_saturating_add latest 1) 1
              | Err _ => 1
              end)) (log w) (subs w) (serve w).

Definition ingest_next (next_seq : Z) w : world St :=
  match source w with
  | Ok msg :: src =>
      match SeqStore.store next_seq msg (store w) with
      | (st, Ok _) => mk_world st src (Stored next_seq msg) (log w) (subs w) (serve w)
      | (st, Err _) => mk_world st src (Running next_seq) (log w) (subs w) (serve w)
      end
  | Err _ :: src => mk_world (store w) src Ended (log w) (subs w) (serve w)
  | [] => mk_world (store w) [] Ended (log w) (subs w) (serve w)
  end.

Definition ingest_send (next_seq : Z) (msg : Message.t) w : world St :=
  mk_world (store w) (source w) (Running (u64_saturating_add next_seq 1)) (log w ++ [msg])
    (subs w) (serve w).

Definition senders_gone w : bool :=
  match ingest w, serve w with Ended, Returned => true | _, _ => false end.

Definition step (a : action) w : option (world St) :=
  match a with
  | IngestStart => match ingest w with Starting => Some (ingest_start w) | _ => None end
  | IngestNext => match ingest w with Running n => Some (ingest_next n w) | _ => None end
  | IngestSend => match ingest w with Stored n msg => Some (ingest_send n msg w) | _ => None end
  | Accept =>
      match serve w with
      | Accepting =>
          Some (mk_world (store w) (source w) (ingest w) (log w)
                  (subs w ++ [Sub.subscribe (length (log w))]) (serve w))
      | _ => None
      end
  | IngestNoticed =>
      match serve w, ingest w with Accepting, Ended => Some (set_serve Joining w) | _, _ => None end
  | IngestJoined =>
      match serve w, ingest w with Joining, Ended => Some (set_serve Returned w) | _, _ => None end
  | SubWarmup i fails =>
      match subs w !! i with
      | Some s =>
          match Sub.at_ s with
          | Sub.Warming => Some (set_sub i (Sub.warmup_step (warmup (store w)) fails s) w)
          | _ => None
          end
      | None => None
      end
  | SubRecv i lagged io =>
      match subs w !! i with
      | Some s =>
          match Sub.at_ s with
          | Sub.Live =>
              s ← Sub.recv_step (log w) (senders_gone w) lagged io s; Some (set_sub i s w)
          | _ => None
          end
      | None => None
      end
  end.

(** A run, move by move. *)
Fixpoint run_actions (acts : list action) w : option (world St) :=
  match acts with
  | [] => Some w
  | a :: acts => w' ← step a w; run_actions acts w'
  end.
End server.
End TcpServer.

(** ** What a subscriber receives *)

Section tcp_service.
Context `{SeqStore.Contract St E} (warmup : St → result (list Message.t) SourceError.t).
Context (msgs : Z → Message.t) (lo first : Z).
Import TcpServer.
Implicit Types (w : world St) (s : Sub.t).

Hypothesis msgs_wf : ∀ k, wf (msgs k).
Hypothesis warmup_wf : ∀ st ws, warmup st = Ok ws → Forall wf ws.

(** The warm-up, then the messages from the subscriber's connection up to [upto]. *)
Definition tcp_received (upto : Z) (out : list Message.t) : Prop :=
  ∃ st ws from, warmup st = Ok ws ∧ first ≤ from ≤ upto
    ∧ out = ws ++ map msgs (seqZ from (upto - from)).

(** As it may end, at any point after [sent] broadcasts. *)
Definition tcp_served (sent : nat) (out : list Message.t) : Prop :=
  out = [] ∨ (∃ st ws, warmup st = Ok ws ∧ out `prefix_of` ws)
  ∨ ∃ upto, upto ≤ first + Z.of_nat sent ∧ tcp_received upto out.

Definition tcp_sub_ok (sent : nat) (s : Sub.t) : Prop :=
  (Sub.rx s ≤ sent)%nat ∧
  match Sub.at_ s with
  | Sub.Warming => Sub.out s = []
  | Sub.Live => tcp_received (first + Z.of_nat (Sub.rx s)) (Sub.out s)
  | Sub.Closed => tcp_served sent (Sub.out s)
  end.

Record tcp_world_ok w : Prop := {
  tw_store : store_tracks msgs lo (store w);
  tw_log : log w = map msgs (seqZ first (Z.of_nat (length (log w))));
  tw_ingest :
    match ingest w with
    | Starting => log w = [] ∧ SeqStore.high (store w) = first - 1 ∧ src_ok msgs first (source w)
    | Running n =>
        n = first + Z.of_nat (length (log w)) ∧ SeqStore.high (store w) = n - 1
        ∧ src_ok msgs n (source w)
    | Stored n m =>
        n = first + Z.of_nat (length (log w)) ∧ SeqStore.high (store w) = n
        ∧ m = msgs n ∧ src_ok msgs (n + 1) (source w)
    | Ended => first + Z.of_nat (length (log w)) ≤ SeqStore.high (store w) + 1
    end;
  tw_room : SeqStore.high (store w) + Z.of_nat (length (source w)) < SeqStore.seq_limit St;
  tw_subs : Forall (tcp_sub_ok (length (log w))) (subs w);
}.

Definition tcp_move w w' : Prop := ∃ a, step warmup a w = Some w'.

Lemma tcp_actions_rtc acts w w' : run_actions warmup acts w = Some w' → rtc tcp_move w w'.
Proof.
  revert w. induction acts as [|a acts IH]; intros w Hr; simpl in Hr.
  - simplify_eq. apply rtc_refl.
  - destruct (step warmup a w) as [w1|] eqn:Hs; [|done].
    apply rtc_l with w1; [by exists a|]. by apply IH.
Qed.

Lemma tcp_send_spec m io s :
  wf m → Sub.send m io s
         = (if io then Sub.mk (Sub.at_ s) (Sub.rx s) (Sub.out s ++ [m]) else s, io).
Proof.
  intros Hm. unfold Sub.send. rewrite ItchCodec_encode_frame by done. simpl.
  rewrite andb_true_r. by destruct io.
Qed.

Lemma tcp_send_all_spec ms fails s :
  Forall wf ms →
  ∃ j b, Sub.send_all ms fails s = (Sub.mk (Sub.at_ s) (Sub.rx s) (Sub.out s ++ take j ms), b)
    ∧ (b = true → take j ms = ms).
Proof.
  intros Hms. revert fails s. induction Hms as [|m ms Hm Hms IH]; intros fails s.
  { exists O, true. simpl. rewrite app_nil_r. split; [by destruct s|done]. }
  cbn [Sub.send_all]. rewrite tcp_send_spec by done.
  destruct (bool_decide_reflect (fails = Some O)) as [->|Hf]; cbn [negb].
  { exists O, false. simpl. rewrite app_nil_r. split; [by destruct s|done]. }
  destruct (IH (pred <$> fails) (Sub.mk (Sub.at_ s) (Sub.rx s) (Sub.out s ++ [m]))) as (j & b & -> & Hb).
  exists (S j), b. simpl. rewrite <-app_assoc. split; [done|]. intros Hb'. by rewrite (Hb Hb').
Qed.

Lemma tcp_sub_mono sent sent' s : (sent ≤ sent')%nat → tcp_sub_ok sent s → tcp_sub_ok sent' s.
Proof.
  intros Hs [? Hp]. split; [lia|]. destruct (Sub.at_ s); [done|done|].
  destruct Hp as [?|[?|(upto & Hu & ?)]]; [by left|by right; left|].
  right. right. exists upto. split; [lia|done].
Qed.

Lemma tcp_warmup_ok sent st fails s :
  Sub.at_ s = Sub.Warming → tcp_sub_ok sent s →
  tcp_sub_ok sent (Sub.warmup_step (warmup st) fails s).
Proof.
  intros Ha [Hrx Hp]. rewrite Ha in Hp. unfold Sub.warmup_step.
  destruct (warmup st) as [ws|] eqn:Hw; [|split; [done|by left]].
  destruct (tcp_send_all_spec ws fails s) as (j & [] & -> & Hj); [by eapply warmup_wf| |].
  - split; [done|]. simpl. rewrite Hp, Hj by done. exists st, ws, (first + Z.of_nat (Sub.rx s)).
    split_and!; [done|lia|lia|]. by rewrite Z.sub_diag, app_nil_r.
  - split; [done|]. simpl. rewrite Hp. right. left. exists st, ws. split; [done|]. apply prefix_take.
Qed.

Lemma tcp_recv_ok w gone lagged io s s' :
  tcp_world_ok w → Sub.at_ s = Sub.Live → tcp_sub_ok (length (log w)) s →
  Sub.recv_step (log w) gone lagged io s = Some s' → tcp_sub_ok (length (log w)) s'.
Proof.
  intros Hw Ha [Hrx Hp] Hr. rewrite Ha in Hp.
  assert (tcp_sub_ok (length (log w)) (Sub.goto Sub.Closed s)) as Hclosed.
  { split; [done|]. right. right. eexists. split; [|done]. lia. }
  unfold Sub.recv_step in Hr. destruct lagged; [by simplify_eq|].
  destruct (log w !! Sub.rx s) as [msg|] eqn:El; [|destruct gone; by simplify_eq].
  pose proof (lookup_lt_Some _ _ _ El) as Hlt. rewrite (tw_log _ Hw) in El.
  rewrite list_lookup_fmap, lookup_seqZ_lt in El by lia. simpl in El. simplify_eq.
  rewrite tcp_send_spec in Hr by done. destruct Hp as (st & ws & from & Hst & Hfrom & Hout).
  destruct io; injection Hr as <-.
  - split; [simpl; lia|]. cbn [Sub.at_]. rewrite Ha. exists st, ws, from. simpl.
    replace (first + Z.of_nat (S (Sub.rx s))) with (first + Z.of_nat (Sub.rx s) + 1) by lia.
    split_and!; [done|lia|lia|]. rewrite Hout, <-app_assoc. f_equal.
    replace (first + Z.of_nat (Sub.rx s) + 1 - from) with (first + Z.of_nat (Sub.rx s) - from + 1) by lia.
    rewrite <-seqZ_snoc, map_app by lia. simpl. do 3 f_equal. lia.
  - split; [simpl; lia|]. right. right. exists (first + Z.of_nat (Sub.rx s)). split; [lia|].
    by exists st, ws, from.
Qed.

Lemma tcp_ingest_next_ok n w :
  tcp_world_ok w → ingest w = Running n → tcp_world_ok (ingest_next n w).
Proof.
  intros [Hst Hlog Hin Hroom Hsubs] Hing. rewrite Hing in Hin. destruct Hin as (Hn & Hh & Hsrc).
  unfold ingest_next. destruct (source w) as [|[m|e] src] eqn:Es.
  - split; simpl; try done; lia.
  - destruct Hsrc as [-> Hsrc]. cbn [length] in Hroom.
    destruct (tracks_store msgs lo (store w) Hst) as (st' & Hstore & Hst' & Hh' & _); [lia|apply msgs_wf|].
    replace (SeqStore.high (store w) + 1) with n in * by lia. rewrite Hstore.
    split; simpl; rewrite ?Hh'; try done. lia.
  - cbn [length] in Hroom. split; simpl; try done; lia.
Qed.

Lemma tcp_ingest_send_ok n m w :
  tcp_world_ok w → ingest w = Stored n m → tcp_world_ok (ingest_send n m w).
Proof.
  intros [Hst Hlog Hin Hroom Hsubs] Hing. rewrite Hing in Hin. destruct Hin as (Hn & Hh & -> & Hsrc).
  pose proof SeqStore.limits_ok as Hlim.
  assert (Z.of_nat (length (log w) + 1) = Z.of_nat (length (log w)) + 1) as Hl by lia.
  split; simpl; rewrite ?length_app; cbn [length]; rewrite ?Hl; try done.
  - rewrite <-seqZ_snoc, map_app, <-Hlog by lia. simpl. by rewrite <-Hn.
  - rewrite u64_saturating_add_small by lia. split_and!; [lia|lia|done].
  - eapply Forall_impl; [done|]. intros s. apply tcp_sub_mono. lia.
Qed.

Lemma tcp_world_ok_move w w' : 1 ≤ first → tcp_world_ok w → tcp_move w w' → tcp_world_ok w'.
Proof.
  intros Hfirst Hw [a Hstep]. pose proof SeqStore.limits_ok as Hlim.
  assert (∀ i s, subs w !! i = Some s → tcp_sub_ok (length (log w)) s) as Hsub.
  { intros i s Hi. by apply (Forall_lookup_1 _ _ i _ (tw_subs _ Hw)). }
  assert (∀ i s, tcp_sub_ok (length (log w)) s → tcp_world_ok (set_sub i s w)) as Hset.
  { intros i s Hs. destruct Hw. split; try done. by apply Forall_insert. }
  destruct a; simpl in Hstep.
  - destruct (ingest w) eqn:Hing; simplify_eq. destruct Hw as [Hst Hlog Hin Hroom Hsubs].
    rewrite Hing in Hin. destruct Hin as (Hnil & Hh & Hsrc). pose proof (tr_inv _ _ _ Hst) as Hi.
    split; simpl; try done. rewrite SeqStore.latest_ok by done.
    rewrite u64_saturating_add_small, Hnil by lia. simpl. split_and!; [lia|lia|].
    by replace (Z.max _ _) with first by lia.
  - destruct (ingest w) eqn:Hing; simplify_eq. by apply tcp_ingest_next_ok.
  - destruct (ingest w) eqn:Hing; simplify_eq. by apply tcp_ingest_send_ok.
  - destruct (serve w); simplify_eq. destruct Hw as [Hst Hlog Hin Hroom Hsubs].
    split; simpl; try done. apply Forall_app. split; [done|]. by apply Forall_singleton.
  - destruct (serve w), (ingest w) eqn:Hing; simplify_eq; destruct Hw; split; simpl; by rewrite ?Hing in *.
  - destruct (serve w), (ingest w) eqn:Hing; simplify_eq; destruct Hw; split; simpl; by rewrite ?Hing in *.
  - destruct (subs w !! i) as [s|] eqn:Hi; [|done]. destruct (Sub.at_ s) eqn:Ha; simplify_eq.
    apply Hset, tcp_warmup_ok; eauto.
  - destruct (subs w !! i) as [s|] eqn:Hi; [|done]. destruct (Sub.at_ s) eqn:Ha; simplify_eq.
    destruct (Sub.recv_step _ _ _ _ _) as [s'|] eqn:Hr; [|done]. simpl in Hstep. simplify_eq.
    eapply Hset, tcp_recv_ok; eauto.
Qed.

Lemma tcp_reachable_ok st src w :
  1 ≤ first → store_tracks msgs lo st → SeqStore.high st = first - 1 → src_ok msgs first src →
  SeqStore.high st + Z.of_nat (length src) < SeqStore.seq_limit St →
  rtc tcp_move (init st src) w → tcp_world_ok w.
Proof.
  intros Hfirst Hst Hh Hsrc Hroom Hrtc.
  assert (∀ w1, rtc tcp_move w1 w → tcp_world_ok w1 → tcp_world_ok w) as Hinv.
  { induction 1; [done|]. eauto using tcp_world_ok_move. }
  eapply Hinv; [done|]. by split.
Qed.

(** Nothing is broadcast but what the source brought. *)
Definition carried w : nat :=
  length (log w) + (match ingest w with Stored _ _ => 1 | _ => 0 end) + length (source w).

Lemma tcp_carried_move w w' : tcp_move w w' → (carried w' ≤ carried w)%nat.
Proof.
  intros [a Hstep]. unfold carried. destruct a; simpl in Hstep.
  - destruct (ingest w) eqn:Hi; by simplify_eq.
  - destruct (ingest w) as [|n| |] eqn:Hi; simplify_eq. unfold ingest_next.
    destruct (source w) as [|[m|e] src]; simpl; [lia| |lia].
    destruct (SeqStore.store _ _ _) as [st [u|e]]; simpl; lia.
  - destruct (ingest w) eqn:Hi; simplify_eq. simpl. rewrite length_app. simpl. lia.
  - destruct (serve w); by simplify_eq.
  - destruct (serve w), (ingest w) eqn:Hi; simplify_eq; simpl; by rewrite Hi.
  - destruct (serve w), (ingest w) eqn:Hi; simplify_eq; simpl; by rewrite Hi.
  - destruct (subs w !! i) as [s|]; [|done]. destruct (Sub.at_ s); by simplify_eq.
  - destruct (subs w !! i) as [s|]; [|done]. destruct (Sub.at_ s); [done| |done].
    destruct (Sub.recv_step _ _ _ _ _) as [s'|]; [|done]. simpl in Hstep. by simplify_eq.
Qed.

Lemma tcp_log_bound st src w : rtc tcp_move (init st src) w → (length (log w) ≤ length src)%nat.
Proof.
  intros Hr. assert (carried w ≤ carried (init st src))%nat as Hle.
  { induction Hr as [|w1 w2 w3 Hm _ IH]; [done|]. apply tcp_carried_move in Hm. lia. }
  unfold carried in Hle. simpl in Hle. lia.
Qed.

Lemma tcp_sub_served sent s : tcp_sub_ok sent s → tcp_served sent (Sub.out s).
Proof.
  intros [Hrx Hp]. destruct (Sub.at_ s); [by left| |done].
  right. right. eexists. split; [|done]. lia.
Qed.

Lemma tcp_served_wf sent out : tcp_served sent out → Forall wf out.
Proof.
  intros [->|[(st & ws & Hw & [k Hk])|(upto & _ & st & ws & from & Hw & _ & ->)]]; [constructor| |].
  - apply warmup_wf in Hw. rewrite Hk in Hw. by apply Forall_app in Hw as [? _].
  - apply Forall_app. split; [by eapply warmup_wf|]. apply Forall_map, Forall_true. intros; apply msgs_wf.
Qed.
End tcp_service.

(** C20: the TCP publisher broadcasts the messages of its source in order, each
    stored before any subscriber can see it.  Whatever the tasks do in whatever
    order, a subscriber has been sent a part of the warm-up, or the warm-up and
    then consecutive published messages, in order and once; and however the
    network cuts the bytes, its client reads exactly those messages. *)
Theorem tcp_server_delivers `{SeqStore.Contract St E}
    (warmup : St → result (list Message.t) SourceError.t) (msgs : Z → Message.t) lo (st : St) src
    (w : TcpServer.world St) i s chunks :
  (∀ k, wf (msgs k)) → (∀ st ws, warmup st = Ok ws → Forall wf ws) →
  store_tracks msgs lo st → src_ok msgs (SeqStore.high st + 1) src →
  SeqStore.high st + Z.of_nat (length src) < SeqStore.seq_limit St →
  rtc (tcp_move warmup) (TcpServer.init st src) w → TcpServer.subs w !! i = Some s →
  itch_send (TcpServer.Sub.out s) [] = (concat chunks, Ok tt) →
  TcpServer.log w = map msgs (seqZ (SeqStore.high st + 1) (Z.of_nat (length (TcpServer.log w))))
  ∧ SeqStore.high st + Z.of_nat (length (TcpServer.log w)) ≤ SeqStore.high (TcpServer.store w)
  ∧ (TcpServer.Sub.out s = []
     ∨ (∃ st' ws, warmup st' = Ok ws ∧ TcpServer.Sub.out s `prefix_of` ws)
     ∨ ∃ st' ws from n, warmup st' = Ok ws ∧ SeqStore.high st < from
         ∧ from + n ≤ SeqStore.high st + 1 + Z.of_nat (length (TcpServer.log w))
         ∧ TcpServer.Sub.out s = ws ++ map msgs (seqZ from n))
  ∧ read_chunks ItchCodec.decode chunks Reader.new = (Reader.new, map Ok (TcpServer.Sub.out s)).
Proof.
  intros Hwf Hwarm Hst Hsrc Hroom Hrtc Hi Hsend.
  assert (1 ≤ SeqStore.high st + 1) as Hfirst.
  { pose proof (SeqStore.high_ok st (tr_inv _ _ _ Hst)). lia. }
  pose proof (tcp_reachable_ok warmup msgs lo (SeqStore.high st + 1) Hwf Hwarm st src w Hfirst Hst
    ltac:(lia) Hsrc Hroom Hrtc) as Hw.
  pose proof (tcp_sub_served _ _ _ _ _ (Forall_lookup_1 _ _ i _ (tw_subs _ _ _ _ _ Hw) Hi)) as Hs.
  pose proof (tcp_served_wf _ _ _ Hwf Hwarm _ _ Hs) as Hout.
  rewrite itch_send_frames in Hsend by done. injection Hsend as Hbytes. split_and!.
  - apply Hw.
  - pose proof (tw_ingest _ _ _ _ _ Hw) as Hin.
    destruct (TcpServer.ingest w); [destruct Hin as (-> & -> & _); simpl; lia|..];
      destruct_and?; lia.
  - destruct Hs as [?|[?|(upto & Hu & st' & ws & from & Hw' & Hfrom & Ho)]]; [by left|by right; left|].
    right. right. exists st', ws, from, (upto - from). split_and!; [done|lia|lia|done].
  - by apply itch_read_messages.
Qed.


(** A client connects after the first of three messages. *)
Definition tcp_actions : list TcpServer.action :=
  [TcpServer.IngestStart; TcpServer.IngestNext; TcpServer.IngestSend; TcpServer.Accept;
   TcpServer.SubWarmup 0 None; TcpServer.IngestNext; TcpServer.IngestSend;
   TcpServer.SubRecv 0 false true; TcpServer.IngestNext; TcpServer.IngestSend;
   TcpServer.SubRecv 0 false true].
Definition tcp_warmup (_ : RingSeqStore.t) : result (list Message.t) SourceError.t :=
  StaticPolicy.warmup (StaticPolicy.new [numbered 99]).
Definition tcp_start : TcpServer.world RingSeqStore.t :=
  TcpServer.init (RingSeqStore.with_capacity 8) (map Ok (map numbered (seqZ 1 3))).

Lemma tcp_demo :
  ∃ w s, TcpServer.run_actions tcp_warmup tcp_actions tcp_start = Some w ∧ TcpServer.subs w !! 0%nat = Some s
    ∧ TcpServer.Sub.out s = [numbered 99; numbered 2; numbered 3].
Proof.
  assert ((λ w, TcpServer.Sub.out <$> TcpServer.subs w !! 0%nat) <$> TcpServer.run_actions tcp_warmup tcp_actions tcp_start
    = Some (Some [numbered 99; numbered 2; numbered 3])) as Hd by (vm_compute; reflexivity).
  destruct (TcpServer.run_actions tcp_warmup tcp_actions tcp_start) as [w|]; [|done]. apply (inj Some) in Hd.
  destruct (TcpServer.subs w !! 0%nat) as [s|] eqn:Hs; [|done]. apply (inj Some) in Hd. by exists w, s.
Qed.

Lemma tcp_server_delivers_witness :
  ∃ (w : TcpServer.world RingSeqStore.t) s, TcpServer.subs w !! 0%nat = Some s
    ∧ TcpServer.Sub.out s = [numbered 99; numbered 2; numbered 3]
    ∧ read_chunks ItchCodec.decode [(itch_send (TcpServer.Sub.out s) []).1] Reader.new
      = (Reader.new, map Ok (TcpServer.Sub.out s)).
Proof.
  destruct tcp_demo as (w & s & Hrun & Hs & Hout). exists w, s.
  split; [exact Hs|]. split; [exact Hout|].
  apply (tcp_server_delivers tcp_warmup numbered 1 (RingSeqStore.with_capacity 8)
    (map Ok (map numbered (seqZ 1 3))) w 0 s).
  - exact numbered_wf.
  - intros st ws [= <-]. constructor; [exact (numbered_wf 99)|constructor].
  - change 1 with (SeqStore.high (RingSeqStore.with_capacity 8) + 1).
    apply tracks_empty; [apply RingSeqStoreFacts.inv_with_capacity|reflexivity].
  - repeat split.
  - vm_compute. reflexivity.
  - exact (tcp_actions_rtc tcp_warmup tcp_actions _ _ Hrun).
  - exact Hs.
  - rewrite Hout. vm_compute. reflexivity.
Defined.
