(* ===== verification/Client.v ===== *)
(** The demo subscriber ([crates/itch-client/src/main.rs]): one line per message.

    [fmt_message] prints a message; [run_tcp] and [run_soup] are the loops of the
    two transports.  A turn of a loop is a [tick]: Ctrl-C, or the next item of the
    stream with what becomes of the write to standard output.  A loop gives the
    lines written and the exit code, [None] while it runs.  Logging is left out,
    and so is the parsing of the command line by [clap]: [Args] is its result. *)

From S2P Require Import Prelude Primitives Text Enums Messages Codec CodecMessages MessageCodec.
From S2P Require Import Framing TcpCodec SoupCodec SoupSession Conformance.

(** The derived [Debug] of an enum: the name of the variant. *)
Class Debug (T : Type) := debug : T → list Z.
#[global] Instance EventCode_debug : Debug EventCode.t := λ x, text
  match x with
  | EventCode.StartOfMessages => "StartOfMessages"
  | EventCode.StartOfSystemHours => "StartOfSystemHours"
  | EventCode.StartOfMarketHours => "StartOfMarketHours"
  | EventCode.EndOfMarketHours => "EndOfMarketHours"
  | EventCode.EndOfSystemHours => "EndOfSystemHours"
  | EventCode.EndOfMessages => "EndOfMessages"
  end.
#[global] Instance MarketCategory_debug : Debug MarketCategory.t := λ x, text
  match x with
  | MarketCategory.NasdaqGlobalSelect => "NasdaqGlobalSelect"
  | MarketCategory.NasdaqGlobalMarket => "NasdaqGlobalMarket"
  | MarketCategory.NasdaqCapitalMarket => "NasdaqCapitalMarket"
  | MarketCategory.NyseMkt => "NyseMkt" | MarketCategory.Nyse => "Nyse"
  | MarketCategory.NyseArca => "NyseArca" | MarketCategory.BatsZ => "BatsZ"
  | MarketCategory.Iex => "Iex" | MarketCategory.Unavailable => "Unavailable"
  end.
#[global] Instance FinancialStatus_debug : Debug FinancialStatus.t := λ x, text
  match x with
  | FinancialStatus.Deficient => "Deficient" | FinancialStatus.Delinquent => "Delinquent"
  | FinancialStatus.Bankrupt => "Bankrupt" | FinancialStatus.Suspended => "Suspended"
  | FinancialStatus.DeficientAndBankrupt => "DeficientAndBankrupt"
  | FinancialStatus.DeficientAndDelinquent => "DeficientAndDelinquent"
  | FinancialStatus.DelinquentAndBankrupt => "DelinquentAndBankrupt"
  | FinancialStatus.DeficientDelinquentBankrupt => "DeficientDelinquentBankrupt"
  | FinancialStatus.CreationsRedemptionsSuspended => "CreationsRedemptionsSuspended"
  | FinancialStatus.Normal => "Normal" | FinancialStatus.Unavailable => "Unavailable"
  end.
#[global] Instance TradingState_debug : Debug TradingState.t := λ x, text
  match x with
  | TradingState.Halted => "Halted" | TradingState.Paused => "Paused"
  | TradingState.QuotationOnly => "QuotationOnly" | TradingState.Trading => "Trading"
  end.
#[global] Instance RegShoAction_debug : Debug RegShoAction.t := λ x, text
  match x with
  | RegShoAction.NoPriceTest => "NoPriceTest"
  | RegShoAction.InEffectIntradayDrop => "InEffectIntradayDrop"
  | RegShoAction.InEffect => "InEffect"
  end.
#[global] Instance MarketMakerMode_debug : Debug MarketMakerMode.t := λ x, text
  match x with
  | MarketMakerMode.Normal => "Normal" | MarketMakerMode.Passive => "Passive"
  | MarketMakerMode.Syndicate => "Syndicate" | MarketMakerMode.PreSyndicate => "PreSyndicate"
  | MarketMakerMode.Penalty => "Penalty"
  end.
#[global] Instance MarketParticipantState_debug : Debug MarketParticipantState.t := λ x, text
  match x with
  | MarketParticipantState.Active => "Active"
  | MarketParticipantState.ExcusedOrWithdrawn => "ExcusedOrWithdrawn"
  | MarketParticipantState.Withdrawn => "Withdrawn"
  | MarketParticipantState.Suspended => "Suspended"
  | MarketParticipantState.Deleted => "Deleted"
  end.
#[global] Instance BreachedLevel_debug : Debug BreachedLevel.t := λ x, text
  match x with
  | BreachedLevel.Level1 => "Level1" | BreachedLevel.Level2 => "Level2"
  | BreachedLevel.Level3 => "Level3"
  end.
#[global] Instance IpoReleaseQualifier_debug : Debug IpoReleaseQualifier.t := λ x, text
  match x with
  | IpoReleaseQualifier.Anticipated => "Anticipated"
  | IpoReleaseQualifier.Cancelled => "Cancelled"
  end.
#[global] Instance Printable_debug : Debug Printable.t := λ x, text
  match x with
  | Printable.NonPrintable => "NonPrintable" | Printable.Printable => "Printable"
  end.
#[global] Instance CrossType_debug : Debug CrossType.t := λ x, text
  match x with
  | CrossType.Opening => "Opening" | CrossType.Closing => "Closing"
  | CrossType.Halted => "Halted" | CrossType.Intraday => "Intraday"
  end.
#[global] Instance ImbalanceDirection_debug : Debug ImbalanceDirection.t := λ x, text
  match x with
  | ImbalanceDirection.Buy => "Buy" | ImbalanceDirection.Sell => "Sell"
  | ImbalanceDirection.NoImbalance => "NoImbalance"
  | ImbalanceDirection.InsufficientToCalc => "InsufficientToCalc"
  end.
#[global] Instance RpiInterestFlag_debug : Debug RpiInterestFlag.t := λ x, text
  match x with
  | RpiInterestFlag.BuySide => "BuySide" | RpiInterestFlag.SellSide => "SellSide"
  | RpiInterestFlag.BothSides => "BothSides" | RpiInterestFlag.None => "None"
  end.

Module Client.
Definition DEFAULT_SERVER : list Z := text "127.0.0.1:9100".
Definition DEFAULT_USERNAME : list Z := text "user".
Definition DEFAULT_PASSWORD : list Z := text "pw".

Inductive Transport := Tcp | Soup | Mold.

Module Args.
Record t := mk {
  server : option (list Z);
  transport : Transport;
  soup_username : list Z;
  soup_password : list Z;
}.
(** [Args::parse] without arguments. *)
Definition default : t := mk None Tcp DEFAULT_USERNAME DEFAULT_PASSWORD.
End Args.

(** ** Lines *)

Definition bad_utf8 : list Z := text "<bad utf-8>".
Definition stock_str (s : Stock.t) : list Z :=
  match Stock.as_str s with Ok t => t | Err _ => bad_utf8 end.
Definition mpid_str (m : Mpid.t) : list Z :=
  match Mpid.as_str m with Ok t => t | Err _ => bad_utf8 end.
Definition fmt_side (s : Side.t) : list Z :=
  match s with Side.Buy => text "Buy" | Side.Sell => text "Sell" end.

Definition fmt_price4 (raw : Z) : list Z :=
  let whole := raw / 10000 in
  let frac := raw mod 10000 in
  decimal whole ++ text "." ++ zero_pad 4 frac.
Definition fmt_price8 (raw : Z) : list Z :=
  let whole := raw / 100000000 in
  let frac := raw mod 100000000 in
  decimal whole ++ text "." ++ zero_pad 8 frac.

Definition u32 (x : Shares.t) : list Z := decimal (Shares.as_u32 x).
Definition oref (x : OrderReference.t) : list Z := decimal (OrderReference.as_u64 x).
Definition mnum (x : MatchNumber.t) : list Z := decimal (MatchNumber.as_u64 x).
Definition p4 (x : Price4.t) : list Z := fmt_price4 (Price4.as_u32 x).
Definition p8 (x : Price8.t) : list Z := fmt_price8 (Price8.as_u64 x).
(** [{:<8}] of a symbol. *)
Definition sym (s : Stock.t) : list Z := align_left 8 (stock_str s).

(** The part after [[{ts:>14} ns] {tag} ]. *)
Definition fmt_body (m : Message.t) : list Z :=
  match m with
  | Message.SystemEvent s => text "system_event       code=" ++ debug (SystemEvent.event_code s)
  | Message.StockDirectory r =>
      text "stock_directory    " ++ sym (StockDirectory.stock r)
      ++ text " cat=" ++ debug (StockDirectory.market_category r)
      ++ text " status=" ++ debug (StockDirectory.financial_status r)
      ++ text " round_lot=" ++ u32 (StockDirectory.round_lot_size r)
  | Message.StockTradingAction s =>
      text "trading_action     " ++ sym (StockTradingAction.stock s)
      ++ text " state=" ++ debug (StockTradingAction.trading_state s)
  | Message.RegShoRestriction s =>
      text "reg_sho_restrict   " ++ sym (RegShoRestriction.stock s)
      ++ text " action=" ++ debug (RegShoRestriction.reg_sho_action s)
  | Message.MarketParticipantPosition s =>
      text "mpid_position      mpid=" ++ align_left 4 (mpid_str (MarketParticipantPosition.mpid s))
      ++ text " " ++ sym (MarketParticipantPosition.stock s)
      ++ text " mode=" ++ debug (MarketParticipantPosition.market_maker_mode s)
      ++ text " state=" ++ debug (MarketParticipantPosition.market_participant_state s)
  | Message.MwcbDeclineLevel v =>
      text "mwcb_decline_level L1=" ++ p8 (MwcbDeclineLevel.level1 v)
      ++ text " L2=" ++ p8 (MwcbDeclineLevel.level2 v)
      ++ text " L3=" ++ p8 (MwcbDeclineLevel.level3 v)
  | Message.MwcbStatus s => text "mwcb_status        level=" ++ debug (MwcbStatus.breached_level s)
  | Message.IpoQuotingPeriodUpdate s =>
      text "ipo_quoting_update " ++ sym (IpoQuotingPeriodUpdate.stock s)
      ++ text " qual=" ++ debug (IpoQuotingPeriodUpdate.ipo_quotation_release_qualifier s)
      ++ text " price=" ++ p4 (IpoQuotingPeriodUpdate.ipo_price s)
  | Message.AddOrder a =>
      text "add_order          ref=" ++ oref (AddOrder.order_ref a)
      ++ text " " ++ align_left 4 (fmt_side (AddOrder.side a)) ++ text " " ++ u32 (AddOrder.shares a)
      ++ text " " ++ sym (AddOrder.stock a) ++ text " @ " ++ p4 (AddOrder.price a)
  | Message.AddOrderWithMpid a =>
      text "add_order_mpid     ref=" ++ oref (AddOrderWithMpid.order_ref a)
      ++ text " " ++ align_left 4 (fmt_side (AddOrderWithMpid.side a))
      ++ text " " ++ u32 (AddOrderWithMpid.shares a)
      ++ text " " ++ sym (AddOrderWithMpid.stock a) ++ text " @ " ++ p4 (AddOrderWithMpid.price a)
      ++ text " mpid=" ++ mpid_str (AddOrderWithMpid.attribution a)
  | Message.OrderExecuted e =>
      text "order_executed     ref=" ++ oref (OrderExecuted.order_ref e)
      ++ text " " ++ u32 (OrderExecuted.executed_shares e)
      ++ text " match=" ++ mnum (OrderExecuted.match_number e)
  | Message.OrderExecutedWithPrice e =>
      text "order_exec_price   ref=" ++ oref (OrderExecutedWithPrice.order_ref e)
      ++ text " " ++ u32 (OrderExecutedWithPrice.executed_shares e)
      ++ text " match=" ++ mnum (OrderExecutedWithPrice.match_number e)
      ++ text " @ " ++ p4 (OrderExecutedWithPrice.execution_price e)
      ++ text " " ++ debug (OrderExecutedWithPrice.printable e)
  | Message.OrderCancel x =>
      text "order_cancel       ref=" ++ oref (OrderCancel.order_ref x)
      ++ text " cancelled=" ++ u32 (OrderCancel.cancelled_shares x)
  | Message.OrderDelete d => text "order_delete       ref=" ++ oref (OrderDelete.order_ref d)
  | Message.OrderReplace u =>
      text "order_replace      old=" ++ oref (OrderReplace.original_order_ref u)
      ++ text " new=" ++ oref (OrderReplace.new_order_ref u)
      ++ text " " ++ u32 (OrderReplace.shares u) ++ text " @ " ++ p4 (OrderReplace.price u)
  | Message.TradeNonCross t =>
      text "trade_non_cross    ref=" ++ oref (TradeNonCross.order_ref t)
      ++ text " " ++ align_left 4 (fmt_side (TradeNonCross.side t))
      ++ text " " ++ u32 (TradeNonCross.shares t) ++ text " " ++ sym (TradeNonCross.stock t)
      ++ text " @ " ++ p4 (TradeNonCross.price t) ++ text " match=" ++ mnum (TradeNonCross.match_number t)
  | Message.CrossTrade q =>
      text "cross_trade        " ++ sym (CrossTrade.stock q) ++ text " " ++ decimal (CrossTrade.shares q)
      ++ text " @ " ++ p4 (CrossTrade.cross_price q) ++ text " match=" ++ mnum (CrossTrade.match_number q)
      ++ text " type=" ++ debug (CrossTrade.cross_type q)
  | Message.BrokenTrade b => text "broken_trade       match=" ++ mnum (BrokenTrade.match_number b)
  | Message.Noii n =>
      text "noii               " ++ sym (Noii.stock n) ++ text " paired=" ++ decimal (Noii.paired_shares n)
      ++ text " imb=" ++ decimal (Noii.imbalance_shares n)
      ++ text " dir=" ++ debug (Noii.imbalance_direction n)
      ++ text " type=" ++ debug (Noii.cross_type n)
  | Message.RetailPriceImprovement r =>
      text "retail_price_imp   " ++ sym (RetailPriceImprovement.stock r)
      ++ text " flag=" ++ debug (RetailPriceImprovement.interest_flag r)
  end.

Definition fmt_message (m : Message.t) : list Z :=
  let ts := Timestamp.as_u64 (Header.timestamp (Message.header m)) in
  text "[" ++ align_right 14 (decimal ts) ++ text " ns] " ++ [Message.tag m] ++ text " " ++ fmt_body m.

(** ** The loops *)

(** What [writeln!] gives: nothing, or the kind of an error. *)
Definition write_line (io : option string) : result bool string :=
  match io with
  | None => Ok true
  | Some kind => if decide (kind = "BrokenPipe") then Ok false else Err kind
  end.

Inductive tick (E : Type) := CtrlC | Next (item : option (result Message.t E)) (io : option string).
#[global] Arguments CtrlC {_}.
#[global] Arguments Next {_} _ _.

Definition is_end_of_messages (msg : Message.t) : bool :=
  match msg with
  | Message.SystemEvent s => bool_decide (SystemEvent.event_code s = EventCode.EndOfMessages)
  | _ => false
  end.

(** The arm for a message, which both loops have: the line, then [k] goes on. *)
Definition on_message (msg : Message.t) (io : option string) (lines : list (list Z))
    (k : list (list Z) → list (list Z) * option Z) : list (list Z) * option Z :=
  let line := fmt_message msg in
  match write_line io with
  | Ok true =>
      let lines := lines ++ [line] in
      if is_end_of_messages msg then (lines, Some 0) else k lines
  | Ok false => (lines, Some 0)
  | Err _ => (lines, Some 4)
  end.

Fixpoint tcp_loop (ticks : list (tick TransportError.t)) (lines : list (list Z))
    : list (list Z) * option Z :=
  match ticks with
  | [] => (lines, None)
  | CtrlC :: _ => (lines, Some 0)
  | Next item io :: ticks =>
      match item with
      | Some (Ok msg) => on_message msg io lines (tcp_loop ticks)
      | Some (Err (TransportError.Protocol _)) | Some (Err (TransportError.FrameTooLarge _ _)) =>
          tcp_loop ticks lines
      | Some (Err _) => (lines, Some 3)
      | None => (lines, Some 5)
      end
  end.

(** [connected] is the outcome of [connect]. *)
Definition run_tcp (connected : result unit string) (ticks : list (tick TransportError.t))
    : list (list Z) * option Z :=
  match connected with Ok _ => tcp_loop ticks [] | Err _ => ([], Some 2) end.

Fixpoint soup_loop (ticks : list (tick SoupError.t)) (lines : list (list Z))
    : list (list Z) * option Z :=
  match ticks with
  | [] => (lines, None)
  | CtrlC :: _ => (lines, Some 0)
  | Next item io :: ticks =>
      match item with
      | Some (Ok msg) => on_message msg io lines (soup_loop ticks)
      | Some (Err (SoupError.Protocol _)) => soup_loop ticks lines
      | Some (Err SoupError.SessionEnded) => (lines, Some 0)
      | Some (Err (SoupError.LoginRejected _)) => (lines, Some 6)
      | Some (Err _) => soup_loop ticks lines
      | None => (lines, Some 0)
      end
  end.

(** [addr] is the outcome of [server.parse()]. *)
Definition run_soup (addr : result unit string) (ticks : list (tick SoupError.t))
    : list (list Z) * option Z :=
  match addr with Ok _ => soup_loop ticks [] | Err _ => ([], Some 2) end.

Definition mold_not_available_code : Z := 1.
Definition run_mold : list (list Z) * option Z := ([], Some mold_not_available_code).

(** The address: the flag, the environment variable, the default. *)
Definition server_address (args : Args.t) (itch_server : option (list Z)) : list Z :=
  match Args.server args with
  | Some s => s
  | None => match itch_server with Some s => s | None => DEFAULT_SERVER end
  end.

(** The world: what connecting to an address gives, and what then happens. *)
Definition main (args : Args.t) (itch_server : option (list Z))
    (tcp : list Z → result unit string * list (tick TransportError.t))
    (soup : list Z → list Z → list Z → result unit string * list (tick SoupError.t))
    : list (list Z) * option Z :=
  let server := server_address args itch_server in
  match Args.transport args with
  | Tcp => let '(connected, ticks) := tcp server in run_tcp connected ticks
  | Soup =>
      let '(addr, ticks) := soup server (Args.soup_username args) (Args.soup_password args) in
      run_soup addr ticks
  | Mold => run_mold
  end.
End Client.

(** ** Prices *)

Module ClientFacts.
Import Client.

(** The text of a price with [k] decimals: the integer part, a point, and [k]
    digits, which together are the number. *)
Lemma price_text k raw :
  is_u64 raw → (0 < k ≤ 18)%nat →
  let scale := 10 ^ Z.of_nat k in
  let whole := decimal (raw / scale) in
  let frac := zero_pad k (raw mod scale) in
  all_digits whole ∧ whole ≠ [] ∧ all_digits frac ∧ length frac = k
  ∧ dec_value whole * scale + dec_value frac = raw.
Proof.
  intros [Hr0 Hr] Hk scale whole frac.
  assert (0 < scale) as Hs by (apply Z.pow_pos_nonneg; lia).
  assert (scale ≤ 10 ^ 18) as Hs' by (apply Z.pow_le_mono_r; lia).
  pose proof (Z.mod_pos_bound raw scale Hs) as Hm. pose proof (Z.div_mod raw scale ltac:(lia)) as Hdm.
  destruct (decimal_spec (raw / scale)) as (Hd & Hv & Hne).
  { split; [by apply Z.div_pos; lia|]. apply Z.div_lt_upper_bound; [lia|]. nia. }
  destruct (zero_pad_spec k (raw mod scale)) as (Hd' & Hv' & Hl); [split; lia|by apply Hm|lia|].
  split_and!; try done. unfold whole, frac. rewrite Hv, Hv'. lia.
Qed.

Lemma price_text_inj k raw raw' :
  is_u64 raw → is_u64 raw' → (0 < k ≤ 18)%nat →
  decimal (raw / 10 ^ Z.of_nat k) ++ text "." ++ zero_pad k (raw mod 10 ^ Z.of_nat k)
  = decimal (raw' / 10 ^ Z.of_nat k) ++ text "." ++ zero_pad k (raw' mod 10 ^ Z.of_nat k) →
  raw = raw'.
Proof.
  intros Hr Hr' Hk E. pose proof (price_text k raw Hr Hk) as (_ & _ & _ & Hl & Hv).
  pose proof (price_text k raw' Hr' Hk) as (_ & _ & _ & Hl' & Hv'). rewrite !app_assoc in E.
  apply app_inj_2 in E as [E1 E2]; [|by rewrite Hl, Hl']. apply app_inj_2 in E1 as [E1 _]; [|done].
  rewrite <-Hv, <-Hv'. by rewrite E1, E2.
Qed.

(** ** Lines *)

Definition newline : Z := 10.

(** The symbols and participant ids in the line of a message, as printed. *)
Definition printed_names (m : Message.t) : list (list Z) :=
  match m with
  | Message.StockDirectory r => [stock_str (StockDirectory.stock r)]
  | Message.StockTradingAction s => [stock_str (StockTradingAction.stock s)]
  | Message.RegShoRestriction s => [stock_str (RegShoRestriction.stock s)]
  | Message.MarketParticipantPosition s =>
      [mpid_str (MarketParticipantPosition.mpid s); stock_str (MarketParticipantPosition.stock s)]
  | Message.IpoQuotingPeriodUpdate s => [stock_str (IpoQuotingPeriodUpdate.stock s)]
  | Message.AddOrder a => [stock_str (AddOrder.stock a)]
  | Message.AddOrderWithMpid a =>
      [stock_str (AddOrderWithMpid.stock a); mpid_str (AddOrderWithMpid.attribution a)]
  | Message.TradeNonCross t => [stock_str (TradeNonCross.stock t)]
  | Message.CrossTrade q => [stock_str (CrossTrade.stock q)]
  | Message.Noii n => [stock_str (Noii.stock n)]
  | Message.RetailPriceImprovement r => [stock_str (RetailPriceImprovement.stock r)]
  | _ => []
  end.

(** Text in which no line ends. *)
Definition plain (t : list Z) : Prop := newline ∉ t.
#[local] Instance plain_dec t : Decision (plain t). Proof. unfold plain. apply _. Defined.

Lemma plain_app t u : plain (t ++ u) ↔ plain t ∧ plain u.
Proof. unfold plain. rewrite elem_of_app. tauto. Qed.
Lemma plain_text s : bool_decide (plain (text s)) = true → plain (text s) ↔ True.
Proof. rewrite bool_decide_eq_true. tauto. Qed.
Lemma plain_digits ds : all_digits ds → plain ds.
Proof. intros Hd. by apply (all_digits_no newline) in Hd. Qed.
Lemma plain_digits_of fuel n : plain (digits_of fuel n).
Proof.
  apply plain_digits. revert n. induction fuel as [|fuel IH]; intros n; [constructor|]. simpl.
  apply Forall_app. split; [|by constructor; [apply digit_of|]].
  destruct (n <? 10); [constructor|apply IH].
Qed.
Lemma plain_decimal n : plain (decimal n) ↔ True.
Proof. split; [done|]. intros _. apply plain_digits_of. Qed.
Lemma plain_replicate k b : b ≠ newline → plain (replicate k b).
Proof. intros Hb [E _]%elem_of_replicate. congruence. Qed.
Lemma plain_align_left w t : plain (align_left w t) ↔ plain t.
Proof. unfold align_left. rewrite plain_app. intuition. by apply plain_replicate. Qed.
Lemma plain_align_right w t : plain (align_right w t) ↔ plain t.
Proof. unfold align_right. rewrite plain_app. intuition. by apply plain_replicate. Qed.
Lemma plain_zero_pad w n : plain (zero_pad w n) ↔ True.
Proof.
  unfold zero_pad. rewrite plain_app, plain_decimal. intuition. by apply plain_replicate.
Qed.
Lemma plain_p4 x : plain (p4 x) ↔ True.
Proof.
  unfold p4, fmt_price4. cbv zeta. rewrite !plain_app, plain_decimal, plain_zero_pad.
  by rewrite (plain_text ".").
Qed.
Lemma plain_p8 x : plain (p8 x) ↔ True.
Proof.
  unfold p8, fmt_price8. cbv zeta. rewrite !plain_app, plain_decimal, plain_zero_pad.
  by rewrite (plain_text ".").
Qed.
Lemma plain_side s : plain (fmt_side s) ↔ True.
Proof. split; [done|]. intros _. destruct s; by apply plain_text. Qed.

(** The name of a variant. *)
Class PlainDebug (T : Type) `{Debug T} := plain_debug (x : T) : plain (debug x) ↔ True.
#[local] Ltac names := intros x; split; [done|intros _; destruct x; by apply plain_text].
#[local] Instance : PlainDebug EventCode.t. Proof. names. Qed.
#[local] Instance : PlainDebug MarketCategory.t. Proof. names. Qed.
#[local] Instance : PlainDebug FinancialStatus.t. Proof. names. Qed.
#[local] Instance : PlainDebug TradingState.t. Proof. names. Qed.
#[local] Instance : PlainDebug RegShoAction.t. Proof. names. Qed.
#[local] Instance : PlainDebug MarketMakerMode.t. Proof. names. Qed.
#[local] Instance : PlainDebug MarketParticipantState.t. Proof. names. Qed.
#[local] Instance : PlainDebug BreachedLevel.t. Proof. names. Qed.
#[local] Instance : PlainDebug IpoReleaseQualifier.t. Proof. names. Qed.
#[local] Instance : PlainDebug Printable.t. Proof. names. Qed.
#[local] Instance : PlainDebug CrossType.t. Proof. names. Qed.
#[local] Instance : PlainDebug ImbalanceDirection.t. Proof. names. Qed.
#[local] Instance : PlainDebug RpiInterestFlag.t. Proof. names. Qed.

Lemma plain_tag m : plain [Message.tag m] ↔ True.
Proof. split; [done|]. intros _. by destruct m; apply (bool_decide_eq_true (plain _)). Qed.

Lemma plain_fmt_message m : plain (fmt_message m) ↔ Forall plain (printed_names m).
Proof.
  unfold fmt_message. cbv zeta.
  rewrite !plain_app, plain_align_right, plain_decimal, plain_tag, !plain_text by done.
  destruct m; cbn [fmt_body printed_names]; unfold sym, u32, oref, mnum;
    rewrite ?Forall_cons, ?Forall_nil, ?plain_app, ?plain_align_left, ?plain_decimal, ?plain_side,
      ?plain_p4, ?plain_p8, ?plain_debug, ?plain_text by done; tauto.
Qed.
End ClientFacts.

(** ** The stream of a connection

    [tokio_util]'s [Framed] is not code of the repository.  [framed xs] is what
    it yields on a connection that carries the results [xs] of the decoder and is
    then closed by the peer.  The documentation of [Decoder::decode] says that an
    error tells [Framed] that the stream is corrupt and is to be terminated, and
    [None] is how a stream tells that it is terminated. *)
Class FramedDocumented {I E : Type} (framed : list (result I E) → list (option (result I E))) : Prop := {
  framed_items its : framed (map Ok its) = map (λ i, Some (Ok i)) its ++ [None];
  framed_error its e rest : ∃ more,
    framed (map Ok its ++ Err e :: rest) = map (λ i, Some (Ok i)) its ++ Some (Err e) :: None :: more;
}.

(** A stream that ends there. *)
Fixpoint terminating {I E : Type} (xs : list (result I E)) : list (option (result I E)) :=
  match xs with
  | [] => [None]
  | Ok i :: xs => Some (Ok i) :: terminating xs
  | Err e :: _ => [Some (Err e); None]
  end.
#[global] Instance terminating_documented I E : FramedDocumented (@terminating I E).
Proof.
  split.
  - intros its. induction its as [|i its IH]; simpl; [done|]. by rewrite IH.
  - intros its e rest. exists []. induction its as [|i its IH]; simpl; [done|]. by rewrite IH.
Qed.

Section client_loop.
Import Client ClientFacts.

(** The messages up to the first End of Messages, with it. *)
Fixpoint until_end (ms : list Message.t) : list Message.t :=
  match ms with
  | [] => []
  | m :: ms => m :: if is_end_of_messages m then [] else until_end ms
  end.

(** Standard output takes every line and nobody presses Ctrl-C. *)
Definition undisturbed {E : Type} (events : list (option (result Message.t E))) : list (tick E) :=
  map (λ e, Next e None) events.

Lemma undisturbed_app {E : Type} (xs ys : list (option (result Message.t E))) :
  undisturbed (xs ++ ys) = undisturbed xs ++ undisturbed ys.
Proof. apply map_app. Qed.

Lemma tcp_loop_messages ms ticks lines :
  tcp_loop (undisturbed (map (λ i, Some (Ok i)) ms) ++ ticks) lines
  = if existsb is_end_of_messages ms then (lines ++ map fmt_message (until_end ms), Some 0)
    else tcp_loop ticks (lines ++ map fmt_message ms).
Proof.
  revert lines. induction ms as [|m ms IH]; intros lines.
  { cbn [map existsb undisturbed app]. by rewrite app_nil_r. }
  cbn [map undisturbed app tcp_loop on_message write_line existsb until_end].
  destruct (is_end_of_messages m); [done|]. fold (undisturbed (map (λ i, Some (@Ok _ TransportError.t i)) ms)).
  rewrite IH, <-!app_assoc. done.
Qed.

Lemma until_end_none ms : existsb is_end_of_messages ms = false → until_end ms = ms.
Proof.
  induction ms as [|m ms IH]; simpl; [done|]. intros [-> Hms]%orb_false_iff. by rewrite IH.
Qed.

Lemma until_end_app ms ms' :
  existsb is_end_of_messages ms = false → until_end (ms ++ ms') = ms ++ until_end ms'.
Proof.
  induction ms as [|m ms IH]; simpl; [done|]. intros [-> H]%orb_false_iff. by rewrite IH.
Qed.

Lemma tcp_client_items framed `{!FramedDocumented framed} ms :
  run_tcp (Ok tt) (undisturbed (framed (map Ok ms)))
  = (map fmt_message (until_end ms), Some (if existsb is_end_of_messages ms then 0 else 5)).
Proof.
  unfold run_tcp. rewrite framed_items, undisturbed_app, tcp_loop_messages.
  destruct (existsb is_end_of_messages ms) eqn:E; [done|]. simpl. by rewrite until_end_none.
Qed.
End client_loop.

(** ** Properties *)

(** A price is printed exactly.  The text of a [Price4] is an integer, a
    point and four digits, the text of a [Price8] an integer, a point and eight
    digits, and the number they denote is the value of the field; so two prices
    that print alike are equal. *)
Theorem client_price_text (k : nat) (fmt : Z → list Z) raw raw' :
  (k, fmt) ∈ [(4%nat, Client.fmt_price4); (8%nat, Client.fmt_price8)] →
  is_u64 raw → is_u64 raw' →
  (∃ whole frac, fmt raw = whole ++ text "." ++ frac
     ∧ all_digits whole ∧ whole ≠ [] ∧ all_digits frac ∧ length frac = k
     ∧ dec_value whole * 10 ^ Z.of_nat k + dec_value frac = raw)
  ∧ (fmt raw = fmt raw' → raw = raw').
Proof.
  intros Hk Hr Hr'.
  assert ((0 < k ≤ 18)%nat ∧ ∀ r, fmt r = decimal (r / 10 ^ Z.of_nat k) ++ text "."
    ++ zero_pad k (r mod 10 ^ Z.of_nat k)) as [Hk' Hfmt].
  { repeat (apply elem_of_cons in Hk as [Hk|Hk]; [simplify_eq; split; [lia|done]|]).
    by apply not_elem_of_nil in Hk. }
  rewrite !Hfmt. split; [|by apply ClientFacts.price_text_inj].
  do 2 eexists. split; [done|]. by apply ClientFacts.price_text.
Qed.

Lemma client_price_text_witness :
  (∃ whole frac, Client.fmt_price4 1925000 = whole ++ text "." ++ frac
     ∧ all_digits whole ∧ whole ≠ [] ∧ all_digits frac ∧ length frac = 4%nat
     ∧ dec_value whole * 10 ^ Z.of_nat 4 + dec_value frac = 1925000)
  ∧ Client.fmt_price4 1925000 = text "192.5000".
Proof.
  split; [|vm_compute; reflexivity].
  apply (client_price_text 4 Client.fmt_price4 1925000 1); [|done|done].
  apply list_elem_of_here.
Defined.

(** C28: the client over TCP.  Whatever pieces the messages of a feed arrive in,
    the client prints one entry per message, in order, up to the End of Messages
    with which it exits 0; where the peer closes before that, everything is
    printed and the exit code is 5.  An entry is one line exactly when no symbol
    or participant id printed in it contains a newline. *)
Theorem client_prints_feed framed `{!FramedDocumented framed} ms chunks :
  Forall wf ms → concat chunks = frames_wire (map message_wire ms) →
  Client.run_tcp (Ok tt) (undisturbed (framed (read_chunks ItchCodec.decode chunks Reader.new).2))
  = (map Client.fmt_message (until_end ms),
     Some (if existsb Client.is_end_of_messages ms then 0 else 5))
  ∧ ∀ m, ClientFacts.newline ∉ Client.fmt_message m
         ↔ Forall (λ name, ClientFacts.newline ∉ name) (ClientFacts.printed_names m).
Proof.
  intros Hwf Hc. rewrite (itch_read_messages ms) by done. split; [by apply tcp_client_items|].
  apply ClientFacts.plain_fmt_message.
Qed.

Lemma client_prints_feed_witness :
  Client.run_tcp (Ok tt) (undisturbed (terminating
    (read_chunks ItchCodec.decode
       [frames_wire (map message_wire (take 3 canonical_session))] Reader.new).2))
  = (map Client.fmt_message (take 3 canonical_session), Some 5)
  ∧ map Client.fmt_message (take 1 canonical_session)
    = [text "[32400000000000 ns] S system_event       code=StartOfMessages"].
Proof.
  split; [|vm_compute; reflexivity].
  refine (proj1 (client_prints_feed terminating (take 3 canonical_session) _ _ _)).
  - apply Forall_take, canonical_session_wf.
  - apply app_nil_r.
Defined.

(** A frame that does not decode ends the client.  The codec takes up the
    next frame and the client's loop means to continue, but the stream under it
    is terminated by the error: whatever follows the bad frame, nothing more is
    printed and the client exits with 5, the code of a premature disconnect. *)
Theorem client_ends_at_bad_frame framed `{!FramedDocumented framed} ms bad rest e chunks :
  Forall wf ms → existsb Client.is_end_of_messages ms = false →
  frame_ok bad → itch_frame bad = Err e → Forall frame_ok rest →
  concat chunks = frames_wire (map message_wire ms ++ bad :: rest) →
  (read_chunks ItchCodec.decode chunks Reader.new).2 = map Ok ms ++ Err e :: map itch_frame rest
  ∧ Client.run_tcp (Ok tt) (undisturbed (framed (read_chunks ItchCodec.decode chunks Reader.new).2))
    = (map Client.fmt_message ms, Some 5).
Proof.
  intros Hwf Hend Hbad He Hrest Hc.
  assert ((read_chunks ItchCodec.decode chunks Reader.new).2
    = map Ok ms ++ Err e :: map itch_frame rest) as Hread.
  { rewrite (read_chunks_frames (map message_wire ms ++ bad :: rest)); [|by apply Forall_app_2;
      [apply Forall_map; eapply Forall_impl, message_frame_ok|by constructor]|done].
    simpl. rewrite map_app. cbn [map]. rewrite He. f_equal. rewrite map_map.
    clear Hc. induction Hwf as [|m ms Hm Hwf IH]; simpl in *; [done|].
    apply orb_false_iff in Hend as [_ Hend]. by rewrite itch_frame_message, IH. }
  split; [done|]. rewrite Hread. destruct (framed_error ms e (map itch_frame rest)) as [more ->].
  unfold Client.run_tcp. rewrite undisturbed_app, tcp_loop_messages, Hend.
  assert ((∃ p, e = TransportError.Protocol p) ∨ ∃ got max, e = TransportError.FrameTooLarge got max)
    as [[p ->]|(got & max & ->)]; [|done|done].
  unfold itch_frame, prefixed_result, itch_reject, itch_parse in He.
  destruct (_ <? _)%nat; [simplify_eq; eauto|].
  destruct (Message_decode bad); [done|]. simplify_eq. eauto.
Qed.

Lemma client_ends_at_bad_frame_witness :
  Client.run_tcp (Ok tt) (undisturbed (terminating
    (read_chunks ItchCodec.decode
       [frames_wire (map message_wire (take 1 canonical_session)
                     ++ [0] :: map message_wire (drop 1 canonical_session))] Reader.new).2))
  = (map Client.fmt_message (take 1 canonical_session), Some 5).
Proof.
  refine (proj2 (client_ends_at_bad_frame terminating (take 1 canonical_session) [0]
    (map message_wire (drop 1 canonical_session)) (TransportError.Protocol (UnknownMessageType 0))
    _ _ _ _ _ _ _)).
  - apply Forall_take, canonical_session_wf.
  - reflexivity.
  - done.
  - reflexivity.
  - apply Forall_map. eapply Forall_impl; [apply Forall_drop, canonical_session_wf|].
    apply message_frame_ok.
  - apply app_nil_r.
Defined.
