(* ===== verification/Demo.v ===== *)
(** The demo publisher ([crates/itch-server/src/main.rs]) and its subscriber.

    [ServerMain.run] builds a server from the command line: the address, the
    source, the store and the policy, then the server of the chosen transport,
    ready to serve.  From there the server moves as [TcpServer.v] and
    [SoupServer.v] describe.  The parsing of the command line by [clap] ([Args] is
    its result), of addresses and the binding of sockets are outside: their
    outcomes are arguments. *)

From S2P Require Import Prelude Primitives Text Enums Messages Codec CodecMessages MessageCodec.
From S2P Require Import SeqStore Framing TcpCodec SoupCodec SoupSession Sources Conformance.
From S2P Require Import SoupServer TcpServer Client.

(** What a source that never waits gives, one item per poll, until it ends. *)
Fixpoint poll_items `{MessageSource Src} (fuel : nat) (src : Src) : list source_item :=
  match fuel with
  | O => []
  | S fuel =>
      match poll_next 0 src with
      | (src, Ready (Some item)) => item :: poll_items fuel src
      | (_, Ready None) | (_, Pending) => []
      end
  end.

Lemma poll_items_iterator ms fuel :
  (length ms < fuel)%nat → poll_items fuel (IteratorSource.new ms) = map Ok ms.
Proof.
  revert ms. induction fuel as [|fuel IH]; intros ms Hf; [lia|]. destruct ms as [|m ms]; [done|].
  simpl in Hf. simpl. f_equal. apply IH. lia.
Qed.

Module ServerMain.
Definition DEFAULT_BIND : list Z := text "127.0.0.1:9100".
Definition DEFAULT_CACHE_SIZE : Z := 65536.

Inductive Transport := Tcp | Soup | Mold.
Inductive SourceKind := Iterator | ReplayGlimpse | ReplayRaw.

Module Args.
Record t := mk {
  bind : option (list Z);
  transport : Transport;
  source : SourceKind;
  source_path : option (list Z);
  cache_size : Z;
}.
(** [Args::parse] without arguments. *)
Definition default : t := mk None Tcp Iterator None DEFAULT_CACHE_SIZE.
End Args.

(** A server that is bound and about to serve. *)
Inductive bound :=
| ServeTcp (w : TcpServer.world RingSeqStore.t)
| ServeSoup (cfg : ServerConfig.t) (w : SoupServer.world RingSeqStore.t).

Definition mold_publisher_not_available : string := "Unsupported".

Definition bind_address (args : Args.t) (itch_bind : option (list Z)) : list Z :=
  match Args.bind args with
  | Some addr => addr
  | None => match itch_bind with Some addr => addr | None => DEFAULT_BIND end
  end.

(** [parse] reads a socket address, [listen] binds it; an error is its kind.
    The policy of both servers is [StaticPolicy.empty]. *)
Definition policy : StaticPolicy.t := StaticPolicy.empty.
Definition warmup (_ : RingSeqStore.t) : result (list Message.t) SourceError.t :=
  StaticPolicy.warmup policy.

Definition run {Addr : Type} (parse : list Z → option Addr) (listen : Addr → option string)
    (args : Args.t) (itch_bind : option (list Z)) : result bound string :=
  match parse (bind_address args itch_bind) with
  | None => Err "InvalidInput"
  | Some addr =>
      match Args.source args with
      | ReplayGlimpse | ReplayRaw => Err "Unsupported"
      | Iterator =>
          let source := IteratorSource.new canonical_session in
          let items := poll_items (S (length canonical_session)) source in
          let store := RingSeqStore.with_capacity (Args.cache_size args) in
          match Args.transport args with
          | Tcp =>
              match listen addr with
              | Some kind => Err kind
              | None => Ok (ServeTcp (TcpServer.init store items))
              end
          | Soup =>
              match listen addr with
              | Some kind => Err kind
              | None => Ok (ServeSoup ServerConfig.bind (SoupServer.init store items))
              end
          | Mold => Err mold_publisher_not_available
          end
      end
  end.

(** The exit code, once [run] has returned. *)
Definition main (r : result unit string) : Z := match r with Ok _ => 0 | Err _ => 1 end.
End ServerMain.

Section demo.
Context {Addr : Type} (parse : list Z → option Addr) (listen : Addr → option string).
Import ServerMain.

(** The world in which the TCP server starts. *)
Definition demo_world (args : Args.t) : TcpServer.world RingSeqStore.t :=
  TcpServer.init (RingSeqStore.with_capacity (Args.cache_size args)) (map Ok canonical_session).

Lemma run_tcp_world args itch_bind w0 :
  run parse listen args itch_bind = Ok (ServeTcp w0) →
  w0 = demo_world args ∧ Args.transport args = Tcp ∧ Args.source args = Iterator.
Proof.
  unfold run. destruct (parse _) as [addr|]; [|done]. destruct (Args.source args) eqn:Hs; try done.
  cbv zeta. rewrite poll_items_iterator by lia.
  destruct (Args.transport args) eqn:Ht; destruct (listen addr); try done. intros [= <-]. done.
Qed.

Lemma nth_message_wf k : wf (nth_message canonical_session k).
Proof.
  unfold nth_message. destruct (nth_in_or_default (Z.to_nat (k - 1)) canonical_session
    (fixture EventCode.StartOfMessages)) as [Hin|E].
  - pose proof canonical_session_wf as Hwf. rewrite Forall_forall in Hwf. apply Hwf. by apply list_elem_of_In.
  - rewrite E. vm_compute. repeat split; discriminate.
Qed.

Lemma src_ok_session ms n : src_ok (nth_message ms) n (map Ok (map (nth_message ms) (seqZ n (Z.of_nat (length ms) + 1 - n)))).
Proof.
  remember (Z.to_nat (Z.of_nat (length ms) + 1 - n)) as k eqn:Hk.
  revert n Hk. induction k as [|k IH]; intros n Hk.
  { by rewrite seqZ_nil by lia. }
  rewrite seqZ_cons by lia. simpl. split; [done|].
  replace (Z.pred (Z.of_nat (length ms) + 1 - n)) with (Z.of_nat (length ms) + 1 - Z.succ n) by lia.
  rewrite <-Z.add_1_r. apply IH. lia.
Qed.

(** What a subscriber of the demo has been sent: a run of the session. *)
Lemma demo_out args w i s :
  rtc (tcp_move warmup) (demo_world args) w → TcpServer.subs w !! i = Some s →
  ∃ from n, TcpServer.Sub.out s = take n (drop from canonical_session).
Proof.
  intros Hr Hi. pose proof (tcp_log_bound _ _ _ _ Hr) as Hb. rewrite length_map in Hb.
  set (ms := canonical_session) in *.
  assert (tcp_world_ok warmup (nth_message ms) 1 1 w) as Hw.
  { eapply tcp_reachable_ok; [apply nth_message_wf| |lia| | | | |exact Hr].
    - intros st ws [= <-]. constructor.
    - change 1 with (SeqStore.high (RingSeqStore.with_capacity (Args.cache_size args)) + 1).
      apply tracks_empty; [apply RingSeqStoreFacts.inv_with_capacity|done].
    - done.
    - pose proof (src_ok_session ms 1) as Hs.
      by rewrite Z.add_simpl_r, <-nth_message_all in Hs.
    - vm_compute. reflexivity. }
  pose proof (tcp_sub_served _ _ _ _ _ (Forall_lookup_1 _ _ i _ (tw_subs _ _ _ _ _ Hw) Hi)) as Hs.
  destruct Hs as [->|[(st & ws & [= <-] & ->%prefix_nil_inv)|(upto & Hu & st & ws & from & [= <-] & Hf & ->)]];
    [by exists O, O|by exists O, O|].
  exists (Z.to_nat (from - 1)), (Z.to_nat (upto - from)). cbn [app].
  pose proof (nth_message_run ms from (upto - from)) as Hrun.
  apply (f_equal (map snd)) in Hrun; [|lia|lia|lia]. rewrite map_map in Hrun.
  change (map (λ x, (x, nth_message ms x).2)) with (map (nth_message ms)) in Hrun.
  rewrite Hrun. apply snd_zip. rewrite length_seqZ, length_take. lia.
Qed.

(** The session ends with its only End of Messages. *)
Definition session_body : list Message.t := take (length canonical_session - 1) canonical_session.
Definition session_end : Message.t := nth (length canonical_session - 1) canonical_session (fixture EventCode.StartOfMessages).
Lemma session_shape :
  canonical_session = session_body ++ [session_end]
  ∧ existsb Client.is_end_of_messages session_body = false
  ∧ Client.is_end_of_messages session_end = true.
Proof. vm_compute. split_and!; reflexivity. Qed.

Lemma existsb_sub {A} (p : A → bool) l l' :
  (∀ x, x ∈ l' → x ∈ l) → existsb p l = false → existsb p l' = false.
Proof.
  intros Hsub. rewrite <-!not_true_iff_false, !existsb_exists. intros Hn (x & Hx & Hp).
  apply Hn. exists x. split; [|done]. by apply list_elem_of_In, Hsub, list_elem_of_In.
Qed.

Lemma session_run from n :
  let run := take n (drop from canonical_session) in
  until_end run = run
  ∧ existsb Client.is_end_of_messages run
    = bool_decide (from < length canonical_session ≤ from + n)%nat.
Proof.
  cbv zeta. destruct session_shape as (Hs & Hb & He).
  assert (∀ l, (∀ x, x ∈ l → x ∈ session_body) → existsb Client.is_end_of_messages l = false) as Hno.
  { intros l Hl. by eapply existsb_sub. }
  assert (length canonical_session = S (length session_body)) as Hlen.
  { rewrite Hs at 1. rewrite length_app. cbn [length]. lia. }
  rewrite Hlen, Hs. destruct (decide (length session_body < from)%nat) as [Hf|Hf].
  { rewrite drop_ge, take_nil by (rewrite length_app; cbn [length]; lia). split; [done|].
    by rewrite bool_decide_eq_false_2 by lia. }
  rewrite drop_app_le by lia. destruct (decide (n ≤ length session_body - from)%nat) as [Hn|Hn].
  - rewrite take_app_le by (rewrite length_drop; lia).
    assert (existsb Client.is_end_of_messages (take n (drop from session_body)) = false) as E.
    { apply Hno. intros x Hx. apply (subseteq_drop from).
      apply (sublist_subseteq _ _ (sublist_take _ n)), Hx. }
    rewrite E. split; [by apply until_end_none|]. by rewrite bool_decide_eq_false_2 by lia.
  - rewrite take_ge by (rewrite length_app, length_drop; cbn [length]; lia).
    rewrite until_end_app, existsb_app by (by apply Hno, subseteq_drop).
    cbn [until_end existsb]. rewrite He, orb_true_r. split; [done|]. by rewrite bool_decide_eq_true_2 by lia.
Qed.
End demo.

(** C22: the demo.  The publisher started over TCP with its built-in session and
    the subscriber connected to it: whatever the tasks of the server do in
    whatever order, and however the network cuts the bytes, the subscriber has
    been sent a run of consecutive messages of the session and prints exactly
    these, one line each; it exits 0 if and only if the run reaches the last
    message, and 5 if the connection ends before. *)
Theorem demo_prints_session {Addr} (parse : list Z → option Addr) listen framed
    `{!FramedDocumented framed} args itch_bind w0 w i s chunks :
  ServerMain.run parse listen args itch_bind = Ok (ServerMain.ServeTcp w0) →
  rtc (tcp_move ServerMain.warmup) w0 w → TcpServer.subs w !! i = Some s →
  itch_send (TcpServer.Sub.out s) [] = (concat chunks, Ok tt) →
  ∃ from n, let run := take n (drop from canonical_session) in
    TcpServer.Sub.out s = run
    ∧ Client.run_tcp (Ok tt) (undisturbed (framed (read_chunks ItchCodec.decode chunks Reader.new).2))
      = (map Client.fmt_message run,
         Some (if bool_decide (from < length canonical_session ≤ from + n)%nat then 0 else 5))
    ∧ Forall (λ m, ClientFacts.newline ∉ Client.fmt_message m) run.
Proof.
  intros Hrun Hr Hi Hsend. apply run_tcp_world in Hrun as (-> & _ & _).
  destruct (demo_out args w i s Hr Hi) as (from & n & Hout). exists from, n. cbv zeta.
  assert (Forall wf (TcpServer.Sub.out s)) as Hwf.
  { rewrite Hout. apply Forall_take, Forall_drop, canonical_session_wf. }
  rewrite itch_send_frames in Hsend by done. injection Hsend as Hb. split; [done|]. split.
  - rewrite (itch_read_messages (TcpServer.Sub.out s)) by done. cbn [snd].
    rewrite tcp_client_items by done. destruct (session_run from n) as [Hu He].
    by rewrite Hout, Hu, He.
  - apply Forall_take, Forall_drop. apply (bool_decide_eq_true (Forall _ _)). vm_compute. reflexivity.
Qed.

(** The messages that a client sees which connects in the middle of the session. *)
Definition demo_actions : list TcpServer.action :=
  TcpServer.IngestStart :: concat (replicate 8 [TcpServer.IngestNext; TcpServer.IngestSend])
  ++ [TcpServer.Accept; TcpServer.SubWarmup 0 None]
  ++ concat (replicate (length canonical_session - 8)
       [TcpServer.IngestNext; TcpServer.IngestSend; TcpServer.SubRecv 0 false true]).
Definition demo_parse (t : list Z) : option (list Z) := Some t.
Definition demo_listen (_ : list Z) : option string := None.

Section runs.
Context `{SeqStore.Ops St E} (warmup : St → result (list Message.t) SourceError.t).
Import TcpServer.
Implicit Types w : world St.

(** The ingest task needs nobody else to come to its end. *)
Lemma ingest_drains ms st n lg sb :
  ∃ st' lg', rtc (tcp_move warmup) (mk_world st (map Ok ms) (Running n) lg sb Accepting)
    (mk_world st' [] Ended lg' sb Accepting).
Proof.
  revert st n lg. induction ms as [|m ms IH]; intros st n lg.
  { exists st, lg. apply rtc_once. by exists IngestNext. }
  destruct (SeqStore.store n m st) as [st1 [u|e]] eqn:Es.
  - destruct (IH st1 (u64_saturating_add n 1) (lg ++ [m])) as (st' & lg' & Hr). exists st', lg'.
    eapply rtc_l; [exists IngestNext; simpl; unfold ingest_next; simpl; by rewrite Es|].
    eapply rtc_l; [by exists IngestSend|exact Hr].
  - destruct (IH st1 n lg) as (st' & lg' & Hr). exists st', lg'.
    eapply rtc_l; [exists IngestNext; simpl; unfold ingest_next; simpl; by rewrite Es|exact Hr].
Qed.

Lemma serve_returns_alone ms st :
  ∃ w, rtc (tcp_move warmup) (init st (map Ok ms)) w ∧ serve w = Returned ∧ subs w = [].
Proof.
  destruct (ingest_drains ms st (match SeqStore.latest st with
    | Ok latest => Z.max (u64_saturating_add latest 1) 1 | Err _ => 1 end) [] []) as (st' & lg' & Hr).
  exists (mk_world st' [] Ended lg' [] Returned). split; [|done].
  eapply rtc_l; [by exists IngestStart|]. eapply rtc_r; [eapply rtc_r; [exact Hr|]|].
  - by exists IngestNoticed.
  - by exists IngestJoined.
Qed.

(** Once the ingest task has ended, whoever connects gets the warm-up and no more. *)
Definition late (n sent : nat) w : Prop :=
  ingest w = Ended ∧ length (log w) = sent ∧ (n ≤ length (subs w))%nat
  ∧ ∀ i s, (n ≤ i)%nat → subs w !! i = Some s → Sub.rx s = sent ∧ Sub.out s = [].

Lemma late_set_sub n sent i s s' w :
  late n sent w → subs w !! i = Some s →
  (Sub.rx s = sent → Sub.out s = [] → Sub.rx s' = sent ∧ Sub.out s' = []) →
  late n sent (set_sub i s' w).
Proof.
  intros (He & Hl & Hn & Hs) Hi Hk. split_and!; simpl; try done; [by rewrite length_insert|].
  intros j t Hj Ht. apply list_lookup_insert_Some in Ht as [(<- & <- & _)|(_ & Ht)]; [|by eapply Hs].
  destruct (Hs i s Hj Hi). by apply Hk.
Qed.

Lemma late_move n sent w w' :
  (∀ st, warmup st = Ok []) → tcp_move warmup w w' → late n sent w → late n sent w'.
Proof.
  intros Hwarm [a Hstep] Hw. pose proof Hw as (He & Hl & Hn & Hs).
  destruct a; simpl in Hstep; rewrite ?He in Hstep; try done.
  - destruct (serve w); simplify_eq. split_and!; simpl; try done; [rewrite length_app; lia|].
    intros i s Hi [Hold|[_ Hnew]]%lookup_app_Some; [by eapply Hs|].
    by apply list_lookup_singleton_Some in Hnew as [_ <-].
  - destruct (serve w); by simplify_eq.
  - destruct (serve w); by simplify_eq.
  - destruct (subs w !! i) as [s|] eqn:Hi; [|done]. destruct (Sub.at_ s); simplify_eq.
    eapply late_set_sub; [done..|]. intros. unfold Sub.warmup_step. by rewrite Hwarm.
  - destruct (subs w !! i) as [s|] eqn:Hi; [|done]. destruct (Sub.at_ s); simplify_eq.
    destruct (Sub.recv_step _ _ _ _ _) as [s'|] eqn:Hr; [|done]. simpl in Hstep. simplify_eq.
    eapply late_set_sub; [done..|]. intros Hrx Ho. unfold Sub.recv_step in Hr.
    destruct lagged; [by simplify_eq|]. rewrite lookup_ge_None_2 in Hr by lia.
    destruct (senders_gone w); by simplify_eq.
Qed.

Lemma late_client w1 w i s :
  (∀ st, warmup st = Ok []) → ingest w1 = Ended → rtc (tcp_move warmup) w1 w →
  (length (subs w1) ≤ i)%nat → subs w !! i = Some s → Sub.out s = [].
Proof.
  intros Hwarm He Hr Hi Hs.
  assert (late (length (subs w1)) (length (log w1)) w1) as Hl.
  { split_and!; [done|done|done|]. intros j t Hj Ht%lookup_lt_Some. lia. }
  assert (late (length (subs w1)) (length (log w1)) w) as (_ & _ & _ & Hall).
  { revert Hl. generalize (length (subs w1)), (length (log w1)). clear -Hr Hwarm. intros n k.
    induction Hr; [done|]. eauto using late_move. }
  by eapply Hall.
Qed.
End runs.

Lemma demo_prints_session_witness :
  ∃ (w : TcpServer.world RingSeqStore.t) s, TcpServer.subs w !! 0%nat = Some s
    ∧ TcpServer.Sub.out s = drop 8 canonical_session
    ∧ ∃ from n, TcpServer.Sub.out s = take n (drop from canonical_session)
      ∧ Client.run_tcp (Ok tt) (undisturbed (terminating (read_chunks ItchCodec.decode
          [(itch_send (TcpServer.Sub.out s) []).1] Reader.new).2))
        = (map Client.fmt_message (take n (drop from canonical_session)),
           Some (if bool_decide (from < length canonical_session ≤ from + n)%nat then 0 else 5)).
Proof.
  assert ((λ w, TcpServer.Sub.out <$> TcpServer.subs w !! 0%nat)
    <$> TcpServer.run_actions ServerMain.warmup demo_actions (demo_world ServerMain.Args.default)
    = Some (Some (drop 8 canonical_session))) as Hd by (vm_compute; reflexivity).
  destruct (TcpServer.run_actions _ _ _) as [w|] eqn:Hrun; [|discriminate]. apply (inj Some) in Hd.
  destruct (TcpServer.subs w !! 0%nat) as [s|] eqn:Hs; [|discriminate]. apply (inj Some) in Hd.
  exists w, s. split; [exact Hs|]. split; [exact Hd|].
  destruct (demo_prints_session demo_parse demo_listen terminating ServerMain.Args.default None
    (demo_world ServerMain.Args.default) w 0 s [(itch_send (TcpServer.Sub.out s) []).1])
    as (from & n & Hout & Hlines & _).
  - unfold ServerMain.run. simpl demo_parse. cbv beta iota. rewrite poll_items_iterator; [reflexivity|].
    apply Nat.lt_succ_diag_r.
  - exact (tcp_actions_rtc _ _ _ _ Hrun).
  - exact Hs.
  - rewrite Hd. vm_compute. reflexivity.
  - exists from, n. exact (conj Hout Hlines).
Defined.

(** The demo publisher does not wait for anybody.  It can drain its session
    and return before any client has connected, and a client that connects when
    the session is drained is sent nothing: it prints no line and exits with 5. *)
Theorem demo_late_client {Addr} (parse : list Z → option Addr) listen framed
    `{!FramedDocumented framed} args itch_bind w0 :
  ServerMain.run parse listen args itch_bind = Ok (ServerMain.ServeTcp w0) →
  (∃ w, rtc (tcp_move ServerMain.warmup) w0 w ∧ TcpServer.serve w = Returned ∧ TcpServer.subs w = [])
  ∧ ∀ w1 w i s chunks, rtc (tcp_move ServerMain.warmup) w0 w1 → TcpServer.ingest w1 = Ended →
      rtc (tcp_move ServerMain.warmup) w1 w → (length (TcpServer.subs w1) ≤ i)%nat →
      TcpServer.subs w !! i = Some s → itch_send (TcpServer.Sub.out s) [] = (concat chunks, Ok tt) →
      Client.run_tcp (Ok tt) (undisturbed (framed (read_chunks ItchCodec.decode chunks Reader.new).2))
      = ([], Some 5).
Proof.
  intros Hrun. apply run_tcp_world in Hrun as (-> & _ & _). split; [apply serve_returns_alone|].
  intros w1 w i s chunks _ He Hr Hi Hs Hsend.
  rewrite (late_client ServerMain.warmup w1 w i s (λ _, eq_refl) He Hr Hi Hs) in Hsend.
  injection Hsend as Hb. rewrite (itch_read_messages []) by done. cbn [snd]. by rewrite tcp_client_items.
Qed.

Lemma demo_late_client_witness :
  ∃ w, rtc (tcp_move ServerMain.warmup) (demo_world ServerMain.Args.default) w
    ∧ TcpServer.serve w = Returned ∧ TcpServer.subs w = [].
Proof.
  apply (demo_late_client demo_parse demo_listen terminating ServerMain.Args.default None).
  unfold ServerMain.run. simpl demo_parse. cbv beta iota. rewrite poll_items_iterator; [reflexivity|].
  apply Nat.lt_succ_diag_r.
Defined.
