(* ===== verification/SoupDriver.v ===== *)
(** The SoupBinTCP conformance driver ([crates/itch-conformance/src/soup.rs]).

    A scenario opens a connection (two for the reconnection), logs in and looks
    at what the server sends.  [Visit] is what one connection meets: whether it
    can be opened, the packets with the time of their arrival, and what becomes
    of the sends.  The connection itself is the one of [SoupSession.v]; a wait
    with a timeout reads the packets that arrive up to its deadline.  The login
    gives its send a timeout and every packet that it awaits a new one, so debug
    packets prolong it.  Times are nanoseconds since the connection was opened.  A
    logout has no timeout, so a scenario may not return: [None]. *)

From S2P Require Import Prelude Primitives Text Enums Messages Codec CodecMessages MessageCodec.
From S2P Require Import Framing SoupCodec SoupSession.

Module SoupDriver.
Definition secs (n : Z) : Z := n * 10 ^ 9.
Definition SCENARIO_TIMEOUT : Z := secs 20.

Inductive SoupScenario :=
| LoginAccept
| LoginReject
| SequencedFlow (messages : nat)
| HeartbeatUnderSilence
| DeadLink
| ReconnectWithSequenceResume
| Logout
| EndOfSession.

(** The diagnostic of a failure, before it is rendered. *)
Inductive reason :=
| Rendered (e : SoupError.t)
| Expected (got : SoupError.t)
| AcceptedBadPassword
| TimedOutWaiting (i : nat)
| EndedAfter (i : nat)
| ErrorOnMessage (i : nat) (e : SoupError.t)
| ErrorUnderSilence (e : SoupError.t)
| EndedBeforeWindow
| NoDeadLinkSignal
| NoEndOfSession.

Inductive SoupResult :=
| Pass (s : SoupScenario)
| Fail (s : SoupScenario) (why : reason).
Definition is_pass (r : SoupResult) : bool := match r with Pass _ => true | Fail _ _ => false end.
Definition scenario (r : SoupResult) : SoupScenario := match r with Pass s | Fail s _ => s end.

(** [login_io] is what becomes of the login request within its timeout, and
    [sent_at] when that is known. *)
Module Visit.
Record t := mk {
  refused : option string;
  login_io : send_io;
  sent_at : Z;
  arrivals : list (Z * packet_event);
  logout_io : send_io;
  closing : result unit string;
}.
End Visit.

(** A connection in use. *)
Module Link.
Record t := mk { conn : SoupConnection.t; clock : Z; arrivals : list (Z * packet_event); visit : Visit.t }.
End Link.

(** What arrives up to a time, and when the [n]-th of it came. *)
Fixpoint by_time (deadline : Z) (arrivals : list (Z * packet_event)) : list (Z * packet_event) :=
  match arrivals with
  | a :: arrivals => if a.1 <=? deadline then a :: by_time deadline arrivals else []
  | [] => []
  end.
(** What arrives while each arrival comes within [timeout] of the one before: a
    wait that starts a new timeout for every packet. *)
Fixpoint by_gap (timeout clock : Z) (arrivals : list (Z * packet_event)) : list (Z * packet_event) :=
  match arrivals with
  | a :: arrivals =>
      if a.1 <=? clock + timeout then a :: by_gap timeout (Z.max clock a.1) arrivals else []
  | [] => []
  end.
Definition after (clock : Z) (n : nat) (arrivals : list (Z * packet_event)) : Z :=
  match last (take n arrivals) with Some a => Z.max clock a.1 | None => clock end.

Definition connect_and_login (v : Visit.t) (credentials : SoupCredentials.t)
    (requested_session : list Z) (requested_sequence : Z) : result Link.t SoupError.t :=
  match Visit.refused v with
  | Some kind => Err (SoupError.Io kind)
  | None =>
      let ready := by_gap SCENARIO_TIMEOUT (Visit.sent_at v) (Visit.arrivals v) in
      let '(unread, _, r) :=
        login_with_timeout (map snd ready) (Visit.login_io v) credentials requested_session
          requested_sequence SCENARIO_TIMEOUT in
      let used := (length ready - length unread)%nat in
      let? conn := r in
      Ok (Link.mk conn (after (Visit.sent_at v) used ready) (drop used (Visit.arrivals v)) v)
  end.

(** [conn.next()] up to a deadline; [None] is the timeout. *)
Definition next_by (deadline : Z) (l : Link.t)
    : Link.t * option (option (result Message.t SoupError.t)) :=
  let ready := by_time deadline (Link.arrivals l) in
  let '(conn, unread, p) := SoupConnection.poll_next (map snd ready) (Link.conn l) in
  let used := (length ready - length unread)%nat in
  let rest := drop used (Link.arrivals l) in
  match p with
  | Ready item => (Link.mk conn (after (Link.clock l) used ready) rest (Link.visit l), Some item)
  | Pending => (Link.mk conn deadline rest (Link.visit l), None)
  end.
(** [timeout(d, conn.next_message())]. *)
Definition next_within (d : Z) (l : Link.t) : Link.t * option (option (result Message.t SoupError.t)) :=
  next_by (Link.clock l + d) l.

Definition logout (l : Link.t) : option (result unit SoupError.t) :=
  (SoupConnection.logout (Visit.logout_io (Link.visit l)) (Visit.closing (Link.visit l)) (Link.conn l)).2.

(** [match conn.logout().await { .. }]. *)
Definition after_logout (s : SoupScenario) (l : Link.t) : option SoupResult :=
  r ← logout l; Some (match r with Ok _ => Pass s | Err e => Fail s (Rendered e) end).

(** [for i in 0..messages]. *)
Fixpoint flow_loop (s : SoupScenario) (n i : nat) (l : Link.t) : SoupResult :=
  match n with
  | O => Pass s
  | S n =>
      match next_within SCENARIO_TIMEOUT l with
      | (_, None) => Fail s (TimedOutWaiting i)
      | (_, Some None) => Fail s (EndedAfter i)
      | (_, Some (Some (Err e))) => Fail s (ErrorOnMessage i e)
      | (l, Some (Some (Ok _))) => flow_loop s n (S i) l
      end
  end.

Definition is_session_ended (item : result Message.t SoupError.t) : bool :=
  match item with Err SoupError.SessionEnded => true | _ => false end.

(** [while let Some(item) = conn.next().await] under one timeout: [false] where it
    elapses.  An item takes a packet, so the number of packets and one is fuel
    enough. *)
Fixpoint drain_loop (fuel : nat) (deadline : Z) (l : Link.t) : bool :=
  match fuel with
  | O => false
  | S fuel =>
      match next_by deadline l with
      | (_, None) => false
      | (_, Some None) => true
      | (l, Some (Some item)) => if is_session_ended item then true else drain_loop fuel deadline l
      end
  end.

Section run.
Context (credentials : SoupCredentials.t).

(** A login that has to succeed, then [k]. *)
Definition logged_in (s : SoupScenario) (v : Visit.t) (k : Link.t → option SoupResult) : option SoupResult :=
  match connect_and_login v credentials [] 0 with
  | Ok l => k l
  | Err e => Some (Fail s (Rendered e))
  end.

(** The two visits of a scenario; only the reconnection makes the second. *)
Definition run_scenario (v v2 : Visit.t) (s : SoupScenario) : option SoupResult :=
  match s with
  | LoginAccept | Logout => logged_in s v (after_logout s)
  | LoginReject =>
      let bad := SoupCredentials.new (SoupCredentials.username credentials) (text "__bad_password__") in
      Some (match connect_and_login v bad [] 0 with
            | Err (SoupError.LoginRejected _) => Pass s
            | Err other => Fail s (Expected other)
            | Ok _ => Fail s AcceptedBadPassword
            end)
  | SequencedFlow messages => logged_in s v (λ l, Some (flow_loop s messages 0 l))
  | HeartbeatUnderSilence =>
      logged_in s v (λ l,
        Some (match (next_within 1100000000 l).2 with
              | None => Pass s
              | Some (Some (Err e)) => Fail s (ErrorUnderSilence e)
              | Some (Some (Ok _)) => Pass s
              | Some None => Fail s EndedBeforeWindow
              end))
  | DeadLink =>
      logged_in s v (λ l,
        let l := Link.mk (Link.conn l) (Link.clock l + secs 16) (Link.arrivals l) (Link.visit l) in
        Some (match (next_within (secs 2) l).2 with
              | Some _ => Pass s
              | None => Fail s NoDeadLinkSignal
              end))
  | ReconnectWithSequenceResume =>
      logged_in s v (λ first,
        let session := SoupConnection.session (Link.conn first) in
        let resume_seq := SoupConnection.next_expected_sequence (Link.conn first) in
        match connect_and_login v2 credentials session resume_seq with
        | Ok l => after_logout s l
        | Err e => Some (Fail s (Rendered e))
        end)
  | EndOfSession =>
      logged_in s v (λ l,
        Some (if drain_loop (S (length (Link.arrivals l))) (Link.clock l + SCENARIO_TIMEOUT) l
              then Pass s else Fail s NoEndOfSession))
  end.

(** One report per scenario, in order. *)
Fixpoint drive_server (scenarios : list (SoupScenario * Visit.t * Visit.t)) : option (list SoupResult) :=
  match scenarios with
  | [] => Some []
  | (s, v, v2) :: scenarios =>
      r ← run_scenario v v2 s; rs ← drive_server scenarios; Some (r :: rs)
  end.
End run.
End SoupDriver.

Module SoupDriverFacts.
Import SoupDriver Delivery.

Lemma by_time_prefix d arrivals : ∃ rest, arrivals = by_time d arrivals ++ rest.
Proof.
  induction arrivals as [|a arrivals [rest IH]]; [by exists []|]. simpl.
  destruct (a.1 <=? d); [|by eexists]. exists rest. simpl. by rewrite <-IH.
Qed.

Lemma by_gap_prefix d clock arrivals : ∃ rest, arrivals = by_gap d clock arrivals ++ rest.
Proof.
  revert clock. induction arrivals as [|a arrivals IH]; intros clock; [by exists []|]. simpl.
  destruct (a.1 <=? _); [|by eexists]. destruct (IH (Z.max clock a.1)) as [rest Hr].
  exists rest. simpl. by rewrite <-Hr.
Qed.

(** A poll that yields a message has read up to it past silent packets only. *)
Lemma poll_loop_message evs c c' rest m :
  SoupConnection.poll_loop evs c = (c', rest, Ready (Some (Ok m))) →
  ∃ ps, evs = packets ps ++ rest ∧ omap packet_item ps = [Ok m]
    ∧ SoupConnection.session_ended c' = SoupConnection.session_ended c.
Proof.
  revert c. induction evs as [|ev evs IH]; intros c Hp; [done|].
  destruct ev as [[p|e]|]; [|done|done].
  destruct (packet_item p) as [item|] eqn:Ei.
  - exists [p]. destruct p; try done; cbn [SoupConnection.poll_loop] in Hp.
    unfold SoupConnection.deliver_sequenced in Hp. simpl in *.
    destruct (Message_decode _); simplify_eq. done.
  - destruct (poll_loop_skip p evs c Ei) as [tx Htx]. rewrite Htx in Hp.
    destruct (IH _ Hp) as (ps & -> & Hps & Hs). exists (p :: ps). split; [done|]. split; [|done].
    cbn [omap list_omap]. by rewrite Ei.
Qed.

Lemma next_by_message d l l' m :
  SoupConnection.session_ended (Link.conn l) = false → next_by d l = (l', Some (Some (Ok m))) →
  ∃ ps, map snd (Link.arrivals l) = packets ps ++ map snd (Link.arrivals l')
    ∧ omap packet_item ps = [Ok m] ∧ SoupConnection.session_ended (Link.conn l') = false.
Proof.
  intros Hs. unfold next_by, SoupConnection.poll_next. rewrite Hs.
  destruct (by_time_prefix d (Link.arrivals l)) as [rest Hr].
  destruct (SoupConnection.poll_loop _ _) as [[c' unread] p] eqn:Ep.
  destruct p as [item|]; [|done]. intros [= <- ->].
  apply poll_loop_message in Ep as (ps & Hps & Hit & Hs'). exists ps. simpl.
  split; [|split; [done|congruence]].
  assert (length (by_time d (Link.arrivals l)) = length ps + length unread)%nat as Hl.
  { rewrite <-(length_map snd), Hps, length_app. unfold packets. by rewrite length_map. }
  rewrite Hl, Nat.add_sub. rewrite Hr at 1 2. rewrite drop_app_le by lia.
  rewrite !map_app. change (map snd (drop (length ps) (by_time d (Link.arrivals l))))
    with (snd <$> drop (length ps) (by_time d (Link.arrivals l))). rewrite fmap_drop.
  change (snd <$> by_time d (Link.arrivals l)) with (map snd (by_time d (Link.arrivals l))).
  rewrite Hps, drop_app_length' by (unfold packets; by rewrite length_map). by rewrite app_assoc.
Qed.

Lemma flow_loop_sound s n i l :
  SoupConnection.session_ended (Link.conn l) = false → flow_loop s n i l = Pass s →
  ∃ ps ms rest, map snd (Link.arrivals l) = packets ps ++ rest
    ∧ omap packet_item ps = map Ok ms ∧ length ms = n.
Proof.
  revert i l. induction n as [|n IH]; intros i l Hs Hf.
  { exists [], [], (map snd (Link.arrivals l)). done. }
  cbn [flow_loop] in Hf. destruct (next_within SCENARIO_TIMEOUT l) as [l' [[[m|e]|]|]] eqn:En; try done.
  destruct (next_by_message _ _ _ _ Hs En) as (ps & Hps & Hit & Hs').
  destruct (IH _ _ Hs' Hf) as (ps' & ms & rest & Hps' & Hit' & Hl).
  exists (ps ++ ps'), (m :: ms), rest. split_and!; [| |simpl; by rewrite Hl].
  - rewrite Hps, Hps'. unfold packets. by rewrite map_app, app_assoc.
  - by rewrite omap_app, Hit, Hit'.
Qed.

(** A login that succeeds has read an acceptance. *)
Lemma driver_accepted v credentials session sequence l :
  connect_and_login v credentials session sequence = Ok l →
  ∃ ds a, map snd (Visit.arrivals v)
      = packets (map SoupPacket.Debug ds ++ [SoupPacket.LoginAccepted a]) ++ map snd (Link.arrivals l)
    ∧ SoupConnection.session_ended (Link.conn l) = false
    ∧ SoupConnection.next_expected_sequence (Link.conn l) = LoginAccepted.sequence a.
Proof.
  unfold connect_and_login. destruct (Visit.refused v); [done|].
  destruct (by_gap_prefix SCENARIO_TIMEOUT (Visit.sent_at v) (Visit.arrivals v)) as [rest Hr].
  set (ready := by_gap _ _ _) in *. unfold login_with_timeout.
  fold (login_request credentials session sequence).
  destruct (framed_send _ _ _) as [out [[u|e]|]] eqn:Ef; [|done|done].
  destruct (await_reply (map snd ready) session SCENARIO_TIMEOUT out) as [unread r] eqn:Er.
  destruct r as [c|e]; [|done]. intros [= <-].
  apply await_reply_accepted in Er as (ds & a & Hev & _ & ->). exists ds, a. simpl. split; [|done].
  set (head := packets (map SoupPacket.Debug ds ++ [SoupPacket.LoginAccepted a])) in *.
  assert (length ready = length head + length unread)%nat as Hl.
  { rewrite <-(length_map snd), Hev, length_app. done. }
  rewrite Hl, Nat.add_sub, Hr, drop_app_le by lia. rewrite !map_app, Hev.
  change (map snd (drop (length head) ready)) with (snd <$> drop (length head) ready).
  rewrite fmap_drop. change (snd <$> ready) with (map snd ready).
  by rewrite Hev, drop_app_length, app_assoc.
Qed.

(** The instants follow each other, each in time. *)
Fixpoint in_time (clock : Z) (ts : list Z) : Prop :=
  match ts with
  | [] => True
  | t :: ts => clock ≤ t ≤ clock + SCENARIO_TIMEOUT ∧ in_time t ts
  end.

Lemma in_time_last clock ts t : in_time clock (ts ++ [t]) → clock ≤ t.
Proof.
  revert clock. induction ts as [|t' ts IH]; intros clock [Ht Hts]; [lia|].
  specialize (IH _ Hts). lia.
Qed.

Lemma by_gap_in_time clock arrivals t a rest :
  in_time clock (map fst arrivals ++ [t]) →
  by_gap SCENARIO_TIMEOUT clock (arrivals ++ (t, a) :: rest)
  = arrivals ++ (t, a) :: by_gap SCENARIO_TIMEOUT t rest.
Proof.
  revert clock. induction arrivals as [|x arrivals IH]; intros clock [Ht Hts]; cbn [app by_gap fst].
  - by rewrite (proj2 (Z.leb_le _ _)), Z.max_r by (simpl in *; lia).
  - rewrite (proj2 (Z.leb_le _ _)), Z.max_r by (simpl in *; lia). by rewrite IH.
Qed.

(** The server accepts at an instant, after some debug packets. *)
Definition chatter (ds : list (Z * list Z)) : list (Z * packet_event) :=
  map (λ d, (d.1, Some (Ok (SoupPacket.Debug d.2)))) ds.
Definition accepting (sent : Z) (ds : list (Z * list Z)) (t : Z) (a : LoginAccepted.t)
    (arrivals : list (Z * packet_event)) : Visit.t :=
  Visit.mk None Flushed sent (chatter ds ++ (t, Some (Ok (SoupPacket.LoginAccepted a))) :: arrivals)
    Flushed (Ok tt).
(** It accepts at once. *)
Definition welcoming (a : LoginAccepted.t) (arrivals : list (Z * packet_event)) : Visit.t :=
  accepting 0 [] 0 a arrivals.

Lemma connect_accepting credentials sent ds t a arrivals :
  wf (login_request credentials [] 0) → in_time sent (map fst ds ++ [t]) →
  ∃ c, connect_and_login (accepting sent ds t a arrivals) credentials [] 0
       = Ok (Link.mk c t arrivals (accepting sent ds t a arrivals))
    ∧ SoupConnection.session_ended c = false.
Proof.
  intros Hwf Ht. pose proof (in_time_last _ _ _ Ht) as Hst. unfold connect_and_login. cbn [accepting Visit.refused Visit.arrivals Visit.login_io Visit.sent_at].
  rewrite by_gap_in_time by (unfold chatter; by rewrite map_map).
  unfold login_with_timeout. fold (login_request credentials [] 0). rewrite framed_send_wf by done.
  rewrite map_app. assert (map snd (chatter ds) = packets (map SoupPacket.Debug (map snd ds))) as ->.
  { unfold chatter, packets. by rewrite !map_map. }
  rewrite await_reply_debug. destruct a as [session sequence]. cbn [await_reply map snd].
  rewrite bool_decide_true by done. cbn [negb andb]. set (tl := by_gap _ _ _).
  rewrite length_app, length_map. cbn [length].
  replace (length (chatter ds) + S (length tl) - length tl)%nat with (S (length (chatter ds))) by lia.
  eexists. split; [do 2 f_equal|done].
  - unfold after. rewrite cons_middle, app_assoc, take_app_length' by (rewrite length_app; simpl; lia).
    rewrite last_snoc. simpl. lia.
  - by rewrite cons_middle, app_assoc, drop_app_length' by (rewrite length_app; simpl; lia).
Qed.

Lemma connect_welcoming credentials a arrivals :
  wf (login_request credentials [] 0) →
  ∃ c, connect_and_login (welcoming a arrivals) credentials [] 0
       = Ok (Link.mk c 0 arrivals (welcoming a arrivals))
    ∧ SoupConnection.session_ended c = false.
Proof. intros Hwf. apply connect_accepting; [done|]. vm_compute. repeat split; discriminate. Qed.

(** The messages arrive one by one. *)
Definition data_at (ts : list Z) (ms : list Message.t) : list (Z * packet_event) :=
  zip ts (map (λ m, Some (Ok (data m))) ms).

Lemma next_by_data d t m arrivals c clock v :
  wf m → SoupConnection.session_ended c = false → t ≤ d → clock ≤ t →
  ∃ c', next_by d (Link.mk c clock ((t, Some (Ok (data m))) :: arrivals) v)
        = (Link.mk c' t arrivals v, Some (Some (Ok m)))
    ∧ SoupConnection.session_ended c' = false.
Proof.
  intros Hwf Hs Ht Hc. unfold next_by, SoupConnection.poll_next.
  cbn [Link.arrivals Link.conn Link.clock Link.visit by_time fst].
  rewrite Hs, (proj2 (Z.leb_le _ _)) by done. cbn [map snd SoupConnection.poll_loop data].
  unfold SoupConnection.deliver_sequenced. rewrite Message_decode_all by done.
  cbn [length]. rewrite length_map, Nat.sub_succ_l, Nat.sub_diag by done.
  unfold after. cbn [firstn skipn]. rewrite take_0, drop_0. cbn [last fst]. rewrite Z.max_r by done. by eexists.
Qed.

Lemma soup_flow_loop_complete s n i ts ms arrivals c clock v :
  Forall wf ms → SoupConnection.session_ended c = false → in_time clock ts →
  length ts = length ms → (n ≤ length ms)%nat →
  flow_loop s n i (Link.mk c clock (data_at ts ms ++ arrivals) v) = Pass s.
Proof.
  intros Hwf. revert i ts c clock n. induction Hwf as [|m ms Hm Hwf IH]; intros i ts c clock n Hs Ht Hl Hn.
  { simpl in Hn. by replace n with O by lia. }
  destruct n as [|n]; [done|]. destruct ts as [|t ts]; [done|]. destruct Ht as [Ht Hts]. simpl in Hl, Hn.
  cbn [flow_loop]. unfold next_within, data_at. cbn [zip zip_with map app Link.clock].
  destruct (next_by_data (clock + SCENARIO_TIMEOUT) t m (data_at ts ms ++ arrivals) c clock v)
    as (c' & Hnext & Hs'); [done|done|lia|lia|].
  unfold data_at in Hnext. rewrite Hnext. apply IH; [done|done|lia|lia].
Qed.
End SoupDriverFacts.

(** ** Properties *)

(** C36: the scenario that drains messages tells the truth.  It passes only if the
    server accepted the login, after nothing but debug packets, and then sent the
    asked number of messages that decode, with nothing but heartbeats and debug
    packets in between; and it does pass when a server accepts the login, after any
    number of debug packets, and sends as many messages, each packet within the
    timeout of the one before, however long the whole takes. *)
Theorem soup_flow_verdict credentials (n : nat) :
  let s := SoupDriver.SequencedFlow n in
  (∀ v v2, SoupDriver.run_scenario credentials v v2 s = Some (SoupDriver.Pass s) →
     ∃ ds a ps ms rest,
       map snd (SoupDriver.Visit.arrivals v)
       = Delivery.packets (map SoupPacket.Debug ds ++ SoupPacket.LoginAccepted a :: ps) ++ rest
       ∧ omap Delivery.packet_item ps = map Ok ms ∧ length ms = n)
  ∧ (∀ sent ds t a ts ms rest v2,
       wf (login_request credentials [] 0) → Forall wf ms →
       SoupDriverFacts.in_time sent (map fst ds ++ [t]) → SoupDriverFacts.in_time t ts →
       length ts = length ms → (n ≤ length ms)%nat →
       SoupDriver.run_scenario credentials
         (SoupDriverFacts.accepting sent ds t a (SoupDriverFacts.data_at ts ms ++ rest)) v2 s
       = Some (SoupDriver.Pass s)).
Proof.
  intros s. split.
  - intros v v2. unfold SoupDriver.run_scenario, SoupDriver.logged_in, s.
    destruct (SoupDriver.connect_and_login v credentials [] 0) as [l|e] eqn:El; [|done].
    intros Hf. apply (inj Some) in Hf.
    destruct (SoupDriverFacts.driver_accepted _ _ _ _ _ El) as (ds & a & Harr & Hs & _).
    destruct (SoupDriverFacts.flow_loop_sound _ _ _ _ Hs Hf) as (ps & ms & rest & Hps & Hit & Hl).
    exists ds, a, ps, ms, rest. split; [|done]. rewrite Harr, Hps.
    unfold Delivery.packets. by rewrite !map_app, <-!app_assoc.
  - intros sent ds t a ts ms rest v2 Hreq Hwf Hds Ht Hl Hn. unfold SoupDriver.run_scenario, SoupDriver.logged_in, s.
    destruct (SoupDriverFacts.connect_accepting credentials sent ds t a
      (SoupDriverFacts.data_at ts ms ++ rest) Hreq Hds) as (c & -> & Hs). f_equal. by apply SoupDriverFacts.soup_flow_loop_complete.
Qed.

Lemma soup_flow_verdict_witness :
  SoupDriver.run_scenario some_credentials
    (SoupDriverFacts.accepting 0 [(SoupDriver.secs 15, [1]); (SoupDriver.secs 30, [2])] (SoupDriver.secs 45)
       (LoginAccepted.mk [b@"S"] 1)
       (SoupDriverFacts.data_at [SoupDriver.secs 60; SoupDriver.secs 61] [numbered 1; numbered 2] ++ []))
    (SoupDriverFacts.welcoming (LoginAccepted.mk [b@"S"] 1) []) (SoupDriver.SequencedFlow 2)
  = Some (SoupDriver.Pass (SoupDriver.SequencedFlow 2)).
Proof.
  apply (proj2 (soup_flow_verdict some_credentials 2)).
  - exact some_request_wf.
  - repeat constructor; apply numbered_wf.
  - vm_compute. repeat split; discriminate.
  - vm_compute. repeat split; discriminate.
  - reflexivity.
  - simpl. lia.
Defined.

(** Three scenarios pass against servers that do not do what they are about.
    [EndOfSession] passes when the server closes the connection without an
    end-of-session packet; [DeadLink] passes when the server has sent one message,
    although it never drops the silent client; [HeartbeatUnderSilence] passes when
    the server sends nothing at all, no heartbeat either. *)
Theorem soup_driver_blind credentials a (m : Message.t) (t : Z) rest v2 :
  wf (login_request credentials [] 0) → wf m → 0 ≤ t ≤ SoupDriver.secs 18 →
  SoupDriver.run_scenario credentials (SoupDriverFacts.welcoming a [(t, None)]) v2 SoupDriver.EndOfSession
  = Some (SoupDriver.Pass SoupDriver.EndOfSession)
  ∧ SoupDriver.run_scenario credentials
      (SoupDriverFacts.welcoming a ((t, Some (Ok (data m))) :: rest)) v2 SoupDriver.DeadLink
    = Some (SoupDriver.Pass SoupDriver.DeadLink)
  ∧ SoupDriver.run_scenario credentials (SoupDriverFacts.welcoming a []) v2 SoupDriver.HeartbeatUnderSilence
    = Some (SoupDriver.Pass SoupDriver.HeartbeatUnderSilence).
Proof.
  intros Hreq Hm Ht. unfold SoupDriver.run_scenario, SoupDriver.logged_in, SoupDriver.secs in *. split_and!.
  - destruct (SoupDriverFacts.connect_welcoming credentials a [(t, None)] Hreq) as (c & -> & Hs).
    cbn [SoupDriver.drain_loop length]. unfold SoupDriver.next_by, SoupConnection.poll_next.
    cbn [SoupDriver.Link.arrivals SoupDriver.Link.conn SoupDriver.Link.clock SoupDriver.by_time fst].
    rewrite Hs, (proj2 (Z.leb_le _ _)) by (unfold SoupDriver.SCENARIO_TIMEOUT, SoupDriver.secs; lia). done.
  - destruct (SoupDriverFacts.connect_welcoming credentials a ((t, Some (Ok (data m))) :: rest) Hreq)
      as (c & -> & Hs).
    unfold SoupDriver.next_within.
    cbn [SoupDriver.Link.arrivals SoupDriver.Link.conn SoupDriver.Link.clock SoupDriver.Link.visit].
    unfold SoupDriver.next_by, SoupConnection.poll_next.
    cbn [SoupDriver.Link.arrivals SoupDriver.Link.conn SoupDriver.Link.clock SoupDriver.by_time fst].
    rewrite Hs, (proj2 (Z.leb_le _ _)) by lia. cbn [map snd SoupConnection.poll_loop data].
    unfold SoupConnection.deliver_sequenced. by rewrite Message_decode_all.
  - destruct (SoupDriverFacts.connect_welcoming credentials a [] Hreq) as (c & -> & Hs).
    unfold SoupDriver.next_within, SoupDriver.next_by, SoupConnection.poll_next. simpl. by rewrite Hs.
Qed.

Lemma soup_driver_blind_witness :
  SoupDriver.run_scenario some_credentials
    (SoupDriverFacts.welcoming (LoginAccepted.mk [b@"S"] 1) [(7, None)])
    (SoupDriverFacts.welcoming (LoginAccepted.mk [b@"S"] 1) []) SoupDriver.EndOfSession
  = Some (SoupDriver.Pass SoupDriver.EndOfSession).
Proof.
  apply (soup_driver_blind some_credentials (LoginAccepted.mk [b@"S"] 1) (numbered 1) 7 []).
  - exact some_request_wf.
  - apply numbered_wf.
  - vm_compute. split; discriminate.
Defined.

(** The report has one entry per scenario, in the order asked for. *)
Theorem soup_driver_report credentials scenarios rs :
  SoupDriver.drive_server credentials scenarios = Some rs →
  map SoupDriver.scenario rs = map (λ x, x.1.1) scenarios.
Proof.
  revert rs. induction scenarios as [|[[s v] v2] scenarios IH]; intros rs Hrs; [by simplify_eq/=|].
  cbn [SoupDriver.drive_server] in Hrs.
  destruct (SoupDriver.run_scenario credentials v v2 s) as [r|] eqn:Er; [|done].
  destruct (SoupDriver.drive_server credentials scenarios) as [rs'|]; [|done].
  simplify_eq/=. f_equal; [|by apply IH]. clear IH.
  unfold SoupDriver.run_scenario, SoupDriver.logged_in, SoupDriver.after_logout in Er.
  assert (∀ s n i l, SoupDriver.scenario (SoupDriver.flow_loop s n i l) = s) as Hflow.
  { clear. intros s n. induction n as [|n IH]; intros i l; [done|]. cbn [SoupDriver.flow_loop].
    destruct (SoupDriver.next_within _ _) as [? [[[?|?]|]|]]; done || apply IH. }
  destruct s; cbv zeta in Er; repeat (case_match; simplify_eq/=; try done); simplify_eq/=; try apply Hflow.
  all: destruct (SoupDriver.logout _) as [[[]|]|] eqn:?; by simplify_eq/=.
Qed.
