(* ===== verification/MoldDriver.v ===== *)
(** The MoldUDP64 conformance driver ([crates/itch-conformance/src/mold.rs]).

    A scenario joins the group and looks at the events of the stream of
    [MoldStream.v].  [Group] is what one join meets: whether the socket can be
    bound and joined, and the datagrams with the time of their arrival.  Times
    are milliseconds since the join.  A task that waits is woken by a datagram,
    by the silence timer or by its own timeout, and polls the stream again.  A
    poll that does not end (see [silence_spins]) is a scenario that does not
    return: [None]. *)

From S2P Require Import Prelude Primitives Text Enums Messages Codec CodecMessages MessageCodec.
From S2P Require Import MoldCodec MoldReceiver MoldStore MoldPublisher MoldStream.

Module MoldDriver.
Definition SCENARIO_TIMEOUT : Z := 20000.

Inductive MoldScenario :=
| InOrderFlow (count : nat)
| SinglePacketGap
| MultiPacketGap
| RequestServerUnreachable
| SessionMismatch
| BadInnerFrame
| HeartbeatUnderSilence
| EndOfSession
| MultiServerFailover.

(** The diagnostic of a failure, before it is rendered. *)
Inductive reason :=
| Rendered (e : MoldError.t)
| TimedOutAfter (got count : nat)
| EndedAfter (got count : nat)
| UnderSilence (e : MoldError.t)
| Said (text : string).

Inductive MoldResult :=
| Pass (s : MoldScenario)
| Fail (s : MoldScenario) (why : reason).
Definition is_pass (r : MoldResult) : bool := match r with Pass _ => true | Fail _ _ => false end.
Definition scenario (r : MoldResult) : MoldScenario := match r with Pass s | Fail s _ => s end.

(** A datagram, or an error of the socket. *)
Inductive arrival := Packet (bytes : list Z) | Fault (kind : string).

Module Group.
Record t := mk { bound : option string; joined : option string; arrivals : list (Z * arrival) }.
End Group.

(** A stream in use. *)
Module Tap.
Record t := mk { stream : MoldStream.t; clock : Z; arrivals : list (Z * arrival) }.
End Tap.

Definition read_at (now : Z) (a : arrival) : reading :=
  match a with Packet bytes => Datagram bytes now | Fault kind => RecvError kind end.
Fixpoint by_time (now : Z) (arrivals : list (Z * arrival)) : list (Z * arrival) :=
  match arrivals with
  | a :: arrivals => if a.1 <=? now then a :: by_time now arrivals else []
  | [] => []
  end.

(** The outcome of a wait: an item of the stream, its end, or the timeout. *)
Inductive outcome := Item (e : event) | Ended | Elapsed.

(** Polls until there is an item or the deadline has come. *)
Fixpoint wait (fuel : nat) (deadline : Z) (x : Tap.t) : Tap.t * option outcome :=
  match fuel with
  | O => (x, None)
  | S fuel =>
      let now := Tap.clock x in
      let ready := by_time now (Tap.arrivals x) in
      let '(stream, unread, p) :=
        MoldStream.poll_next now (map (λ a, read_at now a.2) ready) (Tap.stream x) in
      let rest := drop (length ready - length unread) (Tap.arrivals x) in
      match p with
      | None => (Tap.mk stream now rest, None)
      | Some (Ready (Some e)) => (Tap.mk stream now rest, Some (Item e))
      | Some (Ready None) => (Tap.mk stream now rest, Some Ended)
      | Some Pending =>
          if deadline <=? now then (Tap.mk stream now rest, Some Elapsed)
          else
            let timer := Z.min deadline (Z.max now (MoldStream.silence_timer stream)) in
            let wake := match rest with a :: _ => Z.min timer (Z.max now a.1) | [] => timer end in
            wait fuel deadline (Tap.mk stream wake rest)
      end
  end.
(** Between two datagrams the timer fires at most twice. *)
Definition wait_fuel (x : Tap.t) : nat := 3 * length (Tap.arrivals x) + 5.
Definition next_by (deadline : Z) (x : Tap.t) : Tap.t * option outcome := wait (wait_fuel x) deadline x.
Definition next_within (d : Z) (x : Tap.t) : Tap.t * option outcome := next_by (Tap.clock x + d) x.

Definition base_config (group request_server : addr) : MoldConfig.t :=
  MoldConfig.set_addresses (Some [127; 0; 0; 1]) [request_server] (MoldConfig.new group).

Definition is_message (e : event) : bool :=
  match e with Ok (MoldEvent.Message _ _) => true | _ => false end.
Definition is_gap (e : event) : bool :=
  match e with Ok (MoldEvent.Gap _ _) => true | _ => false end.

(** [while got < count]; an item takes a datagram or is one of those that the
    outbox still holds, so [fuel] bounds the number of items. *)
Fixpoint flow_loop (s : MoldScenario) (fuel got count : nat) (x : Tap.t) : option MoldResult :=
  match fuel with
  | O => None
  | S fuel =>
      if (got <? count)%nat then
        match next_within SCENARIO_TIMEOUT x with
        | (_, None) => None
        | (_, Some Elapsed) => Some (Fail s (TimedOutAfter got count))
        | (_, Some Ended) => Some (Fail s (EndedAfter got count))
        | (_, Some (Item (Err e))) => Some (Fail s (Rendered e))
        | (x, Some (Item e)) => flow_loop s fuel (if is_message e then S got else got) count x
        end
      else Some (Pass s)
  end.

(** [while let Some(item) = stream.next().await] under one timeout, up to the
    first item that [stop] decides on. *)
Fixpoint drain_loop (fuel : nat) (deadline : Z) (stop : event → option (option reason))
    (x : Tap.t) (ended late : string) : option (option reason) :=
  match fuel with
  | O => None
  | S fuel =>
      match next_by deadline x with
      | (_, None) => None
      | (_, Some Elapsed) => Some (Some (Said late))
      | (_, Some Ended) => Some (Some (Said ended))
      | (x, Some (Item e)) =>
          match stop e with Some r => Some r | None => drain_loop fuel deadline stop x ended late end
      end
  end.

Definition gap_stop (e : event) : option (option reason) :=
  match e with Ok (MoldEvent.Gap _ _) => Some None | Ok _ => None | Err err => Some (Some (Rendered err)) end.
Definition eos_stop (e : event) : option (option reason) :=
  match e with
  | Ok (MoldEvent.EndOfSession _) => Some None | Ok _ => None | Err err => Some (Some (Rendered err))
  end.
Definition error_stop (e : event) : option (option reason) :=
  match e with Ok _ => None | Err _ => Some None end.

Definition verdict (s : MoldScenario) (r : option (option reason)) : option MoldResult :=
  r ← r; Some (match r with None => Pass s | Some why => Fail s why end).

Section run.
Context (group request_server : addr) (fuel : nat).

(** [MoldStream::join(cfg).await], then [k]. *)
Definition joined (s : MoldScenario) (g : Group.t) (cfg : MoldConfig.t) (k : Tap.t → option MoldResult)
    : option MoldResult :=
  match MoldStream.join cfg 0 (Group.bound g) (Group.joined g) with
  | Ok stream => k (Tap.mk stream 0 (Group.arrivals g))
  | Err err => Some (Fail s (Rendered err))
  end.

Definition run_scenario (g : Group.t) (s : MoldScenario) : option MoldResult :=
  let cfg := base_config group request_server in
  match s with
  | InOrderFlow count => joined s g cfg (flow_loop s fuel 0 count)
  | SinglePacketGap | MultiPacketGap =>
      joined s g cfg (λ x, verdict s
        (drain_loop fuel SCENARIO_TIMEOUT gap_stop x "stream ended before any gap"
           "no gap observed within timeout"))
  | RequestServerUnreachable => joined s g cfg (λ _, Some (Pass s))
  | SessionMismatch =>
      joined s g (MoldConfig.with_session (text "BADSESSION") cfg) (λ x,
        r ← (next_within 2000 x).2;
        Some (match r with
              | Item e =>
                  if is_message e then Fail s (Said "received a message under a session mismatch")
                  else Pass s
              | Ended | Elapsed => Pass s
              end))
  | BadInnerFrame =>
      joined s g cfg (λ x, verdict s
        (drain_loop fuel SCENARIO_TIMEOUT error_stop x "stream ended without a bad-frame error"
           "no bad-frame error within scenario timeout"))
  | HeartbeatUnderSilence =>
      joined s g cfg (λ x,
        r ← (next_within 1100 x).2;
        Some (match r with
              | Elapsed | Item (Ok _) => Pass s
              | Item (Err err) => Fail s (UnderSilence err)
              | Ended => Fail s (Said "stream ended before any heartbeat")
              end))
  | EndOfSession =>
      joined s g cfg (λ x, verdict s
        (drain_loop fuel SCENARIO_TIMEOUT eos_stop x "stream ended before EndOfSession event"
           "no EndOfSession within scenario timeout"))
  | MultiServerFailover =>
      let bogus := ([0; 0; 0; 0], 1) in
      let cfg := MoldConfig.set_addresses (MoldConfig.interface cfg)
                   (bogus :: MoldConfig.request_servers cfg) cfg in
      joined s g cfg (λ _, Some (Pass s))
  end.

Fixpoint drive_publisher (scenarios : list (MoldScenario * Group.t)) : option (list MoldResult) :=
  match scenarios with
  | [] => Some []
  | (s, g) :: scenarios => r ← run_scenario g s; rs ← drive_publisher scenarios; Some (r :: rs)
  end.
End run.
End MoldDriver.

Module MoldDriverFacts.
Import MoldDriver.

Definition packets_of (arrivals : list (Z * arrival)) : list (list Z) :=
  omap (λ a, match a.2 with Packet bytes => Some bytes | Fault _ => None end) arrivals.

Lemma arrived_prefix d arrivals : ∃ rest, arrivals = by_time d arrivals ++ rest.
Proof.
  induction arrivals as [|a arrivals [rest IH]]; [by exists []|]. simpl.
  destruct (a.1 <=? d); [|by eexists]. exists rest. simpl. by rewrite <-IH.
Qed.

Lemma datagrams_read now arrivals :
  datagrams (map (λ a, read_at now a.2) arrivals) = packets_of arrivals.
Proof.
  unfold datagrams, packets_of. induction arrivals as [|[t []] arrivals IH]; [done|..];
    cbn [map omap list_omap snd read_at]; by rewrite IH.
Qed.

(** The driver took [used] off the socket and saw what the receiver put out for
    it, as far as messages go. *)
Record saw (x x' : Tap.t) (used : list (Z * arrival)) (log : list event) : Prop := {
  sw_arrivals : Tap.arrivals x = used ++ Tap.arrivals x';
  sw_state : ReceiverState.receive_all (packets_of used) (MoldStream.state (Tap.stream x))
             = after log (MoldStream.state (Tap.stream x'));
}.

Definition seen (o : option outcome) : list event := match o with Some (Item e) => [e] | _ => [] end.

Lemma saw_trans x x1 x2 used used' log log' :
  saw x x1 used log → saw x1 x2 used' log' → saw x x2 (used ++ used') (log ++ log').
Proof.
  intros [Ha Hs] [Ha' Hs']. split; [by rewrite Ha, Ha', app_assoc|].
  unfold packets_of. rewrite omap_app, receive_all_app. fold (packets_of used) (packets_of used').
  by rewrite Hs, after_receive_all, Hs', after_app.
Qed.

Lemma wait_saw fuel deadline x x' o :
  wait fuel deadline x = (x', o) →
  ∃ used log, saw x x' used log ∧ filter is_emission log = filter is_emission (seen o).
Proof.
  revert x. induction fuel as [|fuel IH]; intros x.
  { intros [= <- <-]. exists [], []. split; [|done]. split; [done|]. by rewrite after_nil. }
  cbn [wait]. set (ready := by_time _ _).
  destruct (arrived_prefix (Tap.clock x) (Tap.arrivals x)) as [rest Hr]. fold ready in Hr.
  destruct (MoldStream.poll_next _ _ _) as [[s unread] p] eqn:E.
  apply poll_next_polled in E as (rs & log & [H1 H2 H3 _]).
  set (n := (length ready - length unread)%nat).
  assert (length rs = n ∧ (n ≤ length ready)%nat) as [Hn Hle].
  { apply (f_equal length) in H1. rewrite length_map, length_app in H1. unfold n. lia. }
  assert (datagrams rs = packets_of (take n ready)) as Hd.
  { rewrite <-(datagrams_read (Tap.clock x)). f_equal.
    change (map (λ a, read_at (Tap.clock x) a.2) (take n ready))
      with ((λ a : Z * arrival, read_at (Tap.clock x) a.2) <$> take n ready).
    rewrite fmap_take. change (_ <$> ready) with (map (λ a, read_at (Tap.clock x) a.2) ready).
    by rewrite H1, take_app_length'. }
  assert (∀ clock, saw x (Tap.mk s clock (drop n (Tap.arrivals x))) (take n ready) log) as Hsaw.
  { intros clock. split; simpl; [|by rewrite <-Hd, H2].
    rewrite Hr, drop_app_le by done. by rewrite app_assoc, take_drop. }
  destruct p as [[[e|]|]|].
  1,2,4: intros [= <- <-]; eexists _, log; split; [apply Hsaw|exact H3].
  destruct (deadline <=? Tap.clock x); [intros [= <- <-]; eexists _, log; split; [apply Hsaw|exact H3]|].
  intros Hw. destruct (IH _ Hw) as (used & log' & Hs' & Hlog').
  exists (take n ready ++ used), (log ++ log'). split; [by eapply saw_trans|].
  by rewrite filter_app, H3, Hlog'.
Qed.

Lemma flow_loop_saw s fuel got count x :
  flow_loop s fuel got count x = Some (Pass s) → (got ≤ count)%nat →
  ∃ x' used log, saw x x' used log ∧ Forall is_message (filter is_emission log)
    ∧ (length (filter is_emission log) + got = count)%nat.
Proof.
  revert got x. induction fuel as [|fuel IH]; intros got x; [done|]. cbn [flow_loop].
  destruct (Nat.ltb_spec got count) as [Hlt|Hge]; intros Hf Hle.
  2:{ exists x, [], []. split_and!; [split; [done|by rewrite after_nil]|constructor|simpl; lia]. }
  destruct (next_within SCENARIO_TIMEOUT x) as [x1 o] eqn:Ew.
  destruct (wait_saw _ _ _ _ _ Ew) as (used & log & Hsaw & Hlog).
  destruct o as [[[ev|err]| |]|]; simplify_eq. simpl seen in Hlog.
  assert (filter is_emission [Ok ev] = if is_message (Ok ev) then [Ok ev] else []) as Hev by by destruct ev.
  destruct (is_message (Ok ev)) eqn:Em.
  - destruct (IH _ _ Hf) as (x' & used' & log' & Hsaw' & Hall & Hlen); [lia|].
    exists x', (used ++ used'), (log ++ log'). rewrite filter_app, Hlog, Hev, length_app.
    split_and!; [by eapply saw_trans| |simpl; lia]. constructor; [by rewrite Em|done].
  - destruct (IH _ _ Hf) as (x' & used' & log' & Hsaw' & Hall & Hlen); [done|].
    exists x', (used ++ used'), (log ++ log'). rewrite filter_app, Hlog, Hev.
    split_and!; [by eapply saw_trans|done|done].
Qed.
(** ** Datagrams in order *)

(** A datagram with one message. *)
Definition single (sess : list Z) (seq : Z) (m : Message.t) : MoldPacket.t :=
  MoldPacket.mk (MoldPacketHeader.mk sess seq 1) [block_of m].

(** The messages arrive one by one, numbered from [seq]. *)
Fixpoint singles_at (sess : list Z) (seq : Z) (ts : list Z) (ms : list Message.t) : list (Z * arrival) :=
  match ts, ms with
  | t :: ts, m :: ms => (t, Packet (packet_wire (single sess seq m))) :: singles_at sess (seq + 1) ts ms
  | _, _ => []
  end.

(** Each before the silence after the one before is warned about. *)
Fixpoint paced (clock : Z) (ts : list Z) : Prop :=
  match ts with
  | [] => True
  | t :: ts => clock ≤ t < clock + DEFAULT_SILENCE_WARNING ∧ paced t ts
  end.

(** The receiver holds nothing and waits for [seq]. *)
Record awaiting (sess : list Z) (seq : Z) (st : ReceiverState.t) : Prop := {
  aw_outbox : ReceiverState.outbox st = [];
  aw_pending : ReceiverState.pending st = ∅;
  aw_session : ReceiverState.session st = None ∨ ReceiverState.session st = Some sess;
  aw_next : if ReceiverState.bootstrapped st then ReceiverState.next_expected st = seq
            else ReceiverState.start_sequence st = 0;
}.

Lemma single_wf sess seq m :
  length sess = 10%nat → Forall is_u8 sess → 0 ≤ seq < u64_max → wf m → wf (single sess seq m).
Proof.
  intros Hl Hb Hs Hm. split; [|split]; simpl.
  - unfold u64_max in Hs. split; [done|]. split; [done|]. split; split; simpl; lia.
  - constructor; [by apply block_of_wf|constructor].
  - left. by unfold MSG_COUNT_END_OF_SESSION.
Qed.

Lemma deliver_single seq m st :
  wf m → 0 ≤ seq < u64_max →
  ReceiverState.deliver seq (message_wire m) st
  = ReceiverState.set_next (seq + 1) (ReceiverState.push_back (Ok (MoldEvent.Message seq m)) st).
Proof.
  intros Hm Hs. unfold ReceiverState.deliver. pose proof (proj1 (block_of_wf m Hm)) as Hl.
  unfold block_of in Hl. cbn [MessageBlock.data] in Hl. rewrite (proj2 (Nat.ltb_ge _ _)) by lia.
  by rewrite Message_decode_all, u64_add_small by (done || lia).
Qed.

Lemma ingest_single sess seq m st :
  wf m → 0 ≤ seq < u64_max → awaiting sess seq st →
  let st' := ReceiverState.ingest (single sess seq m) st in
  ReceiverState.outbox st' = [Ok (MoldEvent.Message seq m)] ∧ awaiting sess (seq + 1) (MoldStream.set_outbox [] st').
Proof.
  intros Hm Hs [Ho Hp Hse Hn]. set (st1 := boot (single sess seq m) (ReceiverState.set_session sess st)).
  assert (ReceiverState.ingest (single sess seq m) st = ReceiverState.ingest_session (single sess seq m) st1)
    as ->.
  { unfold st1. rewrite <-ingest_session_boot. unfold ReceiverState.ingest.
    destruct Hse as [E|E]; rewrite E; [done|]. rewrite decide_False by (simpl; tauto).
    destruct st. simpl in E. by subst. }
  assert (ReceiverState.bootstrapped st1 = true ∧ ReceiverState.next_expected st1 = seq
    ∧ ReceiverState.pending st1 = ∅ ∧ ReceiverState.session st1 = Some sess ∧ ReceiverState.outbox st1 = [])
    as (Hb1 & Hn1 & Hp1 & Hs1 & Ho1).
  { unfold st1, boot. simpl. destruct (ReceiverState.bootstrapped st) eqn:E; [done|]. by rewrite Hn. }
  clearbody st1. unfold ReceiverState.ingest_session. rewrite Hb1. simpl. rewrite Hn1.
  rewrite !u64_add_small, Z.add_0_r by lia.
  rewrite (proj2 (Z.leb_gt _ _)), Z.ltb_irrefl by lia. simpl. rewrite deliver_single by done.
  unfold ReceiverState.flush_pending. simpl. rewrite Hp1, map_size_empty. simpl. rewrite Ho1.
  split; [done|]. split; simpl; [done|done|by right|by rewrite Hb1].
Qed.
(** A stream that waits for [seq], with its silence timer running. *)
Record tuned (sess : list Z) (seq clock : Z) (s : MoldStream.t) : Prop := {
  tu_state : awaiting sess seq (MoldStream.state s);
  tu_finished : MoldStream.finished s = false;
  tu_warning : MoldConfig.silence_warning (MoldStream.cfg s) = DEFAULT_SILENCE_WARNING;
  tu_timer : MoldStream.silence_timer s = clock + DEFAULT_SILENCE_WARNING;
}.

Section flow.
Context (sess : list Z) (sess_ok : length sess = 10%nat ∧ Forall is_u8 sess).

Lemma tuned_pop seq clock s : tuned sess seq clock s → MoldStream.pop_front s = None.
Proof. intros [[Ho _ _ _] _ _ _]. by apply pop_front_None. Qed.

Lemma poll_single now seq clock m rs s :
  wf m → 0 ≤ seq < u64_max → tuned sess seq clock s →
  ∃ s', MoldStream.poll_next now (Datagram (packet_wire (single sess seq m)) now :: rs) s
        = (s', rs, Some (Ready (Some (Ok (MoldEvent.Message seq m)))))
    ∧ tuned sess (seq + 1) now s'.
Proof.
  intros Hm Hs Ht. assert (wf (single sess seq m)) as Hwf by (apply single_wf; tauto).
  unfold MoldStream.poll_next. rewrite (tu_finished _ _ _ _ Ht), (tuned_pop _ _ _ Ht).
  unfold MoldStream.poll_fuel. cbn [length Nat.add MoldStream.poll_loop].
  assert (length (packet_wire (single sess seq m)) ≤ ReceiverState.RECV_BUFFER_LEN)%nat.
  { rewrite length_packet_wire by done. unfold MoldPacket.wire_len, ReceiverState.RECV_BUFFER_LEN, HEADER_LEN.
    cbn [MoldPacket.blocks single map sum_list]. rewrite wire_len_block_of by done.
    pose proof (encoded_len_max m). unfold sum_list_with, id. lia. }
  rewrite take_ge, decode_wire by done. cbv zeta.
  destruct (ingest_single sess seq m (MoldStream.state s) Hm Hs (tu_state _ _ _ _ Ht)) as [Ho Ha].
  unfold MoldStream.pop_front. cbn [MoldStream.on_state MoldStream.touch_packet MoldStream.state].
  rewrite Ho. eexists. split; [reflexivity|]. destruct Ht as [_ Hf Hw _].
  split; simpl; [done|by rewrite Hf|done|by rewrite Hw].
Qed.

Lemma poll_nothing now seq clock s :
  tuned sess seq clock s → now < clock + DEFAULT_SILENCE_WARNING →
  MoldStream.poll_next now [] s = (s, [], Some Pending).
Proof.
  intros Ht Hn. unfold MoldStream.poll_next. rewrite (tu_finished _ _ _ _ Ht), (tuned_pop _ _ _ Ht).
  unfold MoldStream.poll_fuel. cbn [length Nat.add MoldStream.poll_loop].
  by rewrite (tu_timer _ _ _ _ Ht), (proj2 (Z.leb_gt _ _)).
Qed.

Lemma wait_ready fuel deadline seq clock m t arrivals s :
  wf m → 0 ≤ seq < u64_max → tuned sess seq clock s →
  ∃ s', wait (S fuel) deadline (Tap.mk s t ((t, Packet (packet_wire (single sess seq m))) :: arrivals))
        = (Tap.mk s' t arrivals, Some (Item (Ok (MoldEvent.Message seq m))))
    ∧ tuned sess (seq + 1) t s'.
Proof.
  intros Hm Hs Ht. cbn [wait Tap.clock Tap.arrivals Tap.stream by_time fst]. rewrite Z.leb_refl.
  cbn [map snd read_at]. destruct (poll_single t seq clock m
    (map (λ a, read_at t a.2) (by_time t arrivals)) s Hm Hs Ht) as (s' & -> & Ht').
  exists s'. split; [|done]. cbn [length]. rewrite length_map, Nat.sub_succ_l, Nat.sub_diag by done.
  cbn [drop]. by rewrite drop_0.
Qed.

Lemma wait_single fuel deadline seq m clock t arrivals s :
  wf m → 0 ≤ seq < u64_max → tuned sess seq clock s →
  clock ≤ t < clock + DEFAULT_SILENCE_WARNING → t ≤ deadline →
  ∃ s', wait (S (S fuel)) deadline
          (Tap.mk s clock ((t, Packet (packet_wire (single sess seq m))) :: arrivals))
        = (Tap.mk s' t arrivals, Some (Item (Ok (MoldEvent.Message seq m))))
    ∧ tuned sess (seq + 1) t s'.
Proof.
  intros Hm Hs Ht Hp Hd. destruct (Z.eq_dec clock t) as [->|Hne]; [by eapply wait_ready|].
  cbn [wait Tap.clock Tap.arrivals Tap.stream by_time fst]. rewrite (proj2 (Z.leb_gt t clock)) by lia.
  cbn [map]. rewrite (poll_nothing clock seq clock) by (done || (unfold DEFAULT_SILENCE_WARNING; lia)).
  rewrite (proj2 (Z.leb_gt deadline clock)) by lia. cbn [length Nat.sub drop fst].
  rewrite (tu_timer _ _ _ _ Ht).
  replace (Z.min _ (Z.max clock t)) with t by (unfold DEFAULT_SILENCE_WARNING in *; lia).
  by eapply wait_ready.
Qed.

Lemma mold_flow_loop_complete sc fuel got ts ms seq clock s rest :
  Forall wf ms → paced clock ts → length ts = length ms → (length ms < fuel)%nat →
  0 ≤ seq → seq + Z.of_nat (length ms) ≤ u64_max → tuned sess seq clock s →
  flow_loop sc fuel got (got + length ms) (Tap.mk s clock (singles_at sess seq ts ms ++ rest))
  = Some (Pass sc).
Proof.
  intros Hms. revert fuel got ts seq clock s.
  induction Hms as [|m ms Hm Hms IH]; intros fuel got ts seq clock s Hp Hl Hf Hs Hu Ht;
    (destruct fuel as [|fuel]; [lia|]); cbn [flow_loop length].
  { by rewrite Nat.add_0_r, Nat.ltb_irrefl. }
  destruct ts as [|t ts]; [done|]. destruct Hp as [Hp Hps]. cbn [length] in Hl, Hf, Hu.
  rewrite (proj2 (Nat.ltb_lt _ _)) by lia. unfold next_within, next_by, wait_fuel.
  cbn [singles_at app Tap.arrivals Tap.clock length].
  destruct (wait_single (3 + 3 * length (singles_at sess (seq + 1) ts ms ++ rest) + 3)
    (clock + SCENARIO_TIMEOUT) seq m clock t (singles_at sess (seq + 1) ts ms ++ rest) s)
    as (s' & Hw & Ht'); [done|lia|done|done|unfold SCENARIO_TIMEOUT, DEFAULT_SILENCE_WARNING in *; lia|].
  replace (3 * S _ + 5)%nat with (S (S (3 + 3 * length (singles_at sess (seq + 1) ts ms ++ rest) + 3)))
    by lia.
  rewrite Hw. cbn [is_message]. rewrite Nat.add_succ_r. change (S (got + length ms)) with (S got + length ms)%nat.
  apply (IH fuel (S got) ts (seq + 1) t s'); [done|lia|lia|lia|lia|done].
Qed.
End flow.
End MoldDriverFacts.

(** ** Properties *)

(** C37: the scenario of an in-order flow tells the truth.  When it passes, the
    receiver that the driver ran had put out the asked number of messages for the
    datagrams of the group, first of all and without an undecodable block among
    them; and it does pass when the publisher sends as many, one in each datagram,
    in order from any sequence number and each before the silence warning. *)
Theorem mold_flow_verdict group request_server (n : nat) :
  let s := MoldDriver.InOrderFlow n in
  (∀ fuel g, MoldDriver.run_scenario group request_server fuel g s = Some (MoldDriver.Pass s) →
     ∃ es, es `prefix_of` emissions
             (ReceiverState.receive_all (MoldDriverFacts.packets_of (MoldDriver.Group.arrivals g))
                (ReceiverState.new (MoldDriver.base_config group request_server)))
       ∧ Forall MoldDriver.is_message es ∧ length es = n)
  ∧ (∀ fuel sess seq ts ms rest,
       is_v4 group = true → length sess = 10%nat ∧ Forall is_u8 sess → Forall wf ms →
       MoldDriverFacts.paced 0 ts → length ts = length ms → length ms = n → (n < fuel)%nat →
       0 ≤ seq → seq + Z.of_nat n ≤ u64_max →
       MoldDriver.run_scenario group request_server fuel
         (MoldDriver.Group.mk None None (MoldDriverFacts.singles_at sess seq ts ms ++ rest)) s
       = Some (MoldDriver.Pass s)).
Proof.
  intros s. unfold MoldDriver.run_scenario, MoldDriver.joined, s, MoldStream.join. split.
  - intros fuel g. destruct (is_v4 _); [|done].
    destruct (MoldDriver.Group.bound g), (MoldDriver.Group.joined g); try done.
    intros Hf. apply MoldDriverFacts.flow_loop_saw in Hf as (x' & used & log & [Ha Hs] & Hall & Hlen); [|lia].
    exists (filter is_emission log). split_and!; [|done|lia]. simpl in Ha, Hs. rewrite Ha.
    unfold MoldDriverFacts.packets_of. rewrite omap_app, receive_all_app.
    fold (MoldDriverFacts.packets_of used). rewrite Hs, after_receive_all, emissions_after. by eexists.
  - intros fuel sess seq ts ms rest Hg Hsess Hms Hp Hl <- Hf Hs Hu. cbn zeta.
    change (MoldConfig.multicast_group _) with group. rewrite Hg.
    apply (MoldDriverFacts.mold_flow_loop_complete sess Hsess _ fuel 0); try done.
    split; [|done|done|done]. split; [done|done|by left|done].
Qed.

(** Two messages, and something else behind them. *)
Definition two_messages : list Message.t :=
  [Message.OrderDelete OrderDelete.default; Message.BrokenTrade BrokenTrade.default].

Lemma mold_flow_verdict_witness :
  MoldDriver.run_scenario ([239; 0; 0; 1], 5000) ([127; 0; 0; 1], 5001) 3
    (MoldDriver.Group.mk None None
       (MoldDriverFacts.singles_at (replicate 10 space) 7 [5; 900] two_messages
        ++ [(901, MoldDriver.Fault "gone")])) (MoldDriver.InOrderFlow 2)
  = Some (MoldDriver.Pass (MoldDriver.InOrderFlow 2)).
Proof.
  apply (proj2 (mold_flow_verdict ([239; 0; 0; 1], 5000) ([127; 0; 0; 1], 5001) 2)).
  - reflexivity.
  - split; [reflexivity|]. repeat constructor; discriminate.
  - repeat (apply Forall_cons_2; [vm_compute; repeat (split || constructor); discriminate|]). constructor.
  - vm_compute. repeat split; discriminate.
  - reflexivity.
  - reflexivity.
  - lia.
  - lia.
  - unfold u64_max. simpl. lia.
Defined.

(** Four scenarios pass against a publisher that never sends a datagram and
    whatever request server is named.  [RequestServerUnreachable] and
    [MultiServerFailover] pass as soon as the group is joined, [BadInnerFrame]
    because the stream reports fifteen seconds of silence as an error, and
    [HeartbeatUnderSilence] without any heartbeat. *)
Theorem mold_driver_blind group request_server fuel :
  is_v4 group = true → (1 ≤ fuel)%nat →
  let silent := MoldDriver.Group.mk None None [] in
  Forall (λ s, MoldDriver.run_scenario group request_server fuel silent s = Some (MoldDriver.Pass s))
    [MoldDriver.RequestServerUnreachable; MoldDriver.MultiServerFailover; MoldDriver.BadInnerFrame;
     MoldDriver.HeartbeatUnderSilence].
Proof.
  intros Hg Hfuel silent. destruct fuel as [|fuel]; [lia|].
  repeat constructor; unfold MoldDriver.run_scenario, MoldDriver.joined, MoldStream.join; simpl;
    rewrite Hg; done.
Qed.

Lemma mold_driver_blind_witness :
  MoldDriver.run_scenario ([239; 0; 0; 1], 5000) ([127; 0; 0; 1], 5001) 1
    (MoldDriver.Group.mk None None []) MoldDriver.BadInnerFrame
  = Some (MoldDriver.Pass MoldDriver.BadInnerFrame).
Proof.
  pose proof (mold_driver_blind ([239; 0; 0; 1], 5000) ([127; 0; 0; 1], 5001) 1
    ltac:(reflexivity) ltac:(lia)) as H. cbn zeta in H. rewrite Forall_forall in H. apply H.
  do 2 right. left.
Defined.
