(* ===== verification/ProtocolTests.v ===== *)
(** The unit tests of [crates/itch-protocol/src] ([primitives.rs], [enums.rs],
    [messages.rs], [codec.rs]), run on the model.

    A test is a boolean: the conjunction of its assertions, [false] where the
    test would panic.  [TestSuite] also serves the tests of the other crates.
    That a model passes the tests of the code it stands for is evidence that it
    is the same function; the theorems of the other files are about all inputs. *)

From S2P Require Import Prelude Primitives Text Enums Messages Codec CodecMessages MessageCodec.

Module TestSuite.
Definition assert_eq `{EqDecision A} (x y : A) : bool := bool_decide (x = y).
Definition assert_ne `{EqDecision A} (x y : A) : bool := negb (assert_eq x y).
(** [expect] and [unwrap], followed by the rest of the test. *)
Definition expect {A E} (r : result A E) (k : A → bool) : bool :=
  match r with Ok x => k x | Err _ => false end.
Definition expect_err {A E} (r : result A E) (k : E → bool) : bool :=
  match r with Ok _ => false | Err e => k e end.
Definition expect_some {A} (o : option A) (k : A → bool) : bool :=
  match o with Some x => k x | None => false end.
Definition is_none {A} (o : option A) : bool := match o with Some _ => false | None => true end.
Definition passes (tests : list bool) : Prop := Forall (λ t, t = true) tests.
End TestSuite.
Import TestSuite.

Ltac run_tests := unfold passes; repeat (apply Forall_cons_2; [vm_compute; reflexivity|]); apply Forall_nil_2.

(** ** [primitives.rs] *)

Module PrimitivesTests.
Definition stock_new_pads_short_input : bool :=
  let s := Stock.new (text "AAPL") in
  assert_eq (Stock.as_bytes s) (text "AAPL    ")
  && expect (Stock.as_str s) (λ t, assert_eq t (text "AAPL")).
Definition stock_new_truncates_long_input : bool :=
  assert_eq (Stock.as_bytes (Stock.new (text "LONGSYMBOL"))) (text "LONGSYMB").
Definition stock_new_exact_fit_no_padding : bool :=
  let s := Stock.new (text "LONGSYMB") in
  assert_eq (Stock.as_bytes s) (text "LONGSYMB")
  && expect (Stock.as_str s) (λ t, assert_eq t (text "LONGSYMB")).
Definition stock_byte_equality_preserves_padding : bool :=
  assert_eq (Stock.new (text "AAPL")) (Stock.from_bytes (text "AAPL    ")).
Definition stock_default_is_space_padded : bool :=
  let blank := Stock.default in
  assert_eq (Stock.as_bytes blank) (text "        ") && assert_eq (Stock.new (text "")) blank.
Definition mpid_default_is_space_padded : bool :=
  let blank := Mpid.default in
  assert_eq (Mpid.as_bytes blank) (text "    ") && assert_eq (Mpid.new (text "")) blank.
Definition stock_as_str_preserves_embedded_chars_strips_trailing_space : bool :=
  expect (Stock.as_str (Stock.from_bytes (text "AB CD   "))) (λ t, assert_eq t (text "AB CD")).
Definition stock_as_str_all_spaces_returns_empty : bool :=
  expect (Stock.as_str (Stock.from_bytes (text "        "))) (λ t, assert_eq t (text "")).
Definition mpid_new_pads_short_input : bool :=
  let m := Mpid.new (text "CIT") in
  assert_eq (Mpid.as_bytes m) (text "CIT ")
  && expect (Mpid.as_str m) (λ t, assert_eq t (text "CIT")).
Definition mpid_new_exact_fit : bool :=
  let m := Mpid.new (text "NSDQ") in
  assert_eq (Mpid.as_bytes m) (text "NSDQ")
  && expect (Mpid.as_str m) (λ t, assert_eq t (text "NSDQ")).
Definition mpid_truncates_overlong : bool :=
  assert_eq (Mpid.as_bytes (Mpid.new (text "LONGER"))) (text "LONG").
Definition timestamp_round_trip_within_u48 : bool :=
  let v := 0x123456789abc in
  expect (Timestamp.try_new v) (λ ts, assert_eq (Timestamp.as_u64 ts) v).
Definition timestamp_max_is_u48_max : bool :=
  assert_eq Timestamp.MAX (Z.shiftl 1 48 - 1) && is_ok (Timestamp.try_new Timestamp.MAX).
Definition timestamp_rejects_above_u48 : bool :=
  let v := Z.shiftl 1 48 in
  expect_err (Timestamp.try_new v) (λ err,
    match err with Timestamp.OutOfRange value => assert_eq value v end).
Definition price4_integer_roundtrip : bool :=
  assert_eq (Price4.as_u32 (Price4.from_u32 1927184)) 1927184.
Definition price8_integer_roundtrip : bool :=
  assert_eq (Price8.as_u64 (Price8.from_u64 1234567890123)) 1234567890123.
Definition order_reference_roundtrip : bool :=
  assert_eq (OrderReference.as_u64 (OrderReference.from_u64 1001)) 1001.
Definition match_number_roundtrip : bool :=
  assert_eq (MatchNumber.as_u64 (MatchNumber.from_u64 42)) 42.
Definition stock_locate_roundtrip : bool :=
  assert_eq (StockLocate.as_u16 (StockLocate.from_u16 7)) 7.
Definition tracking_number_roundtrip : bool :=
  assert_eq (TrackingNumber.as_u16 (TrackingNumber.from_u16 123)) 123.
Definition shares_roundtrip : bool :=
  assert_eq (Shares.as_u32 (Shares.from_u32 500)) 500.
Definition wire_lens_match_spec : bool :=
  assert_eq StockLocate.WIRE_LEN 2%nat && assert_eq TrackingNumber.WIRE_LEN 2%nat
  && assert_eq OrderReference.WIRE_LEN 8%nat && assert_eq MatchNumber.WIRE_LEN 8%nat
  && assert_eq Shares.WIRE_LEN 4%nat && assert_eq Timestamp.WIRE_LEN 6%nat
  && assert_eq Stock.WIRE_LEN 8%nat && assert_eq Mpid.WIRE_LEN 4%nat
  && assert_eq Price4.WIRE_LEN 4%nat && assert_eq Price8.WIRE_LEN 8%nat.
End PrimitivesTests.

(** ** [enums.rs] *)

Module EnumTests.
(** The macro [roundtrip_enum!]. *)
Definition roundtrip_enum `{AlphaCoded T} (variants : list T) (bad : Z) : bool :=
  forallb (λ v, expect (from_byte (to_byte v)) (λ back, assert_eq back v)) variants
  && expect_err (from_byte (T := T) bad) (λ err,
       match err with
       | InvalidEnumCode field code => assert_eq field (FIELD (T := T)) && assert_eq code bad
       | _ => false
       end).

Definition event_code_round_trip : bool :=
  roundtrip_enum [EventCode.StartOfMessages; EventCode.StartOfSystemHours;
    EventCode.StartOfMarketHours; EventCode.EndOfMarketHours; EventCode.EndOfSystemHours;
    EventCode.EndOfMessages] (b@"Z").
Definition side_round_trip : bool :=
  roundtrip_enum [Side.Buy; Side.Sell] (b@"X").
Definition market_category_round_trip : bool :=
  roundtrip_enum [MarketCategory.NasdaqGlobalSelect; MarketCategory.NasdaqGlobalMarket;
    MarketCategory.NasdaqCapitalMarket; MarketCategory.NyseMkt; MarketCategory.Nyse;
    MarketCategory.NyseArca; MarketCategory.BatsZ; MarketCategory.Iex;
    MarketCategory.Unavailable] (b@"X").
Definition financial_status_round_trip : bool :=
  roundtrip_enum [FinancialStatus.Deficient; FinancialStatus.Delinquent;
    FinancialStatus.Bankrupt; FinancialStatus.Suspended; FinancialStatus.DeficientAndBankrupt;
    FinancialStatus.DeficientAndDelinquent; FinancialStatus.DelinquentAndBankrupt;
    FinancialStatus.DeficientDelinquentBankrupt; FinancialStatus.CreationsRedemptionsSuspended;
    FinancialStatus.Normal; FinancialStatus.Unavailable] (b@"X").
Definition authenticity_round_trip : bool :=
  roundtrip_enum [Authenticity.Live; Authenticity.Test] (b@"X").
Definition yesno_round_trip : bool :=
  roundtrip_enum [YesNo.Yes; YesNo.No; YesNo.Unavailable] (b@"X").
Definition luld_tier_round_trip : bool :=
  roundtrip_enum [LuldTier.Tier1; LuldTier.Tier2; LuldTier.Unavailable] (b@"9").
Definition trading_state_round_trip : bool :=
  roundtrip_enum [TradingState.Halted; TradingState.Paused; TradingState.QuotationOnly;
    TradingState.Trading] (b@"X").
Definition reg_sho_action_round_trip : bool :=
  roundtrip_enum [RegShoAction.NoPriceTest; RegShoAction.InEffectIntradayDrop;
    RegShoAction.InEffect] (b@"9").
Definition market_maker_mode_round_trip : bool :=
  roundtrip_enum [MarketMakerMode.Normal; MarketMakerMode.Passive; MarketMakerMode.Syndicate;
    MarketMakerMode.PreSyndicate; MarketMakerMode.Penalty] (b@"X").
Definition market_participant_state_round_trip : bool :=
  roundtrip_enum [MarketParticipantState.Active; MarketParticipantState.ExcusedOrWithdrawn;
    MarketParticipantState.Withdrawn; MarketParticipantState.Suspended;
    MarketParticipantState.Deleted] (b@"X").
Definition breached_level_round_trip : bool :=
  roundtrip_enum [BreachedLevel.Level1; BreachedLevel.Level2; BreachedLevel.Level3] (b@"9").
Definition ipo_release_qualifier_round_trip : bool :=
  roundtrip_enum [IpoReleaseQualifier.Anticipated; IpoReleaseQualifier.Cancelled] (b@"X").
Definition printable_round_trip : bool :=
  roundtrip_enum [Printable.NonPrintable; Printable.Printable] (b@"X").
Definition cross_type_round_trip : bool :=
  roundtrip_enum [CrossType.Opening; CrossType.Closing; CrossType.Halted; CrossType.Intraday]
    (b@"X").
Definition imbalance_direction_round_trip : bool :=
  roundtrip_enum [ImbalanceDirection.Buy; ImbalanceDirection.Sell;
    ImbalanceDirection.NoImbalance; ImbalanceDirection.InsufficientToCalc] (b@"X").
Definition price_variation_round_trip : bool :=
  roundtrip_enum [PriceVariation.LessThan1Percent; PriceVariation.Pct1To2;
    PriceVariation.Pct2To3; PriceVariation.Pct3To4; PriceVariation.Pct4To5;
    PriceVariation.Pct5To6; PriceVariation.Pct6To7; PriceVariation.Pct7To8;
    PriceVariation.Pct8To9; PriceVariation.Pct9To10; PriceVariation.Pct10To20;
    PriceVariation.Pct20To30; PriceVariation.Pct30OrGreater; PriceVariation.CannotBeCalculated]
    (b@"X").
Definition rpi_interest_flag_round_trip : bool :=
  roundtrip_enum [RpiInterestFlag.BuySide; RpiInterestFlag.SellSide; RpiInterestFlag.BothSides;
    RpiInterestFlag.None] (b@"X").
Definition invalid_enum_code_carries_field_name : bool :=
  expect_err (from_byte (T := Side.t) (b@"Z")) (λ err,
    match err with
    | InvalidEnumCode field code => assert_eq field "Side"%string && assert_eq code (b@"Z")
    | _ => false
    end).
Definition discriminant_equals_ascii_byte : bool :=
  assert_eq (to_byte Side.Buy) (b@"B") && assert_eq (to_byte Side.Sell) (b@"S")
  && assert_eq (to_byte EventCode.StartOfMessages) (b@"O")
  && assert_eq (to_byte EventCode.EndOfMessages) (b@"C")
  && assert_eq (to_byte CrossType.Opening) (b@"O")
  && assert_eq (to_byte BreachedLevel.Level1) (b@"1").
End EnumTests.

(** ** [messages.rs] *)

Module MessageTests.
Definition header : Header.t :=
  Header.mk (StockLocate.from_u16 7) (TrackingNumber.from_u16 13) (Timestamp.from_u64 0x123456789abc).
Definition add_order_construction : bool :=
  let m := AddOrder.mk header (OrderReference.from_u64 1001) Side.Buy (Shares.from_u32 500)
             (Stock.new (text "AAPL")) (Price4.from_u32 1925000) in
  assert_eq (OrderReference.as_u64 (AddOrder.order_ref m)) 1001
  && assert_eq (AddOrder.side m) Side.Buy && assert_eq (Shares.as_u32 (AddOrder.shares m)) 500
  && assert_eq (Stock.as_bytes (AddOrder.stock m)) (text "AAPL    ")
  && assert_eq (Price4.as_u32 (AddOrder.price m)) 1925000.
Definition order_replace_distinct_refs : bool :=
  let m := OrderReplace.mk header (OrderReference.from_u64 100) (OrderReference.from_u64 200)
             (Shares.from_u32 750) (Price4.from_u32 1927500) in
  assert_ne (OrderReplace.original_order_ref m) (OrderReplace.new_order_ref m).
Definition trade_non_cross_post_2014_quirk_field_shapes : bool :=
  let m := TradeNonCross.mk header (OrderReference.from_u64 0) Side.Buy (Shares.from_u32 100)
             (Stock.new (text "MSFT")) (Price4.from_u32 3500000) (MatchNumber.from_u64 42) in
  assert_eq (OrderReference.as_u64 (TradeNonCross.order_ref m)) 0
  && assert_eq (TradeNonCross.side m) Side.Buy.
Definition cross_trade_uses_u64_shares : bool :=
  let m := CrossTrade.mk header u64_max (Stock.new (text "SPY")) (Price4.from_u32 4000000)
             (MatchNumber.from_u64 99) CrossType.Opening in
  assert_eq (CrossTrade.shares m) u64_max.
Definition noii_uses_u64_share_counts : bool :=
  let m := Noii.mk header 1000000 500000 ImbalanceDirection.Buy (Stock.new (text "QQQ"))
             (Price4.from_u32 3700000) (Price4.from_u32 3710000) (Price4.from_u32 3705000)
             CrossType.Closing PriceVariation.Pct1To2 in
  assert_eq (Noii.paired_shares m) 1000000 && assert_eq (Noii.imbalance_shares m) 500000.
Definition stock_directory_full_field_set : bool :=
  let m := StockDirectory.mk header (Stock.new (text "AAPL")) MarketCategory.NasdaqGlobalSelect
             FinancialStatus.Normal (Shares.from_u32 100) YesNo.No (b@"C") (text "  ")
             Authenticity.Live YesNo.No YesNo.No LuldTier.Tier1 YesNo.No 0 YesNo.No in
  assert_eq (Stock.as_bytes (StockDirectory.stock m)) (text "AAPL    ")
  && assert_eq (Shares.as_u32 (StockDirectory.round_lot_size m)) 100
  && assert_eq (StockDirectory.market_category m) MarketCategory.NasdaqGlobalSelect.

(** [X { header: h, ..Default::default() }]. *)
Definition StockDirectory_with (h : Header.t) : StockDirectory.t :=
  let d := StockDirectory.default in
  StockDirectory.mk h (StockDirectory.stock d) (StockDirectory.market_category d)
    (StockDirectory.financial_status d) (StockDirectory.round_lot_size d)
    (StockDirectory.round_lots_only d) (StockDirectory.issue_classification d)
    (StockDirectory.issue_subtype d) (StockDirectory.authenticity d)
    (StockDirectory.short_sale_threshold d) (StockDirectory.ipo_flag d)
    (StockDirectory.luld_reference_price_tier d) (StockDirectory.etp_flag d)
    (StockDirectory.etp_leverage_factor d) (StockDirectory.inverse_indicator d).
Definition StockTradingAction_with (h : Header.t) : StockTradingAction.t :=
  let d := StockTradingAction.default in
  StockTradingAction.mk h (StockTradingAction.stock d) (StockTradingAction.trading_state d)
    (StockTradingAction.reserved d) (StockTradingAction.reason d).
Definition RegShoRestriction_with (h : Header.t) : RegShoRestriction.t :=
  let d := RegShoRestriction.default in
  RegShoRestriction.mk h (RegShoRestriction.stock d) (RegShoRestriction.reg_sho_action d).
Definition MarketParticipantPosition_with (h : Header.t) : MarketParticipantPosition.t :=
  let d := MarketParticipantPosition.default in
  MarketParticipantPosition.mk h (MarketParticipantPosition.mpid d)
    (MarketParticipantPosition.stock d) (MarketParticipantPosition.primary_market_maker d)
    (MarketParticipantPosition.market_maker_mode d)
    (MarketParticipantPosition.market_participant_state d).
Definition MwcbDeclineLevel_with (h : Header.t) : MwcbDeclineLevel.t :=
  let d := MwcbDeclineLevel.default in
  MwcbDeclineLevel.mk h (MwcbDeclineLevel.level1 d) (MwcbDeclineLevel.level2 d)
    (MwcbDeclineLevel.level3 d).
Definition MwcbStatus_with (h : Header.t) : MwcbStatus.t :=
  let d := MwcbStatus.default in
  MwcbStatus.mk h (MwcbStatus.breached_level d).
Definition IpoQuotingPeriodUpdate_with (h : Header.t) : IpoQuotingPeriodUpdate.t :=
  let d := IpoQuotingPeriodUpdate.default in
  IpoQuotingPeriodUpdate.mk h (IpoQuotingPeriodUpdate.stock d)
    (IpoQuotingPeriodUpdate.ipo_quotation_release_time d)
    (IpoQuotingPeriodUpdate.ipo_quotation_release_qualifier d) (IpoQuotingPeriodUpdate.ipo_price d).
Definition AddOrder_with (h : Header.t) : AddOrder.t :=
  let d := AddOrder.default in
  AddOrder.mk h (AddOrder.order_ref d) (AddOrder.side d) (AddOrder.shares d) (AddOrder.stock d)
    (AddOrder.price d).
Definition AddOrderWithMpid_with (h : Header.t) : AddOrderWithMpid.t :=
  let d := AddOrderWithMpid.default in
  AddOrderWithMpid.mk h (AddOrderWithMpid.order_ref d) (AddOrderWithMpid.side d)
    (AddOrderWithMpid.shares d) (AddOrderWithMpid.stock d) (AddOrderWithMpid.price d)
    (AddOrderWithMpid.attribution d).
Definition OrderExecuted_with (h : Header.t) : OrderExecuted.t :=
  let d := OrderExecuted.default in
  OrderExecuted.mk h (OrderExecuted.order_ref d) (OrderExecuted.executed_shares d)
    (OrderExecuted.match_number d).
Definition OrderExecutedWithPrice_with (h : Header.t) : OrderExecutedWithPrice.t :=
  let d := OrderExecutedWithPrice.default in
  OrderExecutedWithPrice.mk h (OrderExecutedWithPrice.order_ref d)
    (OrderExecutedWithPrice.executed_shares d) (OrderExecutedWithPrice.match_number d)
    (OrderExecutedWithPrice.printable d) (OrderExecutedWithPrice.execution_price d).
Definition OrderCancel_with (h : Header.t) : OrderCancel.t :=
  let d := OrderCancel.default in
  OrderCancel.mk h (OrderCancel.order_ref d) (OrderCancel.cancelled_shares d).
Definition OrderDelete_with (h : Header.t) : OrderDelete.t :=
  let d := OrderDelete.default in
  OrderDelete.mk h (OrderDelete.order_ref d).
Definition OrderReplace_with (h : Header.t) : OrderReplace.t :=
  let d := OrderReplace.default in
  OrderReplace.mk h (OrderReplace.original_order_ref d) (OrderReplace.new_order_ref d)
    (OrderReplace.shares d) (OrderReplace.price d).
Definition TradeNonCross_with (h : Header.t) : TradeNonCross.t :=
  let d := TradeNonCross.default in
  TradeNonCross.mk h (TradeNonCross.order_ref d) (TradeNonCross.side d) (TradeNonCross.shares d)
    (TradeNonCross.stock d) (TradeNonCross.price d) (TradeNonCross.match_number d).
Definition CrossTrade_with (h : Header.t) : CrossTrade.t :=
  let d := CrossTrade.default in
  CrossTrade.mk h (CrossTrade.shares d) (CrossTrade.stock d) (CrossTrade.cross_price d)
    (CrossTrade.match_number d) (CrossTrade.cross_type d).
Definition BrokenTrade_with (h : Header.t) : BrokenTrade.t :=
  let d := BrokenTrade.default in
  BrokenTrade.mk h (BrokenTrade.match_number d).
Definition Noii_with (h : Header.t) : Noii.t :=
  let d := Noii.default in
  Noii.mk h (Noii.paired_shares d) (Noii.imbalance_shares d) (Noii.imbalance_direction d)
    (Noii.stock d) (Noii.far_price d) (Noii.near_price d) (Noii.current_reference_price d)
    (Noii.cross_type d) (Noii.price_variation d).
Definition RetailPriceImprovement_with (h : Header.t) : RetailPriceImprovement.t :=
  let d := RetailPriceImprovement.default in
  RetailPriceImprovement.mk h (RetailPriceImprovement.stock d)
    (RetailPriceImprovement.interest_flag d).
Definition one_of_each : list (Message.t * Z * nat) :=
  let h := header in
  [(Message.SystemEvent (SystemEvent.mk h EventCode.StartOfMessages), b@"S", 11%nat);
   (Message.StockDirectory (StockDirectory_with h), b@"R", 38%nat);
   (Message.StockTradingAction (StockTradingAction_with h), b@"H", 24%nat);
   (Message.RegShoRestriction (RegShoRestriction_with h), b@"Y", 19%nat);
   (Message.MarketParticipantPosition (MarketParticipantPosition_with h), b@"L", 25%nat);
   (Message.MwcbDeclineLevel (MwcbDeclineLevel_with h), b@"V", 34%nat);
   (Message.MwcbStatus (MwcbStatus_with h), b@"W", 11%nat);
   (Message.IpoQuotingPeriodUpdate (IpoQuotingPeriodUpdate_with h), b@"K", 27%nat);
   (Message.AddOrder (AddOrder_with h), b@"A", 35%nat);
   (Message.AddOrderWithMpid (AddOrderWithMpid_with h), b@"F", 39%nat);
   (Message.OrderExecuted (OrderExecuted_with h), b@"E", 30%nat);
   (Message.OrderExecutedWithPrice (OrderExecutedWithPrice_with h), b@"C", 35%nat);
   (Message.OrderCancel (OrderCancel_with h), b@"X", 22%nat);
   (Message.OrderDelete (OrderDelete_with h), b@"D", 18%nat);
   (Message.OrderReplace (OrderReplace_with h), b@"U", 34%nat);
   (Message.TradeNonCross (TradeNonCross_with h), b@"P", 43%nat);
   (Message.CrossTrade (CrossTrade_with h), b@"Q", 39%nat);
   (Message.BrokenTrade (BrokenTrade_with h), b@"B", 18%nat);
   (Message.Noii (Noii_with h), b@"I", 49%nat);
   (Message.RetailPriceImprovement (RetailPriceImprovement_with h), b@"N", 19%nat)].
Definition message_tag_and_body_len_match_spec_for_every_kind : bool :=
  forallb (λ '(msg, tag, body),
    assert_eq (Message.tag msg) tag && assert_eq (Message.body_len msg) body
    && assert_eq (Message.encoded_len msg) (body + 1)%nat) one_of_each.
(** [Vec::dedup]: consecutive repetitions are dropped. *)
Fixpoint dedup (xs : list Z) : list Z :=
  match xs with
  | x :: (y :: _) as rest => if x =? y then dedup rest else x :: dedup rest
  | _ => xs
  end.
Definition message_distinct_tags : bool :=
  let tags := merge_sort Z.le (map (λ '(m, _, _), Message.tag m) one_of_each) in
  assert_eq (length (dedup tags)) 20%nat.
End MessageTests.

(** ** [codec.rs] *)

Module CodecTests.
Definition add_order_fixture : AddOrder.t :=
  AddOrder.mk
    (Header.mk (StockLocate.from_u16 7) (TrackingNumber.from_u16 13) (Timestamp.from_u64 0x123456789abc))
    (OrderReference.from_u64 1001) Side.Buy (Shares.from_u32 500) (Stock.new (text "AAPL"))
    (Price4.from_u32 1925000).
Definition add_order_round_trip_via_message_encode_decode : bool :=
  let m := Message.AddOrder add_order_fixture in
  let '(buf, r) := Message_encode m (replicate 64 0) in
  expect r (λ n, assert_eq n (AddOrder.BODY_LEN + 1)%nat
    && expect (Message_decode (take n buf)) (λ decoded, assert_eq decoded m)).
Definition decode_unknown_tag_returns_unknown_message_type : bool :=
  match Message_decode [b@"Z"; 0; 0; 0; 0] with
  | Err (UnknownMessageType b) => assert_eq b (b@"Z")
  | _ => false
  end.
Definition decode_empty_buffer_returns_truncated : bool :=
  assert_eq (Message_decode []) (Err (Truncated 1 0)).
Definition decode_truncated_body_returns_truncated : bool :=
  match Message_decode [b@"A"; 0; 0; 0; 0; 0] with
  | Err (Truncated need got) => assert_eq need (Z.of_nat AddOrder.BODY_LEN) && assert_eq got 5
  | _ => false
  end.
Definition encode_into_too_small_buffer_returns_buffer_too_small : bool :=
  let m := Message.AddOrder add_order_fixture in
  match (Message_encode m (replicate 10 0)).2 with
  | Err (BufferTooSmall need got) =>
      assert_eq need (Z.of_nat (Message.encoded_len m)) && assert_eq got 10
  | _ => false
  end.
Definition decode_invalid_enum_code_returns_typed_error : bool :=
  let buf := <[11%nat := b@"Z"]> (<[0%nat := b@"S"]> (replicate 12 0)) in
  match Message_decode buf with
  | Err (InvalidEnumCode field code) => assert_eq field "EventCode"%string && assert_eq code (b@"Z")
  | _ => false
  end.
End CodecTests.

(** ** The tests pass *)

Lemma primitives_tests_pass :
  passes [PrimitivesTests.stock_new_pads_short_input;
    PrimitivesTests.stock_new_truncates_long_input; PrimitivesTests.stock_new_exact_fit_no_padding;
    PrimitivesTests.stock_byte_equality_preserves_padding;
    PrimitivesTests.stock_default_is_space_padded; PrimitivesTests.mpid_default_is_space_padded;
    PrimitivesTests.stock_as_str_preserves_embedded_chars_strips_trailing_space;
    PrimitivesTests.stock_as_str_all_spaces_returns_empty;
    PrimitivesTests.mpid_new_pads_short_input; PrimitivesTests.mpid_new_exact_fit;
    PrimitivesTests.mpid_truncates_overlong; PrimitivesTests.timestamp_round_trip_within_u48;
    PrimitivesTests.timestamp_max_is_u48_max; PrimitivesTests.timestamp_rejects_above_u48;
    PrimitivesTests.price4_integer_roundtrip; PrimitivesTests.price8_integer_roundtrip;
    PrimitivesTests.order_reference_roundtrip; PrimitivesTests.match_number_roundtrip;
    PrimitivesTests.stock_locate_roundtrip; PrimitivesTests.tracking_number_roundtrip;
    PrimitivesTests.shares_roundtrip; PrimitivesTests.wire_lens_match_spec].
Proof. run_tests. Qed.

Lemma enum_tests_pass :
  passes [EnumTests.event_code_round_trip; EnumTests.side_round_trip;
    EnumTests.market_category_round_trip; EnumTests.financial_status_round_trip;
    EnumTests.authenticity_round_trip; EnumTests.yesno_round_trip; EnumTests.luld_tier_round_trip;
    EnumTests.trading_state_round_trip; EnumTests.reg_sho_action_round_trip;
    EnumTests.market_maker_mode_round_trip; EnumTests.market_participant_state_round_trip;
    EnumTests.breached_level_round_trip; EnumTests.ipo_release_qualifier_round_trip;
    EnumTests.printable_round_trip; EnumTests.cross_type_round_trip;
    EnumTests.imbalance_direction_round_trip; EnumTests.price_variation_round_trip;
    EnumTests.rpi_interest_flag_round_trip; EnumTests.invalid_enum_code_carries_field_name;
    EnumTests.discriminant_equals_ascii_byte].
Proof. run_tests. Qed.

Lemma message_tests_pass :
  passes [MessageTests.add_order_construction; MessageTests.order_replace_distinct_refs;
    MessageTests.trade_non_cross_post_2014_quirk_field_shapes;
    MessageTests.cross_trade_uses_u64_shares; MessageTests.noii_uses_u64_share_counts;
    MessageTests.stock_directory_full_field_set;
    MessageTests.message_tag_and_body_len_match_spec_for_every_kind;
    MessageTests.message_distinct_tags].
Proof. run_tests. Qed.

Lemma codec_tests_pass :
  passes [CodecTests.add_order_round_trip_via_message_encode_decode;
    CodecTests.decode_unknown_tag_returns_unknown_message_type;
    CodecTests.decode_empty_buffer_returns_truncated;
    CodecTests.decode_truncated_body_returns_truncated;
    CodecTests.encode_into_too_small_buffer_returns_buffer_too_small;
    CodecTests.decode_invalid_enum_code_returns_typed_error].
Proof. run_tests. Qed.
