(* ===== verification/BookTests.v ===== *)
(** The unit tests of [crates/itch-book/src] ([l3.rs], [ohlcv.rs]), run on the
    model. *)

From S2P Require Import Prelude Primitives Text Enums Messages BookSpec L2Book L3Book Ohlcv.
From S2P Require Import ProtocolTests.
Import TestSuite.

(** ** [l3.rs] *)

Module L3Tests.
Definition locate : StockLocate.t := StockLocate.from_u16 42.
Definition header : Header.t :=
  Header.mk locate (TrackingNumber.from_u16 0) (Timestamp.from_u64 0).
Definition add_msg (order_ref : Z) (side : Side.t) (shares price : Z) : Message.t :=
  Message.AddOrder (AddOrder.mk header (OrderReference.from_u64 order_ref) side (Shares.from_u32 shares)
    (Stock.new (text "AAPL")) (Price4.from_u32 price)).
Definition fresh_book_is_empty : bool :=
  let b := L3Book.new locate in
  assert_eq (L3Book.order_count b) 0%nat && assert_eq (L3Book.levels_count Side.Buy b) 0%nat
  && assert_eq (L3Book.levels_count Side.Sell b) 0%nat
  && is_none (L3Book.order (OrderReference.from_u64 1) b)
  && is_none (L3Book.queue_position (OrderReference.from_u64 1) b).
Definition arrival_seq_monotonic_across_inserts : bool :=
  let '(b, r1) := L3Book.apply (add_msg 1 Side.Buy 100 1000) (L3Book.new locate) in
  let '(b, r2) := L3Book.apply (add_msg 2 Side.Buy 100 1000) b in
  is_ok r1 && is_ok r2
  && expect_some (L3Book.order (OrderReference.from_u64 1) b) (λ o1,
     expect_some (L3Book.order (OrderReference.from_u64 2) b) (λ o2,
       L3OrderEntry.arrival_seq o1 <? L3OrderEntry.arrival_seq o2)).
End L3Tests.

(** ** [ohlcv.rs] *)

Module OhlcvTests.
Definition header_for (locate : Z) : Header.t :=
  Header.mk (StockLocate.from_u16 locate) (TrackingNumber.from_u16 0) (Timestamp.from_u64 32400000000000).
Definition p (locate price shares match_number : Z) : Message.t :=
  Message.TradeNonCross (TradeNonCross.mk (header_for locate) (OrderReference.from_u64 0) Side.Buy
    (Shares.from_u32 shares) Stock.default (Price4.from_u32 price) (MatchNumber.from_u64 match_number)).
Definition q (locate price shares match_number : Z) : Message.t :=
  Message.CrossTrade (CrossTrade.mk (header_for locate) shares Stock.default (Price4.from_u32 price)
    (MatchNumber.from_u64 match_number) CrossType.Closing).
Definition c (locate price shares : Z) (printable : Printable.t) : Message.t :=
  Message.OrderExecutedWithPrice (OrderExecutedWithPrice.mk (header_for locate) (OrderReference.from_u64 1)
    (Shares.from_u32 shares) (MatchNumber.from_u64 1) printable (Price4.from_u32 price)).

Definition applied (msgs : list Message.t) : OhlcvAccumulator.t :=
  foldl (λ acc msg, OhlcvAccumulator.apply msg acc) OhlcvAccumulator.new msgs.
Definition bar_at (locate : Z) (acc : OhlcvAccumulator.t) : option OhlcvBar.t :=
  OhlcvAccumulator.bar (StockLocate.from_u16 locate) acc.
Definition price_is (price : Price4.t) (expected : Z) : bool := assert_eq price (Price4.from_u32 expected).

Definition empty_accumulator_has_no_bars : bool :=
  let acc := OhlcvAccumulator.new in
  assert_eq (OhlcvAccumulator.len acc) 0%nat && OhlcvAccumulator.is_empty acc
  && is_none (bar_at 1 acc) && assert_eq (length (OhlcvAccumulator.bars acc)) 0%nat.
Definition single_p_trade_seeds_bar_with_equal_ohlc : bool :=
  expect_some (bar_at 1 (applied [p 1 1900000 100 1])) (λ bar,
    price_is (OhlcvBar.open bar) 1900000 && price_is (OhlcvBar.high bar) 1900000
    && price_is (OhlcvBar.low bar) 1900000 && price_is (OhlcvBar.close bar) 1900000
    && assert_eq (OhlcvBar.volume bar) 100 && assert_eq (OhlcvBar.trade_count bar) 1).
Definition five_p_trades_advance_high_low_close_keep_open : bool :=
  let acc := applied [p 1 1900000 100 1; p 1 1950000 200 2; p 1 1880000 300 3; p 1 1910000 400 4;
                      p 1 1920000 500 5] in
  expect_some (bar_at 1 acc) (λ bar,
    price_is (OhlcvBar.open bar) 1900000 && price_is (OhlcvBar.high bar) 1950000
    && price_is (OhlcvBar.low bar) 1880000 && price_is (OhlcvBar.close bar) 1920000
    && assert_eq (OhlcvBar.volume bar) 1500 && assert_eq (OhlcvBar.trade_count bar) 5).
Definition c_non_printable_does_not_update_bar : bool :=
  let acc := applied [c 1 1900000 100 Printable.NonPrintable] in
  is_none (bar_at 1 acc) && assert_eq (OhlcvAccumulator.len acc) 0%nat.
Definition c_printable_updates_bar : bool :=
  expect_some (bar_at 1 (applied [c 1 1900000 100 Printable.Printable])) (λ bar,
    price_is (OhlcvBar.close bar) 1900000
    && assert_eq (OhlcvBar.volume bar) 100 && assert_eq (OhlcvBar.trade_count bar) 1).
Definition q_cross_trade_updates_bar_like_regular_trade : bool :=
  expect_some (bar_at 1 (applied [p 1 1900000 100 1; q 1 1930000 1000 2])) (λ bar,
    price_is (OhlcvBar.open bar) 1900000 && price_is (OhlcvBar.high bar) 1930000
    && price_is (OhlcvBar.low bar) 1900000 && price_is (OhlcvBar.close bar) 1930000
    && assert_eq (OhlcvBar.volume bar) 1100 && assert_eq (OhlcvBar.trade_count bar) 2).
Definition e_order_executed_is_no_op : bool :=
  let msg := Message.OrderExecuted (OrderExecuted.mk (header_for 1) (OrderReference.from_u64 1)
               (Shares.from_u32 100) (MatchNumber.from_u64 1)) in
  is_none (bar_at 1 (applied [msg])).
Definition add_order_is_no_op : bool :=
  let msg := Message.AddOrder (AddOrder.mk (header_for 1) (OrderReference.from_u64 1) Side.Buy
               (Shares.from_u32 100) Stock.default (Price4.from_u32 1900000)) in
  is_none (bar_at 1 (applied [msg])).
Definition multi_symbol_isolation : bool :=
  let acc := applied [p 1 1900000 100 1; p 2 3500000 200 2; p 1 1950000 50 3] in
  assert_eq (OhlcvAccumulator.len acc) 2%nat
  && expect_some (bar_at 1 acc) (λ bar1, expect_some (bar_at 2 acc) (λ bar2,
       price_is (OhlcvBar.open bar1) 1900000 && price_is (OhlcvBar.close bar1) 1950000
       && assert_eq (OhlcvBar.volume bar1) 150 && assert_eq (OhlcvBar.trade_count bar1) 2
       && price_is (OhlcvBar.open bar2) 3500000 && price_is (OhlcvBar.close bar2) 3500000
       && assert_eq (OhlcvBar.volume bar2) 200 && assert_eq (OhlcvBar.trade_count bar2) 1)).
End OhlcvTests.

(** ** The tests pass *)

Lemma l3_tests_pass :
  passes [L3Tests.fresh_book_is_empty; L3Tests.arrival_seq_monotonic_across_inserts].
Proof. run_tests. Qed.

Lemma ohlcv_tests_pass :
  passes [OhlcvTests.empty_accumulator_has_no_bars;
    OhlcvTests.single_p_trade_seeds_bar_with_equal_ohlc;
    OhlcvTests.five_p_trades_advance_high_low_close_keep_open;
    OhlcvTests.c_non_printable_does_not_update_bar; OhlcvTests.c_printable_updates_bar;
    OhlcvTests.q_cross_trade_updates_bar_like_regular_trade; OhlcvTests.e_order_executed_is_no_op;
    OhlcvTests.add_order_is_no_op; OhlcvTests.multi_symbol_isolation].
Proof. run_tests. Qed.
