(* ===== verification/MoldTests.v ===== *)
(** The unit tests of [crates/itch-mold/src] ([codec.rs], [receiver.rs],
    [request_server.rs]), run on the model.  A test of the stream polls without
    readings; times are milliseconds since the start. *)

From S2P Require Import Prelude Primitives Text Enums Messages Codec CodecMessages MessageCodec.
From S2P Require Import MoldCodec MoldReceiver MoldStore MoldPublisher MoldStream ProtocolTests.
Import TestSuite.

(** ** [codec.rs] *)

Module MoldCodecTests.
Definition with_session (k : list Z → bool) : bool := expect (session_from_str (text "ITCH50")) k.
Definition fixture_block (byte : Z) (len : nat) (k : MessageBlock.t → bool) : bool :=
  expect (MessageBlock.new (replicate len byte)) k.
(** [vec![0u8; pkt.wire_len()]] and [pkt.encode(&mut buf)]. *)
Definition encoded (pkt : MoldPacket.t) (k : list Z → nat → bool) : bool :=
  let '(buf, r) := MoldPacket.encode pkt (replicate (MoldPacket.wire_len pkt) 0) in expect r (k buf).
Definition decodes_to (pkt : MoldPacket.t) (buf : list Z) : bool :=
  expect (MoldPacket.decode buf) (λ back, assert_eq back pkt).

Definition header_roundtrip : bool :=
  with_session (λ session,
    let h := MoldPacketHeader.mk session 42 3 in
    let bytes := MoldPacketHeader.to_bytes h in
    assert_eq (length bytes) HEADER_LEN
    && expect (MoldPacketHeader.from_bytes bytes) (λ back, assert_eq back h)).
Definition header_truncated_returns_truncated : bool :=
  expect_err (MoldPacketHeader.from_bytes (replicate (HEADER_LEN - 1) 0)) (λ err,
    match err with MoldError.Truncated need _ => assert_eq need (Z.of_nat HEADER_LEN) | _ => false end).
Definition data_packet_roundtrip_single_block : bool :=
  with_session (λ session, fixture_block 0xAB 50 (λ block,
    expect (MoldPacket.new_data session 100 [block]) (λ pkt,
    encoded pkt (λ buf n, assert_eq n (MoldPacket.wire_len pkt) && decodes_to pkt buf)))).
Definition data_packet_roundtrip_multiple_blocks : bool :=
  with_session (λ session, fixture_block 0x01 10 (λ b1, fixture_block 0x02 25 (λ b2,
    fixture_block 0x03 5 (λ b3, fixture_block 0x04 100 (λ b4,
    expect (MoldPacket.new_data session 1 [b1; b2; b3; b4]) (λ pkt,
    encoded pkt (λ buf _, expect (MoldPacket.decode buf) (λ back,
      assert_eq back pkt
      && assert_eq (MoldPacketHeader.message_count (MoldPacket.header back)) 4)))))))).
Definition heartbeat_packet_roundtrip : bool :=
  with_session (λ session,
    let pkt := MoldPacket.heartbeat session 999 in
    MoldPacketHeader.is_heartbeat (MoldPacket.header pkt) && assert_eq (MoldPacket.blocks pkt) []
    && encoded pkt (λ buf _, assert_eq (length buf) HEADER_LEN && decodes_to pkt buf)).
Definition end_of_session_packet_roundtrip : bool :=
  with_session (λ session,
    let pkt := MoldPacket.end_of_session session 12345 in
    MoldPacketHeader.is_end_of_session (MoldPacket.header pkt) && assert_eq (MoldPacket.blocks pkt) []
    && encoded pkt (λ buf _, decodes_to pkt buf)).
Definition block_length_prefix_is_big_endian : bool :=
  with_session (λ session, fixture_block 0xCC 258 (λ block,
    expect (MoldPacket.new_data session 1 [block]) (λ pkt,
    encoded pkt (λ buf _, assert_eq (buf !! HEADER_LEN) (Some 0x01)
      && assert_eq (buf !! (HEADER_LEN + 1)%nat) (Some 0x02))))).
Definition too_large (err : MoldError.t) : bool :=
  match err with MoldError.BlockTooLarge _ max => assert_eq max (Z.of_nat MAX_BLOCK_LEN) | _ => false end.
Definition oversized_block_construction_rejected : bool :=
  expect_err (MessageBlock.new (replicate (MAX_BLOCK_LEN + 1) 0)) too_large.
Definition empty_block_construction_rejected : bool :=
  expect_err (MessageBlock.new []) (λ err, assert_eq err MoldError.EmptyBlock).
(** A header and what follows it, decoded. *)
Definition rejected (message_count : Z) (rest : list Z) (k : MoldError.t → bool) : bool :=
  with_session (λ session,
    expect_err (MoldPacket.decode
      (MoldPacketHeader.to_bytes (MoldPacketHeader.mk session 1 message_count) ++ rest)) k).
Definition decode_oversized_block_rejected : bool :=
  rejected 1 (to_be_bytes 2 (Z.of_nat (MAX_BLOCK_LEN + 1))) too_large.
Definition decode_empty_block_rejected : bool :=
  rejected 1 (to_be_bytes 2 0) (λ err, assert_eq err MoldError.EmptyBlock).
Definition decode_truncated_packet_rejected : bool :=
  rejected 1 [] (λ err, match err with MoldError.Truncated _ _ => true | _ => false end).
Definition decode_truncated_block_rejected : bool :=
  rejected 1 (to_be_bytes 2 10 ++ replicate 4 0) (λ err, assert_eq err (MoldError.Truncated 10 4)).
Definition heartbeat_with_trailing_bytes_rejected : bool :=
  rejected 0 [0xFF] (λ err, assert_eq err (MoldError.TrailingBytes 1)).
Definition end_of_session_with_trailing_bytes_rejected : bool :=
  rejected 0xFFFF [0x00] (λ err, assert_eq err (MoldError.TrailingBytes 1)).
Definition session_from_str_pads_with_spaces : bool :=
  expect (session_from_str (text "ABC")) (λ s, assert_eq s (text "ABC       ")).
Definition session_from_str_too_long_rejected : bool :=
  expect_err (session_from_str (text "12345678901")) (λ err, assert_eq err (MoldError.SessionTooLong 11)).
Definition encode_into_too_small_buffer_rejected : bool :=
  with_session (λ session,
    expect_err (MoldPacket.encode (MoldPacket.heartbeat session 1) (replicate (HEADER_LEN - 1) 0)).2
      (λ err, match err with MoldError.BufferTooSmall _ _ => true | _ => false end)).
Definition encode_to_bytesmut_appends : bool :=
  with_session (λ session,
    let '(dst, r) := MoldPacket.encode_to (MoldPacket.heartbeat session 7) [] in
    is_ok r && assert_eq (length dst) HEADER_LEN).
Definition decode_from_bytesmut_consumes : bool :=
  with_session (λ session, fixture_block 0xAA 10 (λ block,
    expect (MoldPacket.new_data session 1 [block]) (λ pkt,
    let '(buf, r) := MoldPacket.encode_to pkt [] in
    let '(buf, parsed) := decode_from_bytesmut buf in
    is_ok r && expect parsed (λ parsed, assert_eq parsed pkt) && assert_eq buf []))).
End MoldCodecTests.

(** ** [receiver.rs] *)

Module ReceiverTests.
Definition with_session := MoldCodecTests.with_session.
Definition add_order (seq_marker : Z) : Message.t :=
  Message.AddOrder (AddOrder.mk
    (Header.mk (StockLocate.from_u16 (Z.land seq_marker 0xFFFF)) (TrackingNumber.from_u16 0)
       (Timestamp.from_u64 seq_marker))
    (OrderReference.from_u64 (seq_marker + 1000)) Side.Buy (Shares.from_u32 100)
    (Stock.new (text "AAPL")) (Price4.from_u32 1000000)).
(** [encode(m)] and [MessageBlock::new] of every message. *)
Fixpoint blocks_of (msgs : list Message.t) (k : list MessageBlock.t → bool) : bool :=
  match msgs with
  | [] => k []
  | m :: msgs =>
      let '(buf, r) := Message_encode m (replicate (Message.encoded_len m) 0) in
      is_ok r && expect (MessageBlock.new buf) (λ b, blocks_of msgs (λ bs, k (b :: bs)))
  end.
(** [stream.test_ingest(data_packet(session, first_seq, msgs))] at [now]. *)
Definition ingest_data (now : Z) (session : list Z) (first_seq : Z) (msgs : list Message.t)
    (stream : MoldStream.t) (k : MoldStream.t → bool) : bool :=
  blocks_of msgs (λ blocks, expect (MoldPacket.new_data session first_seq blocks) (λ pkt,
    k (MoldStream.test_ingest pkt now stream))).
(** [stream.next().await] where it does not wait. *)
Definition next (now : Z) (stream : MoldStream.t) (k : option event → MoldStream.t → bool) : bool :=
  match MoldStream.poll_next now [] stream with
  | (stream, _, Some (Ready item)) => k item stream
  | _ => false
  end.
(** [.unwrap().unwrap()]. *)
Definition next_ok (now : Z) (stream : MoldStream.t) (k : MoldEvent.t → MoldStream.t → bool) : bool :=
  next now stream (λ item stream, match item with Some (Ok e) => k e stream | _ => false end).
Definition is_seq (n : Z) (e : MoldEvent.t) : bool :=
  match e with MoldEvent.Message sequence _ => assert_eq sequence n | _ => false end.
(** The next events are the messages of these numbers. *)
Fixpoint next_seqs (now : Z) (ns : list Z) (stream : MoldStream.t) (k : MoldStream.t → bool) : bool :=
  match ns with
  | [] => k stream
  | n :: ns => next_ok now stream (λ e stream, is_seq n e && next_seqs now ns stream k)
  end.
(** Packets of one message each, with one event taken after each. *)
Fixpoint ingest_each (session : list Z) (seqs : list Z) (stream : MoldStream.t)
    (k : MoldStream.t → bool) : bool :=
  match seqs with
  | [] => k stream
  | s :: seqs =>
      ingest_data 0 session s [add_order s] stream (λ stream,
        next_ok 0 stream (λ _ stream, ingest_each session seqs stream k))
  end.

Definition in_order_messages_are_delivered : bool :=
  with_session (λ session,
    let cfg := MoldConfig.with_start_sequence 1 (MoldConfig.with_session session MoldConfig.default) in
    ingest_data 0 session 1 [add_order 1; add_order 2; add_order 3] (MoldStream.test_only cfg 0) (λ stream,
    next_ok 0 stream (λ e stream,
      assert_eq e (MoldEvent.Message 1 (add_order 1))
      && next_seqs 0 [2; 3] stream (λ stream, assert_eq (MoldStream.next_expected_sequence stream) 4)))).
Definition first_packet_locks_session_and_sequence_when_unset : bool :=
  with_session (λ session,
    ingest_data 0 session 100 [add_order 42] (MoldStream.test_only MoldConfig.default 0) (λ stream,
    next_ok 0 stream (λ e stream,
      assert_eq e (MoldEvent.Message 100 (add_order 42))
      && assert_eq (MoldStream.current_session stream) (Some session)
      && assert_eq (MoldStream.next_expected_sequence stream) 101))).
Definition heartbeat_event_emitted : bool :=
  with_session (λ session,
    let cfg := MoldConfig.with_session session MoldConfig.default in
    let stream := MoldStream.test_ingest (MoldPacket.heartbeat session 1) 0 (MoldStream.test_only cfg 0) in
    next_ok 0 stream (λ e _, assert_eq e (MoldEvent.Heartbeat 1))).
Definition end_of_session_terminates_stream : bool :=
  with_session (λ session,
    let cfg := MoldConfig.with_session session MoldConfig.default in
    let stream :=
      MoldStream.test_ingest (MoldPacket.end_of_session session 99) 0 (MoldStream.test_only cfg 0) in
    next_ok 0 stream (λ e stream,
      assert_eq e (MoldEvent.EndOfSession 99) && next 0 stream (λ item _, is_none item))).
Definition gap_event_emitted_then_pending_flushes_on_resync : bool :=
  with_session (λ session,
    let cfg := MoldConfig.with_start_sequence 1 (MoldConfig.with_session session MoldConfig.default) in
    ingest_data 0 session 1 [add_order 1] (MoldStream.test_only cfg 0) (λ stream,
    next_ok 0 stream (λ _ stream,
    ingest_data 0 session 4 [add_order 4; add_order 5] stream (λ stream,
    next_ok 0 stream (λ gap stream,
      assert_eq gap (MoldEvent.Gap 2 3) && assert_eq (MoldStream.pending_count stream) 2%nat
      && ingest_data 0 session 2 [add_order 2; add_order 3] stream (λ stream,
         next_seqs 0 [2; 3; 4; 5] stream (λ stream,
           assert_eq (MoldStream.next_expected_sequence stream) 6
           && assert_eq (MoldStream.pending_count stream) 0%nat))))))).
Definition session_mismatch_emits_error_does_not_poison_stream : bool :=
  with_session (λ session, expect (session_from_str (text "OTHER")) (λ other,
    let cfg := MoldConfig.with_session session MoldConfig.default in
    ingest_data 0 other 1 [add_order 1] (MoldStream.test_only cfg 0) (λ stream,
    next 0 stream (λ item stream,
      match item with Some (Err (MoldError.SessionMismatch _ _)) => true | _ => false end
      && ingest_data 0 session 1 [add_order 1] stream (λ stream,
         next_ok 0 stream (λ e _, is_seq 1 e)))))).
Definition fully_retransmitted_old_packet_is_dropped : bool :=
  with_session (λ session,
    let cfg := MoldConfig.with_start_sequence 10 (MoldConfig.with_session session MoldConfig.default) in
    ingest_data 0 session 10 [add_order 10; add_order 11; add_order 12] (MoldStream.test_only cfg 0)
      (λ stream,
    next_ok 0 stream (λ _ stream, next_ok 0 stream (λ _ stream, next_ok 0 stream (λ _ stream,
      assert_eq (MoldStream.next_expected_sequence stream) 13
      && ingest_data 0 session 5 [add_order 5; add_order 6; add_order 7; add_order 8] stream (λ stream,
           assert_eq (length (ReceiverState.outbox (MoldStream.state stream))) 0%nat)))))).
Definition silent_dead_link_emits_peer_silent_then_resumes : bool :=
  with_session (λ session,
    let cfg := MoldConfig.with_start_sequence 1
      (MoldConfig.with_silence 50 200 (MoldConfig.with_session session MoldConfig.default)) in
    next 250 (MoldStream.test_only cfg 0) (λ item stream,
      match item with Some (Err (MoldError.PeerSilent _)) => true | _ => false end
      && ingest_data 250 session 1 [add_order 1] stream (λ stream,
         next_ok 250 stream (λ e _, is_seq 1 e)))).
(** The poll at the end of the timeout is the second one. *)
Definition silence_warning_flag_set_then_cleared_on_packet : bool :=
  with_session (λ session,
    let cfg := MoldConfig.with_start_sequence 1
      (MoldConfig.with_silence 50 15000 (MoldConfig.with_session session MoldConfig.default)) in
    let '(stream, _, first) := MoldStream.poll_next 60 [] (MoldStream.test_only cfg 0) in
    let '(stream, _, second) := MoldStream.poll_next 70 [] stream in
    match first, second with Some Pending, Some Pending => true | _, _ => false end
    && MoldStream.silent_warned stream
    && ingest_data 70 session 1 [add_order 1] stream (λ stream,
       next_ok 70 stream (λ e stream, is_seq 1 e && negb (MoldStream.silent_warned stream)))).
Definition pending_drop_oldest_evicts_lowest_seq : bool :=
  with_session (λ session,
    let cfg := MoldConfig.with_start_sequence 1 (MoldConfig.with_pending_overflow DropOldest
      (MoldConfig.with_max_pending 3 (MoldConfig.with_session session MoldConfig.default))) in
    ingest_each session [1] (MoldStream.test_only cfg 0) (λ stream,
      assert_eq (MoldStream.next_expected_sequence stream) 2
      && ingest_each session [10; 11; 12] stream (λ stream,
           assert_eq (MoldStream.pending_count stream) 3%nat
           && assert_eq (MoldStream.pending_overflow_drops stream) 0
           && ingest_each session [13] stream (λ stream,
                assert_eq (MoldStream.pending_count stream) 3%nat
                && assert_eq (MoldStream.pending_overflow_drops stream) 1)))).
Definition pending_error_policy_yields_error_and_resumes : bool :=
  with_session (λ session,
    let cfg := MoldConfig.with_start_sequence 1 (MoldConfig.with_pending_overflow Error
      (MoldConfig.with_max_pending 2 (MoldConfig.with_session session MoldConfig.default))) in
    ingest_each session [1; 10; 11] (MoldStream.test_only cfg 0) (λ stream,
      assert_eq (MoldStream.pending_count stream) 2%nat
      && ingest_data 0 session 12 [add_order 12] stream (λ stream,
         next 0 stream (λ next1 stream, next 0 stream (λ next2 stream,
           match next1 with Some (Ok (MoldEvent.Gap _ _)) => true | _ => false end
           && match next2 with
              | Some (Err (MoldError.PendingBufferFull size)) => assert_eq size 2
              | _ => false
              end
           && assert_eq (MoldStream.pending_count stream) 2%nat
           && assert_eq (MoldStream.pending_overflow_drops stream) 1))))).
Definition pending_duplicate_seq_is_no_op : bool :=
  with_session (λ session,
    let cfg := MoldConfig.with_start_sequence 1 (MoldConfig.with_session session MoldConfig.default) in
    ingest_each session [1; 5] (MoldStream.test_only cfg 0) (λ stream,
      assert_eq (MoldStream.pending_count stream) 1%nat
      && ingest_each session [5] stream (λ stream,
           assert_eq (MoldStream.pending_count stream) 1%nat))).
Definition pending_full_then_full_flush_returns_all_in_order : bool :=
  with_session (λ session,
    let cfg := MoldConfig.with_start_sequence 1
      (MoldConfig.with_max_pending 5 (MoldConfig.with_session session MoldConfig.default)) in
    ingest_each session [1; 3; 4; 5; 6] (MoldStream.test_only cfg 0) (λ stream,
      assert_eq (MoldStream.pending_count stream) 4%nat
      && ingest_data 0 session 2 [add_order 2] stream (λ stream,
         next_seqs 0 [2; 3; 4; 5; 6] stream (λ stream,
           assert_eq (MoldStream.next_expected_sequence stream) 7
           && assert_eq (MoldStream.pending_count stream) 0%nat)))).
End ReceiverTests.

(** ** [request_server.rs] *)

Module RequestServerTests.
Import RingBufferSeqStore.
Definition frame (seq : Z) : CachedFrame.t :=
  CachedFrame.mk seq (replicate (Z.to_nat (16 + seq mod 16)) 0xAB).
Definition filled (capacity : nat) (seqs : list Z) : RingBufferSeqStore.t :=
  foldl (λ st s, push (frame s) st) (with_capacity capacity) seqs.
Definition seqs_are (frames : list CachedFrame.t) (seqs : list Z) : bool :=
  assert_eq (map CachedFrame.sequence frames) seqs.

Definition ringbuffer_push_evicts_oldest_at_capacity : bool :=
  let store := filled 3 [1; 2; 3; 4] in
  assert_eq (len store) 3%nat && assert_eq (first_sequence store) (Some 2)
  && assert_eq (last_sequence store) (Some 4).
Definition ringbuffer_lookup_consecutive_returns_cached : bool :=
  seqs_are (lookup 2 3 (filled 8 [1; 2; 3; 4; 5])) [2; 3; 4].
Definition ringbuffer_lookup_unknown_seq_returns_empty : bool :=
  seqs_are (lookup 100 5 (filled 8 [1; 2; 3; 4; 5])) [].
Definition ringbuffer_lookup_stops_at_hole : bool :=
  seqs_are (lookup 1 5 (filled 8 [1; 2; 4; 5])) [1; 2].
Definition status_for_full_match_returns_ok : bool :=
  assert_eq (status_for 1 3 3 (filled 8 [1; 2; 3; 4; 5])) STATUS_OK.
Definition status_for_partial_match_returns_hole : bool :=
  assert_eq (status_for 1 10 5 (filled 8 [1; 2; 3; 4; 5])) STATUS_HOLE.
Definition status_for_past_end_with_eos_returns_eos : bool :=
  assert_eq (status_for 100 5 0 (mark_end_of_session (filled 8 [1; 2; 3; 4; 5]))) STATUS_END_OF_SESSION.

(** [client.request(sequence, count)] on a connection to a server with this cache. *)
Definition request (sequence count : Z) (cache : RingBufferSeqStore.t)
    (k : RequestResponse.t → bool) : bool :=
  expect (serve_request (request_frame sequence count) cache) (λ bytes,
  expect (request_response sequence bytes) (λ '(resp, rest), assert_eq rest [] && k resp)).
Definition end_to_end_request_returns_cached_frames : bool :=
  request 3 4 (filled 64 (seqZ 1 10)) (λ resp,
    assert_eq (RequestResponse.status resp) STATUS_OK
    && seqs_are (RequestResponse.frames resp) [3; 4; 5; 6]).
Definition request_for_hole_returns_status_hole : bool :=
  request 1 100 (filled 64 (seqZ 1 5)) (λ resp,
    assert_eq (RequestResponse.status resp) STATUS_HOLE
    && assert_eq (length (RequestResponse.frames resp)) 5%nat).
Definition request_past_end_after_eos_returns_status_end_of_session : bool :=
  request 100 1 (mark_end_of_session (filled 64 (seqZ 1 5))) (λ resp,
    assert_eq (RequestResponse.status resp) STATUS_END_OF_SESSION
    && assert_eq (length (RequestResponse.frames resp)) 0%nat).
Definition multiple_sequential_requests_on_one_conn : bool :=
  let cache := filled 64 (seqZ 1 10) in
  request 1 3 cache (λ r1, assert_eq (length (RequestResponse.frames r1)) 3%nat)
  && request 5 2 cache (λ r2, assert_eq (length (RequestResponse.frames r2)) 2%nat).
Definition empty_request_returns_ok_with_no_frames : bool :=
  request 1 0 (with_capacity 64) (λ resp,
    assert_eq (RequestResponse.status resp) STATUS_OK
    && assert_eq (length (RequestResponse.frames resp)) 0%nat).
End RequestServerTests.

(** ** The tests pass *)

Lemma mold_codec_tests_pass :
  passes [MoldCodecTests.header_roundtrip; MoldCodecTests.header_truncated_returns_truncated;
    MoldCodecTests.data_packet_roundtrip_single_block;
    MoldCodecTests.data_packet_roundtrip_multiple_blocks;
    MoldCodecTests.heartbeat_packet_roundtrip; MoldCodecTests.end_of_session_packet_roundtrip;
    MoldCodecTests.block_length_prefix_is_big_endian;
    MoldCodecTests.oversized_block_construction_rejected;
    MoldCodecTests.empty_block_construction_rejected;
    MoldCodecTests.decode_oversized_block_rejected; MoldCodecTests.decode_empty_block_rejected;
    MoldCodecTests.decode_truncated_packet_rejected;
    MoldCodecTests.decode_truncated_block_rejected;
    MoldCodecTests.heartbeat_with_trailing_bytes_rejected;
    MoldCodecTests.end_of_session_with_trailing_bytes_rejected;
    MoldCodecTests.session_from_str_pads_with_spaces;
    MoldCodecTests.session_from_str_too_long_rejected;
    MoldCodecTests.encode_into_too_small_buffer_rejected;
    MoldCodecTests.encode_to_bytesmut_appends; MoldCodecTests.decode_from_bytesmut_consumes].
Proof. run_tests. Qed.

Lemma receiver_tests_pass :
  passes [ReceiverTests.in_order_messages_are_delivered;
    ReceiverTests.first_packet_locks_session_and_sequence_when_unset;
    ReceiverTests.heartbeat_event_emitted; ReceiverTests.end_of_session_terminates_stream;
    ReceiverTests.gap_event_emitted_then_pending_flushes_on_resync;
    ReceiverTests.session_mismatch_emits_error_does_not_poison_stream;
    ReceiverTests.fully_retransmitted_old_packet_is_dropped;
    ReceiverTests.silent_dead_link_emits_peer_silent_then_resumes;
    ReceiverTests.silence_warning_flag_set_then_cleared_on_packet;
    ReceiverTests.pending_drop_oldest_evicts_lowest_seq;
    ReceiverTests.pending_error_policy_yields_error_and_resumes;
    ReceiverTests.pending_duplicate_seq_is_no_op;
    ReceiverTests.pending_full_then_full_flush_returns_all_in_order].
Proof. run_tests. Qed.

Lemma request_server_tests_pass :
  passes [RequestServerTests.ringbuffer_push_evicts_oldest_at_capacity;
    RequestServerTests.ringbuffer_lookup_consecutive_returns_cached;
    RequestServerTests.ringbuffer_lookup_unknown_seq_returns_empty;
    RequestServerTests.ringbuffer_lookup_stops_at_hole;
    RequestServerTests.status_for_full_match_returns_ok;
    RequestServerTests.status_for_partial_match_returns_hole;
    RequestServerTests.status_for_past_end_with_eos_returns_eos;
    RequestServerTests.end_to_end_request_returns_cached_frames;
    RequestServerTests.request_for_hole_returns_status_hole;
    RequestServerTests.request_past_end_after_eos_returns_status_end_of_session;
    RequestServerTests.multiple_sequential_requests_on_one_conn;
    RequestServerTests.empty_request_returns_ok_with_no_frames].
Proof. run_tests. Qed.
