(* ===== verification/SoupTests.v ===== *)
(** The unit tests of [crates/itch-soup/src] and [crates/itch-tcp/src], run on
    the model.  A codec under test is the reader of [Framing.v]: its counter with
    the buffer that the test passes to it. *)

From S2P Require Import Prelude Primitives Text Enums Messages Codec CodecMessages MessageCodec.
From S2P Require Import Framing TcpCodec SoupCodec SoupSession Heartbeat Resilient ProtocolTests.
Import TestSuite.

(** ** A codec and its buffer under test *)

Module CodecUnderTest.
Section codec.
Context {I E : Type} `{!EqDecision I} (enc : I → mut (list Z) unit E) (dec : decoder I E).

(** [codec.encode(item, &mut buf).expect(..)]. *)
Definition encode (item : I) (r : Reader.t) (k : Reader.t → bool) : bool :=
  let '(buf, res) := enc item (Reader.src r) in
  expect res (λ _, k (Reader.mk (Reader.pending_skip r) buf)).
(** [codec.decode(&mut buf).expect(..).expect(..)]. *)
Definition frame (r : Reader.t) (k : I → Reader.t → bool) : bool :=
  let '(r, res) := dec r in expect res (λ o, expect_some o (λ p, k p r)).
(** [codec.decode(&mut buf).expect(..).is_none()]. *)
Definition starved (r : Reader.t) (k : Reader.t → bool) : bool :=
  let '(r, res) := dec r in expect res (λ o, is_none o && k r).
(** [codec.decode(&mut buf).expect_err(..)]. *)
Definition fails (r : Reader.t) (k : E → Reader.t → bool) : bool :=
  let '(r, res) := dec r in expect_err res (λ e, k e r).
(** The codec still decodes [item] when it comes next. *)
Definition resumes_with (item : I) (r : Reader.t) : bool :=
  encode item r (λ r, frame r (λ back _, assert_eq back item)).
(** [while remaining > 0]: [remaining] bytes in chunks of at most 256. *)
Fixpoint drain_chunks (fuel remaining : nat) (r : Reader.t) (k : Reader.t → bool) : bool :=
  match fuel, remaining with
  | _, O => k r
  | O, _ => false
  | S fuel, _ =>
      let chunk := Nat.min remaining 256 in
      starved (Reader.mk (Reader.pending_skip r) (replicate chunk 0))
        (λ r, drain_chunks fuel (remaining - chunk) r k)
  end.
(** A peer that sends [items] over a socket, and the stream that reads them. *)
Fixpoint send_all (items : list I) (buf : list Z) : option (list Z) :=
  match items with
  | [] => Some buf
  | item :: items =>
      match enc item buf with (buf, Ok _) => send_all items buf | (_, Err _) => None end
  end.
Definition loopback (items : list I) (k : list (result I E) → bool) : bool :=
  expect_some (send_all items []) (λ wire, k (read_chunks dec [wire] Reader.new).2).
End codec.

Definition put (bs : list Z) (r : Reader.t) : Reader.t := Reader.extend bs r.
Definition put_u16 (v : Z) (r : Reader.t) : Reader.t := put (to_be_bytes 2 v) r.
Definition is_empty (r : Reader.t) : bool := bool_decide (Reader.src r = []).
Definition at_ (i j : nat) (r : Reader.t) : list Z := sub i (j - i) (Reader.src r).
End CodecUnderTest.

(** ** [itch-soup/src/lib.rs] *)

Module SoupFrameTests.
Import CodecUnderTest.
Definition roundtrip (packet : SoupPacket.t) : bool :=
  encode SoupCodec.encode packet Reader.new (λ r,
    assert_eq (length (Reader.src r)) (SoupPacket.encoded_len packet)
    && frame SoupCodec.decode r (λ decoded r, assert_eq decoded packet && is_empty r)).
Definition test_debug_packet_roundtrip : bool :=
  roundtrip (SoupPacket.Debug (text "hello world")) && roundtrip (SoupPacket.Debug []).
Definition test_login_request_roundtrip : bool :=
  roundtrip (SoupPacket.LoginRequest
    (LoginRequest.mk (text "alice") (text "secret") (text "sess001") 42)).
Definition test_login_request_blank_session_zero_sequence_wire_shape : bool :=
  let pkt := SoupPacket.LoginRequest (LoginRequest.mk (text "u") (text "p") [] 0) in
  encode SoupCodec.encode pkt Reader.new (λ r,
    assert_eq (at_ 0 2 r) [0x00; 0x2F] && assert_eq (at_ 2 3 r) (text "L")
    && assert_eq (at_ 3 9 r) (text "u     ") && assert_eq (at_ 9 19 r) (text "p         ")
    && assert_eq (at_ 19 29 r) (text "          ")
    && assert_eq (at_ 29 49 r) (text "                   0")
    && frame SoupCodec.decode r (λ decoded _, assert_eq decoded pkt)).
Definition test_login_accepted_roundtrip : bool :=
  roundtrip (SoupPacket.LoginAccepted (LoginAccepted.mk (text "S001") 1))
  && roundtrip (SoupPacket.LoginAccepted (LoginAccepted.mk [] (2 ^ 64 - 1))).
Definition test_login_rejected_roundtrip_both_reasons : bool :=
  roundtrip (SoupPacket.LoginRejected LoginRejectReason.NotAuthorized)
  && roundtrip (SoupPacket.LoginRejected LoginRejectReason.SessionUnavailable).
Definition test_login_rejected_unknown_reason_returns_protocol_error : bool :=
  fails SoupCodec.decode (put (text "JX") (put_u16 2 Reader.new)) (λ e r,
    match e with
    | SoupError.Protocol (InvalidEnumCode field code) =>
        assert_eq field "LoginRejectReason"%string && assert_eq [code] (text "X")
    | _ => false
    end && is_empty r).
Definition test_sequenced_and_unsequenced_data_roundtrip : bool :=
  roundtrip (SoupPacket.SequencedData [0x00; 0x01; 0xFF; 0xAA])
  && roundtrip (SoupPacket.UnsequencedData (replicate 200 0x55))
  && roundtrip (SoupPacket.SequencedData []).
Definition test_zero_payload_packets_roundtrip : bool :=
  roundtrip SoupPacket.ServerHeartbeat && roundtrip SoupPacket.ClientHeartbeat
  && roundtrip SoupPacket.EndOfSession && roundtrip SoupPacket.LogoutRequest.
Definition test_decoder_returns_none_when_starved : bool :=
  starved SoupCodec.decode Reader.new (λ _, true)
  && starved SoupCodec.decode (put [0x00] Reader.new) (λ r, assert_eq (length (Reader.src r)) 1%nat)
  && starved SoupCodec.decode (put ([0x00; 0x05] ++ text "S" ++ [0xAA]) Reader.new) (λ r,
       assert_eq (length (Reader.src r)) 4%nat).
Definition test_truncated_login_request_returns_bad_payload_length : bool :=
  fails SoupCodec.decode (put (replicate 10 0) (put (text "L") (put_u16 11 Reader.new))) (λ e r,
    match e with
    | SoupError.BadPayloadLength tag expected got =>
        assert_eq [tag] (text "L") && assert_eq expected (Z.of_nat LOGIN_REQUEST_PAYLOAD_LEN)
        && assert_eq got 10
    | _ => false
    end && is_empty r && resumes_with SoupCodec.encode SoupCodec.decode SoupPacket.ServerHeartbeat r).
(** The length prefix of a frame one byte too long. *)
Definition oversized : nat := (MAX_MESSAGE_LEN - 1)%nat.
Definition test_oversized_frame_fully_present_drains_and_resumes : bool :=
  fails SoupCodec.decode (put (replicate oversized 0) (put_u16 (Z.of_nat oversized) Reader.new)) (λ e r,
    match e with
    | SoupError.FrameTooLarge got max =>
        assert_eq got (Z.of_nat (2 + oversized)) && assert_eq max (Z.of_nat MAX_MESSAGE_LEN)
    | _ => false
    end && is_empty r && resumes_with SoupCodec.encode SoupCodec.decode SoupPacket.EndOfSession r).
Definition is_frame_too_large (e : SoupError.t) : bool :=
  match e with SoupError.FrameTooLarge _ _ => true | _ => false end.
Definition test_oversized_frame_partial_drains_across_reads : bool :=
  fails SoupCodec.decode (put_u16 (Z.of_nat oversized) Reader.new) (λ e r,
    is_frame_too_large e
    && drain_chunks SoupCodec.decode oversized oversized r (λ r,
         is_empty r && resumes_with SoupCodec.encode SoupCodec.decode SoupPacket.ClientHeartbeat r)).
Definition test_unknown_packet_type_returns_typed_error_and_resumes : bool :=
  fails SoupCodec.decode (put (text "~") (put_u16 1 Reader.new)) (λ e r,
    match e with SoupError.UnknownPacketType tag => assert_eq [tag] (text "~") | _ => false end
    && is_empty r && resumes_with SoupCodec.encode SoupCodec.decode SoupPacket.ServerHeartbeat r).
Definition test_zero_length_packet_returns_typed_error_and_resumes : bool :=
  encode SoupCodec.encode SoupPacket.LogoutRequest (put_u16 0 Reader.new) (λ r,
    fails SoupCodec.decode r (λ e r, is_frame_too_large e && frame SoupCodec.decode r (λ pkt _, assert_eq pkt SoupPacket.LogoutRequest))).
Definition test_two_packets_in_one_buffer_decode_sequentially : bool :=
  encode SoupCodec.encode SoupPacket.ServerHeartbeat Reader.new (λ r, encode SoupCodec.encode SoupPacket.LogoutRequest r (λ r,
    frame SoupCodec.decode r (λ p1 r, frame SoupCodec.decode r (λ p2 r,
      assert_eq p1 SoupPacket.ServerHeartbeat && assert_eq p2 SoupPacket.LogoutRequest && is_empty r)))).
Definition test_login_request_long_username_truncates_to_six_bytes : bool :=
  encode SoupCodec.encode (SoupPacket.LoginRequest (LoginRequest.mk (text "averylongname") (text "pw") [] 1)) Reader.new
    (λ r, assert_eq (at_ 3 9 r) (text "averyl")
      && frame SoupCodec.decode r (λ decoded _,
           match decoded with
           | SoupPacket.LoginRequest req => assert_eq (LoginRequest.username req) (text "averyl")
           | _ => false
           end)).
Definition test_decode_ascii_u64_rejects_non_digit : bool :=
  fails SoupCodec.decode (put (text "L" ++ replicate 6 space ++ replicate 10 space ++ replicate 10 space
              ++ text "                  9X")
           (put_u16 (1 + Z.of_nat LOGIN_REQUEST_PAYLOAD_LEN) Reader.new)) (λ e _,
    match e with
    | SoupError.Protocol (InvalidEnumCode field code) =>
        assert_eq field "SoupAsciiNumber"%string && assert_eq [code] (text "X")
    | _ => false
    end).
Definition test_login_reject_reason_byte_roundtrip : bool :=
  forallb (λ r, expect (LoginRejectReason_from_byte (LoginRejectReason_to_byte r)) (λ back, assert_eq back r))
    [LoginRejectReason.NotAuthorized; LoginRejectReason.SessionUnavailable]
  && expect_err (LoginRejectReason_from_byte b@"Q") (λ e,
       assert_eq e (SoupError.Protocol (InvalidEnumCode "LoginRejectReason" b@"Q"))).
End SoupFrameTests.

(** ** [itch-tcp/src/lib.rs] *)

Module TcpFrameTests.
Import CodecUnderTest.
Definition add_order_fixture : Message.t :=
  Message.AddOrder (AddOrder.mk
    (Header.mk (StockLocate.from_u16 1) (TrackingNumber.from_u16 2) (Timestamp.from_u64 0x12345678))
    (OrderReference.from_u64 1001) Side.Buy (Shares.from_u32 500) (Stock.new (text "AAPL"))
    (Price4.from_u32 1925000)).
Definition encoder_then_decoder_roundtrip : bool :=
  let msg := add_order_fixture in
  encode ItchCodec.encode msg Reader.new (λ r,
    assert_eq (length (Reader.src r)) (2 + Message.encoded_len msg)%nat
    && frame ItchCodec.decode r (λ decoded r, assert_eq decoded msg && is_empty r)).
Definition decoder_returns_none_when_starved : bool :=
  starved ItchCodec.decode (put [0x00] Reader.new) (λ r, assert_eq (length (Reader.src r)) 1%nat)
  && starved ItchCodec.decode (put [0x00; 0x05; 0xAA; 0xBB] Reader.new) (λ r,
       assert_eq (length (Reader.src r)) 4%nat).
Definition resumes (r : Reader.t) : bool :=
  resumes_with ItchCodec.encode ItchCodec.decode add_order_fixture r.
Definition oversized : nat := (ItchCodec.MAX_MESSAGE_LEN + 1)%nat.
Definition decoder_drops_oversized_frame_fully_present_and_resumes : bool :=
  fails ItchCodec.decode (put (replicate oversized 0) (put_u16 (Z.of_nat oversized) Reader.new)) (λ err r,
    match err with
    | TransportError.FrameTooLarge got max =>
        assert_eq got (Z.of_nat oversized) && assert_eq max (Z.of_nat ItchCodec.MAX_MESSAGE_LEN)
    | _ => false
    end && is_empty r && resumes r).
Definition decoder_drops_oversized_frame_partial_then_resumes : bool :=
  fails ItchCodec.decode (put_u16 (Z.of_nat oversized) Reader.new) (λ err r,
    match err with TransportError.FrameTooLarge _ _ => true | _ => false end
    && drain_chunks ItchCodec.decode oversized oversized r (λ r, is_empty r && resumes r)).
Definition decoder_bad_inner_frame_does_not_poison_stream : bool :=
  fails ItchCodec.decode (put (text "~") (put_u16 1 Reader.new)) (λ err r,
    match err with TransportError.Protocol _ => true | _ => false end && is_empty r && resumes r).
Definition end_to_end_via_loopback_socket : bool :=
  loopback ItchCodec.encode ItchCodec.decode (replicate 3 add_order_fixture) (λ received,
    assert_eq (length received) 3%nat
    && forallb (λ m, expect m (λ m, assert_eq m add_order_fixture)) received).
Definition end_to_end_handles_every_message_kind : bool :=
  let messages :=
    [add_order_fixture;
     Message.SystemEvent (SystemEvent.mk
       (Header.mk (StockLocate.from_u16 0) (TrackingNumber.from_u16 0) (Timestamp.from_u64 0))
       EventCode.EndOfMessages)] in
  loopback ItchCodec.encode ItchCodec.decode messages (λ received, assert_eq received (map Ok messages)).
End TcpFrameTests.

(** ** [heartbeat.rs] *)

Module HeartbeatTests.
Definition ms (n : Z) : Z := n * 1000000.
Definition test_outbound_heartbeat_config : bool :=
  let config := HeartbeatConfig.new (ms 100) (ms 1000) in
  assert_eq (HeartbeatConfig.outbound_interval config) (ms 100)
  && assert_eq (HeartbeatConfig.dead_link_timeout config) (ms 1000).
Definition test_inbound_heartbeat_config : bool :=
  let config := HeartbeatConfig.new (ms 100) (ms 200) in
  assert_eq (HeartbeatConfig.dead_link_timeout config) (ms 200).
(** The clock does not move between the two calls. *)
Definition test_inbound_heartbeat_no_silence_initially : bool :=
  let config := HeartbeatConfig.new (ms 100) (ms 200) in
  is_none (InboundHeartbeat.check_dead_link 0 (InboundHeartbeat.new config 0)).
End HeartbeatTests.

(** ** [connection.rs] *)

(** The peer of a test encodes its packets onto the wire; the client's codec
    decodes them again, and the peer reads what the client wrote.  A peer that
    has finished drops its half of the socket. *)
Module ConnectionTests.
Definition sample_message : Message.t :=
  Message.SystemEvent (SystemEvent.mk
    (Header.mk (StockLocate.from_u16 0) (TrackingNumber.from_u16 0) (Timestamp.from_u64 123456789))
    EventCode.StartOfSystemHours).
Definition over_wire (wire : list Z) : list (result SoupPacket.t SoupError.t) :=
  (read_chunks SoupCodec.decode [wire] Reader.new).2.
Definition holds (ps : list SoupPacket.t) : list packet_event :=
  match CodecUnderTest.send_all SoupCodec.encode ps [] with
  | Some wire => map Some (over_wire wire)
  | None => []
  end.
Definition drops (ps : list SoupPacket.t) : list packet_event := holds ps ++ [None].
Definition accepted (session : string) (sequence : Z) : SoupPacket.t :=
  SoupPacket.LoginAccepted (LoginAccepted.mk (text session) sequence).
Definition creds : SoupCredentials.t := SoupCredentials.new (text "alice") (text "secret").

(** [login(client, creds(), session, sequence).await.expect(..)]: what is left to
    read, what the peer has received, the connection. *)
Definition logged_in (evs : list packet_event) (session : string) (sequence : Z)
    (k : list packet_event → list (result SoupPacket.t SoupError.t) → SoupConnection.t → bool) : bool :=
  let '(evs, out, r) := login evs Flushed creds (text session) sequence in
  expect r (λ conn, k evs (over_wire out) conn).
Definition refused (evs : list packet_event) (session : string) (sequence : Z) (k : SoupError.t → bool)
    : bool :=
  let '(_, _, r) := login evs Flushed creds (text session) sequence in expect_err r k.
(** [conn.next().await]. *)
Definition next (evs : list packet_event) (conn : SoupConnection.t)
    (k : list packet_event → SoupConnection.t → option (result Message.t SoupError.t) → bool) : bool :=
  match SoupConnection.poll_next evs conn with
  | (conn, evs, Ready item) => k evs conn item
  | (_, _, Pending) => false
  end.
Definition is_session_ended (item : option (result Message.t SoupError.t)) : bool :=
  match item with Some (Err SoupError.SessionEnded) => true | _ => false end.
Definition seq_is (conn : SoupConnection.t) (n : Z) : bool :=
  assert_eq (SoupConnection.next_expected_sequence conn) n.
(** The stream reports the end of the session and then ends. *)
Definition ends (evs : list packet_event) (conn : SoupConnection.t) : bool :=
  next evs conn (λ evs conn item, is_session_ended item && next evs conn (λ _ _ item, is_none item)).

Definition test_successful_login_returns_connection : bool :=
  logged_in (drops [accepted "S0001" 7]) "" 0 (λ _ seen conn,
    assert_eq seen [Ok (SoupPacket.LoginRequest (LoginRequest.mk (text "alice") (text "secret") [] 0))]
    && assert_eq (SoupConnection.session conn) (text "S0001") && seq_is conn 7).
Definition test_login_rejected_not_authorized_surfaces_typed_error : bool :=
  refused (drops [SoupPacket.LoginRejected LoginRejectReason.NotAuthorized]) "" 0 (λ err,
    assert_eq err (SoupError.LoginRejected LoginRejectReason.NotAuthorized)).
Definition test_login_rejected_session_unavailable_surfaces_typed_error : bool :=
  refused (drops [SoupPacket.LoginRejected LoginRejectReason.SessionUnavailable]) "S0001" 1 (λ err,
    assert_eq err (SoupError.LoginRejected LoginRejectReason.SessionUnavailable)).
Definition test_premature_close_before_reply_returns_premature_close : bool :=
  refused (drops []) "" 0 (λ err, assert_eq err SoupError.PrematureClose).
Definition test_login_timeout_when_server_silent : bool :=
  let '(_, _, r) := login_with_timeout (holds []) Flushed creds [] 0 250000000 in
  expect_err r (λ err, assert_eq err (SoupError.LoginTimeout 250000000)).
Definition test_session_mismatch_when_server_returns_different_session : bool :=
  refused (drops [accepted "OTHER" 1]) "S0001" 1 (λ err,
    assert_eq err (SoupError.SessionMismatch (text "S0001") (text "OTHER"))).
Definition test_blank_requested_session_accepts_any_returned_session : bool :=
  logged_in (drops [accepted "ANY" 42]) "" 0 (λ _ _ conn,
    assert_eq (SoupConnection.session conn) (text "ANY") && seq_is conn 42).
Definition test_unexpected_handshake_packet_returns_typed_error : bool :=
  refused (drops [SoupPacket.ServerHeartbeat]) "" 0 (λ err,
    assert_eq err (SoupError.UnexpectedHandshakePacket b@"H")).
Definition message_payload (msg : Message.t) (k : list Z → bool) : bool := expect (encode_vec msg) k.
Definition test_next_message_delivers_sequenced_data_and_increments_counter : bool :=
  message_payload sample_message (λ buf,
    logged_in (drops [accepted "S" 1; SoupPacket.SequencedData buf; SoupPacket.EndOfSession]) "" 0
      (λ evs _ conn, seq_is conn 1
        && match SoupConnection.next_message evs conn with
           | (conn, evs, Ready (Some (Ok (Message.SystemEvent _)))) =>
               seq_is conn 2
               && match SoupConnection.next_message evs conn with
                  | (_, _, Ready item) => is_session_ended item
                  | _ => false
                  end
           | _ => false
           end)).
Definition test_logout_sends_logout_request_packet : bool :=
  logged_in (holds [accepted "S" 1]) "" 0 (λ _ seen conn,
    let '(out, r) := SoupConnection.logout Flushed (Ok tt) conn in
    assert_eq r (Some (Ok tt)) && assert_eq (over_wire out) (seen ++ [Ok SoupPacket.LogoutRequest])).
(** What the peer reads after the login is one [UnsequencedData] packet. *)
Definition unsequenced (seen : list (result SoupPacket.t SoupError.t)) (conn : SoupConnection.t)
    (k : Message.t → bool) : bool :=
  match drop (length seen) (over_wire (SoupConnection.out conn)) with
  | [Ok (SoupPacket.UnsequencedData payload)] => expect (Message_decode payload) k
  | _ => false
  end.
Definition test_send_emits_unsequenced_data_packet : bool :=
  logged_in (holds [accepted "S" 1]) "" 0 (λ _ seen conn,
    let '(conn, r) := SoupConnection.send sample_message Flushed conn in
    is_ok r && unsequenced seen conn (λ decoded,
      match decoded with Message.SystemEvent _ => true | _ => false end)).
Definition test_debug_packet_during_handshake_is_ignored : bool :=
  logged_in (drops [SoupPacket.Debug (text "informational"); accepted "S" 5]) "" 0 (λ _ _ conn,
    seq_is conn 5).
Definition test_premature_close_after_login_request_yields_io_or_premature : bool :=
  refused (drops []) "" 0 (λ err,
    match err with SoupError.PrematureClose | SoupError.Io _ => true | _ => false end).
Definition test_login_request_wire_shape_through_framed : bool :=
  let packet := SoupPacket.LoginRequest (LoginRequest.mk (text "u") (text "p") [] 0) in
  let '(buf, r) := framed_send packet Flushed [] in
  assert_eq r (Some (Ok tt)) && assert_eq (sub 0 2 buf) [0x00; 0x2F] && assert_eq (sub 2 1 buf) (text "L").

(** [while let Some(item) = conn.next().await], counting up to [SessionEnded]. *)
Fixpoint count_ok (fuel : nat) (got : Z) (evs : list packet_event) (conn : SoupConnection.t)
    (k : Z → list packet_event → SoupConnection.t → bool) : bool :=
  match fuel with
  | O => false
  | S fuel =>
      next evs conn (λ evs conn item,
        match item with
        | Some (Ok _) => count_ok fuel (got + 1) evs conn k
        | Some (Err SoupError.SessionEnded) | None => k got evs conn
        | Some (Err _) => false
        end)
  end.
Definition test_stream_yields_sequenced_messages_in_order_and_advances_counter : bool :=
  message_payload sample_message (λ payload,
    let peer := holds (accepted "STREAM" 100 :: replicate 3 (SoupPacket.SequencedData payload)
                         ++ [SoupPacket.EndOfSession]) in
    logged_in peer "" 0 (λ evs _ conn,
      seq_is conn 100
      && count_ok 10 0 evs conn (λ got evs conn,
           assert_eq got 3 && seq_is conn 103 && next evs conn (λ _ _ item, is_none item)))).
Definition test_stream_bad_inner_frame_does_not_advance_counter_or_poison : bool :=
  message_payload sample_message (λ payload,
    let peer := holds [accepted "BAD" 50; SoupPacket.SequencedData (text "?");
                       SoupPacket.SequencedData payload; SoupPacket.EndOfSession] in
    logged_in peer "" 0 (λ evs _ conn,
      seq_is conn 50
      && next evs conn (λ evs conn item,
           match item with Some (Err (SoupError.Protocol _)) => true | _ => false end && seq_is conn 50
           && next evs conn (λ evs conn item,
                match item with Some (Ok _) => true | _ => false end && seq_is conn 51
                && ends evs conn)))).
Definition test_stream_filters_heartbeats_and_debug_silently : bool :=
  message_payload sample_message (λ payload,
    let peer := holds [accepted "FILTER" 1; SoupPacket.ServerHeartbeat; SoupPacket.SequencedData payload;
                       SoupPacket.Debug (text "info"); SoupPacket.ServerHeartbeat;
                       SoupPacket.SequencedData payload; SoupPacket.EndOfSession] in
    logged_in peer "" 0 (λ evs _ conn,
      next evs conn (λ evs conn m1, next evs conn (λ evs conn m2,
        assert_eq m1 (Some (Ok sample_message)) && assert_eq m2 (Some (Ok sample_message))
        && ends evs conn)))).
(** [s.contains(sub)] *)
Definition contains (s sub : list Z) : bool :=
  existsb (λ i, bool_decide (sub `prefix_of` drop i s)) (seq 0 (S (length s))).
Definition test_stream_client_direction_packet_yields_soup_framing_error : bool :=
  logged_in (drops [accepted "BUGGY" 1; SoupPacket.ClientHeartbeat]) "" 0 (λ evs _ conn,
    next evs conn (λ _ _ item,
      match item with
      | Some (Err (SoupError.SoupFraming reason)) => contains (text reason) (text "client-direction")
      | _ => false
      end)).
Definition test_send_unsequenced_writes_a_u_packet : bool :=
  logged_in (holds [accepted "U" 0]) "" 0 (λ _ seen conn,
    let '(conn, r) := SoupConnection.send_unsequenced sample_message Flushed conn in
    is_ok r && unsequenced seen conn (λ m, assert_eq m sample_message)).
End ConnectionTests.

(** ** [resilient.rs] *)

(** The servers of a test are what the client's attempts meet, in the order in
    which the client comes by; an address is a number.  The random generator is
    one that takes the upper end of the range. *)
Module ResilientTests.
Import ConnectionTests.
Definition sample_message : Message.t :=
  Message.SystemEvent (SystemEvent.mk
    (Header.mk (StockLocate.from_u16 0) (TrackingNumber.from_u16 0) (Timestamp.from_u64 0))
    EventCode.StartOfSystemHours).
Definition sample_payload (k : list Z → bool) : bool := expect (encode_vec sample_message) k.
Definition ms (n : Z) : Z := n * 1000000.
Definition highest (lo hi : Z) : Z := hi.
Definition refused_connection : attempt := ConnectFailed "ConnectionRefused".
Definition spawn_scripted_server (scripts : list (list SoupPacket.t)) (session : string) : list attempt :=
  map (λ script, Connected Flushed (λ req,
    let requested_seq := LoginRequest.requested_sequence req in
    let assigned_seq := if requested_seq =? 0 then 1 else requested_seq in
    drops (accepted session assigned_seq :: script))) scripts
  ++ replicate 10 refused_connection.
Definition next_message (net : list attempt) (c : ResilientSoupClient.t)
    (k : list attempt → ResilientSoupClient.t → option (result Message.t SoupError.t) → bool) : bool :=
  match ResilientSoupClient.next_message highest net c with
  | (c, net, _, Some item) => k net c item
  | (_, _, _, None) => false
  end.
(** [loop { match client.next_message().await ... }]: counts the messages up to the
    end of the session; [fuel] is the guard against an infinite loop. *)
Fixpoint count_messages (fuel : nat) (got_ok : Z) (net : list attempt) (c : ResilientSoupClient.t)
    (k : Z → ResilientSoupClient.t → bool) : bool :=
  match fuel with
  | O => false
  | S fuel =>
      next_message net c (λ net c item,
        match item with
        | Some (Ok _) => count_messages fuel (got_ok + 1) net c k
        | Some (Err SoupError.SessionEnded) | None => k got_ok c
        | Some (Err _) => count_messages fuel got_ok net c k
        end)
  end.
(** The same, up to the first message. *)
Fixpoint sees_message (fuel : nat) (net : list attempt) (c : ResilientSoupClient.t) : bool :=
  match fuel with
  | O => false
  | S fuel =>
      next_message net c (λ net c item,
        match item with
        | Some (Ok _) => true
        | Some (Err SoupError.SessionEnded) | None => false
        | Some (Err _) => sees_message fuel net c
        end)
  end.
Definition config (addrs : list Z) (username password : string) : ResilientSoupConfig.t :=
  ResilientSoupConfig.new addrs (SoupCredentials.new (text username) (text password)).
Definition client (cfg : ResilientSoupConfig.t) (k : ResilientSoupClient.t → bool) : bool :=
  expect_some (ResilientSoupClient.new cfg) k.

Definition test_resilient_client_resumes_after_socket_drop : bool :=
  sample_payload (λ payload,
    let scripts :=
      [[SoupPacket.SequencedData payload; SoupPacket.SequencedData payload];
       [SoupPacket.SequencedData payload; SoupPacket.SequencedData payload; SoupPacket.EndOfSession]] in
    let cfg := ResilientSoupConfig.with_login_timeout (ms 2000)
      (ResilientSoupConfig.with_backoff (ms 5) (ms 20) (config [1] "alice" "secret")) in
    client cfg (λ c,
      count_messages 49 0 (spawn_scripted_server scripts "S0001") c (λ got_ok c,
        assert_eq got_ok 4
        && assert_eq (ResilientSoupClient.last_session c) (Some (text "S0001"))
        && (5 <=? ResilientSoupClient.next_sequence c)))).
Definition test_resilient_client_login_rejected_is_terminal : bool :=
  let net := [Connected Flushed (λ _, drops [SoupPacket.LoginRejected LoginRejectReason.NotAuthorized])] in
  let cfg := ResilientSoupConfig.with_max_attempts 5 (config [1] "bob" "wrongpw") in
  client cfg (λ c,
    next_message net c (λ net c item,
      assert_eq item (Some (Err (SoupError.LoginRejected LoginRejectReason.NotAuthorized)))
      && next_message net c (λ _ _ item, is_none item))).
Definition test_resilient_client_max_attempts_exhausted : bool :=
  let cfg := ResilientSoupConfig.with_login_timeout (ms 50)
    (ResilientSoupConfig.with_backoff (ms 1) (ms 5)
       (ResilientSoupConfig.with_max_attempts 3 (config [1] "alice" "secret"))) in
  client cfg (λ c,
    next_message (replicate 10 refused_connection) c (λ net c item,
      expect_some item (λ err, negb (is_ok err)) && next_message net c (λ _ _ item, is_none item))).
(** The first server drops every connection that it accepts. *)
Definition test_resilient_client_round_robins_addrs : bool :=
  sample_payload (λ payload,
    let bad_server := Connected Flushed (λ _, drops []) in
    let good_server := Connected Flushed (λ _,
      drops [accepted "GOOD" 1; SoupPacket.SequencedData payload; SoupPacket.EndOfSession]) in
    let cfg := ResilientSoupConfig.with_login_timeout (ms 1000)
      (ResilientSoupConfig.with_backoff (ms 1) (ms 5) (config [1; 2] "alice" "secret")) in
    client cfg (λ c,
      sees_message 30 [bad_server; good_server; bad_server] c)).
Definition test_backoff_delay_clamped_to_bounds : bool :=
  let cfg := ResilientSoupConfig.with_backoff (ms 10) (ms 500) (config [1] "u" "p") in
  client cfg (λ c,
    forallb (λ attempt,
      let c := ResilientSoupClient.set_attempt attempt c in
      forallb (λ random_range,
        let d := ResilientSoupClient.backoff_delay random_range c in
        (ms 10 <=? d) && (d <=? ms 500)) [λ lo hi, lo; λ lo hi, (lo + hi) / 2; highest])
    (seqZ 0 50)).
Definition test_initial_state_observability : bool :=
  client (ResilientSoupConfig.with_initial_sequence 42 (config [1] "u" "p")) (λ c,
    assert_eq (ResilientSoupClient.last_session c) None
    && assert_eq (ResilientSoupClient.next_sequence c) 42).
Definition test_resilient_client_works_via_into_stream : bool :=
  sample_payload (λ payload,
    let net := spawn_scripted_server [[SoupPacket.SequencedData payload; SoupPacket.EndOfSession]] "X" in
    let cfg := ResilientSoupConfig.with_max_attempts 2
      (ResilientSoupConfig.with_backoff (ms 1) (ms 5)
         (ResilientSoupConfig.with_login_timeout (ms 100) (config [1] "alice" "secret"))) in
    client cfg (λ c,
      let '(c, net, items) := ResilientSoupClient.polls highest 30 net c in
      match items with Ok _ :: _ => true | _ => false end && (length items <? 30)%nat
      && next_message net c (λ _ _ item, is_none item))).
End ResilientTests.

(** ** The tests pass *)

Lemma soup_frame_tests_pass :
  passes [SoupFrameTests.test_debug_packet_roundtrip; SoupFrameTests.test_login_request_roundtrip;
    SoupFrameTests.test_login_request_blank_session_zero_sequence_wire_shape;
    SoupFrameTests.test_login_accepted_roundtrip;
    SoupFrameTests.test_login_rejected_roundtrip_both_reasons;
    SoupFrameTests.test_login_rejected_unknown_reason_returns_protocol_error;
    SoupFrameTests.test_sequenced_and_unsequenced_data_roundtrip;
    SoupFrameTests.test_zero_payload_packets_roundtrip;
    SoupFrameTests.test_decoder_returns_none_when_starved;
    SoupFrameTests.test_truncated_login_request_returns_bad_payload_length;
    SoupFrameTests.test_oversized_frame_fully_present_drains_and_resumes;
    SoupFrameTests.test_oversized_frame_partial_drains_across_reads;
    SoupFrameTests.test_unknown_packet_type_returns_typed_error_and_resumes;
    SoupFrameTests.test_zero_length_packet_returns_typed_error_and_resumes;
    SoupFrameTests.test_two_packets_in_one_buffer_decode_sequentially;
    SoupFrameTests.test_login_request_long_username_truncates_to_six_bytes;
    SoupFrameTests.test_decode_ascii_u64_rejects_non_digit;
    SoupFrameTests.test_login_reject_reason_byte_roundtrip].
Proof. run_tests. Qed.

Lemma tcp_frame_tests_pass :
  passes [TcpFrameTests.encoder_then_decoder_roundtrip;
    TcpFrameTests.decoder_returns_none_when_starved;
    TcpFrameTests.decoder_drops_oversized_frame_fully_present_and_resumes;
    TcpFrameTests.decoder_drops_oversized_frame_partial_then_resumes;
    TcpFrameTests.decoder_bad_inner_frame_does_not_poison_stream;
    TcpFrameTests.end_to_end_via_loopback_socket;
    TcpFrameTests.end_to_end_handles_every_message_kind].
Proof. run_tests. Qed.

Lemma heartbeat_tests_pass :
  passes [HeartbeatTests.test_outbound_heartbeat_config;
    HeartbeatTests.test_inbound_heartbeat_config;
    HeartbeatTests.test_inbound_heartbeat_no_silence_initially].
Proof. run_tests. Qed.

Lemma connection_tests_pass :
  passes [ConnectionTests.test_successful_login_returns_connection;
    ConnectionTests.test_login_rejected_not_authorized_surfaces_typed_error;
    ConnectionTests.test_login_rejected_session_unavailable_surfaces_typed_error;
    ConnectionTests.test_premature_close_before_reply_returns_premature_close;
    ConnectionTests.test_login_timeout_when_server_silent;
    ConnectionTests.test_session_mismatch_when_server_returns_different_session;
    ConnectionTests.test_blank_requested_session_accepts_any_returned_session;
    ConnectionTests.test_unexpected_handshake_packet_returns_typed_error;
    ConnectionTests.test_next_message_delivers_sequenced_data_and_increments_counter;
    ConnectionTests.test_logout_sends_logout_request_packet;
    ConnectionTests.test_send_emits_unsequenced_data_packet;
    ConnectionTests.test_debug_packet_during_handshake_is_ignored;
    ConnectionTests.test_premature_close_after_login_request_yields_io_or_premature;
    ConnectionTests.test_login_request_wire_shape_through_framed;
    ConnectionTests.test_stream_yields_sequenced_messages_in_order_and_advances_counter;
    ConnectionTests.test_stream_bad_inner_frame_does_not_advance_counter_or_poison;
    ConnectionTests.test_stream_filters_heartbeats_and_debug_silently;
    ConnectionTests.test_stream_client_direction_packet_yields_soup_framing_error;
    ConnectionTests.test_send_unsequenced_writes_a_u_packet].
Proof. run_tests. Qed.

Lemma resilient_tests_pass :
  passes [ResilientTests.test_resilient_client_resumes_after_socket_drop;
    ResilientTests.test_resilient_client_login_rejected_is_terminal;
    ResilientTests.test_resilient_client_max_attempts_exhausted;
    ResilientTests.test_resilient_client_round_robins_addrs;
    ResilientTests.test_backoff_delay_clamped_to_bounds;
    ResilientTests.test_initial_state_observability;
    ResilientTests.test_resilient_client_works_via_into_stream].
Proof. run_tests. Qed.
