(* ===== verification/ServerTests.v ===== *)
(** The unit tests of the servers and of gap recovery
    ([crates/itch-soup/src/server.rs], [crates/itch-mold/src/publisher.rs],
    [gap_recovery.rs]), run on the model.

    A test of the SoupBinTCP server is a sequence of moves of its tasks, in the
    order that the sleeps of the test enforce; the client of the test decodes the
    packets that the server has sent to it. *)

From S2P Require Import Prelude Primitives Text Enums Messages Codec CodecMessages MessageCodec.
From S2P Require Import Framing SoupCodec SoupSession SeqStore SoupServer SoupServing.
From S2P Require Import MoldCodec MoldReceiver MoldStore MoldPublisher MoldStream GapRecovery.
From S2P Require Import ProtocolTests MoldTests SoupTests.
Import TestSuite.

(** ** [itch-soup/src/server.rs] *)

Module SoupServerTests.
Definition sample_message : Message.t := ResilientTests.sample_message.
Definition source_of (n : nat) : list (result Message.t SourceError.t) := replicate n (Ok sample_message).
Definition creds (username password : string) : SoupCredentials.t :=
  SoupCredentials.new (text username) (text password).
(** What a server reads from the client's login. *)
Definition request (credentials : SoupCredentials.t) (session : string) (sequence : Z)
    : packet_event :=
  Some (Ok (SoupPacket.LoginRequest
    (LoginRequest.mk (SoupCredentials.username credentials) (SoupCredentials.password credentials)
       (text session) sequence))).
(** Client [i] connects and logs in with this request. *)
Definition logs_in (i : nat) (req : packet_event) : list SoupServer.action :=
  [Accept; SubLogin i req true; SubAccept i true; SubWarmup i None].
(** A message of the source is stored, broadcast and sent to the first [n] clients. *)
Definition publishes (n : nat) : list SoupServer.action :=
  IngestNext :: IngestSend :: map (λ i, SubRecv i false true) (seq 0 n).
(** The source ends, the grace period passes and [serve] returns: the clients are
    sent the end of the session. *)
Definition shuts_down (n : nat) : list SoupServer.action :=
  [IngestNext; IngestNoticed; IngestJoined; GraceOver] ++ map (λ i, SubRecv i false true) (seq 0 n).
Definition received {St} (i : nat) (w : world St) : list packet_event :=
  match subs w !! i with Some s => ConnectionTests.holds (Subscriber.out s) | None => [] end.
(** [login_via_tcp(addr, credentials, session, sequence)], with what the server sent. *)
Definition login_via_tcp (evs : list packet_event) (credentials : SoupCredentials.t) (session : string)
    (sequence : Z) : list packet_event * result SoupConnection.t SoupError.t :=
  let '(evs, _, r) := login_with_timeout evs Flushed credentials (text session) sequence 2000000000 in
  (evs, r).
(** Client [i] logs in and counts the messages up to the end of the session. *)
Definition counts {St} (i : nat) (credentials : SoupCredentials.t) (w : world St) (n : Z) : bool :=
  let '(evs, r) := login_via_tcp (received i w) credentials "" 0 in
  expect r (λ conn, ConnectionTests.count_ok 50 0 evs conn (λ got _ _, assert_eq got n)).

Definition no_warmup {St} (_ : St) : result (list Message.t) SourceError.t :=
  StaticPolicy.warmup StaticPolicy.empty.
Definition alice_only : StaticAuthenticator.t := StaticAuthenticator.mk (text "alice") (text "secret").

Definition test_server_delivers_messages_in_order : bool :=
  let alice := creds "alice" "secret" in
  let acts := IngestStart :: logs_in 0 (request alice "" 0) ++ concat (replicate 3 (publishes 1))
                ++ shuts_down 1 in
  expect_some
    (run_actions alice_only ServerConfig.bind no_warmup acts (init RingSeqStore.new (source_of 3)))
    (λ w, counts 0 alice w 3).
Definition rejected (r : result SoupConnection.t SoupError.t) (reason : LoginRejectReason.t) : bool :=
  expect_err r (λ err, assert_eq err (SoupError.LoginRejected reason)).
Definition test_server_rejects_bad_credentials : bool :=
  let wrong := creds "alice" "wrong" in
  let acts := [IngestStart; Accept; SubLogin 0 (request wrong "" 0) true] in
  expect_some
    (run_actions alice_only ServerConfig.bind no_warmup acts (init NullSeqStore.new []))
    (λ w, rejected (login_via_tcp (received 0 w) wrong "" 0).2 LoginRejectReason.NotAuthorized).
Definition test_server_rejects_session_mismatch : bool :=
  let alice := creds "alice" "any" in
  let acts := [IngestStart; Accept; SubLogin 0 (request alice "OTHER" 0) true] in
  expect_some (SoupSession_new (text "S0001")) (λ session,
  expect_some
    (run_actions AllowAllAuthenticator.new (ServerConfig.with_session session ServerConfig.bind) no_warmup
       acts (init NullSeqStore.new []))
    (λ w, rejected (login_via_tcp (received 0 w) alice "OTHER" 0).2 LoginRejectReason.SessionUnavailable)).
Definition test_server_replays_warmup_before_live : bool :=
  let user := creds "u" "p" in
  let policy := StaticPolicy.new [sample_message] in
  let acts := IngestStart :: logs_in 0 (request user "" 0) ++ concat (replicate 2 (publishes 1))
                ++ shuts_down 1 in
  expect_some
    (run_actions AllowAllAuthenticator.new ServerConfig.bind (λ _, StaticPolicy.warmup policy) acts
       (init RingSeqStore.new (source_of 2)))
    (λ w, counts 0 user w 3).
Definition test_server_two_clients_receive_same_messages : bool :=
  let user := creds "u" "p" in
  let acts := IngestStart :: logs_in 0 (request user "" 0) ++ logs_in 1 (request user "" 0)
                ++ concat (replicate 3 (publishes 2)) ++ shuts_down 2 in
  expect_some
    (run_actions AllowAllAuthenticator.new ServerConfig.bind no_warmup acts
       (init RingSeqStore.new (source_of 3)))
    (λ w, counts 0 user w 3 && counts 1 user w 3).
(** The packet that the server reads is the one that the client's [send] wrote. *)
Definition test_unsequenced_inbox_receives_client_message : bool :=
  let user := creds "u" "p" in
  let login_acts := IngestStart :: logs_in 0 (request user "" 0) in
  expect_some
    (run_actions AllowAllAuthenticator.new ServerConfig.bind no_warmup login_acts (init NullSeqStore.new []))
    (λ w, expect (login_via_tcp (received 0 w) user "" 0).2 (λ conn,
      let '(conn', r) := SoupConnection.send sample_message Flushed conn in
      let wire := drop (length (SoupConnection.out conn)) (SoupConnection.out conn') in
      is_ok r
      && expect_some
           (run_actions AllowAllAuthenticator.new ServerConfig.bind no_warmup
              (map (λ p, SubPacket 0 (Some p)) (ConnectionTests.over_wire wire)) w)
           (λ w, match inbox w with [Message.SystemEvent _] => true | _ => false end))).
Definition test_authenticator_default_allows_any : bool :=
  is_ok (check AllowAllAuthenticator.new (text "anyone") (text "any")).
Definition test_static_authenticator_matches : bool :=
  is_ok (check alice_only (text "alice") (text "secret"))
  && expect_err (check alice_only (text "alice") (text "wrong")) (λ e,
       assert_eq e LoginRejectReason.NotAuthorized).
Definition test_session_truncates_long_id : bool :=
  expect_some (SoupSession_new (text "ABCDEFGHIJKLMNOP")) (λ id,
    assert_eq (length id) 10%nat && assert_eq id (text "ABCDEFGHIJ")).
End SoupServerTests.

(** ** [itch-mold/src/publisher.rs] *)

Module PublisherTests.
Definition add_order (seq_marker : Z) : Message.t := ReceiverTests.add_order seq_marker.
Definition fixture_session (k : list Z → bool) : bool := expect (session_from_str (text "ITCH50")) k.
Definition recv_addr : addr := ([127; 0; 0; 1], 9000).
(** [cfg2.eos_burst = 1; cfg2.eos_interval = Duration::from_millis(10)]. *)
Definition short_burst (c : PublisherConfig.t) : PublisherConfig.t :=
  PublisherConfig.mk (PublisherConfig.destination c) (PublisherConfig.bind c) (PublisherConfig.session c)
    (PublisherConfig.start_sequence c) (PublisherConfig.mtu c) (PublisherConfig.heartbeat_interval c) 1 10.
(** [MoldPublisher::bind(cfg)] and [publisher.serve(src)]: the datagrams sent. *)
Definition serves (cfg : PublisherConfig.t) (inputs : list input) (k : list (list Z) → bool) : bool :=
  expect (MoldPublisher.bind None None (short_burst cfg) []) (λ p,
    k (MoldPublisher.sent (MoldPublisher.serve inputs p).1)).
Definition messages (n : Z) : list input :=
  map (λ i, Next (Some (Ok (add_order i)))) (seqZ 1 n) ++ [Next None].

(** The loop over the datagrams, up to the end of the session. *)
Fixpoint read_datagrams (bufs : list (list Z)) (all_msgs : list Z) : option (list Z * bool) :=
  match bufs with
  | [] => Some (all_msgs, false)
  | buf :: bufs =>
      match MoldPacket.decode buf with
      | Err _ => None
      | Ok pkt =>
          let h := MoldPacket.header pkt in
          if MoldPacketHeader.is_end_of_session h then Some (all_msgs, true)
          else if MoldPacketHeader.is_heartbeat h then read_datagrams bufs all_msgs
          else
            let base := MoldPacketHeader.sequence h in
            read_datagrams bufs
              (all_msgs ++ seqZ base (Z.of_nat (length (MoldPacket.blocks pkt))))
      end
  end.
Definition publisher_emits_packed_data_then_eos : bool :=
  fixture_session (λ session,
    let cfg := PublisherConfig.with_heartbeat_interval 500
      (PublisherConfig.with_mtu 200 (PublisherConfig.with_start_sequence 1
         (PublisherConfig.new recv_addr session))) in
    serves cfg (messages 5) (λ sent,
      expect_some (read_datagrams sent []) (λ '(all_msgs, saw_eos),
        saw_eos && assert_eq all_msgs [1; 2; 3; 4; 5]))).
(** The source is silent while the timer ticks. *)
Definition publisher_sends_heartbeat_on_silence : bool :=
  fixture_session (λ session,
    let cfg := PublisherConfig.with_heartbeat_interval 50
      (PublisherConfig.with_start_sequence 1 (PublisherConfig.new recv_addr session)) in
    serves cfg [Tick] (λ sent,
      existsb (λ buf, expect (MoldPacketHeader.from_bytes (take 20 buf)) MoldPacketHeader.is_heartbeat)
        sent)).

(** [for _ in 0..30 { match stream.next().await ... }]. *)
Fixpoint read_stream (fuel : nat) (delivered : list Z) (socket : list reading) (stream : MoldStream.t)
    : list Z * bool :=
  match fuel with
  | O => (delivered, false)
  | S fuel =>
      match MoldStream.poll_next 0 socket stream with
      | (stream, socket, Some (Ready (Some (Ok e)))) =>
          match e with
          | MoldEvent.Message sequence _ => read_stream fuel (delivered ++ [sequence]) socket stream
          | MoldEvent.EndOfSession _ => (delivered, true)
          | MoldEvent.Heartbeat _ | MoldEvent.Gap _ _ => read_stream fuel delivered socket stream
          end
      | _ => (delivered, false)
      end
  end.
Definition publisher_integrates_with_moldstream_receiver : bool :=
  fixture_session (λ session,
    let cfg := PublisherConfig.with_heartbeat_interval 500
      (PublisherConfig.with_mtu 120 (PublisherConfig.with_start_sequence 1
         (PublisherConfig.new recv_addr session))) in
    serves cfg (messages 10) (λ sent,
      let recv_cfg := MoldConfig.with_start_sequence 1 (MoldConfig.with_session session MoldConfig.default) in
      let socket := map (λ bytes, Datagram bytes 0) sent in
      let '(delivered, saw_eos) := read_stream 30 [] socket (MoldStream.from_socket recv_cfg 0) in
      assert_eq delivered [1; 2; 3; 4; 5; 6; 7; 8; 9; 10] && saw_eos)).
End PublisherTests.

(** ** [gap_recovery.rs] *)

(** The task of a recovery is run to its end while the client waits for it; its
    attempts are a millisecond apart. *)
Module GapRecoveryTests.
Definition add_order (seq_marker : Z) : Message.t := ReceiverTests.add_order seq_marker.
Definition encode (msg : Message.t) (k : list Z → bool) : bool :=
  let '(buf, r) := Message_encode msg (replicate (Message.encoded_len msg) 0) in is_ok r && k buf.
(** [server.cache_frame(..)] of the messages 1 to [n]. *)
Fixpoint cached (seqs : list Z) (cache : RingBufferSeqStore.t) (k : RingBufferSeqStore.t → bool) : bool :=
  match seqs with
  | [] => k cache
  | s :: seqs =>
      encode (add_order s) (λ body, cached seqs (RingBufferSeqStore.push (CachedFrame.mk s body) cache) k)
  end.
(** What the attempts meet: one server that answers from its cache, or none. *)
Definition network (good : option addr) (cache : RingBufferSeqStore.t) (k : nat) : Attempt.t :=
  Attempt.mk (Z.of_nat k) (Z.of_nat k) (λ server from count _,
    if bool_decide (Some server = good) then served_by cache from count
    else Some (Err (MoldError.Io "ConnectionRefused"))).
Definition good_addr : addr := ([127; 0; 0; 1], 9001).
Definition bad_addr : addr := ([127; 0; 0; 1], 1).
(** The client after the gap of 1 to 3 that a packet of message 4 shows, with the
    outcome of the recovery task that it starts. *)
Definition after_gap (net : nat → Attempt.t) (cfg : GapRecoveryConfig.t)
    (k : GapRecoveryClient.t → task_poll → bool) : bool :=
  ReceiverTests.with_session (λ session,
    let recv_cfg := MoldConfig.with_start_sequence 1 (MoldConfig.with_session session MoldConfig.default) in
    ReceiverTests.ingest_data 0 session 4 [add_order 4] (MoldStream.test_only recv_cfg 0) (λ stream,
      match GapRecoveryClient.poll_next 0 Running [] (GapRecoveryClient.new stream cfg) with
      | (c, _, Some (Ready (Some (Ok (MoldEvent.Gap from to))))) =>
          assert_eq (from, to) (1, 3) && assert_eq (GapRecoveryClient.active c) (Some (from, to))
          && k c (Finished (recover_gap net cfg 0 from to).1)
      | _ => false
      end)).
(** The next polls deliver the messages of these numbers. *)
Fixpoint delivers (task : task_poll) (seqs : list Z) (c : GapRecoveryClient.t)
    (k : GapRecoveryClient.t → bool) : bool :=
  match seqs with
  | [] => k c
  | n :: seqs =>
      match GapRecoveryClient.poll_next 0 task [] c with
      | (c, _, Some (Ready (Some (Ok (MoldEvent.Message sequence _))))) =>
          assert_eq sequence n && delivers Running seqs c k
      | _ => false
      end
  end.
Definition happy_path_gap_filled_via_request_server : bool :=
  cached [1; 2; 3; 4; 5] (RingBufferSeqStore.with_capacity 64) (λ cache,
    let cfg := GapRecoveryConfig.with_gap_timeout 5000
      (GapRecoveryConfig.with_request_timeout 500 (GapRecoveryConfig.new [good_addr])) in
    after_gap (network (Some good_addr) cache) cfg (λ c task,
      delivers task [1; 2; 3; 4] c (λ c,
        assert_eq (MoldStream.next_expected_sequence (GapRecoveryClient.stream c)) 5))).
Definition all_servers_fail_gives_up_with_error : bool :=
  let cfg := GapRecoveryConfig.with_gap_timeout 200
    (GapRecoveryConfig.with_request_timeout 50 (GapRecoveryConfig.new [bad_addr])) in
  after_gap (network None (RingBufferSeqStore.with_capacity 64)) cfg (λ c task,
    match GapRecoveryClient.poll_next 0 task [] c with
    | (_, _, Some (Ready (Some (Err _)))) => true
    | _ => false
    end).
Definition failover_to_second_server : bool :=
  cached [1; 2; 3] (RingBufferSeqStore.with_capacity 64) (λ cache,
    let cfg := GapRecoveryConfig.with_gap_timeout 5000
      (GapRecoveryConfig.with_request_timeout 100 (GapRecoveryConfig.new [bad_addr; good_addr])) in
    after_gap (network (Some good_addr) cache) cfg (λ c task, delivers task [1; 2; 3; 4] c (λ _, true))).
End GapRecoveryTests.

(** ** The tests pass *)

Lemma soup_server_tests_pass :
  passes [SoupServerTests.test_server_delivers_messages_in_order;
    SoupServerTests.test_server_rejects_bad_credentials;
    SoupServerTests.test_server_rejects_session_mismatch;
    SoupServerTests.test_server_replays_warmup_before_live;
    SoupServerTests.test_server_two_clients_receive_same_messages;
    SoupServerTests.test_unsequenced_inbox_receives_client_message;
    SoupServerTests.test_authenticator_default_allows_any;
    SoupServerTests.test_static_authenticator_matches;
    SoupServerTests.test_session_truncates_long_id].
Proof. run_tests. Qed.

Lemma publisher_tests_pass :
  passes [PublisherTests.publisher_emits_packed_data_then_eos;
    PublisherTests.publisher_sends_heartbeat_on_silence;
    PublisherTests.publisher_integrates_with_moldstream_receiver].
Proof. run_tests. Qed.

Lemma gap_recovery_tests_pass :
  passes [GapRecoveryTests.happy_path_gap_filled_via_request_server;
    GapRecoveryTests.all_servers_fail_gives_up_with_error;
    GapRecoveryTests.failover_to_second_server].
Proof. run_tests. Qed.
