(* ===== verification/SourceTests.v ===== *)
(** The unit tests of the sources, stores and captures ([crates/itch-source/src],
    [itch-source-kafka], [itch-source-postgres], [itch-replay]), of
    [itch-compressed] and of the two programs, run on the model.

    [stress_100k_stores] is left to [SeqStore.ring_serves_recent], of which it is an
    instance.  Tests that only ask the compiler whether a type has a trait have no
    counterpart, and neither have those of the command line parser.  The
    compressor of the tests is a stand-in that stores its input behind a marker
    byte, so that the size of the compressed bytes is not asserted. *)

From S2P Require Import Prelude Primitives Text Enums Messages Codec CodecMessages MessageCodec Conformance.
From S2P Require Import SeqStore Postgres Framing TcpCodec SoupCodec Replay SoupSession Sources Kafka Compressed.
From S2P Require Import SoupServer TcpServer Client Demo ProtocolTests SoupTests.
Import TestSuite.

(** ** [ring_buffer_seq_store.rs] *)

Module RingStoreTests.
Import RingSeqStore.
Definition msg (code : EventCode.t) : Message.t := fixture code.
(** [store.store(seq, &msg).await.unwrap()] of every pair. *)
Fixpoint stored (entries : list (Z * EventCode.t)) (st : t) (k : t → bool) : bool :=
  match entries with
  | [] => k st
  | (seq, code) :: entries =>
      let '(st, r) := store seq (msg code) st in expect r (λ _, stored entries st k)
  end.
Definition earliest_is (st : t) (n : Z) : bool := expect (earliest st) (λ e, assert_eq e n).
Definition latest_is (st : t) (n : Z) : bool := expect (latest st) (λ l, assert_eq l n).

Definition ring_buffer_satisfies_contract : bool := assert_seq_store_contract (with_capacity 64).
Definition capacity_zero_clamped_to_one : bool := assert_eq (capacity (with_capacity 0)) 1.
Definition overflow_drops_oldest_and_advances_earliest : bool :=
  stored ((λ s, (s, EventCode.StartOfMessages)) <$> seqZ 1 6) (with_capacity 4) (λ st,
    earliest_is st 3 && latest_is st 6
    && expect (range 1 1 st) (λ r, assert_eq r [])
    && expect (range 3 4 st) (λ r, assert_eq (length r) 4%nat)).
Definition out_of_order_inserts_track_min_max_correctly : bool :=
  stored [(5, EventCode.StartOfMessages); (2, EventCode.StartOfSystemHours); (8, EventCode.EndOfMessages)]
    (with_capacity 64) (λ st, earliest_is st 2 && latest_is st 8).
Definition idempotent_restore_same_message : bool :=
  stored [(1, EventCode.StartOfMessages); (1, EventCode.StartOfMessages)] new (λ st,
    expect (range 1 1 st) (λ r, assert_eq (length r) 1%nat)).
Definition restore_different_message_errors : bool :=
  stored [(1, EventCode.StartOfMessages)] new (λ st,
    expect_err (store 1 (msg EventCode.EndOfMessages) st).2 (λ err,
      match err with SequenceConflict seq => assert_eq seq 1 | _ => false end)).
Definition range_stops_at_gap : bool :=
  stored [(1, EventCode.StartOfMessages); (3, EventCode.EndOfMessages)] new (λ st,
    expect (range 1 5 st) (λ r, assert_eq r.*1 [1])).
(** The writer stores two messages for every range that the reader asks for. *)
Definition concurrent_store_and_range_no_panic : bool :=
  (fix run (n : nat) (seq : Z) (st : t) : bool :=
     match n with
     | O => true
     | S n =>
         stored [(seq, EventCode.StartOfMessages); (seq + 1, EventCode.StartOfMessages)] st (λ st,
           expect (range 1 64 st) (λ _, run n (seq + 2) st))
     end) 256%nat 1 (with_capacity 1024).
Definition latest_never_moves_backwards_under_out_of_order_inserts : bool :=
  stored [(5, EventCode.StartOfMessages)] (with_capacity 1) (λ st,
    latest_is st 5
    && stored [(2, EventCode.EndOfMessages)] st (λ st, latest_is st 5 && earliest_is st 2)).
End RingStoreTests.

(** ** [null_seq_store.rs], [policy.rs] *)

Module NullStoreTests.
Definition null_seq_store_satisfies_contract : bool := assert_seq_store_contract NullSeqStore.new.
End NullStoreTests.

Module PolicyTests.
Definition msg : Message.t :=
  Message.SystemEvent (SystemEvent.mk
    (Header.mk (StockLocate.from_u16 0) (TrackingNumber.from_u16 0) (Timestamp.from_u64 0))
    EventCode.StartOfMessages).
Definition empty_policy_returns_empty : bool :=
  expect (StaticPolicy.warmup StaticPolicy.empty) (λ warmup, assert_eq warmup []).
Definition new_policy_returns_messages : bool :=
  expect (StaticPolicy.warmup (StaticPolicy.new [msg])) (λ warmup, assert_eq (length warmup) 1%nat).
Definition concurrent_warmup_calls : bool :=
  let policy := StaticPolicy.new [msg] in
  forallb (λ p, expect (StaticPolicy.warmup p) (λ warmup, assert_eq (length warmup) 1%nat))
    (replicate 100 policy).
End PolicyTests.

(** ** [channel.rs], [iterator.rs], [paced.rs] *)

Module StreamUnderTest.
(** [src.collect().await]: the items up to the end, at an unmoving clock; [None]
    where the source waits. *)
Fixpoint collect `{MessageSource Src} (fuel : nat) (s : Src) : option (Src * list source_item) :=
  match fuel with
  | O => None
  | S fuel =>
      match poll_next 0 s with
      | (s, Ready (Some item)) =>
          match collect fuel s with Some (s, items) => Some (s, item :: items) | None => None end
      | (s, Ready None) => Some (s, [])
      | (_, Pending) => None
      end
  end.
(** [src.next().await.is_none()]. *)
Definition ended `{MessageSource Src} (s : Src) : bool :=
  match poll_next 0 s with (_, Ready None) => true | _ => false end.
Definition all_ok (items : list source_item) : bool := forallb is_ok items.
End StreamUnderTest.

Module ChannelTests.
Import StreamUnderTest.
Definition msg (code : EventCode.t) : Message.t := fixture code.
(** [tx.send(msg(code))] of every code on a channel of this capacity. *)
Fixpoint sent (capacity : option nat) (codes : list EventCode.t) (c : ChannelSource.t)
    (k : ChannelSource.t → bool) : bool :=
  match codes with
  | [] => k c
  | code :: codes => expect_some (ChannelSource.try_send capacity (msg code) c) (λ c, sent capacity codes c k)
  end.
Definition channel : ChannelSource.t := ChannelSource.from_receiver [] true.
Definition bounded_drains_then_returns_none_when_sender_drops : bool :=
  sent (Some 8%nat) [EventCode.StartOfMessages; EventCode.StartOfMarketHours; EventCode.EndOfMarketHours;
                     EventCode.EndOfMessages] channel (λ src,
    expect_some (collect 10 (ChannelSource.drop_senders src)) (λ '(src, collected),
      assert_eq (length collected) 4%nat && all_ok collected && ended src)).
Definition bounded_capacity_enforced : bool :=
  sent (Some 2%nat) [EventCode.StartOfMessages; EventCode.StartOfMarketHours] channel (λ src,
    is_none (ChannelSource.try_send (Some 2%nat) (msg EventCode.EndOfMessages) src)).
Definition unbounded_drains_then_returns_none_when_sender_drops : bool :=
  sent None [EventCode.StartOfMessages; EventCode.EndOfMessages] channel (λ src,
    expect_some (collect 10 (ChannelSource.drop_senders src)) (λ '(_, items),
      all_ok items && assert_eq (length items) 2%nat)).
End ChannelTests.

Module IteratorTests.
Import StreamUnderTest.
Definition msg (code : EventCode.t) : Message.t := fixture code.
Definition iterator_source_yields_then_returns_none : bool :=
  let messages := [msg EventCode.StartOfMessages; msg EventCode.EndOfMessages] in
  expect_some (collect 10 (IteratorSource.new messages)) (λ '(src, collected),
    assert_eq (length collected) 2%nat && all_ok collected
    && assert_eq (omap (λ item, match item with Ok m => Some m | Err _ => None end) collected) messages
    && ended src).
Definition iterator_source_from_vec : bool :=
  expect_some (collect 10 (IteratorSource.new [msg EventCode.StartOfMessages])) (λ '(_, collected),
    assert_eq (length collected) 1%nat).
Definition iterator_source_from_canonical_session : bool :=
  expect_some (collect 100 (IteratorSource.new canonical_session)) (λ '(_, collected),
    (20 <=? length collected)%nat && all_ok collected).
End IteratorTests.

Module PacedTests.
Import StreamUnderTest.
Definition ts (ns : Z) : Header.t :=
  Header.mk (StockLocate.from_u16 0) (TrackingNumber.from_u16 0) (Timestamp.from_u64 ns).
Definition msg (ns : Z) : Message.t :=
  Message.SystemEvent (SystemEvent.mk (ts ns) EventCode.StartOfMessages).
Definition ms (n : Z) : Z := n * 1000000.
(** [s.next().await] under a paused clock, which moves to the deadline of a sleep
    when nothing else can run: the new time, the source, the item. *)
Definition next (now : Z) (s : PacedSource.t IteratorSource.t)
    (k : Z → PacedSource.t IteratorSource.t → option source_item → bool) : bool :=
  match poll_next now s with
  | (s, Ready item) => k now s item
  | (s, Pending) =>
      expect_some (PacedSource.sleep s) (λ deadline,
        match poll_next deadline s with (s, Ready item) => k deadline s item | _ => false end)
  end.
Definition next_ok (now : Z) (s : PacedSource.t IteratorSource.t)
    (k : Z → PacedSource.t IteratorSource.t → bool) : bool :=
  next now s (λ now s item, match item with Some (Ok _) => k now s | _ => false end).
Definition max_speed_yields_immediately : bool :=
  let s := PacedSource.paced (IteratorSource.new [msg 1; msg 2; msg 3]) MaxSpeed in
  expect_some (collect 10 s) (λ '(_, collected), assert_eq (length collected) 3%nat && all_ok collected).
(** [while let Some(item) = s.next().await]. *)
Fixpoint count_items (fuel : nat) (got now : Z) (s : PacedSource.t IteratorSource.t) (k : Z → Z → bool)
    : bool :=
  match fuel with
  | O => false
  | S fuel =>
      next now s (λ now s item,
        match item with
        | Some item => is_ok item && count_items fuel (got + 1) now s k
        | None => k got now
        end)
  end.
Definition fixed_pacing_emits_one_per_period : bool :=
  let inner := IteratorSource.new [msg 0; msg 0; msg 0; msg 0] in
  count_items 10 0 0 (PacedSource.paced inner (Fixed (ms 100))) (λ got elapsed,
    assert_eq got 4 && (ms 300 <=? elapsed)).
Definition realtime_honors_inter_message_gap : bool :=
  let inner := IteratorSource.new [msg 0; msg 50000000; msg 150000000] in
  next_ok 0 (PacedSource.paced inner Realtime) (λ after_first s,
    (after_first <? ms 5)
    && next_ok after_first s (λ after_second s,
         (ms 50 <=? after_second)
         && next_ok after_second s (λ after_third s,
              (ms 150 <=? after_third) && next after_third s (λ _ _ item, is_none item)))).
Definition realtime_out_of_order_emits_without_delay : bool :=
  let inner := IteratorSource.new [msg 1000000; msg 500000] in
  next_ok 0 (PacedSource.paced inner Realtime) (λ now s, next_ok now s (λ elapsed _, elapsed <? ms 50)).
End PacedTests.

(** ** [synthetic.rs] *)

Module SyntheticTests.
Definition variant_of (m : Message.t) : string :=
  match m with
  | Message.SystemEvent _ => "SystemEvent" | Message.StockDirectory _ => "StockDirectory"
  | Message.StockTradingAction _ => "StockTradingAction" | Message.RegShoRestriction _ => "RegShoRestriction"
  | Message.MarketParticipantPosition _ => "MarketParticipantPosition"
  | Message.MwcbDeclineLevel _ => "MwcbDeclineLevel" | Message.MwcbStatus _ => "MwcbStatus"
  | Message.IpoQuotingPeriodUpdate _ => "IpoQuotingPeriodUpdate" | Message.AddOrder _ => "AddOrder"
  | Message.AddOrderWithMpid _ => "AddOrderWithMpid" | Message.OrderExecuted _ => "OrderExecuted"
  | Message.OrderExecutedWithPrice _ => "OrderExecutedWithPrice" | Message.OrderCancel _ => "OrderCancel"
  | Message.OrderDelete _ => "OrderDelete" | Message.OrderReplace _ => "OrderReplace"
  | Message.TradeNonCross _ => "TradeNonCross" | Message.CrossTrade _ => "CrossTrade"
  | Message.BrokenTrade _ => "BrokenTrade" | Message.Noii _ => "Noii"
  | Message.RetailPriceImprovement _ => "RetailPriceImprovement"
  end.
Definition canonical_session_covers_every_message_variant : bool :=
  let seen : gset string := list_to_set (map variant_of canonical_session) in
  let expected :=
    ["SystemEvent"; "StockDirectory"; "StockTradingAction"; "RegShoRestriction"; "MarketParticipantPosition";
     "MwcbDeclineLevel"; "MwcbStatus"; "IpoQuotingPeriodUpdate"; "AddOrder"; "AddOrderWithMpid";
     "OrderExecuted"; "OrderExecutedWithPrice"; "OrderCancel"; "OrderDelete"; "OrderReplace";
     "TradeNonCross"; "CrossTrade"; "BrokenTrade"; "Noii"; "RetailPriceImprovement"]%string in
  forallb (λ variant, bool_decide (variant ∈ seen)) expected && assert_eq (size seen) (length expected).
Definition canonical_session_roundtrip : bool :=
  forallb (λ msg,
    let '(buf, r) := Message_encode msg (replicate (Message.encoded_len msg) 0) in
    is_ok r && expect (Message_decode buf) (λ decoded, assert_eq decoded msg)) canonical_session.
End SyntheticTests.

(** ** [itch-replay/src/lib.rs] *)

Module ReplayTests.
Definition encode_raw (msg : Message.t) (k : list Z → bool) : bool :=
  let '(buf, r) := Message_encode msg (replicate (Message.encoded_len msg) 0) in is_ok r && k buf.
Definition encode_and_write_glimpse (msg : Message.t) (k : list Z → bool) : bool :=
  encode_raw msg (λ buf, k (to_be_bytes 2 (Z.of_nat (length buf)) ++ buf)).
(** The fields that the tests leave to [StockDirectory::default()] keep its values. *)
Definition directory : Message.t :=
  let d := StockDirectory.default in
  Message.StockDirectory (StockDirectory.mk
    (Header.mk (StockLocate.from_u16 1) (TrackingNumber.from_u16 1) (Timestamp.from_u64 1000))
    (Stock.new (text "AAPL")) MarketCategory.NasdaqGlobalSelect FinancialStatus.Normal
    (Shares.from_u32 100) YesNo.No b@"D" (text "Z ") Authenticity.Live
    (StockDirectory.short_sale_threshold d) (StockDirectory.ipo_flag d) (StockDirectory.luld_reference_price_tier d)
    (StockDirectory.etp_flag d) (StockDirectory.etp_leverage_factor d) (StockDirectory.inverse_indicator d)).
(** The items of the iterator are all messages, as many as [n]. *)
Definition collects (data : list Z) (format : CaptureFormat) (n : nat) : bool :=
  let '(_, decoded) := Replay.collect 10 (MessageIterator.new [Ok data] format) in
  forallb is_ok decoded && assert_eq (length decoded) n.
Definition test_glimpse_format_round_trip : bool :=
  encode_and_write_glimpse directory (λ data, collects data Glimpse 1).
Definition test_raw_bodies_format_round_trip : bool :=
  encode_raw directory (λ data, collects data RawBodies 1).
Definition test_truncated_glimpse : bool :=
  match MessageIterator.next (MessageIterator.new [Ok [0x00; 0x10]] Glimpse) with
  | (_, Some (Err (ReplayError.Truncated offset _))) => assert_eq offset 2
  | _ => false
  end.
Definition test_frame_too_large : bool :=
  match MessageIterator.next (MessageIterator.new [Ok [0xFF; 0xFF]] Glimpse) with
  | (_, Some (Err (ReplayError.FrameTooLarge _ got max))) => assert_eq got 65535 && assert_eq max 1024
  | _ => false
  end.
End ReplayTests.

(** ** [itch-source-kafka/src/lib.rs], [itch-source-postgres/src/lib.rs] *)

Module KafkaTests.
Definition auto_offset_reset_renders_to_rdkafka_strings : bool :=
  assert_eq (Kafka.as_str Kafka.Earliest) "earliest"%string
  && assert_eq (Kafka.as_str Kafka.Latest) "latest"%string.
Definition refuses (brokers group_id topic reason : string) : bool :=
  let cfg := Kafka.Config.mk brokers group_id topic Kafka.Latest [] in
  match Kafka.connect (C := Backlog.t) cfg with
  | Err (Kafka.BadConfig r) => assert_eq r reason
  | _ => false
  end.
Definition connect_rejects_empty_brokers : bool := refuses "" "g" "t" "brokers must not be empty".
Definition connect_rejects_empty_group_id : bool :=
  refuses "127.0.0.1:9092" "" "t" "group_id must not be empty".
Definition connect_rejects_empty_topic : bool := refuses "127.0.0.1:9092" "g" "" "topic must not be empty".
End KafkaTests.

Module PostgresTests.
Definition accepts (name : list Z) : bool := is_ok (Postgres.validate_identifier (Er := unit) name).
Definition validate_identifier_accepts_simple_names : bool :=
  forallb accepts [text "itch_messages"; text "ItchMessages"; text "_table"; text "a1_b2"; text "a"].
Definition validate_identifier_rejects_unsafe_input : bool :=
  forallb (λ name, negb (accepts name))
    [[]; text "1table"; text "table; DROP TABLE x"; text "ta-ble"; text "ta ble";
     [34] ++ text "quoted" ++ [34]; text "caf" ++ [0xC3; 0xA9]].
Definition seq_to_i64_within_range : bool :=
  forallb (λ n, assert_eq (Postgres.seq_to_i64 n) (Some n)) [0; 1; i64_max].
Definition seq_to_i64_rejects_overflow : bool :=
  forallb (λ n, is_none (Postgres.seq_to_i64 n)) [i64_max + 1; u64_max].
End PostgresTests.

(** ** [itch-compressed/src/lib.rs] *)

Module CompressedTests.
Definition sample_message (ts : Z) : Message.t :=
  Message.SystemEvent (SystemEvent.mk
    (Header.mk (StockLocate.from_u16 0) (TrackingNumber.from_u16 0) (Timestamp.from_u64 ts))
    EventCode.StartOfSystemHours).
Definition compressed (inputs : list Message.t) (level : Z) (k : list Z → bool) : bool :=
  expect (compress_messages stored_encode inputs level) k.
Definition decompressed (bytes : list Z) (k : list Message.t → bool) : bool :=
  expect (decompress_messages stored_decode bytes) k.
Definition is_compression (e : CompressedError.t) : bool :=
  match e with CompressedError.Compression _ => true | _ => false end.

Definition test_happy_path_100_compressed_messages_roundtrip : bool :=
  let inputs := map sample_message (seqZ 0 100) in
  compressed inputs 0 (λ z, decompressed z (λ out, assert_eq (length out) 100%nat && assert_eq out inputs)).
Definition test_boundary_five_messages_in_one_compressed_payload : bool :=
  compressed (map (λ i, sample_message (i + 100)) (seqZ 0 5)) 3 (λ z,
    decompressed z (λ out, assert_eq (length out) 5%nat)).
Definition test_corrupted_compressed_frame_returns_compression_error : bool :=
  let corrupted := [0xDE; 0xAD; 0xBE; 0xEF; 0xCA; 0xFE; 0xBA; 0xBE] in
  expect_err (decompress_messages stored_decode corrupted) (λ err,
    match err with
    | CompressedError.Compression reason => ConnectionTests.contains (text reason) (text "zstd")
    | _ => false
    end).
Definition test_corrupted_then_valid_frame_recovers : bool :=
  compressed [sample_message 7] 0 (λ valid,
    expect_err (decompress_messages stored_decode [0x00; 0x01; 0x02; 0x03]) is_compression
    && decompressed valid (λ recovered, assert_eq (length recovered) 1%nat)).
Definition test_bad_itch_inside_compressed_payload_returns_protocol_error : bool :=
  expect (stored_encode (text "!") 0) (λ z,
    expect_err (decompress_messages stored_decode z) (λ err,
      match err with CompressedError.Protocol _ => true | _ => false end)).
Definition test_oversized_decompressed_frame_rejected : bool :=
  expect (stored_encode (replicate (MAX_DECOMPRESSED_LEN + 1024) 0) 0) (λ z,
    expect_err (decompress_messages stored_decode z) (λ err,
      match err with
      | CompressedError.Compression reason =>
          ConnectionTests.contains (text reason) (text "MAX_DECOMPRESSED_LEN")
          || ConnectionTests.contains (text reason) (text "zstd")
      | _ => false
      end)).
Definition test_empty_payload_yields_zero_messages : bool :=
  compressed [] 0 (λ z, decompressed z (λ out, assert_eq out [])).
Definition test_multiple_compression_levels_roundtrip : bool :=
  let inputs := map sample_message (seqZ 0 3) in
  forallb (λ level, compressed inputs level (λ z, decompressed z (λ out, assert_eq (length out) 3%nat)))
    [0; 1; 3; 9; 19; 22].
Definition test_decompress_into_reports_exact_byte_count : bool :=
  let inputs := map sample_message (seqZ 0 3) in
  compressed inputs 0 (λ z,
    let '(scratch, r) := decompress_into stored_decode z in
    expect r (λ n, assert_eq n (length scratch)
      && assert_eq (length scratch) (sum_list_with Message.encoded_len inputs))).
End CompressedTests.

(** ** [itch-client/src/main.rs], [itch-server/src/main.rs] *)

Module ClientTests.
Import Client.
Definition fmt_add_order_matches_readme_shape : bool :=
  let m := Message.AddOrder (AddOrder.mk
    (Header.mk (StockLocate.from_u16 1) (TrackingNumber.from_u16 0) (Timestamp.from_u64 32400005000000))
    (OrderReference.from_u64 1001) Side.Buy (Shares.from_u32 500) (Stock.new (text "AAPL"))
    (Price4.from_u32 1925000)) in
  let line := fmt_message m in
  forallb (λ s, ConnectionTests.contains line (text s))
    ["add_order"; "ref=1001"; "Buy"; "500"; "AAPL"; "@ 192.5000"]%string.
Definition fmt_price4_renders_four_decimal_digits : bool :=
  assert_eq (fmt_price4 1925000) (text "192.5000") && assert_eq (fmt_price4 0) (text "0.0000")
  && assert_eq (fmt_price4 1) (text "0.0001") && assert_eq (fmt_price4 10000) (text "1.0000").
Definition fmt_side_strings : bool :=
  assert_eq (fmt_side Side.Buy) (text "Buy") && assert_eq (fmt_side Side.Sell) (text "Sell").
Definition default_transport_is_tcp : bool :=
  match Args.transport Args.default with Tcp => true | _ => false end.
Definition mold_transport_returns_failure_exit_code : bool := assert_eq mold_not_available_code 1.
End ClientTests.

(** Of an I/O error the model has the kind, not the text. *)
Module ServerMainTests.
Import ServerMain.
Definition default_transport_is_tcp : bool :=
  match Args.transport Args.default with Tcp => true | _ => false end.
Definition mold_transport_returns_unsupported_error : bool :=
  let args := Args.mk (Some (text "127.0.0.1:0")) Mold Iterator None 1024 in
  expect_err (run demo_parse demo_listen args None) (λ kind, assert_eq kind "Unsupported"%string).
End ServerMainTests.

(** ** The tests pass *)

Lemma ring_store_tests_pass :
  passes [RingStoreTests.ring_buffer_satisfies_contract;
    RingStoreTests.capacity_zero_clamped_to_one;
    RingStoreTests.overflow_drops_oldest_and_advances_earliest;
    RingStoreTests.out_of_order_inserts_track_min_max_correctly;
    RingStoreTests.idempotent_restore_same_message;
    RingStoreTests.restore_different_message_errors; RingStoreTests.range_stops_at_gap;
    RingStoreTests.concurrent_store_and_range_no_panic;
    RingStoreTests.latest_never_moves_backwards_under_out_of_order_inserts].
Proof. run_tests. Qed.

Lemma null_store_tests_pass :
  passes [NullStoreTests.null_seq_store_satisfies_contract].
Proof. run_tests. Qed.

Lemma policy_tests_pass :
  passes [PolicyTests.empty_policy_returns_empty; PolicyTests.new_policy_returns_messages;
    PolicyTests.concurrent_warmup_calls].
Proof. run_tests. Qed.

Lemma channel_tests_pass :
  passes [ChannelTests.bounded_drains_then_returns_none_when_sender_drops;
    ChannelTests.bounded_capacity_enforced;
    ChannelTests.unbounded_drains_then_returns_none_when_sender_drops].
Proof. run_tests. Qed.

Lemma iterator_tests_pass :
  passes [IteratorTests.iterator_source_yields_then_returns_none;
    IteratorTests.iterator_source_from_vec; IteratorTests.iterator_source_from_canonical_session].
Proof. run_tests. Qed.

Lemma paced_tests_pass :
  passes [PacedTests.max_speed_yields_immediately; PacedTests.fixed_pacing_emits_one_per_period;
    PacedTests.realtime_honors_inter_message_gap;
    PacedTests.realtime_out_of_order_emits_without_delay].
Proof. run_tests. Qed.

Lemma synthetic_tests_pass :
  passes [SyntheticTests.canonical_session_covers_every_message_variant;
    SyntheticTests.canonical_session_roundtrip].
Proof. run_tests. Qed.

Lemma replay_tests_pass :
  passes [ReplayTests.test_glimpse_format_round_trip;
    ReplayTests.test_raw_bodies_format_round_trip; ReplayTests.test_truncated_glimpse;
    ReplayTests.test_frame_too_large].
Proof. run_tests. Qed.

Lemma kafka_tests_pass :
  passes [KafkaTests.auto_offset_reset_renders_to_rdkafka_strings;
    KafkaTests.connect_rejects_empty_brokers; KafkaTests.connect_rejects_empty_group_id;
    KafkaTests.connect_rejects_empty_topic].
Proof. run_tests. Qed.

Lemma postgres_tests_pass :
  passes [PostgresTests.validate_identifier_accepts_simple_names;
    PostgresTests.validate_identifier_rejects_unsafe_input; PostgresTests.seq_to_i64_within_range;
    PostgresTests.seq_to_i64_rejects_overflow].
Proof. run_tests. Qed.

Lemma compressed_tests_pass :
  passes [CompressedTests.test_happy_path_100_compressed_messages_roundtrip;
    CompressedTests.test_boundary_five_messages_in_one_compressed_payload;
    CompressedTests.test_corrupted_compressed_frame_returns_compression_error;
    CompressedTests.test_corrupted_then_valid_frame_recovers;
    CompressedTests.test_bad_itch_inside_compressed_payload_returns_protocol_error;
    CompressedTests.test_oversized_decompressed_frame_rejected;
    CompressedTests.test_empty_payload_yields_zero_messages;
    CompressedTests.test_multiple_compression_levels_roundtrip;
    CompressedTests.test_decompress_into_reports_exact_byte_count].
Proof. run_tests. Qed.

Lemma client_tests_pass :
  passes [ClientTests.fmt_add_order_matches_readme_shape;
    ClientTests.fmt_price4_renders_four_decimal_digits; ClientTests.fmt_side_strings;
    ClientTests.default_transport_is_tcp; ClientTests.mold_transport_returns_failure_exit_code].
Proof. run_tests. Qed.

Lemma server_main_tests_pass :
  passes [ServerMainTests.default_transport_is_tcp;
    ServerMainTests.mold_transport_returns_unsupported_error].
Proof. run_tests. Qed.
